(* ===== verification/_CoqProject ===== *)
-Q . S2P
Prelude.v
Identity.v
Enums.v
Lifecycle.v
Accounting.v
Records.v
Selection.v
Fabric.v
Synthetic.v
SelectionProps.v
Ledger.v
LedgerRefinement.v
Reservations.v
Invariants.v
CapacitySafety.v
ReservationProps.v
Fencing.v
Generations.v
Registry.v
Crc.v
Protocol.v
Readers.v
Codec.v
Decoding.v
Failover.v
Net.v
Sockets.v
Persistence.v
Storage.v
Recovery.v
Args.v
Coordinator.v
Worker.v
Interleaving.v
WorkerDeath.v
Locks.v
Process.v
Durability.v
Crash.v
Link.v
Session.v
Restart.v
Wire.v
Discovery.v
Cli.v
CliProps.v
Cycles.v
Examples.v
