(* ===== verification/Prelude.v ===== *)
(** * CXL Fabric: a verification development

    CXL Fabric is a governance runtime for CXL memory capacity, written in C++. A central
    engine keeps registries of devices, regions and pools, decides where a request for
    capacity may be placed, and accounts for what it has promised; a control plane of
    framed messages lets worker processes publish devices and reserve, commit and
    release capacity through a coordinator process; the structural part of the state is
    persisted and restored after a restart; a command line tool runs the engine on a
    synthetic topology. This development models the engine, the data it is made of, the
    wire protocol, the transport, the payloads of the control plane, the persisted format
    with its files, the coordinator with its threads, the worker, the discovery backends
    and the command line tool, and proves what makes them correct.

    ** The parts of the program and the files that model them

    Source paths are relative to [include/cxl_fabric/] and [src/].

    - [Prelude]: 64-bit arithmetic with its wrap-around, ordered iteration of a
      [std::map], sums over maps, [std::stable_sort], tactics and hints.
    - [Identity] models [core/identity.hpp]: typed identities and generations.
    - [Enums] models [core/enums.hpp] and [core/enum_strings.hpp]: each enumeration has
      the source's enumerators and a [_raw] constructor for the other values its
      underlying integer can hold; the class [CxxEnum] states what the conversions
      promise.
    - [Lifecycle] models [core/lifecycle.hpp]: the three transition tables.
    - [Accounting] models [core/accounting.hpp]: checked arithmetic, the capacity line.
    - [Records] models the structs of [core/capability.hpp], [economics.hpp],
      [device.hpp], [region.hpp], [pool.hpp], [reservation.hpp] and [authority.hpp].
    - [Selection] models [core/selection.hpp]: the hard constraints on a candidate.
    - [Fabric] models [core/fabric.hpp] and [core/fabric.cpp], the engine: its state is
      the record [Fabric], each public operation a function from a state to an answer
      and a state, and [step] the effect of any call. Every operation of the source holds
      the mutation lock for its whole body, so a run is a sequence of such steps.
    - [Synthetic] models [backend/synthetic.hpp] and the set-up of the CLI; its concrete
      topology is the input of most witnesses.
    - [Crc] and [Protocol] model [protocol/protocol.hpp] and [core/protocol.cpp]: the
      checksum, frames and the packing helpers.
    - [Readers] and [Codec] model [control/codec.hpp]: a monad of bounded readers over a
      buffer, in which a read outside the buffer is an outcome of its own, and the
      payloads of the control plane, whose layouts are lists of fields.
    - [Persistence] models [persistence/persistence.hpp] and the serialisation of
      [core/persistence.cpp]; [Storage] models its file part: the envelope, and the
      replacement of a file as steps over a small file system with failing calls.
    - [Net] models the loops of [control/net.hpp] over [::send] and [::recv], whose
      answers are input, and the framing on top of them; [Sockets] its operations on
      sockets, over the set of open descriptors.
    - [Args] models the argument loops of the three programs and [std::stoull].
    - [Coordinator] models [multiprocess/coordinator_main.cpp]: what a thread does between
      two frames is a program of calls and effects ([Prog]), [run_prog] runs one alone,
      and [coord_exec] interleaves the threads of all connections step by step, with the
      table of workers and its lock. [Recovery] models its constructor and [persist_now].
    - [Process] models the coordinator as a process with files: the system calls of every
      save ([persist_now]) and of the state file, in whichever thread makes them, one by
      one between the steps of the other threads ([sys_exec]); and [main]
      ([coordinator_main]), from the command line to the exit code.
    - [Worker] models [multiprocess/worker_main.cpp] as a program that sends, receives and
      prints ([WProg]).
    - [Discovery] models [backend/backend.hpp] and the three backends of [src/backend]: a
      class with three instances, the answers of the operating system as parameters.
    - [Cli] models [cli/cxl_fabric_cli.cpp]: the text and the exit code of every command.
    - [Link] puts a worker and the coordinator at the two ends of a connection that carries
      frames, [Wire] at those of one that carries bytes.
    - [Examples] models the nine programs of [examples] and the operations of
      [benchmarks/cxl_fabric_bench.cpp].

    The other files hold the specifications and the proofs: [SelectionProps]
    (placement), [Failover] (failover planning), [Ledger] (the abstract capacity ledger), [LedgerRefinement],
    [Reservations] and [Invariants] (the engine implements it), [CapacitySafety],
    [ReservationProps], [Fencing], [Generations] and [Registry] (what follows for every
    reachable state), [Cycles] (reserve, commit and release in a row), [Decoding] (what the
    decoders can produce), [Interleaving] (the coordinator under every schedule),
    [WorkerDeath] (a lost connection), [Locks] (the lock of the table of workers),
    [Durability] and [Crash] (what a stopped process leaves and the next one finds, and what
    saves of two threads do to each other),
    [Session] and [Restart] (a worker and the coordinator from end to end, before and
    after a restart) and [CliProps].

    ** What the theorems show

    - Capacity. [Ledger] is a specification of the accounts alone, over unbounded
      integers, with seven guarded events. Every one of the engine's 21 operations
      performs one of these events on the abstraction of its state
      ([fabric_refines_ledger]). Hence, as long as no member is removed and every pool
      that is created or imported covers what it comes with, no state oversubscribes a pool,
      the books are exact, the audit passes, and 64-bit sums never wrap ([op_covering]).
      What a coordinator does meets the condition, restarts included.
    - Reservations. What reserve, commit and release do on every branch, that a
      reservation lives once, that the conflict path of release is unreachable, and that
      a granted request can be committed and released, after which every account is what
      it was ([cycle_restores]), for any number of turns of the benchmark
      ([benchmark_exact]).
    - Fencing. A stale epoch changes nothing; refusals change nothing; generations never
      go back; what is bound to an old generation can never be committed again, nor its name be given
      to another reservation by the same engine.
    - Placement. Selection is sound and complete, and what it returns is beaten by nothing
      in locality, latency, bandwidth, free capacity and name, in this order; failover
      planning prefers a device not known to be in the failure domain recorded for the
      failed one exactly when it can; the comparator is a strict weak order.
    - Registries and restart. A device is governed by one pool; after an import nothing
      is trusted until it is revalidated.
    - Wire protocol. The frame codec is a bijection; corruption within four consecutive
      bytes is always detected; the CRC is the one of its polynomial.
    - Control payloads. Everything that fits in a frame round-trips, and appended bytes
      are refused; whatever is accepted has every field, name and count in range.
    - Persistence. A snapshot restores the durable part of the state; damage within four
      consecutive bytes and appended bytes are refused; a file is replaced atomically,
      wherever the writer stops; a boot from a saved file yields a reachable engine.
    - Transport. Frames arrive as they were sent however their bytes are cut; the loops
      end within one system call per byte; a receiver agrees with a reference decoder; no
      path of opening a socket loses a descriptor.
    - Processes. Every run of the coordinator, whatever the interleaving, is a sequence of
      operations of the engine under its current epoch, so that all guarantees above hold
      of it ([coordinator_refines_engine]); the loss of a worker withdraws its evidence
      under every schedule, and nothing else ([worker_death_fences]); the lock of its table of workers is
      always given back ([lock_always_released]);
      what a worker prints is what the engine decided; a bad request has no effect; a
      whole session, from the worker's arguments to its exit, does what was asked, over a
      network that cuts the bytes anywhere ([session_over_any_network]).
    - Crashes. If no two saves overlap, a process stopped at any point leaves the last
      state it announced, and the next one boots from exactly that ([crash_recovers]);
      over any number of such lives no pool is oversubscribed
      ([guarantees_in_every_life], by way of the interface [Lasting] for the conditions
      that a life keeps).
    - Tools. Discovery invents no device; [explain] names the right region; every example
      passes.
    - Data. Enumerations round-trip, checked arithmetic is exact, capacity lines and
      lifecycles do what is documented.
    - Broken promises. Where the code does not do what it means to, a theorem shows it:
      removing a member can oversubscribe a pool, so can creating one with more in use than
      it has ([unbacked_pool_accepted]) or publishing one whose sizes do not add up in 64
      bits ([oversized_pool_accepted]), a commit passes under any consumer generation and
      device boot ([stale_consumer_and_device_boot_commit]), failover never recognises the
      domain of a published device ([published_never_degraded]), a restart leaks outstanding bytes and
      revives dead devices, [fence_drain] breaks its line, the readers of the
      packing helpers and of strings go outside a buffer that is shorter than the field,
      two unlocked saves can lose the snapshot, a clean shutdown can leave it empty, an
      older state can replace a newer one on disk whenever two connections are at work
      ([older_save_wins]), a pool with too many failure domains
      makes a snapshot that cannot be read back, a request that does not fit in a frame is
      taken for the worker's death, two workers with one boot identity have the wrong
      devices fenced, an empty boot identity commits for anybody, and what a worker
      reserved before a restart is withheld from the one that comes after it.

    ** Modelling choices and bounds

    A [std::map] is a [gmap] iterated in key order; a [std::uint64_t] is a [Z] with
    [u64] applied to the result of an operation that may wrap; a byte is a [Z]; a pointer
    that may be null is an option; a [double] is a rational. A call that answers with a
    reason returns it; a call that returns a struct returns the record.

    The theorems about reachable states assume of the callers what the engine does not
    check ([op_wf]): byte counts are not negative, the members of one pool together have
    at most 2^63 - 1 bytes ([CAPACITY_BOUND], 8 EiB; half the 64-bit range, which is what
    keeps the four-term sums of the code from wrapping), an imported state is one that
    was exported (keys are the identities of the records, totals those of the members),
    and fewer than 2^64 reservations are made in the life of a process. The condition on
    an import is met by what the engine exports and the persisted format restores
    ([exported_ok], [kept_ok] in [Recovery]). Of the frames a coordinator receives only
    the bound on the members of a pool is assumed ([frame_sane]), and that a run has fewer
    than 2^64 steps. Buffers have at most 2^64 - 1 bytes. All recursion is structural but
    for the loops of [Net], which take a bound on the number of system calls; running out
    of it is an outcome of its own, and one call per byte of a frame ([frame_calls], 16
    bytes of header and 64 KiB of payload) is proved to be enough.

    A call that writes may take any portion of its bytes or fail. What is recovered after
    a crash is stated for runs in which a save ends before the next one starts ([solo_run]);
    nothing in the source ensures this, and the theorems on broken promises show what
    happens otherwise. The text of the state file is taken at the moment it is opened, and
    a send to a peer that has hung up succeeds, as it does until the kernel has noticed.

    ** What is not modelled

    What the processes write to their consoles besides the results of the worker and of
    the command line tool is not modelled, and of [control/net.hpp] only the POSIX branch
    is. Of files, what the kernel loses in a power failure is not modelled, and of the two
    branches of the rename the POSIX one is. Calls of the engine are atomic, as its lock
    makes them; accesses of two coordinator threads to the same worker state, which the
    source does not protect, are atomic in the model although they are a data race in C++.
    The [std::hash] specialisations and the clock of the benchmark are left out. *)
From Stdlib Require Export ZArith Lia.
From stdpp Require Export base tactics numbers list strings gmap fin_maps sorting pretty.

#[global] Open Scope Z_scope.

(** ** Machine integers

    [std::uint64_t] and [std::uint32_t] are kept as [Z] with the wrap-around
    written out: [u64] and [u32] are the conversions the language applies to the
    result of an unsigned operation. *)

Definition UINT64_MAX : Z := 2 ^ 64 - 1.
Definition u64 (x : Z) : Z := x mod 2 ^ 64.
Definition u32 (x : Z) : Z := x mod 2 ^ 32.
Definition u16 (x : Z) : Z := x mod 2 ^ 16.
Definition u8 (x : Z) : Z := x mod 2 ^ 8.

Definition in_u64 (x : Z) : Prop := 0 <= x <= UINT64_MAX.
Definition in_u32 (x : Z) : Prop := 0 <= x < 2 ^ 32.

#[global] Instance in_u64_dec x : Decision (in_u64 x).
Proof. unfold in_u64. apply _. Defined.
#[global] Instance in_u32_dec x : Decision (in_u32 x).
Proof. unfold in_u32. apply _. Defined.

(** Unsigned 64-bit addition and subtraction, as [+] and [-] of the source. *)
Definition add64 (a b : Z) : Z := u64 (a + b).
Definition sub64 (a b : Z) : Z := u64 (a - b).

Lemma u64_small x : in_u64 x -> u64 x = x.
Proof. unfold in_u64, UINT64_MAX, u64. intros. apply Z.mod_small. lia. Qed.

Lemma u64_range x : in_u64 (u64 x).
Proof.
  unfold in_u64, UINT64_MAX, u64.
  pose proof (Z.mod_pos_bound x (2 ^ 64) ltac:(lia)). lia.
Qed.

Lemma add64_small a b : 0 <= a -> 0 <= b -> a + b <= UINT64_MAX -> add64 a b = a + b.
Proof. intros. apply u64_small. unfold in_u64. lia. Qed.

Lemma sub64_small a b : 0 <= b <= a -> a <= UINT64_MAX -> sub64 a b = a - b.
Proof. intros. apply u64_small. unfold in_u64. lia. Qed.

Lemma u32_small x : in_u32 x -> u32 x = x.
Proof. unfold in_u32, u32. intros. by apply Z.mod_small. Qed.

Lemma u32_range x : in_u32 (u32 x).
Proof. unfold in_u32, u32. apply Z.mod_pos_bound. lia. Qed.

(** ** Proof automation *)

Create HintDb fabric.
#[export] Hint Resolve u64_range u32_range : fabric.

(** [case_if H] splits the first conditional of the goal; [simp_if] rewrites
    with a boolean test already decided in the context. *)
Ltac case_test :=
  match goal with
  | |- context [if ?b then _ else _] => let E := fresh "E" in destruct b eqn:E
  end.

Ltac case_test_in H :=
  match type of H with
  | context [if ?b then _ else _] => let E := fresh "E" in destruct b eqn:E
  | context [match ?o with Some _ => _ | None => _ end] =>
      let E := fresh "E" in destruct o eqn:E
  end.

(** Splits every test of a guarded handler in a hypothesis, discarding the
    branches whose result contradicts it. *)
Ltac split_guards H := repeat (case_test_in H; try (simplify_eq/=; done)).

(** ** Ordered iteration

    [std::map] iterates in key order. The model keeps a map as a [gmap] (for its
    lookup and update lemmas) and iterates over [map_iter], the bindings sorted
    by key. *)

Class KeyOrder (K : Type) := {
  key_le : relation K;
  key_le_dec :: RelDecision key_le;
  key_le_trans :: Transitive key_le;
  key_le_antisym :: AntiSymm (=) key_le;
  key_le_total :: Total key_le;
}.

#[export] Instance Z_key_order : KeyOrder Z := {| key_le := Z.le |}.

#[export] Program Instance string_key_order : KeyOrder string := {| key_le := String.le |}.

Definition binding_le {K V} `{KeyOrder K} : relation (K * V) :=
  fun x y => key_le x.1 y.1.

#[export] Instance binding_le_dec {K V} `{KeyOrder K} : RelDecision (@binding_le K V _).
Proof. intros x y. unfold binding_le. apply _. Defined.
#[export] Instance binding_le_trans {K V} `{KeyOrder K} : Transitive (@binding_le K V _).
Proof. intros x y z. unfold binding_le. apply transitivity. Qed.
#[export] Instance binding_le_total {K V} `{KeyOrder K} : Total (@binding_le K V _).
Proof. intros x y. unfold binding_le. apply total, _. Qed.

Definition map_iter {K V} `{Countable K, !KeyOrder K} (m : gmap K V) : list (K * V) :=
  merge_sort binding_le (map_to_list m).

Section map_iter.
Context {K V : Type} `{Countable K, !KeyOrder K}.
Implicit Types (m : gmap K V) (l : list (K * V)).

Lemma map_iter_perm m : map_iter m ≡ₚ map_to_list m.
Proof. apply merge_sort_Permutation. Qed.

Lemma elem_of_map_iter m k v : (k, v) ∈ map_iter m ↔ m !! k = Some v.
Proof. rewrite map_iter_perm. apply elem_of_map_to_list. Qed.

Lemma map_iter_sorted m : StronglySorted binding_le (map_iter m).
Proof. apply (StronglySorted_merge_sort _). Qed.

Lemma map_iter_NoDup m : NoDup (map_iter m).*1.
Proof. rewrite map_iter_perm. apply NoDup_fst_map_to_list. Qed.

Lemma list_to_map_iter m : list_to_map (map_iter m) = m.
Proof.
  rewrite <- (list_to_map_to_list m) at 2.
  apply list_to_map_proper; [apply map_iter_NoDup | apply map_iter_perm].
Qed.

Lemma map_iter_empty : map_iter (∅ : gmap K V) = [].
Proof. unfold map_iter. by rewrite map_to_list_empty. Qed.

Lemma length_map_iter m : length (map_iter m) = size m.
Proof. rewrite map_iter_perm. apply length_map_to_list. Qed.

(** A key-sorted list without duplicate keys is the iteration of its own map. *)
Lemma map_iter_list_to_map l :
  NoDup l.*1 -> StronglySorted binding_le l -> map_iter (list_to_map l : gmap K V) = l.
Proof.
  intros Hnd Hs.
  assert (Hp : map_iter (list_to_map l : gmap K V) ≡ₚ l).
  { rewrite map_iter_perm. by apply map_to_list_to_map. }
  apply (StronglySorted_unique_strong binding_le); [| apply map_iter_sorted | done | done].
  intros [k1 v1] [k2 v2] Hin1 Hin2 Hle1 Hle2. unfold binding_le in *; simpl in *.
  assert (k1 = k2) as -> by by apply (anti_symm key_le).
  rewrite Hp in Hin1.
  apply (elem_of_list_to_map_1 (M := gmap K)) in Hin1, Hin2; [congruence | done..].
Qed.

(** Replacing the value of a key replaces it in place in the iteration. *)
Definition replace_at (k : K) (v : V) (kv : K * V) : K * V :=
  if decide (kv.1 = k) then (k, v) else kv.

Lemma replace_at_fst k v kv : (replace_at k v kv).1 = kv.1.
Proof. unfold replace_at. by case_decide. Qed.

Lemma map_iter_replace m k v v' :
  m !! k = Some v -> map_iter (<[k := v']> m) = replace_at k v' <$> map_iter m.
Proof.
  intros Hk. set (l := replace_at k v' <$> map_iter m).
  assert (Hfst : l.*1 = (map_iter m).*1).
  { unfold l. rewrite <- list_fmap_compose. apply list_fmap_ext. intros ? kv _.
    apply replace_at_fst. }
  assert (Hnd : NoDup l.*1) by (rewrite Hfst; apply map_iter_NoDup).
  rewrite <- (map_iter_list_to_map l); [|done|].
  - f_equal. apply map_eq. intros i. apply option_eq. intros x.
    rewrite <- (elem_of_list_to_map (M := gmap K) l i x Hnd). unfold l.
    rewrite list_elem_of_fmap. split.
    + intros [[<- <-] | [Hne Hi]]%lookup_insert_Some.
      * exists (k, v). rewrite elem_of_map_iter. unfold replace_at. by rewrite decide_True.
      * exists (i, x). rewrite elem_of_map_iter. unfold replace_at. by rewrite decide_False.
    + intros ([i' x'] & Heq & Hin). rewrite elem_of_map_iter in Hin.
      unfold replace_at in Heq. apply lookup_insert_Some. case_decide; simplify_eq/=; eauto.
  - unfold l. pose proof (map_iter_sorted m) as Hs. clear -Hs.
    induction Hs as [|kv l Hs IH Hall]; simpl; constructor; [done|].
    apply Forall_fmap. eapply Forall_impl; [exact Hall|]. intros kv' Hle.
    unfold binding_le in *. simpl. by rewrite !replace_at_fst.
Qed.

(** A fold that cannot tell the new value from the old one is unchanged. *)
Lemma foldl_map_iter_replace {A} (step : A -> V -> A) m k v v' a0 :
  m !! k = Some v -> (forall a, step a v' = step a v) ->
  foldl (fun a kv => step a kv.2) a0 (map_iter (<[k := v']> m))
  = foldl (fun a kv => step a kv.2) a0 (map_iter m).
Proof.
  intros Hk Heq. rewrite (map_iter_replace m k v v' Hk).
  assert (Hl : forall kv, kv ∈ map_iter m -> kv.1 = k -> kv.2 = v).
  { intros [k0 v0] Hin%elem_of_map_iter ?. simpl in *. congruence. }
  revert a0. induction (map_iter m) as [|kv l IH]; intros a0; simpl; [done|].
  rewrite IH by auto using list_elem_of_further.
  f_equal. unfold replace_at. case_decide as Ek; [|done]. simpl.
  rewrite Heq. f_equal. symmetry. apply Hl; [apply list_elem_of_here|done].
Qed.

(** [for (kv : m) copy[key(kv.second)] = kv.second;] rebuilds the map. *)
Lemma foldl_insert_pairs l m :
  NoDup l.*1 -> foldl (fun m kv => <[kv.1 := kv.2]> m) m l = list_to_map l ∪ m.
Proof.
  revert m. induction l as [|[k v] l IH]; intros m Hnd; simpl; [by rewrite (left_id_L ∅ (∪))|].
  apply NoDup_cons in Hnd as [Hk Hnd]. rewrite IH by done.
  rewrite <- insert_union_l. symmetry. apply insert_union_r.
  by apply not_elem_of_list_to_map_1.
Qed.

End map_iter.

Lemma foldl_rebuild {K V W} `{Countable K, !KeyOrder K} (f : V -> W) (key : W -> K) (m : gmap K V) :
  map_Forall (fun k v => key (f v) = k) m ->
  foldl (fun m w => <[key w := w]> m) ∅ (f <$> (map_iter m).*2) = f <$> m.
Proof.
  intros Hkey. set (l := (fun kv => (kv.1, f kv.2)) <$> map_iter m).
  assert (Hl : foldl (fun m w => <[key w := w]> m) ∅ (f <$> (map_iter m).*2)
             = foldl (fun m kv => <[kv.1 := kv.2]> m) (∅ : gmap K W) l).
  { assert (Hk : Forall (fun kv => key (f kv.2) = kv.1) (map_iter m)).
    { apply Forall_forall. intros [k v] Hin%elem_of_map_iter. by apply Hkey. }
    unfold l. clear l. generalize (∅ : gmap K W). induction Hk as [|kv l Hkv _ IH]; intros m0;
      [done|]. cbn [fmap list_fmap foldl]. simpl. rewrite Hkv. apply IH. }
  rewrite Hl, foldl_insert_pairs.
  - rewrite (right_id_L ∅ (∪)). unfold l. rewrite <- (list_to_map_iter m) at 2.
    apply (list_to_map_fmap (M := gmap K) f).
  - unfold l. rewrite <- list_fmap_compose. apply map_iter_NoDup.
Qed.

(** ** Sums over lists *)

Definition lsum {A} (f : A -> Z) (l : list A) : Z := foldr (fun x acc => f x + acc) 0 l.

Lemma lsum_app {A} (f : A -> Z) l1 l2 : lsum f (l1 ++ l2) = lsum f l1 + lsum f l2.
Proof. induction l1; simpl; lia. Qed.

Lemma lsum_perm {A} (f : A -> Z) l1 l2 : l1 ≡ₚ l2 -> lsum f l1 = lsum f l2.
Proof. induction 1; simpl; lia. Qed.

Lemma lsum_nonneg {A} (f : A -> Z) l : Forall (fun x => 0 <= f x) l -> 0 <= lsum f l.
Proof. induction 1; simpl; lia. Qed.

Lemma lsum_mono {A} (f g : A -> Z) l :
  Forall (fun x => f x <= g x) l -> lsum f l <= lsum g l.
Proof. induction 1; simpl; lia. Qed.

#[export] Instance lsum_proper {A} (f : A -> Z) : Proper ((≡ₚ) ==> (=)) (lsum f).
Proof. intros l1 l2. apply lsum_perm. Qed.

(** ** Sums over the values of a map *)

Definition msum {K V} `{Countable K} (f : V -> Z) (m : gmap K V) : Z :=
  map_fold (fun _ v acc => f v + acc) 0 m.

Section msum.
Context {K V : Type} `{Countable K}.
Implicit Types (m : gmap K V) (f g : V -> Z).

Lemma msum_empty f : msum f (∅ : gmap K V) = 0.
Proof. apply map_fold_empty. Qed.

Lemma msum_insert_fresh f m k v : m !! k = None -> msum f (<[k := v]> m) = f v + msum f m.
Proof.
  intros. unfold msum. rewrite map_fold_insert_L; [done | | done]. intros. lia.
Qed.

Lemma msum_delete f m k v : m !! k = Some v -> msum f m = f v + msum f (delete k m).
Proof.
  intros Hk. rewrite <- msum_insert_fresh with (k := k) by apply lookup_delete_eq.
  by rewrite insert_delete_id.
Qed.

Lemma msum_insert f m k v v' :
  m !! k = Some v -> msum f (<[k := v']> m) = msum f m - f v + f v'.
Proof.
  intros Hk. rewrite (msum_delete f m k v Hk), <- insert_delete_eq.
  rewrite msum_insert_fresh by apply lookup_delete_eq. lia.
Qed.

Lemma msum_ext f g m :
  (forall k v, m !! k = Some v -> f v = g v) -> msum f m = msum g m.
Proof.
  induction m as [|k v m Hk IH] using map_ind; intros Hfg; [done|].
  rewrite !msum_insert_fresh by done.
  rewrite (Hfg k v) by apply lookup_insert_eq.
  rewrite IH; [done|]. intros k' v' Hk'. apply (Hfg k').
  rewrite lookup_insert_ne; congruence.
Qed.

Lemma msum_nonneg f m :
  (forall k v, m !! k = Some v -> 0 <= f v) -> 0 <= msum f m.
Proof.
  induction m as [|k v m Hk IH] using map_ind; intros Hf; [by rewrite msum_empty|].
  rewrite msum_insert_fresh by done.
  pose proof (Hf k v (lookup_insert_eq _ _ _)).
  enough (0 <= msum f m) by lia. apply IH. intros k' v' Hk'. apply (Hf k').
  rewrite lookup_insert_ne; congruence.
Qed.

Lemma msum_le_one f m k v :
  (forall k v, m !! k = Some v -> 0 <= f v) -> m !! k = Some v -> f v <= msum f m.
Proof.
  intros Hf Hk. rewrite (msum_delete f m k v Hk).
  enough (0 <= msum f (delete k m)) by lia.
  apply msum_nonneg. intros k' v' [_ Hk']%lookup_delete_Some. eauto.
Qed.

Lemma msum_mono f g m :
  (forall k v, m !! k = Some v -> f v <= g v) -> msum f m <= msum g m.
Proof.
  intros Hfg. enough (0 <= msum (fun v => g v - f v) m) as Hd.
  { assert (msum (fun v => g v - f v) m = msum g m - msum f m); [|lia].
    clear. induction m as [|k v m Hk IH] using map_ind; [by rewrite !msum_empty|].
    rewrite !msum_insert_fresh by done. lia. }
  apply msum_nonneg. intros k v Hk. specialize (Hfg k v Hk). lia.
Qed.

(** The sum does not depend on the order of iteration. *)
Lemma msum_iter `{!KeyOrder K} f m : lsum (fun kv => f kv.2) (map_iter m) = msum f m.
Proof.
  rewrite (lsum_perm _ _ _ (map_iter_perm m)). unfold msum, lsum.
  rewrite map_fold_foldr.
  induction (map_to_list m) as [|[k v] l IH]; simpl; [done | by rewrite IH].
Qed.
End msum.

Lemma msum_fmap {K V W} `{Countable K} (h : W -> V) (f : V -> Z) (m : gmap K W) :
  msum f (h <$> m) = msum (fun w => f (h w)) m.
Proof.
  induction m as [|k w m Hk IH] using map_ind; [by rewrite fmap_empty, !msum_empty|].
  rewrite fmap_insert, !msum_insert_fresh by (rewrite ?lookup_fmap, Hk; done). by rewrite IH.
Qed.

(** ** Stable sorting

    [std::stable_sort] with a strict weak ordering [lt] has exactly one result:
    the sorted permutation that keeps equivalent elements in their order.
    [stable_sort] computes it by insertion. *)

Section stable_sort.
Context {A : Type} (lt : A -> A -> bool).

Fixpoint stable_insert (x : A) (l : list A) : list A :=
  match l with
  | [] => [x]
  | y :: l' => if lt y x then y :: stable_insert x l' else x :: l
  end.

Definition stable_sort (l : list A) : list A := foldr stable_insert [] l.

(** The requirement the standard places on the comparator. *)
Class StrictWeakOrder : Prop := {
  swo_irrefl : forall x, lt x x = false;
  swo_trans : forall x y z, lt x y = true -> lt y z = true -> lt x z = true;
  swo_incomp : forall x y z, lt x y = false -> lt y z = false -> lt x z = false;
}.

Definition not_after : relation A := fun x y => lt y x = false.
Definition equivalent (x y : A) : bool := negb (lt x y) && negb (lt y x).

Lemma stable_insert_perm x l : stable_insert x l ≡ₚ x :: l.
Proof.
  induction l as [|y l IH]; simpl; [done|]. case_test; [|done].
  rewrite IH. apply perm_swap.
Qed.

Lemma stable_sort_perm l : stable_sort l ≡ₚ l.
Proof. induction l as [|x l IH]; simpl; [done|]. by rewrite stable_insert_perm, IH. Qed.

Context `{!StrictWeakOrder}.

Lemma swo_asym x y : lt x y = true -> lt y x = false.
Proof.
  intros Hxy. destruct (lt y x) eqn:E; [|done].
  rewrite <- (swo_irrefl x). symmetry. by apply (swo_trans x y x).
Qed.

Lemma stable_insert_sorted x l :
  StronglySorted not_after l -> StronglySorted not_after (stable_insert x l).
Proof.
  induction 1 as [|y l Hl IH Hy]; simpl; [repeat constructor|]. case_test.
  - constructor; [done|]. rewrite stable_insert_perm. constructor; [|done].
    by apply swo_asym.
  - constructor; [by constructor|]. constructor; [done|].
    eapply Forall_impl; [done|]. intros z Hz. unfold not_after in *.
    by apply (swo_incomp z y x).
Qed.

Lemma stable_sort_sorted l : StronglySorted not_after (stable_sort l).
Proof. induction l; simpl; [constructor | by apply stable_insert_sorted]. Qed.

(** The elements equivalent to any [z] keep their relative order. *)
Lemma stable_insert_filter z x l :
  StronglySorted not_after l ->
  List.filter (equivalent z) (stable_insert x l) = List.filter (equivalent z) (x :: l).
Proof.
  induction 1 as [|y l Hl IH Hy]; [done|]. cbn [stable_insert]. case_test; [|done].
  cbn [List.filter] in *. rewrite IH.
  destruct (equivalent z x) eqn:Ex, (equivalent z y) eqn:Ey; try done.
  unfold equivalent in *. apply andb_true_iff in Ex, Ey.
  destruct Ex as [Ezx%negb_true_iff Exz%negb_true_iff], Ey as [Ezy%negb_true_iff Eyz%negb_true_iff].
  by rewrite (swo_incomp y z x) in E.
Qed.

Lemma stable_sort_stable z l :
  List.filter (equivalent z) (stable_sort l) = List.filter (equivalent z) l.
Proof.
  induction l as [|x l IH]; [done|]. cbn [stable_sort foldr].
  rewrite stable_insert_filter by apply stable_sort_sorted.
  cbn [List.filter]. unfold stable_sort in IH. by rewrite IH.
Qed.

(** The head of the sorted list is a least element. *)
Lemma stable_sort_head l x l' :
  stable_sort l = x :: l' -> x ∈ l /\ (forall y, y ∈ l -> lt y x = false).
Proof.
  intros Hs. pose proof (stable_sort_sorted l) as Hsort.
  pose proof (stable_sort_perm l) as Hp. rewrite Hs in Hsort, Hp. split.
  - rewrite <- Hp. apply list_elem_of_here.
  - intros y Hy. rewrite <- Hp in Hy. apply elem_of_cons in Hy as [-> | Hy].
    + apply swo_irrefl.
    + inversion Hsort as [|? ? _ Hall]; subst.
      rewrite Forall_forall in Hall. by apply Hall.
Qed.

Lemma stable_sort_nil l : stable_sort l = [] <-> l = [].
Proof.
  split; [|by intros ->]. intros Hs. pose proof (stable_sort_perm l) as Hp.
  rewrite Hs in Hp. by apply Permutation_nil.
Qed.
End stable_sort.

(** ** Lexicographic comparators *)

Lemma string_ltb_leb a b : String.ltb a b = negb (String.leb b a).
Proof.
  unfold String.ltb, String.leb. rewrite (String.compare_antisym b a).
  by destruct (String.compare a b).
Qed.

#[export] Instance string_key_swo {A} (name : A -> string) :
  StrictWeakOrder (fun a b => String.ltb (name a) (name b)).
Proof.
  assert (Htr : forall x y z, String.leb x y = true -> String.leb y z = true ->
                              String.leb x z = true).
  { intros x y z Hxy Hyz. apply Is_true_true. apply Is_true_true in Hxy, Hyz.
    exact (transitivity (R := String.le) Hxy Hyz). }
  split; intros *; rewrite !string_ltb_leb, ?negb_true_iff, ?negb_false_iff.
  - apply Is_true_true. exact (reflexivity (R := String.le) (name x)).
  - intros Hxy Hyz. destruct (String.leb (name z) (name x)) eqn:E; [|done].
    destruct (String.leb_total (name x) (name y)) as [H|H]; [|congruence].
    by rewrite (Htr _ _ _ E H) in Hyz.
  - intros Hxy Hyz. eauto.
Qed.

(** Compare an integer key first, ascending or descending, then by [lt2]. *)
Lemma lex_asc_swo {A} (f : A -> Z) (lt2 : A -> A -> bool) :
  StrictWeakOrder lt2 ->
  StrictWeakOrder (fun a b => if negb (f a =? f b) then f a <? f b else lt2 a b).
Proof.
  intros [Hi Ht Hn]. split; intros *.
  - rewrite Z.eqb_refl. apply Hi.
  - destruct (Z.eqb_spec (f x) (f y)), (Z.eqb_spec (f y) (f z)), (Z.eqb_spec (f x) (f z));
      simpl; rewrite ?Z.ltb_lt; try lia; eauto.
  - destruct (Z.eqb_spec (f x) (f y)), (Z.eqb_spec (f y) (f z)), (Z.eqb_spec (f x) (f z));
      simpl; rewrite ?Z.ltb_ge; try lia; eauto.
Qed.

Lemma lex_desc_swo {A} (f : A -> Z) (lt2 : A -> A -> bool) :
  StrictWeakOrder lt2 ->
  StrictWeakOrder (fun a b => if negb (f a =? f b) then f b <? f a else lt2 a b).
Proof.
  intros [Hi Ht Hn]. split; intros *.
  - rewrite Z.eqb_refl. apply Hi.
  - destruct (Z.eqb_spec (f x) (f y)), (Z.eqb_spec (f y) (f z)), (Z.eqb_spec (f x) (f z));
      simpl; rewrite ?Z.ltb_lt; try lia; eauto.
  - destruct (Z.eqb_spec (f x) (f y)), (Z.eqb_spec (f y) (f z)), (Z.eqb_spec (f x) (f z));
      simpl; rewrite ?Z.ltb_ge; try lia; eauto.
Qed.
