(* ===== verification/Identity.v ===== *)
(** * Typed identities and generations ([core/identity.hpp])

    [Id<Tag>] is a string that carries its tag, [Generation<Tag>] a 64-bit counter
    whose zero is the invalid value. The tags are phantom parameters here as they
    are in the source, so a [DeviceId] is not a [RegionId]. *)
From S2P Require Import Prelude.

Inductive Tag : Set :=
  | HostIdTag | HostGenTag | DeviceIdTag | DeviceGenTag | DeviceBootIdTag | PortIdTag
  | SwitchIdTag | DecoderIdTag | WindowIdTag | RegionIdTag | RegionGenTag | PoolIdTag
  | PoolGenTag | CapacityLeaseIdTag | ReservationIdTag | ConsumerIdTag | ConsumerGenTag
  | WorkerIdTag | WorkerBootIdTag | CoordinatorEpochTag | EvidenceGenTag | PolicyGenTag
  | CapabilityIdTag.

(** ** Identities *)

Record Id (T : Tag) : Set := mkId { id_str : string }.
Arguments mkId {T} _.
Arguments id_str {T} _.

Definition id_default {T} : Id T := mkId "".
Definition id_empty {T} (i : Id T) : bool := String.eqb (id_str i) "".

#[export] Instance Id_eq_dec {T} : EqDecision (Id T).
Proof. solve_decision. Defined.

#[export] Program Instance Id_countable {T} : Countable (Id T) :=
  inj_countable' id_str mkId _.
Next Obligation. by intros T []. Qed.

(** [operator<] of [Id]: the byte-wise order of the strings. *)
Definition id_lt {T} (a b : Id T) : bool := String.ltb (id_str a) (id_str b).

#[export] Instance Id_key_order {T} : KeyOrder (Id T).
Proof.
  refine {| key_le a b := String.le (id_str a) (id_str b) |}.
  - intros x y. apply String.le_dec.
  - intros x y z. apply transitivity.
  - intros [x] [y] Hxy Hyx; simpl in *. f_equal. by apply (anti_symm String.le).
  - intros x y. apply (total String.le).
Defined.

Abbreviation HostId := (Id HostIdTag).
Abbreviation DeviceId := (Id DeviceIdTag).
Abbreviation DeviceBootId := (Id DeviceBootIdTag).
Abbreviation PortId := (Id PortIdTag).
Abbreviation SwitchId := (Id SwitchIdTag).
Abbreviation DecoderId := (Id DecoderIdTag).
Abbreviation WindowId := (Id WindowIdTag).
Abbreviation RegionId := (Id RegionIdTag).
Abbreviation PoolId := (Id PoolIdTag).
Abbreviation ReservationId := (Id ReservationIdTag).
Abbreviation ConsumerId := (Id ConsumerIdTag).
Abbreviation WorkerBootId := (Id WorkerBootIdTag).

(** ** Generations *)

Record Generation (T : Tag) : Set := mkGen { gen_value : Z }.
Arguments mkGen {T} _.
Arguments gen_value {T} _.

Definition gen_default {T} : Generation T := mkGen 0.
Definition gen_empty {T} (g : Generation T) : bool := gen_value g =? 0.
Definition gen_max : Z := UINT64_MAX - 1.

(** [Generation::next]: the empty generation once the maximum is reached. *)
Definition gen_next {T} (g : Generation T) : Generation T :=
  if gen_value g =? gen_max then gen_default else mkGen (add64 (gen_value g) 1).

Definition gen_lt {T} (a b : Generation T) : bool := gen_value a <? gen_value b.

#[export] Instance Generation_eq_dec {T} : EqDecision (Generation T).
Proof. solve_decision. Defined.

Abbreviation DeviceGeneration := (Generation DeviceGenTag).
Abbreviation RegionGeneration := (Generation RegionGenTag).
Abbreviation PoolGeneration := (Generation PoolGenTag).
Abbreviation ConsumerGeneration := (Generation ConsumerGenTag).
Abbreviation CoordinatorEpoch := (Generation CoordinatorEpochTag).
Abbreviation EvidenceGeneration := (Generation EvidenceGenTag).
Abbreviation PolicyGeneration := (Generation PolicyGenTag).

Definition gen_wf {T} (g : Generation T) : Prop := in_u64 (gen_value g).

(** The recurring idiom of the fabric: advance a generation, keeping the old one
    when it cannot advance ([ng.empty() ? g : ng]). *)
Definition gen_advance {T} (g : Generation T) : Generation T :=
  let n := gen_next g in if gen_empty n then g else n.

(** ** Properties *)

Lemma id_empty_spec {T} (i : Id T) : id_empty i = true <-> i = id_default.
Proof.
  destruct i as [s]. unfold id_empty, id_default; simpl. rewrite String.eqb_eq.
  split; [by intros -> | congruence].
Qed.

Lemma gen_empty_spec {T} (g : Generation T) : gen_empty g = true <-> g = gen_default.
Proof.
  destruct g as [v]. unfold gen_empty, gen_default; simpl. rewrite Z.eqb_eq.
  split; [by intros -> | congruence].
Qed.

Lemma gen_next_cases {T} (g : Generation T) :
  gen_wf g ->
  (gen_value g < gen_max /\ gen_value (gen_next g) = gen_value g + 1) \/
  (gen_max <= gen_value g /\ gen_next g = gen_default).
Proof.
  unfold gen_wf, gen_next, gen_max, in_u64. intros Hg.
  destruct (Z.eqb_spec (gen_value g) (UINT64_MAX - 1)) as [E|E]; [right; split; [lia|done]|].
  destruct (decide (gen_value g < UINT64_MAX - 1)).
  - left. split; [lia|]. simpl. apply add64_small; lia.
  - right. split; [lia|]. unfold gen_default. f_equal.
    assert (gen_value g = UINT64_MAX) as -> by lia. reflexivity.
Qed.

Lemma gen_next_wf {T} (g : Generation T) : gen_wf (gen_next g).
Proof. unfold gen_wf, gen_next. case_test; [by unfold in_u64, UINT64_MAX|]. apply u64_range. Qed.

Lemma gen_advance_cases {T} (g : Generation T) :
  gen_wf g ->
  (gen_value g < gen_max /\ gen_value (gen_advance g) = gen_value g + 1) \/
  (gen_max <= gen_value g /\ gen_advance g = g).
Proof.
  intros Hg. unfold gen_advance.
  destruct (gen_next_cases g Hg) as [[? Hn]|[? Hn]].
  - left. split; [done|]. unfold gen_empty. rewrite Hn.
    unfold gen_wf, in_u64 in Hg. destruct (Z.eqb_spec (gen_value g + 1) 0); [lia|done].
  - right. split; [done|]. by rewrite Hn.
Qed.

Lemma gen_advance_wf {T} (g : Generation T) : gen_wf g -> gen_wf (gen_advance g).
Proof. intros. unfold gen_advance. case_test; [done | apply gen_next_wf]. Qed.

#[export] Hint Resolve gen_next_wf gen_advance_wf : fabric.
