(* ===== verification/Enums.v ===== *)
(** * Enumerations ([core/enums.hpp]) and their string forms ([core/enum_strings.hpp])

    Every [enum class] of the source has [int] as its underlying type and can hold
    any value of it: a decoder that writes [DeviceState(u)] produces such a value
    without a check. Each enumeration therefore has the source's enumerators and
    one more constructor, [_raw], for a value that names none of them; it is what
    the code after a [switch] handles. *)
From S2P Require Import Prelude.

(** [enum_lookup]: the first entry of the table with that name. *)
Fixpoint enum_lookup {E} (s : string) (table : list (string * E)) : option E :=
  match table with
  | [] => None
  | p :: table' => if String.eqb s p.1 then Some p.2 else enum_lookup s table'
  end.

(** What a client may assume of an enumeration and its conversions. *)
Class CxxEnum (E : Type) := {
  enum_to_int : E -> Z;
  enum_of_int : Z -> E;
  enum_to_string : E -> string;
  enum_from_string : string -> option E;
  enum_named : list E;
  enum_to_of : forall v, enum_to_int (enum_of_int v) = v;
  enum_of_to : forall e, e ∈ enum_named -> enum_of_int (enum_to_int e) = e;
  enum_from_to : forall e, e ∈ enum_named -> enum_from_string (enum_to_string e) = Some e;
  enum_from_sound : forall s e,
    enum_from_string s = Some e -> e ∈ enum_named /\ enum_to_string e = s;
}.

(** [std::uint32_t(e)] and [E(u)]: conversions between the underlying [int] and a
    32-bit word are modular. *)
Definition s32 (x : Z) : Z := (x + 2 ^ 31) mod 2 ^ 32 - 2 ^ 31.
Definition enum_to_u32 `{CxxEnum E} (e : E) : Z := u32 (enum_to_int e).
Definition enum_of_u32 `{CxxEnum E} (u : Z) : E := enum_of_int (s32 u).

(** Discharges the laws of a concrete enumeration by computation. *)
Lemma enum_lookup_Some {E} s (table : list (string * E)) e :
  enum_lookup s table = Some e -> (s, e) ∈ table.
Proof.
  induction table as [|[s' e'] table IH]; simpl; [done|].
  destruct (String.eqb_spec s s') as [->|]; intros ?; simplify_eq.
  - apply list_elem_of_here.
  - apply list_elem_of_further. auto.
Qed.

Ltac enum_member := repeat first [apply list_elem_of_here | apply list_elem_of_further].
Ltac enum_laws :=
  solve
    [ let v := fresh "v" in intros v; destruct v; try reflexivity; simpl;
      repeat (case_match; try reflexivity)
    | let e := fresh "e" in let H := fresh "H" in
      intros e H; repeat (apply elem_of_cons in H as [-> | H]; [reflexivity|]);
      by apply elem_of_nil in H
    | let s := fresh "s" in let e := fresh "e" in let H := fresh "H" in
      intros s e H; apply enum_lookup_Some in H;
      repeat (apply elem_of_cons in H as [[= -> ->] | H]; [split; [enum_member|reflexivity]|]);
      by apply elem_of_nil in H ].

(** ** [Provenance] *)

Inductive Provenance : Set :=
  | Provenance_REAL | Provenance_DERIVED | Provenance_SYNTHETIC | Provenance_UNSUPPORTED
  | Provenance_raw (v : Z).

Definition Provenance_to_int (e : Provenance) : Z :=
  match e with
  | Provenance_REAL => 0 | Provenance_DERIVED => 1 | Provenance_SYNTHETIC => 2
  | Provenance_UNSUPPORTED => 3 | Provenance_raw v => v
  end.

Definition Provenance_of_int (v : Z) : Provenance :=
  match v with
  | 0 => Provenance_REAL | 1 => Provenance_DERIVED | 2 => Provenance_SYNTHETIC
  | 3 => Provenance_UNSUPPORTED | _ => Provenance_raw v
  end.

Definition Provenance_to_string (e : Provenance) : string :=
  match e with
  | Provenance_REAL => "REAL" | Provenance_DERIVED => "DERIVED"
  | Provenance_SYNTHETIC => "SYNTHETIC" | Provenance_UNSUPPORTED => "UNSUPPORTED"
  | Provenance_raw _ => "UNKNOWN"
  end.

Definition Provenance_from_string (s : string) : option Provenance :=
  enum_lookup s [
    ("REAL", Provenance_REAL); ("DERIVED", Provenance_DERIVED);
    ("SYNTHETIC", Provenance_SYNTHETIC); ("UNSUPPORTED", Provenance_UNSUPPORTED)].

#[export] Instance Provenance_eq_dec : EqDecision Provenance.
Proof. solve_decision. Defined.

#[export] Instance Provenance_enum : CxxEnum Provenance.
Proof.
  refine {|
    enum_to_int := Provenance_to_int; enum_of_int := Provenance_of_int;
    enum_to_string := Provenance_to_string; enum_from_string := Provenance_from_string;
    enum_named := [Provenance_REAL; Provenance_DERIVED; Provenance_SYNTHETIC; Provenance_UNSUPPORTED]
  |}; enum_laws.
Defined.

(** ** [HealthState] *)

Inductive HealthState : Set :=
  | HealthState_UNKNOWN | HealthState_HEALTHY | HealthState_DEGRADED | HealthState_POISONED
  | HealthState_FAILED | HealthState_REVALIDATION_REQUIRED | HealthState_raw (v : Z).

Definition HealthState_to_int (e : HealthState) : Z :=
  match e with
  | HealthState_UNKNOWN => 0 | HealthState_HEALTHY => 1 | HealthState_DEGRADED => 2
  | HealthState_POISONED => 3 | HealthState_FAILED => 4
  | HealthState_REVALIDATION_REQUIRED => 5 | HealthState_raw v => v
  end.

Definition HealthState_of_int (v : Z) : HealthState :=
  match v with
  | 0 => HealthState_UNKNOWN | 1 => HealthState_HEALTHY | 2 => HealthState_DEGRADED
  | 3 => HealthState_POISONED | 4 => HealthState_FAILED
  | 5 => HealthState_REVALIDATION_REQUIRED | _ => HealthState_raw v
  end.

Definition HealthState_to_string (e : HealthState) : string :=
  match e with
  | HealthState_UNKNOWN => "UNKNOWN" | HealthState_HEALTHY => "HEALTHY"
  | HealthState_DEGRADED => "DEGRADED" | HealthState_POISONED => "POISONED"
  | HealthState_FAILED => "FAILED"
  | HealthState_REVALIDATION_REQUIRED => "REVALIDATION_REQUIRED"
  | HealthState_raw _ => "UNKNOWN"
  end.

Definition HealthState_from_string (s : string) : option HealthState :=
  enum_lookup s [
    ("UNKNOWN", HealthState_UNKNOWN); ("HEALTHY", HealthState_HEALTHY);
    ("DEGRADED", HealthState_DEGRADED); ("POISONED", HealthState_POISONED);
    ("FAILED", HealthState_FAILED);
    ("REVALIDATION_REQUIRED", HealthState_REVALIDATION_REQUIRED)].

#[export] Instance HealthState_eq_dec : EqDecision HealthState.
Proof. solve_decision. Defined.

#[export] Instance HealthState_enum : CxxEnum HealthState.
Proof.
  refine {|
    enum_to_int := HealthState_to_int; enum_of_int := HealthState_of_int;
    enum_to_string := HealthState_to_string; enum_from_string := HealthState_from_string;
    enum_named := [HealthState_UNKNOWN; HealthState_HEALTHY; HealthState_DEGRADED; HealthState_POISONED;
      HealthState_FAILED; HealthState_REVALIDATION_REQUIRED]
  |}; enum_laws.
Defined.

(** ** [DeviceState] *)

Inductive DeviceState : Set :=
  | DeviceState_DISCOVERED | DeviceState_ENUMERATED | DeviceState_AVAILABLE
  | DeviceState_ONLINE | DeviceState_DEGRADED | DeviceState_DRAINING
  | DeviceState_REVALIDATION_REQUIRED | DeviceState_OFFLINE | DeviceState_FAILED
  | DeviceState_REMOVED | DeviceState_RETIRED | DeviceState_raw (v : Z).

Definition DeviceState_to_int (e : DeviceState) : Z :=
  match e with
  | DeviceState_DISCOVERED => 0 | DeviceState_ENUMERATED => 1 | DeviceState_AVAILABLE => 2
  | DeviceState_ONLINE => 3 | DeviceState_DEGRADED => 4 | DeviceState_DRAINING => 5
  | DeviceState_REVALIDATION_REQUIRED => 6 | DeviceState_OFFLINE => 7
  | DeviceState_FAILED => 8 | DeviceState_REMOVED => 9 | DeviceState_RETIRED => 10
  | DeviceState_raw v => v
  end.

Definition DeviceState_of_int (v : Z) : DeviceState :=
  match v with
  | 0 => DeviceState_DISCOVERED | 1 => DeviceState_ENUMERATED | 2 => DeviceState_AVAILABLE
  | 3 => DeviceState_ONLINE | 4 => DeviceState_DEGRADED | 5 => DeviceState_DRAINING
  | 6 => DeviceState_REVALIDATION_REQUIRED | 7 => DeviceState_OFFLINE
  | 8 => DeviceState_FAILED | 9 => DeviceState_REMOVED | 10 => DeviceState_RETIRED
  | _ => DeviceState_raw v
  end.

Definition DeviceState_to_string (e : DeviceState) : string :=
  match e with
  | DeviceState_DISCOVERED => "DISCOVERED" | DeviceState_ENUMERATED => "ENUMERATED"
  | DeviceState_AVAILABLE => "AVAILABLE" | DeviceState_ONLINE => "ONLINE"
  | DeviceState_DEGRADED => "DEGRADED" | DeviceState_DRAINING => "DRAINING"
  | DeviceState_REVALIDATION_REQUIRED => "REVALIDATION_REQUIRED"
  | DeviceState_OFFLINE => "OFFLINE" | DeviceState_FAILED => "FAILED"
  | DeviceState_REMOVED => "REMOVED" | DeviceState_RETIRED => "RETIRED"
  | DeviceState_raw _ => "UNKNOWN"
  end.

Definition DeviceState_from_string (s : string) : option DeviceState :=
  enum_lookup s [
    ("DISCOVERED", DeviceState_DISCOVERED); ("ENUMERATED", DeviceState_ENUMERATED);
    ("AVAILABLE", DeviceState_AVAILABLE); ("ONLINE", DeviceState_ONLINE);
    ("DEGRADED", DeviceState_DEGRADED); ("DRAINING", DeviceState_DRAINING);
    ("REVALIDATION_REQUIRED", DeviceState_REVALIDATION_REQUIRED);
    ("OFFLINE", DeviceState_OFFLINE); ("FAILED", DeviceState_FAILED);
    ("REMOVED", DeviceState_REMOVED); ("RETIRED", DeviceState_RETIRED)].

#[export] Instance DeviceState_eq_dec : EqDecision DeviceState.
Proof. solve_decision. Defined.

#[export] Instance DeviceState_enum : CxxEnum DeviceState.
Proof.
  refine {|
    enum_to_int := DeviceState_to_int; enum_of_int := DeviceState_of_int;
    enum_to_string := DeviceState_to_string; enum_from_string := DeviceState_from_string;
    enum_named := [DeviceState_DISCOVERED; DeviceState_ENUMERATED; DeviceState_AVAILABLE;
      DeviceState_ONLINE; DeviceState_DEGRADED; DeviceState_DRAINING;
      DeviceState_REVALIDATION_REQUIRED; DeviceState_OFFLINE; DeviceState_FAILED;
      DeviceState_REMOVED; DeviceState_RETIRED]
  |}; enum_laws.
Defined.

(** ** [RegionState] *)

Inductive RegionState : Set :=
  | RegionState_DEFINED | RegionState_VALIDATING | RegionState_ONLINE
  | RegionState_DEGRADED | RegionState_DRAINING | RegionState_RECONFIGURING
  | RegionState_REVALIDATION_REQUIRED | RegionState_OFFLINE | RegionState_FAILED
  | RegionState_RETIRED | RegionState_raw (v : Z).

Definition RegionState_to_int (e : RegionState) : Z :=
  match e with
  | RegionState_DEFINED => 0 | RegionState_VALIDATING => 1 | RegionState_ONLINE => 2
  | RegionState_DEGRADED => 3 | RegionState_DRAINING => 4 | RegionState_RECONFIGURING => 5
  | RegionState_REVALIDATION_REQUIRED => 6 | RegionState_OFFLINE => 7
  | RegionState_FAILED => 8 | RegionState_RETIRED => 9 | RegionState_raw v => v
  end.

Definition RegionState_of_int (v : Z) : RegionState :=
  match v with
  | 0 => RegionState_DEFINED | 1 => RegionState_VALIDATING | 2 => RegionState_ONLINE
  | 3 => RegionState_DEGRADED | 4 => RegionState_DRAINING | 5 => RegionState_RECONFIGURING
  | 6 => RegionState_REVALIDATION_REQUIRED | 7 => RegionState_OFFLINE
  | 8 => RegionState_FAILED | 9 => RegionState_RETIRED | _ => RegionState_raw v
  end.

Definition RegionState_to_string (e : RegionState) : string :=
  match e with
  | RegionState_DEFINED => "DEFINED" | RegionState_VALIDATING => "VALIDATING"
  | RegionState_ONLINE => "ONLINE" | RegionState_DEGRADED => "DEGRADED"
  | RegionState_DRAINING => "DRAINING" | RegionState_RECONFIGURING => "RECONFIGURING"
  | RegionState_REVALIDATION_REQUIRED => "REVALIDATION_REQUIRED"
  | RegionState_OFFLINE => "OFFLINE" | RegionState_FAILED => "FAILED"
  | RegionState_RETIRED => "RETIRED" | RegionState_raw _ => "UNKNOWN"
  end.

Definition RegionState_from_string (s : string) : option RegionState :=
  enum_lookup s [
    ("DEFINED", RegionState_DEFINED); ("VALIDATING", RegionState_VALIDATING);
    ("ONLINE", RegionState_ONLINE); ("DEGRADED", RegionState_DEGRADED);
    ("DRAINING", RegionState_DRAINING); ("RECONFIGURING", RegionState_RECONFIGURING);
    ("REVALIDATION_REQUIRED", RegionState_REVALIDATION_REQUIRED);
    ("OFFLINE", RegionState_OFFLINE); ("FAILED", RegionState_FAILED);
    ("RETIRED", RegionState_RETIRED)].

#[export] Instance RegionState_eq_dec : EqDecision RegionState.
Proof. solve_decision. Defined.

#[export] Instance RegionState_enum : CxxEnum RegionState.
Proof.
  refine {|
    enum_to_int := RegionState_to_int; enum_of_int := RegionState_of_int;
    enum_to_string := RegionState_to_string; enum_from_string := RegionState_from_string;
    enum_named := [RegionState_DEFINED; RegionState_VALIDATING; RegionState_ONLINE;
      RegionState_DEGRADED; RegionState_DRAINING; RegionState_RECONFIGURING;
      RegionState_REVALIDATION_REQUIRED; RegionState_OFFLINE; RegionState_FAILED;
      RegionState_RETIRED]
  |}; enum_laws.
Defined.

(** ** [PoolState] *)

Inductive PoolState : Set :=
  | PoolState_DEFINED | PoolState_AVAILABLE | PoolState_DEGRADED | PoolState_DRAINING
  | PoolState_REVALIDATION_REQUIRED | PoolState_FAILED | PoolState_RETIRED
  | PoolState_raw (v : Z).

Definition PoolState_to_int (e : PoolState) : Z :=
  match e with
  | PoolState_DEFINED => 0 | PoolState_AVAILABLE => 1 | PoolState_DEGRADED => 2
  | PoolState_DRAINING => 3 | PoolState_REVALIDATION_REQUIRED => 4 | PoolState_FAILED => 5
  | PoolState_RETIRED => 6 | PoolState_raw v => v
  end.

Definition PoolState_of_int (v : Z) : PoolState :=
  match v with
  | 0 => PoolState_DEFINED | 1 => PoolState_AVAILABLE | 2 => PoolState_DEGRADED
  | 3 => PoolState_DRAINING | 4 => PoolState_REVALIDATION_REQUIRED | 5 => PoolState_FAILED
  | 6 => PoolState_RETIRED | _ => PoolState_raw v
  end.

Definition PoolState_to_string (e : PoolState) : string :=
  match e with
  | PoolState_DEFINED => "DEFINED" | PoolState_AVAILABLE => "AVAILABLE"
  | PoolState_DEGRADED => "DEGRADED" | PoolState_DRAINING => "DRAINING"
  | PoolState_REVALIDATION_REQUIRED => "REVALIDATION_REQUIRED"
  | PoolState_FAILED => "FAILED" | PoolState_RETIRED => "RETIRED"
  | PoolState_raw _ => "UNKNOWN"
  end.

Definition PoolState_from_string (s : string) : option PoolState :=
  enum_lookup s [
    ("DEFINED", PoolState_DEFINED); ("AVAILABLE", PoolState_AVAILABLE);
    ("DEGRADED", PoolState_DEGRADED); ("DRAINING", PoolState_DRAINING);
    ("REVALIDATION_REQUIRED", PoolState_REVALIDATION_REQUIRED);
    ("FAILED", PoolState_FAILED); ("RETIRED", PoolState_RETIRED)].

#[export] Instance PoolState_eq_dec : EqDecision PoolState.
Proof. solve_decision. Defined.

#[export] Instance PoolState_enum : CxxEnum PoolState.
Proof.
  refine {|
    enum_to_int := PoolState_to_int; enum_of_int := PoolState_of_int;
    enum_to_string := PoolState_to_string; enum_from_string := PoolState_from_string;
    enum_named := [PoolState_DEFINED; PoolState_AVAILABLE; PoolState_DEGRADED; PoolState_DRAINING;
      PoolState_REVALIDATION_REQUIRED; PoolState_FAILED; PoolState_RETIRED]
  |}; enum_laws.
Defined.

(** ** [CapabilityClass] *)

Inductive CapabilityClass : Set :=
  | CapabilityClass_MEMORY_DEVICE | CapabilityClass_TYPE3_MEMORY
  | CapabilityClass_HOST_MANAGED_DEVICE_MEMORY | CapabilityClass_VOLATILE_CAPACITY
  | CapabilityClass_PERSISTENT_CAPACITY | CapabilityClass_DYNAMIC_CAPACITY
  | CapabilityClass_HOTPLUG | CapabilityClass_MULTI_HOST_ACCESS
  | CapabilityClass_MEMORY_POOLING | CapabilityClass_INTERLEAVE
  | CapabilityClass_DEVICE_DECODER | CapabilityClass_HOST_DECODER
  | CapabilityClass_SWITCH_ATTACHED | CapabilityClass_DIRECT_ATTACHED
  | CapabilityClass_ERROR_REPORTING | CapabilityClass_POISON_REPORTING
  | CapabilityClass_CAPACITY_RESIZE | CapabilityClass_REGION_RECONFIGURATION
  | CapabilityClass_ACCELERATOR_VISIBLE_PATH | CapabilityClass_CACHE_COHERENT_ACCESS
  | CapabilityClass_raw (v : Z).

Definition CapabilityClass_to_int (e : CapabilityClass) : Z :=
  match e with
  | CapabilityClass_MEMORY_DEVICE => 0 | CapabilityClass_TYPE3_MEMORY => 1
  | CapabilityClass_HOST_MANAGED_DEVICE_MEMORY => 2
  | CapabilityClass_VOLATILE_CAPACITY => 3 | CapabilityClass_PERSISTENT_CAPACITY => 4
  | CapabilityClass_DYNAMIC_CAPACITY => 5 | CapabilityClass_HOTPLUG => 6
  | CapabilityClass_MULTI_HOST_ACCESS => 7 | CapabilityClass_MEMORY_POOLING => 8
  | CapabilityClass_INTERLEAVE => 9 | CapabilityClass_DEVICE_DECODER => 10
  | CapabilityClass_HOST_DECODER => 11 | CapabilityClass_SWITCH_ATTACHED => 12
  | CapabilityClass_DIRECT_ATTACHED => 13 | CapabilityClass_ERROR_REPORTING => 14
  | CapabilityClass_POISON_REPORTING => 15 | CapabilityClass_CAPACITY_RESIZE => 16
  | CapabilityClass_REGION_RECONFIGURATION => 17
  | CapabilityClass_ACCELERATOR_VISIBLE_PATH => 18
  | CapabilityClass_CACHE_COHERENT_ACCESS => 19 | CapabilityClass_raw v => v
  end.

Definition CapabilityClass_of_int (v : Z) : CapabilityClass :=
  match v with
  | 0 => CapabilityClass_MEMORY_DEVICE | 1 => CapabilityClass_TYPE3_MEMORY
  | 2 => CapabilityClass_HOST_MANAGED_DEVICE_MEMORY
  | 3 => CapabilityClass_VOLATILE_CAPACITY | 4 => CapabilityClass_PERSISTENT_CAPACITY
  | 5 => CapabilityClass_DYNAMIC_CAPACITY | 6 => CapabilityClass_HOTPLUG
  | 7 => CapabilityClass_MULTI_HOST_ACCESS | 8 => CapabilityClass_MEMORY_POOLING
  | 9 => CapabilityClass_INTERLEAVE | 10 => CapabilityClass_DEVICE_DECODER
  | 11 => CapabilityClass_HOST_DECODER | 12 => CapabilityClass_SWITCH_ATTACHED
  | 13 => CapabilityClass_DIRECT_ATTACHED | 14 => CapabilityClass_ERROR_REPORTING
  | 15 => CapabilityClass_POISON_REPORTING | 16 => CapabilityClass_CAPACITY_RESIZE
  | 17 => CapabilityClass_REGION_RECONFIGURATION
  | 18 => CapabilityClass_ACCELERATOR_VISIBLE_PATH
  | 19 => CapabilityClass_CACHE_COHERENT_ACCESS | _ => CapabilityClass_raw v
  end.

Definition CapabilityClass_to_string (e : CapabilityClass) : string :=
  match e with
  | CapabilityClass_MEMORY_DEVICE => "MEMORY_DEVICE"
  | CapabilityClass_TYPE3_MEMORY => "TYPE3_MEMORY"
  | CapabilityClass_HOST_MANAGED_DEVICE_MEMORY => "HOST_MANAGED_DEVICE_MEMORY"
  | CapabilityClass_VOLATILE_CAPACITY => "VOLATILE_CAPACITY"
  | CapabilityClass_PERSISTENT_CAPACITY => "PERSISTENT_CAPACITY"
  | CapabilityClass_DYNAMIC_CAPACITY => "DYNAMIC_CAPACITY"
  | CapabilityClass_HOTPLUG => "HOTPLUG"
  | CapabilityClass_MULTI_HOST_ACCESS => "MULTI_HOST_ACCESS"
  | CapabilityClass_MEMORY_POOLING => "MEMORY_POOLING"
  | CapabilityClass_INTERLEAVE => "INTERLEAVE"
  | CapabilityClass_DEVICE_DECODER => "DEVICE_DECODER"
  | CapabilityClass_HOST_DECODER => "HOST_DECODER"
  | CapabilityClass_SWITCH_ATTACHED => "SWITCH_ATTACHED"
  | CapabilityClass_DIRECT_ATTACHED => "DIRECT_ATTACHED"
  | CapabilityClass_ERROR_REPORTING => "ERROR_REPORTING"
  | CapabilityClass_POISON_REPORTING => "POISON_REPORTING"
  | CapabilityClass_CAPACITY_RESIZE => "CAPACITY_RESIZE"
  | CapabilityClass_REGION_RECONFIGURATION => "REGION_RECONFIGURATION"
  | CapabilityClass_ACCELERATOR_VISIBLE_PATH => "ACCELERATOR_VISIBLE_PATH"
  | CapabilityClass_CACHE_COHERENT_ACCESS => "CACHE_COHERENT_ACCESS"
  | CapabilityClass_raw _ => "UNKNOWN"
  end.

Definition CapabilityClass_from_string (s : string) : option CapabilityClass :=
  enum_lookup s [
    ("MEMORY_DEVICE", CapabilityClass_MEMORY_DEVICE);
    ("TYPE3_MEMORY", CapabilityClass_TYPE3_MEMORY);
    ("HOST_MANAGED_DEVICE_MEMORY", CapabilityClass_HOST_MANAGED_DEVICE_MEMORY);
    ("VOLATILE_CAPACITY", CapabilityClass_VOLATILE_CAPACITY);
    ("PERSISTENT_CAPACITY", CapabilityClass_PERSISTENT_CAPACITY);
    ("DYNAMIC_CAPACITY", CapabilityClass_DYNAMIC_CAPACITY);
    ("HOTPLUG", CapabilityClass_HOTPLUG);
    ("MULTI_HOST_ACCESS", CapabilityClass_MULTI_HOST_ACCESS);
    ("MEMORY_POOLING", CapabilityClass_MEMORY_POOLING);
    ("INTERLEAVE", CapabilityClass_INTERLEAVE);
    ("DEVICE_DECODER", CapabilityClass_DEVICE_DECODER);
    ("HOST_DECODER", CapabilityClass_HOST_DECODER);
    ("SWITCH_ATTACHED", CapabilityClass_SWITCH_ATTACHED);
    ("DIRECT_ATTACHED", CapabilityClass_DIRECT_ATTACHED);
    ("ERROR_REPORTING", CapabilityClass_ERROR_REPORTING);
    ("POISON_REPORTING", CapabilityClass_POISON_REPORTING);
    ("CAPACITY_RESIZE", CapabilityClass_CAPACITY_RESIZE);
    ("REGION_RECONFIGURATION", CapabilityClass_REGION_RECONFIGURATION);
    ("ACCELERATOR_VISIBLE_PATH", CapabilityClass_ACCELERATOR_VISIBLE_PATH);
    ("CACHE_COHERENT_ACCESS", CapabilityClass_CACHE_COHERENT_ACCESS)].

#[export] Instance CapabilityClass_eq_dec : EqDecision CapabilityClass.
Proof. solve_decision. Defined.

#[export] Instance CapabilityClass_enum : CxxEnum CapabilityClass.
Proof.
  refine {|
    enum_to_int := CapabilityClass_to_int; enum_of_int := CapabilityClass_of_int;
    enum_to_string := CapabilityClass_to_string; enum_from_string := CapabilityClass_from_string;
    enum_named := [CapabilityClass_MEMORY_DEVICE; CapabilityClass_TYPE3_MEMORY;
      CapabilityClass_HOST_MANAGED_DEVICE_MEMORY; CapabilityClass_VOLATILE_CAPACITY;
      CapabilityClass_PERSISTENT_CAPACITY; CapabilityClass_DYNAMIC_CAPACITY;
      CapabilityClass_HOTPLUG; CapabilityClass_MULTI_HOST_ACCESS;
      CapabilityClass_MEMORY_POOLING; CapabilityClass_INTERLEAVE;
      CapabilityClass_DEVICE_DECODER; CapabilityClass_HOST_DECODER;
      CapabilityClass_SWITCH_ATTACHED; CapabilityClass_DIRECT_ATTACHED;
      CapabilityClass_ERROR_REPORTING; CapabilityClass_POISON_REPORTING;
      CapabilityClass_CAPACITY_RESIZE; CapabilityClass_REGION_RECONFIGURATION;
      CapabilityClass_ACCELERATOR_VISIBLE_PATH; CapabilityClass_CACHE_COHERENT_ACCESS]
  |}; enum_laws.
Defined.

(** ** [SupportState] *)

Inductive SupportState : Set :=
  | SupportState_SUPPORTED | SupportState_UNSUPPORTED | SupportState_UNKNOWN
  | SupportState_REVALIDATION_REQUIRED | SupportState_raw (v : Z).

Definition SupportState_to_int (e : SupportState) : Z :=
  match e with
  | SupportState_SUPPORTED => 0 | SupportState_UNSUPPORTED => 1 | SupportState_UNKNOWN => 2
  | SupportState_REVALIDATION_REQUIRED => 3 | SupportState_raw v => v
  end.

Definition SupportState_of_int (v : Z) : SupportState :=
  match v with
  | 0 => SupportState_SUPPORTED | 1 => SupportState_UNSUPPORTED | 2 => SupportState_UNKNOWN
  | 3 => SupportState_REVALIDATION_REQUIRED | _ => SupportState_raw v
  end.

Definition SupportState_to_string (e : SupportState) : string :=
  match e with
  | SupportState_SUPPORTED => "SUPPORTED" | SupportState_UNSUPPORTED => "UNSUPPORTED"
  | SupportState_UNKNOWN => "UNKNOWN"
  | SupportState_REVALIDATION_REQUIRED => "REVALIDATION_REQUIRED"
  | SupportState_raw _ => "UNKNOWN"
  end.

Definition SupportState_from_string (s : string) : option SupportState :=
  enum_lookup s [
    ("SUPPORTED", SupportState_SUPPORTED); ("UNSUPPORTED", SupportState_UNSUPPORTED);
    ("UNKNOWN", SupportState_UNKNOWN);
    ("REVALIDATION_REQUIRED", SupportState_REVALIDATION_REQUIRED)].

#[export] Instance SupportState_eq_dec : EqDecision SupportState.
Proof. solve_decision. Defined.

#[export] Instance SupportState_enum : CxxEnum SupportState.
Proof.
  refine {|
    enum_to_int := SupportState_to_int; enum_of_int := SupportState_of_int;
    enum_to_string := SupportState_to_string; enum_from_string := SupportState_from_string;
    enum_named := [SupportState_SUPPORTED; SupportState_UNSUPPORTED; SupportState_UNKNOWN;
      SupportState_REVALIDATION_REQUIRED]
  |}; enum_laws.
Defined.

(** ** [EvidenceClass] *)

Inductive EvidenceClass : Set :=
  | EvidenceClass_MEASURED | EvidenceClass_PLATFORM_REPORTED | EvidenceClass_CONFIGURED
  | EvidenceClass_DERIVED | EvidenceClass_SYNTHETIC | EvidenceClass_UNKNOWN
  | EvidenceClass_raw (v : Z).

Definition EvidenceClass_to_int (e : EvidenceClass) : Z :=
  match e with
  | EvidenceClass_MEASURED => 0 | EvidenceClass_PLATFORM_REPORTED => 1
  | EvidenceClass_CONFIGURED => 2 | EvidenceClass_DERIVED => 3
  | EvidenceClass_SYNTHETIC => 4 | EvidenceClass_UNKNOWN => 5 | EvidenceClass_raw v => v
  end.

Definition EvidenceClass_of_int (v : Z) : EvidenceClass :=
  match v with
  | 0 => EvidenceClass_MEASURED | 1 => EvidenceClass_PLATFORM_REPORTED
  | 2 => EvidenceClass_CONFIGURED | 3 => EvidenceClass_DERIVED
  | 4 => EvidenceClass_SYNTHETIC | 5 => EvidenceClass_UNKNOWN | _ => EvidenceClass_raw v
  end.

Definition EvidenceClass_to_string (e : EvidenceClass) : string :=
  match e with
  | EvidenceClass_MEASURED => "MEASURED"
  | EvidenceClass_PLATFORM_REPORTED => "PLATFORM_REPORTED"
  | EvidenceClass_CONFIGURED => "CONFIGURED" | EvidenceClass_DERIVED => "DERIVED"
  | EvidenceClass_SYNTHETIC => "SYNTHETIC" | EvidenceClass_UNKNOWN => "UNKNOWN"
  | EvidenceClass_raw _ => "UNKNOWN"
  end.

Definition EvidenceClass_from_string (s : string) : option EvidenceClass :=
  enum_lookup s [
    ("MEASURED", EvidenceClass_MEASURED);
    ("PLATFORM_REPORTED", EvidenceClass_PLATFORM_REPORTED);
    ("CONFIGURED", EvidenceClass_CONFIGURED); ("DERIVED", EvidenceClass_DERIVED);
    ("SYNTHETIC", EvidenceClass_SYNTHETIC); ("UNKNOWN", EvidenceClass_UNKNOWN)].

#[export] Instance EvidenceClass_eq_dec : EqDecision EvidenceClass.
Proof. solve_decision. Defined.

#[export] Instance EvidenceClass_enum : CxxEnum EvidenceClass.
Proof.
  refine {|
    enum_to_int := EvidenceClass_to_int; enum_of_int := EvidenceClass_of_int;
    enum_to_string := EvidenceClass_to_string; enum_from_string := EvidenceClass_from_string;
    enum_named := [EvidenceClass_MEASURED; EvidenceClass_PLATFORM_REPORTED; EvidenceClass_CONFIGURED;
      EvidenceClass_DERIVED; EvidenceClass_SYNTHETIC; EvidenceClass_UNKNOWN]
  |}; enum_laws.
Defined.

(** ** [LocalityClass] *)

Inductive LocalityClass : Set :=
  | LocalityClass_DIRECT_LOCAL | LocalityClass_SAME_HOST | LocalityClass_SAME_NUMA_DOMAIN
  | LocalityClass_REMOTE_NUMA_DOMAIN | LocalityClass_SAME_CXL_ROOT
  | LocalityClass_SAME_SWITCH | LocalityClass_SWITCH_REMOTE | LocalityClass_MULTI_HOP_CXL
  | LocalityClass_CROSS_HOST | LocalityClass_UNKNOWN | LocalityClass_raw (v : Z).

Definition LocalityClass_to_int (e : LocalityClass) : Z :=
  match e with
  | LocalityClass_DIRECT_LOCAL => 0 | LocalityClass_SAME_HOST => 1
  | LocalityClass_SAME_NUMA_DOMAIN => 2 | LocalityClass_REMOTE_NUMA_DOMAIN => 3
  | LocalityClass_SAME_CXL_ROOT => 4 | LocalityClass_SAME_SWITCH => 5
  | LocalityClass_SWITCH_REMOTE => 6 | LocalityClass_MULTI_HOP_CXL => 7
  | LocalityClass_CROSS_HOST => 8 | LocalityClass_UNKNOWN => 9 | LocalityClass_raw v => v
  end.

Definition LocalityClass_of_int (v : Z) : LocalityClass :=
  match v with
  | 0 => LocalityClass_DIRECT_LOCAL | 1 => LocalityClass_SAME_HOST
  | 2 => LocalityClass_SAME_NUMA_DOMAIN | 3 => LocalityClass_REMOTE_NUMA_DOMAIN
  | 4 => LocalityClass_SAME_CXL_ROOT | 5 => LocalityClass_SAME_SWITCH
  | 6 => LocalityClass_SWITCH_REMOTE | 7 => LocalityClass_MULTI_HOP_CXL
  | 8 => LocalityClass_CROSS_HOST | 9 => LocalityClass_UNKNOWN | _ => LocalityClass_raw v
  end.

Definition LocalityClass_to_string (e : LocalityClass) : string :=
  match e with
  | LocalityClass_DIRECT_LOCAL => "DIRECT_LOCAL" | LocalityClass_SAME_HOST => "SAME_HOST"
  | LocalityClass_SAME_NUMA_DOMAIN => "SAME_NUMA_DOMAIN"
  | LocalityClass_REMOTE_NUMA_DOMAIN => "REMOTE_NUMA_DOMAIN"
  | LocalityClass_SAME_CXL_ROOT => "SAME_CXL_ROOT"
  | LocalityClass_SAME_SWITCH => "SAME_SWITCH"
  | LocalityClass_SWITCH_REMOTE => "SWITCH_REMOTE"
  | LocalityClass_MULTI_HOP_CXL => "MULTI_HOP_CXL"
  | LocalityClass_CROSS_HOST => "CROSS_HOST" | LocalityClass_UNKNOWN => "UNKNOWN"
  | LocalityClass_raw _ => "UNKNOWN"
  end.

Definition LocalityClass_from_string (s : string) : option LocalityClass :=
  enum_lookup s [
    ("DIRECT_LOCAL", LocalityClass_DIRECT_LOCAL); ("SAME_HOST", LocalityClass_SAME_HOST);
    ("SAME_NUMA_DOMAIN", LocalityClass_SAME_NUMA_DOMAIN);
    ("REMOTE_NUMA_DOMAIN", LocalityClass_REMOTE_NUMA_DOMAIN);
    ("SAME_CXL_ROOT", LocalityClass_SAME_CXL_ROOT);
    ("SAME_SWITCH", LocalityClass_SAME_SWITCH);
    ("SWITCH_REMOTE", LocalityClass_SWITCH_REMOTE);
    ("MULTI_HOP_CXL", LocalityClass_MULTI_HOP_CXL);
    ("CROSS_HOST", LocalityClass_CROSS_HOST); ("UNKNOWN", LocalityClass_UNKNOWN)].

#[export] Instance LocalityClass_eq_dec : EqDecision LocalityClass.
Proof. solve_decision. Defined.

#[export] Instance LocalityClass_enum : CxxEnum LocalityClass.
Proof.
  refine {|
    enum_to_int := LocalityClass_to_int; enum_of_int := LocalityClass_of_int;
    enum_to_string := LocalityClass_to_string; enum_from_string := LocalityClass_from_string;
    enum_named := [LocalityClass_DIRECT_LOCAL; LocalityClass_SAME_HOST; LocalityClass_SAME_NUMA_DOMAIN;
      LocalityClass_REMOTE_NUMA_DOMAIN; LocalityClass_SAME_CXL_ROOT;
      LocalityClass_SAME_SWITCH; LocalityClass_SWITCH_REMOTE; LocalityClass_MULTI_HOP_CXL;
      LocalityClass_CROSS_HOST; LocalityClass_UNKNOWN]
  |}; enum_laws.
Defined.

(** ** [TierClass] *)

Inductive TierClass : Set :=
  | TierClass_CXL_NEAR | TierClass_CXL_LOCAL | TierClass_CXL_SHARED | TierClass_CXL_REMOTE
  | TierClass_CXL_PERSISTENT | TierClass_CXL_CAPACITY | TierClass_CXL_UNKNOWN
  | TierClass_raw (v : Z).

Definition TierClass_to_int (e : TierClass) : Z :=
  match e with
  | TierClass_CXL_NEAR => 0 | TierClass_CXL_LOCAL => 1 | TierClass_CXL_SHARED => 2
  | TierClass_CXL_REMOTE => 3 | TierClass_CXL_PERSISTENT => 4 | TierClass_CXL_CAPACITY => 5
  | TierClass_CXL_UNKNOWN => 6 | TierClass_raw v => v
  end.

Definition TierClass_of_int (v : Z) : TierClass :=
  match v with
  | 0 => TierClass_CXL_NEAR | 1 => TierClass_CXL_LOCAL | 2 => TierClass_CXL_SHARED
  | 3 => TierClass_CXL_REMOTE | 4 => TierClass_CXL_PERSISTENT | 5 => TierClass_CXL_CAPACITY
  | 6 => TierClass_CXL_UNKNOWN | _ => TierClass_raw v
  end.

Definition TierClass_to_string (e : TierClass) : string :=
  match e with
  | TierClass_CXL_NEAR => "CXL_NEAR" | TierClass_CXL_LOCAL => "CXL_LOCAL"
  | TierClass_CXL_SHARED => "CXL_SHARED" | TierClass_CXL_REMOTE => "CXL_REMOTE"
  | TierClass_CXL_PERSISTENT => "CXL_PERSISTENT" | TierClass_CXL_CAPACITY => "CXL_CAPACITY"
  | TierClass_CXL_UNKNOWN => "CXL_UNKNOWN" | TierClass_raw _ => "UNKNOWN"
  end.

Definition TierClass_from_string (s : string) : option TierClass :=
  enum_lookup s [
    ("CXL_NEAR", TierClass_CXL_NEAR); ("CXL_LOCAL", TierClass_CXL_LOCAL);
    ("CXL_SHARED", TierClass_CXL_SHARED); ("CXL_REMOTE", TierClass_CXL_REMOTE);
    ("CXL_PERSISTENT", TierClass_CXL_PERSISTENT); ("CXL_CAPACITY", TierClass_CXL_CAPACITY);
    ("CXL_UNKNOWN", TierClass_CXL_UNKNOWN)].

#[export] Instance TierClass_eq_dec : EqDecision TierClass.
Proof. solve_decision. Defined.

#[export] Instance TierClass_enum : CxxEnum TierClass.
Proof.
  refine {|
    enum_to_int := TierClass_to_int; enum_of_int := TierClass_of_int;
    enum_to_string := TierClass_to_string; enum_from_string := TierClass_from_string;
    enum_named := [TierClass_CXL_NEAR; TierClass_CXL_LOCAL; TierClass_CXL_SHARED; TierClass_CXL_REMOTE;
      TierClass_CXL_PERSISTENT; TierClass_CXL_CAPACITY; TierClass_CXL_UNKNOWN]
  |}; enum_laws.
Defined.

(** ** [AcceleratorAccessState] *)

Inductive AcceleratorAccessState : Set :=
  | AcceleratorAccessState_DIRECT_SUPPORTED | AcceleratorAccessState_INDIRECT_SUPPORTED
  | AcceleratorAccessState_HOST_MEDIATED | AcceleratorAccessState_UNSUPPORTED
  | AcceleratorAccessState_UNKNOWN | AcceleratorAccessState_REVALIDATION_REQUIRED
  | AcceleratorAccessState_raw (v : Z).

Definition AcceleratorAccessState_to_int (e : AcceleratorAccessState) : Z :=
  match e with
  | AcceleratorAccessState_DIRECT_SUPPORTED => 0
  | AcceleratorAccessState_INDIRECT_SUPPORTED => 1
  | AcceleratorAccessState_HOST_MEDIATED => 2 | AcceleratorAccessState_UNSUPPORTED => 3
  | AcceleratorAccessState_UNKNOWN => 4 | AcceleratorAccessState_REVALIDATION_REQUIRED => 5
  | AcceleratorAccessState_raw v => v
  end.

Definition AcceleratorAccessState_of_int (v : Z) : AcceleratorAccessState :=
  match v with
  | 0 => AcceleratorAccessState_DIRECT_SUPPORTED
  | 1 => AcceleratorAccessState_INDIRECT_SUPPORTED
  | 2 => AcceleratorAccessState_HOST_MEDIATED | 3 => AcceleratorAccessState_UNSUPPORTED
  | 4 => AcceleratorAccessState_UNKNOWN | 5 => AcceleratorAccessState_REVALIDATION_REQUIRED
  | _ => AcceleratorAccessState_raw v
  end.

Definition AcceleratorAccessState_to_string (e : AcceleratorAccessState) : string :=
  match e with
  | AcceleratorAccessState_DIRECT_SUPPORTED => "DIRECT_SUPPORTED"
  | AcceleratorAccessState_INDIRECT_SUPPORTED => "INDIRECT_SUPPORTED"
  | AcceleratorAccessState_HOST_MEDIATED => "HOST_MEDIATED"
  | AcceleratorAccessState_UNSUPPORTED => "UNSUPPORTED"
  | AcceleratorAccessState_UNKNOWN => "UNKNOWN"
  | AcceleratorAccessState_REVALIDATION_REQUIRED => "REVALIDATION_REQUIRED"
  | AcceleratorAccessState_raw _ => "UNKNOWN"
  end.

Definition AcceleratorAccessState_from_string (s : string) : option AcceleratorAccessState :=
  enum_lookup s [
    ("DIRECT_SUPPORTED", AcceleratorAccessState_DIRECT_SUPPORTED);
    ("INDIRECT_SUPPORTED", AcceleratorAccessState_INDIRECT_SUPPORTED);
    ("HOST_MEDIATED", AcceleratorAccessState_HOST_MEDIATED);
    ("UNSUPPORTED", AcceleratorAccessState_UNSUPPORTED);
    ("UNKNOWN", AcceleratorAccessState_UNKNOWN);
    ("REVALIDATION_REQUIRED", AcceleratorAccessState_REVALIDATION_REQUIRED)].

#[export] Instance AcceleratorAccessState_eq_dec : EqDecision AcceleratorAccessState.
Proof. solve_decision. Defined.

#[export] Instance AcceleratorAccessState_enum : CxxEnum AcceleratorAccessState.
Proof.
  refine {|
    enum_to_int := AcceleratorAccessState_to_int; enum_of_int := AcceleratorAccessState_of_int;
    enum_to_string := AcceleratorAccessState_to_string; enum_from_string := AcceleratorAccessState_from_string;
    enum_named := [AcceleratorAccessState_DIRECT_SUPPORTED; AcceleratorAccessState_INDIRECT_SUPPORTED;
      AcceleratorAccessState_HOST_MEDIATED; AcceleratorAccessState_UNSUPPORTED;
      AcceleratorAccessState_UNKNOWN; AcceleratorAccessState_REVALIDATION_REQUIRED]
  |}; enum_laws.
Defined.

(** ** [ResumeState] *)

Inductive ResumeState : Set :=
  | ResumeState_RESERVED | ResumeState_COMMITTED | ResumeState_RELEASED
  | ResumeState_FENCED | ResumeState_raw (v : Z).

Definition ResumeState_to_int (e : ResumeState) : Z :=
  match e with
  | ResumeState_RESERVED => 0 | ResumeState_COMMITTED => 1 | ResumeState_RELEASED => 2
  | ResumeState_FENCED => 3 | ResumeState_raw v => v
  end.

Definition ResumeState_of_int (v : Z) : ResumeState :=
  match v with
  | 0 => ResumeState_RESERVED | 1 => ResumeState_COMMITTED | 2 => ResumeState_RELEASED
  | 3 => ResumeState_FENCED | _ => ResumeState_raw v
  end.

Definition ResumeState_to_string (e : ResumeState) : string :=
  match e with
  | ResumeState_RESERVED => "RESERVED" | ResumeState_COMMITTED => "COMMITTED"
  | ResumeState_RELEASED => "RELEASED" | ResumeState_FENCED => "FENCED"
  | ResumeState_raw _ => "UNKNOWN"
  end.

Definition ResumeState_from_string (s : string) : option ResumeState :=
  enum_lookup s [
    ("RESERVED", ResumeState_RESERVED); ("COMMITTED", ResumeState_COMMITTED);
    ("RELEASED", ResumeState_RELEASED); ("FENCED", ResumeState_FENCED)].

#[export] Instance ResumeState_eq_dec : EqDecision ResumeState.
Proof. solve_decision. Defined.

#[export] Instance ResumeState_enum : CxxEnum ResumeState.
Proof.
  refine {|
    enum_to_int := ResumeState_to_int; enum_of_int := ResumeState_of_int;
    enum_to_string := ResumeState_to_string; enum_from_string := ResumeState_from_string;
    enum_named := [ResumeState_RESERVED; ResumeState_COMMITTED; ResumeState_RELEASED; ResumeState_FENCED]
  |}; enum_laws.
Defined.

(** ** [VolatilityKind] *)

Inductive VolatilityKind : Set :=
  | VolatilityKind_VOLATILE | VolatilityKind_PERSISTENT | VolatilityKind_UNKNOWN
  | VolatilityKind_raw (v : Z).

Definition VolatilityKind_to_int (e : VolatilityKind) : Z :=
  match e with
  | VolatilityKind_VOLATILE => 0 | VolatilityKind_PERSISTENT => 1
  | VolatilityKind_UNKNOWN => 2 | VolatilityKind_raw v => v
  end.

Definition VolatilityKind_of_int (v : Z) : VolatilityKind :=
  match v with
  | 0 => VolatilityKind_VOLATILE | 1 => VolatilityKind_PERSISTENT
  | 2 => VolatilityKind_UNKNOWN | _ => VolatilityKind_raw v
  end.

Definition VolatilityKind_to_string (e : VolatilityKind) : string :=
  match e with
  | VolatilityKind_VOLATILE => "VOLATILE" | VolatilityKind_PERSISTENT => "PERSISTENT"
  | VolatilityKind_UNKNOWN => "UNKNOWN" | VolatilityKind_raw _ => "UNKNOWN"
  end.

Definition VolatilityKind_from_string (s : string) : option VolatilityKind :=
  enum_lookup s [
    ("VOLATILE", VolatilityKind_VOLATILE); ("PERSISTENT", VolatilityKind_PERSISTENT);
    ("UNKNOWN", VolatilityKind_UNKNOWN)].

#[export] Instance VolatilityKind_eq_dec : EqDecision VolatilityKind.
Proof. solve_decision. Defined.

#[export] Instance VolatilityKind_enum : CxxEnum VolatilityKind.
Proof.
  refine {|
    enum_to_int := VolatilityKind_to_int; enum_of_int := VolatilityKind_of_int;
    enum_to_string := VolatilityKind_to_string; enum_from_string := VolatilityKind_from_string;
    enum_named := [VolatilityKind_VOLATILE; VolatilityKind_PERSISTENT; VolatilityKind_UNKNOWN]
  |}; enum_laws.
Defined.

(** ** [SharingMode] *)

Inductive SharingMode : Set :=
  | SharingMode_DEDICATED | SharingMode_SHARED | SharingMode_UNKNOWN
  | SharingMode_raw (v : Z).

Definition SharingMode_to_int (e : SharingMode) : Z :=
  match e with
  | SharingMode_DEDICATED => 0 | SharingMode_SHARED => 1 | SharingMode_UNKNOWN => 2
  | SharingMode_raw v => v
  end.

Definition SharingMode_of_int (v : Z) : SharingMode :=
  match v with
  | 0 => SharingMode_DEDICATED | 1 => SharingMode_SHARED | 2 => SharingMode_UNKNOWN
  | _ => SharingMode_raw v
  end.

Definition SharingMode_to_string (e : SharingMode) : string :=
  match e with
  | SharingMode_DEDICATED => "DEDICATED" | SharingMode_SHARED => "SHARED"
  | SharingMode_UNKNOWN => "UNKNOWN" | SharingMode_raw _ => "UNKNOWN"
  end.

Definition SharingMode_from_string (s : string) : option SharingMode :=
  enum_lookup s [
    ("DEDICATED", SharingMode_DEDICATED); ("SHARED", SharingMode_SHARED);
    ("UNKNOWN", SharingMode_UNKNOWN)].

#[export] Instance SharingMode_eq_dec : EqDecision SharingMode.
Proof. solve_decision. Defined.

#[export] Instance SharingMode_enum : CxxEnum SharingMode.
Proof.
  refine {|
    enum_to_int := SharingMode_to_int; enum_of_int := SharingMode_of_int;
    enum_to_string := SharingMode_to_string; enum_from_string := SharingMode_from_string;
    enum_named := [SharingMode_DEDICATED; SharingMode_SHARED; SharingMode_UNKNOWN]
  |}; enum_laws.
Defined.

(** ** [FailoverOutcome] *)

Inductive FailoverOutcome : Set :=
  | FailoverOutcome_KEEP | FailoverOutcome_DRAIN | FailoverOutcome_FAILOVER
  | FailoverOutcome_REVALIDATE | FailoverOutcome_REJECT | FailoverOutcome_DEGRADED
  | FailoverOutcome_LOST | FailoverOutcome_raw (v : Z).

Definition FailoverOutcome_to_int (e : FailoverOutcome) : Z :=
  match e with
  | FailoverOutcome_KEEP => 0 | FailoverOutcome_DRAIN => 1 | FailoverOutcome_FAILOVER => 2
  | FailoverOutcome_REVALIDATE => 3 | FailoverOutcome_REJECT => 4
  | FailoverOutcome_DEGRADED => 5 | FailoverOutcome_LOST => 6 | FailoverOutcome_raw v => v
  end.

Definition FailoverOutcome_of_int (v : Z) : FailoverOutcome :=
  match v with
  | 0 => FailoverOutcome_KEEP | 1 => FailoverOutcome_DRAIN | 2 => FailoverOutcome_FAILOVER
  | 3 => FailoverOutcome_REVALIDATE | 4 => FailoverOutcome_REJECT
  | 5 => FailoverOutcome_DEGRADED | 6 => FailoverOutcome_LOST | _ => FailoverOutcome_raw v
  end.

Definition FailoverOutcome_to_string (e : FailoverOutcome) : string :=
  match e with
  | FailoverOutcome_KEEP => "KEEP" | FailoverOutcome_DRAIN => "DRAIN"
  | FailoverOutcome_FAILOVER => "FAILOVER" | FailoverOutcome_REVALIDATE => "REVALIDATE"
  | FailoverOutcome_REJECT => "REJECT" | FailoverOutcome_DEGRADED => "DEGRADED"
  | FailoverOutcome_LOST => "LOST" | FailoverOutcome_raw _ => "UNKNOWN"
  end.

Definition FailoverOutcome_from_string (s : string) : option FailoverOutcome :=
  enum_lookup s [
    ("KEEP", FailoverOutcome_KEEP); ("DRAIN", FailoverOutcome_DRAIN);
    ("FAILOVER", FailoverOutcome_FAILOVER); ("REVALIDATE", FailoverOutcome_REVALIDATE);
    ("REJECT", FailoverOutcome_REJECT); ("DEGRADED", FailoverOutcome_DEGRADED);
    ("LOST", FailoverOutcome_LOST)].

#[export] Instance FailoverOutcome_eq_dec : EqDecision FailoverOutcome.
Proof. solve_decision. Defined.

#[export] Instance FailoverOutcome_enum : CxxEnum FailoverOutcome.
Proof.
  refine {|
    enum_to_int := FailoverOutcome_to_int; enum_of_int := FailoverOutcome_of_int;
    enum_to_string := FailoverOutcome_to_string; enum_from_string := FailoverOutcome_from_string;
    enum_named := [FailoverOutcome_KEEP; FailoverOutcome_DRAIN; FailoverOutcome_FAILOVER;
      FailoverOutcome_REVALIDATE; FailoverOutcome_REJECT; FailoverOutcome_DEGRADED;
      FailoverOutcome_LOST]
  |}; enum_laws.
Defined.

(** ** [FailureDomainLevel] *)

Inductive FailureDomainLevel : Set :=
  | FailureDomainLevel_NONE | FailureDomainLevel_DEVICE | FailureDomainLevel_PORT
  | FailureDomainLevel_SWITCH | FailureDomainLevel_ROOT_COMPLEX | FailureDomainLevel_HOST
  | FailureDomainLevel_RACK | FailureDomainLevel_raw (v : Z).

Definition FailureDomainLevel_to_int (e : FailureDomainLevel) : Z :=
  match e with
  | FailureDomainLevel_NONE => 0 | FailureDomainLevel_DEVICE => 1
  | FailureDomainLevel_PORT => 2 | FailureDomainLevel_SWITCH => 3
  | FailureDomainLevel_ROOT_COMPLEX => 4 | FailureDomainLevel_HOST => 5
  | FailureDomainLevel_RACK => 6 | FailureDomainLevel_raw v => v
  end.

Definition FailureDomainLevel_of_int (v : Z) : FailureDomainLevel :=
  match v with
  | 0 => FailureDomainLevel_NONE | 1 => FailureDomainLevel_DEVICE
  | 2 => FailureDomainLevel_PORT | 3 => FailureDomainLevel_SWITCH
  | 4 => FailureDomainLevel_ROOT_COMPLEX | 5 => FailureDomainLevel_HOST
  | 6 => FailureDomainLevel_RACK | _ => FailureDomainLevel_raw v
  end.

Definition FailureDomainLevel_to_string (e : FailureDomainLevel) : string :=
  match e with
  | FailureDomainLevel_NONE => "NONE" | FailureDomainLevel_DEVICE => "DEVICE"
  | FailureDomainLevel_PORT => "PORT" | FailureDomainLevel_SWITCH => "SWITCH"
  | FailureDomainLevel_ROOT_COMPLEX => "ROOT_COMPLEX" | FailureDomainLevel_HOST => "HOST"
  | FailureDomainLevel_RACK => "RACK" | FailureDomainLevel_raw _ => "UNKNOWN"
  end.

Definition FailureDomainLevel_from_string (s : string) : option FailureDomainLevel :=
  enum_lookup s [
    ("NONE", FailureDomainLevel_NONE); ("DEVICE", FailureDomainLevel_DEVICE);
    ("PORT", FailureDomainLevel_PORT); ("SWITCH", FailureDomainLevel_SWITCH);
    ("ROOT_COMPLEX", FailureDomainLevel_ROOT_COMPLEX); ("HOST", FailureDomainLevel_HOST);
    ("RACK", FailureDomainLevel_RACK)].

#[export] Instance FailureDomainLevel_eq_dec : EqDecision FailureDomainLevel.
Proof. solve_decision. Defined.

#[export] Instance FailureDomainLevel_enum : CxxEnum FailureDomainLevel.
Proof.
  refine {|
    enum_to_int := FailureDomainLevel_to_int; enum_of_int := FailureDomainLevel_of_int;
    enum_to_string := FailureDomainLevel_to_string; enum_from_string := FailureDomainLevel_from_string;
    enum_named := [FailureDomainLevel_NONE; FailureDomainLevel_DEVICE; FailureDomainLevel_PORT;
      FailureDomainLevel_SWITCH; FailureDomainLevel_ROOT_COMPLEX; FailureDomainLevel_HOST;
      FailureDomainLevel_RACK]
  |}; enum_laws.
Defined.

(** ** [DecisionReason] *)

Inductive DecisionReason : Set :=
  | DecisionReason_OK | DecisionReason_DEVICE_STALE | DecisionReason_REGION_STALE
  | DecisionReason_POOL_STALE | DecisionReason_DEVICE_NOT_ONLINE
  | DecisionReason_REGION_NOT_ONLINE | DecisionReason_EVIDENCE_STALE
  | DecisionReason_CAPABILITY_UNSUPPORTED | DecisionReason_CAPABILITY_UNKNOWN
  | DecisionReason_CAPACITY_INSUFFICIENT | DecisionReason_VOLATILITY_MISMATCH
  | DecisionReason_HOST_INCOMPATIBLE | DecisionReason_SHARING_MISMATCH
  | DecisionReason_REQUIRED_LOCALITY_UNSATISFIED
  | DecisionReason_ACCELERATOR_ACCESS_UNSATISFIED | DecisionReason_HEALTH_UNACCEPTABLE
  | DecisionReason_DRAINING | DecisionReason_FAILED | DecisionReason_POLICY_DENIED
  | DecisionReason_REVALIDATION_REQUIRED | DecisionReason_POOL_GENERATION_STALE
  | DecisionReason_RESERVATION_STALE | DecisionReason_DUPLICATE_IDENTITY
  | DecisionReason_CONFLICTING_FACTS | DecisionReason_INVALID_ARGUMENT
  | DecisionReason_RESERVATION_CONFLICT | DecisionReason_CAPACITY_OVERCOMMIT
  | DecisionReason_PERSISTENCE_CORRUPT | DecisionReason_PROTOCOL_MALFORMED
  | DecisionReason_PROTOCOL_OVERSIZED | DecisionReason_PROTOCOL_INVALID_ENUM
  | DecisionReason_PROTOCOL_INVALID_GENERATION | DecisionReason_PROTOCOL_TRAILING_GARBAGE
  | DecisionReason_UNKNOWN_ERROR | DecisionReason_raw (v : Z).

Definition DecisionReason_to_int (e : DecisionReason) : Z :=
  match e with
  | DecisionReason_OK => 0 | DecisionReason_DEVICE_STALE => 1
  | DecisionReason_REGION_STALE => 2 | DecisionReason_POOL_STALE => 3
  | DecisionReason_DEVICE_NOT_ONLINE => 4 | DecisionReason_REGION_NOT_ONLINE => 5
  | DecisionReason_EVIDENCE_STALE => 6 | DecisionReason_CAPABILITY_UNSUPPORTED => 7
  | DecisionReason_CAPABILITY_UNKNOWN => 8 | DecisionReason_CAPACITY_INSUFFICIENT => 9
  | DecisionReason_VOLATILITY_MISMATCH => 10 | DecisionReason_HOST_INCOMPATIBLE => 11
  | DecisionReason_SHARING_MISMATCH => 12
  | DecisionReason_REQUIRED_LOCALITY_UNSATISFIED => 13
  | DecisionReason_ACCELERATOR_ACCESS_UNSATISFIED => 14
  | DecisionReason_HEALTH_UNACCEPTABLE => 15 | DecisionReason_DRAINING => 16
  | DecisionReason_FAILED => 17 | DecisionReason_POLICY_DENIED => 18
  | DecisionReason_REVALIDATION_REQUIRED => 19 | DecisionReason_POOL_GENERATION_STALE => 20
  | DecisionReason_RESERVATION_STALE => 21 | DecisionReason_DUPLICATE_IDENTITY => 22
  | DecisionReason_CONFLICTING_FACTS => 23 | DecisionReason_INVALID_ARGUMENT => 24
  | DecisionReason_RESERVATION_CONFLICT => 25 | DecisionReason_CAPACITY_OVERCOMMIT => 26
  | DecisionReason_PERSISTENCE_CORRUPT => 27 | DecisionReason_PROTOCOL_MALFORMED => 28
  | DecisionReason_PROTOCOL_OVERSIZED => 29 | DecisionReason_PROTOCOL_INVALID_ENUM => 30
  | DecisionReason_PROTOCOL_INVALID_GENERATION => 31
  | DecisionReason_PROTOCOL_TRAILING_GARBAGE => 32 | DecisionReason_UNKNOWN_ERROR => 33
  | DecisionReason_raw v => v
  end.

Definition DecisionReason_of_int (v : Z) : DecisionReason :=
  match v with
  | 0 => DecisionReason_OK | 1 => DecisionReason_DEVICE_STALE
  | 2 => DecisionReason_REGION_STALE | 3 => DecisionReason_POOL_STALE
  | 4 => DecisionReason_DEVICE_NOT_ONLINE | 5 => DecisionReason_REGION_NOT_ONLINE
  | 6 => DecisionReason_EVIDENCE_STALE | 7 => DecisionReason_CAPABILITY_UNSUPPORTED
  | 8 => DecisionReason_CAPABILITY_UNKNOWN | 9 => DecisionReason_CAPACITY_INSUFFICIENT
  | 10 => DecisionReason_VOLATILITY_MISMATCH | 11 => DecisionReason_HOST_INCOMPATIBLE
  | 12 => DecisionReason_SHARING_MISMATCH
  | 13 => DecisionReason_REQUIRED_LOCALITY_UNSATISFIED
  | 14 => DecisionReason_ACCELERATOR_ACCESS_UNSATISFIED
  | 15 => DecisionReason_HEALTH_UNACCEPTABLE | 16 => DecisionReason_DRAINING
  | 17 => DecisionReason_FAILED | 18 => DecisionReason_POLICY_DENIED
  | 19 => DecisionReason_REVALIDATION_REQUIRED | 20 => DecisionReason_POOL_GENERATION_STALE
  | 21 => DecisionReason_RESERVATION_STALE | 22 => DecisionReason_DUPLICATE_IDENTITY
  | 23 => DecisionReason_CONFLICTING_FACTS | 24 => DecisionReason_INVALID_ARGUMENT
  | 25 => DecisionReason_RESERVATION_CONFLICT | 26 => DecisionReason_CAPACITY_OVERCOMMIT
  | 27 => DecisionReason_PERSISTENCE_CORRUPT | 28 => DecisionReason_PROTOCOL_MALFORMED
  | 29 => DecisionReason_PROTOCOL_OVERSIZED | 30 => DecisionReason_PROTOCOL_INVALID_ENUM
  | 31 => DecisionReason_PROTOCOL_INVALID_GENERATION
  | 32 => DecisionReason_PROTOCOL_TRAILING_GARBAGE | 33 => DecisionReason_UNKNOWN_ERROR
  | _ => DecisionReason_raw v
  end.

Definition DecisionReason_to_string (e : DecisionReason) : string :=
  match e with
  | DecisionReason_OK => "OK" | DecisionReason_DEVICE_STALE => "DEVICE_STALE"
  | DecisionReason_REGION_STALE => "REGION_STALE"
  | DecisionReason_POOL_STALE => "POOL_STALE"
  | DecisionReason_DEVICE_NOT_ONLINE => "DEVICE_NOT_ONLINE"
  | DecisionReason_REGION_NOT_ONLINE => "REGION_NOT_ONLINE"
  | DecisionReason_EVIDENCE_STALE => "EVIDENCE_STALE"
  | DecisionReason_CAPABILITY_UNSUPPORTED => "CAPABILITY_UNSUPPORTED"
  | DecisionReason_CAPABILITY_UNKNOWN => "CAPABILITY_UNKNOWN"
  | DecisionReason_CAPACITY_INSUFFICIENT => "CAPACITY_INSUFFICIENT"
  | DecisionReason_VOLATILITY_MISMATCH => "VOLATILITY_MISMATCH"
  | DecisionReason_HOST_INCOMPATIBLE => "HOST_INCOMPATIBLE"
  | DecisionReason_SHARING_MISMATCH => "SHARING_MISMATCH"
  | DecisionReason_REQUIRED_LOCALITY_UNSATISFIED => "REQUIRED_LOCALITY_UNSATISFIED"
  | DecisionReason_ACCELERATOR_ACCESS_UNSATISFIED => "ACCELERATOR_ACCESS_UNSATISFIED"
  | DecisionReason_HEALTH_UNACCEPTABLE => "HEALTH_UNACCEPTABLE"
  | DecisionReason_DRAINING => "DRAINING" | DecisionReason_FAILED => "FAILED"
  | DecisionReason_POLICY_DENIED => "POLICY_DENIED"
  | DecisionReason_REVALIDATION_REQUIRED => "REVALIDATION_REQUIRED"
  | DecisionReason_POOL_GENERATION_STALE => "POOL_GENERATION_STALE"
  | DecisionReason_RESERVATION_STALE => "RESERVATION_STALE"
  | DecisionReason_DUPLICATE_IDENTITY => "DUPLICATE_IDENTITY"
  | DecisionReason_CONFLICTING_FACTS => "CONFLICTING_FACTS"
  | DecisionReason_INVALID_ARGUMENT => "INVALID_ARGUMENT"
  | DecisionReason_RESERVATION_CONFLICT => "RESERVATION_CONFLICT"
  | DecisionReason_CAPACITY_OVERCOMMIT => "CAPACITY_OVERCOMMIT"
  | DecisionReason_PERSISTENCE_CORRUPT => "PERSISTENCE_CORRUPT"
  | DecisionReason_PROTOCOL_MALFORMED => "PROTOCOL_MALFORMED"
  | DecisionReason_PROTOCOL_OVERSIZED => "PROTOCOL_OVERSIZED"
  | DecisionReason_PROTOCOL_INVALID_ENUM => "PROTOCOL_INVALID_ENUM"
  | DecisionReason_PROTOCOL_INVALID_GENERATION => "PROTOCOL_INVALID_GENERATION"
  | DecisionReason_PROTOCOL_TRAILING_GARBAGE => "PROTOCOL_TRAILING_GARBAGE"
  | DecisionReason_UNKNOWN_ERROR => "UNKNOWN_ERROR" | DecisionReason_raw _ => "UNKNOWN"
  end.

Definition DecisionReason_from_string (s : string) : option DecisionReason :=
  enum_lookup s [
    ("OK", DecisionReason_OK); ("DEVICE_STALE", DecisionReason_DEVICE_STALE);
    ("REGION_STALE", DecisionReason_REGION_STALE);
    ("POOL_STALE", DecisionReason_POOL_STALE);
    ("DEVICE_NOT_ONLINE", DecisionReason_DEVICE_NOT_ONLINE);
    ("REGION_NOT_ONLINE", DecisionReason_REGION_NOT_ONLINE);
    ("EVIDENCE_STALE", DecisionReason_EVIDENCE_STALE);
    ("CAPABILITY_UNSUPPORTED", DecisionReason_CAPABILITY_UNSUPPORTED);
    ("CAPABILITY_UNKNOWN", DecisionReason_CAPABILITY_UNKNOWN);
    ("CAPACITY_INSUFFICIENT", DecisionReason_CAPACITY_INSUFFICIENT);
    ("VOLATILITY_MISMATCH", DecisionReason_VOLATILITY_MISMATCH);
    ("HOST_INCOMPATIBLE", DecisionReason_HOST_INCOMPATIBLE);
    ("SHARING_MISMATCH", DecisionReason_SHARING_MISMATCH);
    ("REQUIRED_LOCALITY_UNSATISFIED", DecisionReason_REQUIRED_LOCALITY_UNSATISFIED);
    ("ACCELERATOR_ACCESS_UNSATISFIED", DecisionReason_ACCELERATOR_ACCESS_UNSATISFIED);
    ("HEALTH_UNACCEPTABLE", DecisionReason_HEALTH_UNACCEPTABLE);
    ("DRAINING", DecisionReason_DRAINING); ("FAILED", DecisionReason_FAILED);
    ("POLICY_DENIED", DecisionReason_POLICY_DENIED);
    ("REVALIDATION_REQUIRED", DecisionReason_REVALIDATION_REQUIRED);
    ("POOL_GENERATION_STALE", DecisionReason_POOL_GENERATION_STALE);
    ("RESERVATION_STALE", DecisionReason_RESERVATION_STALE);
    ("DUPLICATE_IDENTITY", DecisionReason_DUPLICATE_IDENTITY);
    ("CONFLICTING_FACTS", DecisionReason_CONFLICTING_FACTS);
    ("INVALID_ARGUMENT", DecisionReason_INVALID_ARGUMENT);
    ("RESERVATION_CONFLICT", DecisionReason_RESERVATION_CONFLICT);
    ("CAPACITY_OVERCOMMIT", DecisionReason_CAPACITY_OVERCOMMIT);
    ("PERSISTENCE_CORRUPT", DecisionReason_PERSISTENCE_CORRUPT);
    ("PROTOCOL_MALFORMED", DecisionReason_PROTOCOL_MALFORMED);
    ("PROTOCOL_OVERSIZED", DecisionReason_PROTOCOL_OVERSIZED);
    ("PROTOCOL_INVALID_ENUM", DecisionReason_PROTOCOL_INVALID_ENUM);
    ("PROTOCOL_INVALID_GENERATION", DecisionReason_PROTOCOL_INVALID_GENERATION);
    ("PROTOCOL_TRAILING_GARBAGE", DecisionReason_PROTOCOL_TRAILING_GARBAGE);
    ("UNKNOWN_ERROR", DecisionReason_UNKNOWN_ERROR)].

#[export] Instance DecisionReason_eq_dec : EqDecision DecisionReason.
Proof. solve_decision. Defined.

#[export] Instance DecisionReason_enum : CxxEnum DecisionReason.
Proof.
  refine {|
    enum_to_int := DecisionReason_to_int; enum_of_int := DecisionReason_of_int;
    enum_to_string := DecisionReason_to_string; enum_from_string := DecisionReason_from_string;
    enum_named := [DecisionReason_OK; DecisionReason_DEVICE_STALE; DecisionReason_REGION_STALE;
      DecisionReason_POOL_STALE; DecisionReason_DEVICE_NOT_ONLINE;
      DecisionReason_REGION_NOT_ONLINE; DecisionReason_EVIDENCE_STALE;
      DecisionReason_CAPABILITY_UNSUPPORTED; DecisionReason_CAPABILITY_UNKNOWN;
      DecisionReason_CAPACITY_INSUFFICIENT; DecisionReason_VOLATILITY_MISMATCH;
      DecisionReason_HOST_INCOMPATIBLE; DecisionReason_SHARING_MISMATCH;
      DecisionReason_REQUIRED_LOCALITY_UNSATISFIED;
      DecisionReason_ACCELERATOR_ACCESS_UNSATISFIED; DecisionReason_HEALTH_UNACCEPTABLE;
      DecisionReason_DRAINING; DecisionReason_FAILED; DecisionReason_POLICY_DENIED;
      DecisionReason_REVALIDATION_REQUIRED; DecisionReason_POOL_GENERATION_STALE;
      DecisionReason_RESERVATION_STALE; DecisionReason_DUPLICATE_IDENTITY;
      DecisionReason_CONFLICTING_FACTS; DecisionReason_INVALID_ARGUMENT;
      DecisionReason_RESERVATION_CONFLICT; DecisionReason_CAPACITY_OVERCOMMIT;
      DecisionReason_PERSISTENCE_CORRUPT; DecisionReason_PROTOCOL_MALFORMED;
      DecisionReason_PROTOCOL_OVERSIZED; DecisionReason_PROTOCOL_INVALID_ENUM;
      DecisionReason_PROTOCOL_INVALID_GENERATION; DecisionReason_PROTOCOL_TRAILING_GARBAGE;
      DecisionReason_UNKNOWN_ERROR]
  |}; enum_laws.
Defined.

(** ** Round trips *)

(** A value the 32-bit conversions can carry: it is the value [enum_of_int] gives for
    its integer, and that integer is an [int]. *)
Definition enum_canonical `{CxxEnum E} (e : E) : Prop :=
  enum_of_int (enum_to_int e) = e /\ -2 ^ 31 <= enum_to_int e < 2 ^ 31.

Lemma s32_u32 x : -2 ^ 31 <= x < 2 ^ 31 -> s32 (u32 x) = x.
Proof.
  intros Hx. unfold s32, u32. rewrite Z.add_mod_idemp_l by lia.
  rewrite Z.mod_small by lia. lia.
Qed.

Lemma u32_s32 u : in_u32 u -> u32 (s32 u) = u.
Proof.
  intros Hu. unfold in_u32 in Hu. unfold s32, u32.
  rewrite Zminus_mod_idemp_l. replace (u + 2 ^ 31 - 2 ^ 31) with u by lia.
  by apply Z.mod_small.
Qed.

Lemma s32_range x : -2 ^ 31 <= s32 x < 2 ^ 31.
Proof. unfold s32. pose proof (Z.mod_pos_bound (x + 2 ^ 31) (2 ^ 32) ltac:(lia)). lia. Qed.

Lemma enum_u32_round_trip `{CxxEnum E} (e : E) :
  enum_canonical e -> enum_of_u32 (enum_to_u32 e) = e.
Proof.
  intros [Hc Hr]. unfold enum_of_u32, enum_to_u32. by rewrite s32_u32.
Qed.

Lemma enum_of_u32_canonical `{CxxEnum E} (u : Z) : enum_canonical (enum_of_u32 (E := E) u).
Proof.
  unfold enum_canonical, enum_of_u32. rewrite enum_to_of. split; [done | apply s32_range].
Qed.

Lemma enum_to_of_u32 `{CxxEnum E} (u : Z) :
  in_u32 u -> enum_to_u32 (enum_of_u32 (E := E) u) = u.
Proof. intros Hu. unfold enum_to_u32, enum_of_u32. by rewrite enum_to_of, u32_s32. Qed.

(** The string form and the 32-bit form of an enumeration both round-trip. *)
Record enum_round_trips (E : Type) `{CxxEnum E} : Prop := {
  ert_string : forall e : E, e ∈ enum_named -> enum_from_string (enum_to_string e) = Some e;
  ert_strict : forall s (e : E), enum_from_string s = Some e ->
                 e ∈ enum_named /\ enum_to_string e = s;
  ert_word : forall e : E, e ∈ enum_named -> enum_of_u32 (enum_to_u32 e) = e;
  ert_value : forall u, in_u32 u -> enum_to_u32 (enum_of_u32 (E := E) u) = u;
}.

Lemma enum_round_trips_intro (E : Type) `{CxxEnum E} :
  Forall (fun e : E => -2 ^ 31 <= enum_to_int e < 2 ^ 31) enum_named -> enum_round_trips E.
Proof.
  intros Hall. rewrite Forall_forall in Hall. split.
  - exact enum_from_to.
  - exact enum_from_sound.
  - intros e He. apply enum_u32_round_trip. split; [by apply enum_of_to | by apply Hall].
  - exact enum_to_of_u32.
Qed.

(** Every enumeration round-trips, through its name and through its wire word. For
    each of the 17 enumerations: parsing the printed name of an enumerator gives it
    back; parsing accepts no other string than the printed names; and the conversion to
    and from a 32-bit word loses nothing, in either direction. *)
Theorem enumerations_round_trip :
  enum_round_trips Provenance /\
  enum_round_trips HealthState /\
  enum_round_trips DeviceState /\
  enum_round_trips RegionState /\
  enum_round_trips PoolState /\
  enum_round_trips CapabilityClass /\
  enum_round_trips SupportState /\
  enum_round_trips EvidenceClass /\
  enum_round_trips LocalityClass /\
  enum_round_trips TierClass /\
  enum_round_trips AcceleratorAccessState /\
  enum_round_trips ResumeState /\
  enum_round_trips VolatilityKind /\
  enum_round_trips SharingMode /\
  enum_round_trips FailoverOutcome /\
  enum_round_trips FailureDomainLevel /\
  enum_round_trips DecisionReason.
Proof.
  repeat apply conj; apply enum_round_trips_intro; apply (bool_decide_unpack _); by vm_compute.
Qed.
