(* ===== verification/Lifecycle.v ===== *)
(** * Validated lifecycle transitions ([core/lifecycle.hpp])

    The three state machines of the fabric. [valid_transition] is overloaded in the
    source; the overload of each state type has its own name here. *)
From S2P Require Import Prelude.
From S2P Require Import Enums.

Definition valid_transition_device (from to : DeviceState) : bool :=
  if bool_decide (from = to) then true else
  match from with
  | DeviceState_DISCOVERED =>
      bool_decide (to ∈ [DeviceState_ENUMERATED])
  | DeviceState_ENUMERATED =>
      bool_decide (to ∈ [DeviceState_AVAILABLE; DeviceState_DISCOVERED; DeviceState_OFFLINE;
                         DeviceState_FAILED; DeviceState_RETIRED])
  | DeviceState_AVAILABLE =>
      bool_decide (to ∈ [DeviceState_ONLINE; DeviceState_DEGRADED; DeviceState_DRAINING;
                         DeviceState_REVALIDATION_REQUIRED; DeviceState_OFFLINE;
                         DeviceState_FAILED; DeviceState_REMOVED; DeviceState_RETIRED])
  | DeviceState_ONLINE =>
      bool_decide (to ∈ [DeviceState_ONLINE; DeviceState_DEGRADED; DeviceState_DRAINING;
                         DeviceState_REVALIDATION_REQUIRED; DeviceState_OFFLINE;
                         DeviceState_FAILED; DeviceState_REMOVED; DeviceState_RETIRED])
  | DeviceState_DEGRADED =>
      bool_decide (to ∈ [DeviceState_ONLINE; DeviceState_AVAILABLE; DeviceState_DRAINING;
                         DeviceState_REVALIDATION_REQUIRED; DeviceState_OFFLINE;
                         DeviceState_FAILED; DeviceState_REMOVED; DeviceState_RETIRED])
  | DeviceState_DRAINING =>
      bool_decide (to ∈ [DeviceState_ONLINE; DeviceState_AVAILABLE;
                         DeviceState_REVALIDATION_REQUIRED; DeviceState_OFFLINE;
                         DeviceState_FAILED; DeviceState_REMOVED; DeviceState_RETIRED])
  | DeviceState_REVALIDATION_REQUIRED =>
      bool_decide (to ∈ [DeviceState_ONLINE; DeviceState_AVAILABLE;
                         DeviceState_REVALIDATION_REQUIRED; DeviceState_OFFLINE;
                         DeviceState_FAILED; DeviceState_REMOVED; DeviceState_RETIRED])
  | DeviceState_OFFLINE =>
      bool_decide (to ∈ [DeviceState_ONLINE; DeviceState_AVAILABLE;
                         DeviceState_REVALIDATION_REQUIRED; DeviceState_REMOVED;
                         DeviceState_RETIRED])
  | DeviceState_FAILED =>
      bool_decide (to ∈ [DeviceState_REMOVED; DeviceState_RETIRED])
  | DeviceState_REMOVED =>
      bool_decide (to ∈ [DeviceState_RETIRED])
  | DeviceState_RETIRED => false
  | DeviceState_raw _ => false
  end.

Definition valid_transition_region (from to : RegionState) : bool :=
  if bool_decide (from = to) then true else
  match from with
  | RegionState_DEFINED =>
      bool_decide (to ∈ [RegionState_VALIDATING; RegionState_RETIRED])
  | RegionState_VALIDATING =>
      bool_decide (to ∈ [RegionState_ONLINE; RegionState_DEFINED; RegionState_FAILED;
                         RegionState_RETIRED])
  | RegionState_ONLINE =>
      bool_decide (to ∈ [RegionState_DEGRADED; RegionState_DRAINING; RegionState_RECONFIGURING;
                         RegionState_REVALIDATION_REQUIRED; RegionState_OFFLINE;
                         RegionState_FAILED; RegionState_RETIRED])
  | RegionState_DEGRADED =>
      bool_decide (to ∈ [RegionState_ONLINE; RegionState_DRAINING; RegionState_RECONFIGURING;
                         RegionState_REVALIDATION_REQUIRED; RegionState_OFFLINE;
                         RegionState_FAILED; RegionState_RETIRED])
  | RegionState_DRAINING =>
      bool_decide (to ∈ [RegionState_ONLINE; RegionState_REVALIDATION_REQUIRED;
                         RegionState_OFFLINE; RegionState_FAILED; RegionState_RETIRED])
  | RegionState_RECONFIGURING =>
      bool_decide (to ∈ [RegionState_ONLINE; RegionState_VALIDATING;
                         RegionState_REVALIDATION_REQUIRED; RegionState_FAILED;
                         RegionState_RETIRED])
  | RegionState_REVALIDATION_REQUIRED =>
      bool_decide (to ∈ [RegionState_ONLINE; RegionState_VALIDATING; RegionState_DRAINING;
                         RegionState_OFFLINE; RegionState_FAILED; RegionState_RETIRED])
  | RegionState_OFFLINE =>
      bool_decide (to ∈ [RegionState_ONLINE; RegionState_VALIDATING;
                         RegionState_REVALIDATION_REQUIRED; RegionState_RETIRED])
  | RegionState_FAILED =>
      bool_decide (to ∈ [RegionState_RETIRED])
  | RegionState_RETIRED => false
  | RegionState_raw _ => false
  end.

Definition valid_transition_pool (from to : PoolState) : bool :=
  if bool_decide (from = to) then true else
  match from with
  | PoolState_DEFINED =>
      bool_decide (to ∈ [PoolState_AVAILABLE; PoolState_FAILED; PoolState_RETIRED])
  | PoolState_AVAILABLE =>
      bool_decide (to ∈ [PoolState_DEGRADED; PoolState_DRAINING;
                         PoolState_REVALIDATION_REQUIRED; PoolState_FAILED; PoolState_RETIRED])
  | PoolState_DEGRADED =>
      bool_decide (to ∈ [PoolState_AVAILABLE; PoolState_DRAINING;
                         PoolState_REVALIDATION_REQUIRED; PoolState_FAILED; PoolState_RETIRED])
  | PoolState_DRAINING =>
      bool_decide (to ∈ [PoolState_AVAILABLE; PoolState_REVALIDATION_REQUIRED;
                         PoolState_FAILED; PoolState_RETIRED])
  | PoolState_REVALIDATION_REQUIRED =>
      bool_decide (to ∈ [PoolState_AVAILABLE; PoolState_DEGRADED; PoolState_DRAINING;
                         PoolState_FAILED; PoolState_RETIRED])
  | PoolState_FAILED =>
      bool_decide (to ∈ [PoolState_RETIRED])
  | PoolState_RETIRED => false
  | PoolState_raw _ => false
  end.

(** ** Reachability *)

Definition device_step (a b : DeviceState) : Prop := valid_transition_device a b = true.
Definition region_step (a b : RegionState) : Prop := valid_transition_region a b = true.
Definition pool_step (a b : PoolState) : Prop := valid_transition_pool a b = true.

(** A set of states closed under the transitions confines every path that starts
    in it. *)
Lemma closed_confines {S} (step : S -> S -> Prop) (inside : S -> Prop) a b :
  (forall x y, inside x -> step x y -> inside y) -> rtc step a b -> inside a -> inside b.
Proof. intros Hclosed. induction 1; eauto. Qed.

Definition device_dead (s : DeviceState) : Prop :=
  s ∈ [DeviceState_FAILED; DeviceState_REMOVED; DeviceState_RETIRED].
Definition region_dead (s : RegionState) : Prop :=
  s ∈ [RegionState_FAILED; RegionState_RETIRED].
Definition pool_dead (s : PoolState) : Prop :=
  s ∈ [PoolState_FAILED; PoolState_RETIRED].

#[export] Instance device_dead_dec s : Decision (device_dead s).
Proof. unfold device_dead. apply _. Defined.
#[export] Instance region_dead_dec s : Decision (region_dead s).
Proof. unfold region_dead. apply _. Defined.
#[export] Instance pool_dead_dec s : Decision (pool_dead s).
Proof. unfold pool_dead. apply _. Defined.

(** Decides a closed statement about named states by evaluation. *)
Ltac by_evaluation := first [by vm_compute | apply (bool_decide_unpack _); by vm_compute].

Lemma device_dead_closed x y : device_dead x -> device_step x y -> device_dead y.
Proof.
  intros Hx Hs. unfold device_step in Hs.
  destruct x; try (exfalso; revert Hx; by_evaluation);
    destruct y; first [by_evaluation | exfalso; revert Hs; by vm_compute].
Qed.

Lemma region_dead_closed x y : region_dead x -> region_step x y -> region_dead y.
Proof.
  intros Hx Hs. unfold region_step in Hs.
  destruct x; try (exfalso; revert Hx; by_evaluation);
    destruct y; first [by_evaluation | exfalso; revert Hs; by vm_compute].
Qed.

Lemma pool_dead_closed x y : pool_dead x -> pool_step x y -> pool_dead y.
Proof.
  intros Hx Hs. unfold pool_step in Hs.
  destruct x; try (exfalso; revert Hx; by_evaluation);
    destruct y; first [by_evaluation | exfalso; revert Hs; by vm_compute].
Qed.

(** A pool never enters or leaves [RETIRED] by a transition to a live state. *)
Lemma pool_step_retired a b :
  pool_step a b -> b <> PoolState_RETIRED -> a <> PoolState_RETIRED.
Proof. intros Hs Hb ->. unfold pool_step in Hs. destruct b; try discriminate; done. Qed.

(** Failure and retirement are final: along any sequence of validated
    transitions, of any length, a device that is FAILED, REMOVED or RETIRED stays
    in these three states, a region or a pool that is FAILED or RETIRED stays in
    these two, and the RETIRED states have no successor but themselves. *)
Theorem lifecycle_failure_is_final :
  (forall a b, rtc device_step a b -> device_dead a -> device_dead b) /\
  (forall a b, rtc region_step a b -> region_dead a -> region_dead b) /\
  (forall a b, rtc pool_step a b -> pool_dead a -> pool_dead b) /\
  (forall d, device_step DeviceState_RETIRED d -> d = DeviceState_RETIRED) /\
  (forall r, region_step RegionState_RETIRED r -> r = RegionState_RETIRED) /\
  (forall p, pool_step PoolState_RETIRED p -> p = PoolState_RETIRED).
Proof.
  repeat split; intros.
  - eapply closed_confines; eauto using device_dead_closed.
  - eapply closed_confines; eauto using region_dead_closed.
  - eapply closed_confines; eauto using pool_dead_closed.
  - destruct d; first [done | by vm_compute in H].
  - destruct r; first [done | by vm_compute in H].
  - destruct p; first [done | by vm_compute in H].
Qed.

(** Finds a path of at most four transitions through the given states. *)
Ltac path_through a b c :=
  first
    [ apply rtc_refl
    | apply rtc_once; by vm_compute
    | apply (rtc_l _ _ a); [by vm_compute|]; path_through b c a
    | apply (rtc_l _ _ b); [by vm_compute|]; apply rtc_once; by vm_compute ].

(** No state is a trap: every named state can reach RETIRED by validated
    transitions, and every named state that is not dead can reach the state in
    which it serves requests (ONLINE for devices and regions, AVAILABLE for
    pools). *)
Theorem lifecycle_no_trap_state :
  (forall d, d ∈ enum_named ->
     rtc device_step d DeviceState_RETIRED /\
     (~ device_dead d -> rtc device_step d DeviceState_ONLINE)) /\
  (forall r, r ∈ enum_named ->
     rtc region_step r RegionState_RETIRED /\
     (~ region_dead r -> rtc region_step r RegionState_ONLINE)) /\
  (forall p, p ∈ enum_named ->
     rtc pool_step p PoolState_RETIRED /\
     (~ pool_dead p -> rtc pool_step p PoolState_AVAILABLE)).
Proof.
  split; [|split].
  - intros d Hd. destruct d; try (exfalso; revert Hd; by_evaluation);
      (split; [| intros Hlive; try (exfalso; apply Hlive; by_evaluation)]);
      path_through DeviceState_ENUMERATED DeviceState_AVAILABLE DeviceState_ONLINE.
  - intros r Hr. destruct r; try (exfalso; revert Hr; by_evaluation);
      (split; [| intros Hlive; try (exfalso; apply Hlive; by_evaluation)]);
      path_through RegionState_VALIDATING RegionState_ONLINE RegionState_RETIRED.
  - intros p Hp. destruct p; try (exfalso; revert Hp; by_evaluation);
      (split; [| intros Hlive; try (exfalso; apply Hlive; by_evaluation)]);
      path_through PoolState_AVAILABLE PoolState_DEGRADED PoolState_RETIRED.
Qed.
