(* ===== verification/Accounting.v ===== *)
(** * Capacity accounting ([core/accounting.hpp])

    Checked 64-bit arithmetic and the governed capacity line. An operation of the
    source that returns [bool] and writes through a reference returns the new value
    paired with the result; [add_checked] and its siblings return [None] for
    [false]. *)
From S2P Require Import Prelude.

Definition add_checked (a b : Z) : option Z :=
  if bool_decide (a > UINT64_MAX - b) then None else Some (add64 a b).
Definition sub_checked (a b : Z) : option Z :=
  if bool_decide (b > a) then None else Some (sub64 a b).
Definition mul_checked (a b : Z) : option Z :=
  if negb (a =? 0) && bool_decide (b > UINT64_MAX / a) then None else Some (u64 (a * b)).

Record CapacityLine : Set := mkLine {
  total : Z;
  online : Z;
  unavailable : Z;
  reserved : Z;
  committed : Z;
  draining : Z;
}.

#[export] Instance CapacityLine_eq_dec : EqDecision CapacityLine.
Proof. solve_decision. Defined.

Definition line_default : CapacityLine := mkLine 0 0 0 0 0 0.

(** [unavailable + reserved + committed + draining], in 64 bits as the source
    writes it. *)
Definition line_used (l : CapacityLine) : Z :=
  add64 (add64 (add64 (unavailable l) (reserved l)) (committed l)) (draining l).

Definition line_free (l : CapacityLine) : Z :=
  let used := line_used l in
  if bool_decide (online l <= used) then 0 else sub64 (online l) used.

(** [audit]: [None] when every invariant holds, the error text otherwise. *)
Definition line_audit (l : CapacityLine) : option string :=
  let used := line_used l in
  if bool_decide (online l > total l) then Some "online > total"
  else if bool_decide (used > online l) then Some "used > online"
  else if bool_decide (line_free l > online l) then Some "free > online"
  else None.

Definition line_reserve (l : CapacityLine) (n : Z) : bool * CapacityLine :=
  if n =? 0 then (false, l)
  else if bool_decide (n > line_free l) then (false, l)
  else (true, mkLine (total l) (online l) (unavailable l)
                     (add64 (reserved l) n) (committed l) (draining l)).

Definition line_commit (l : CapacityLine) (n : Z) : bool * CapacityLine :=
  if (n =? 0) || bool_decide (n > reserved l) then (false, l)
  else
    let l1 := mkLine (total l) (online l) (unavailable l)
                     (sub64 (reserved l) n) (committed l) (draining l) in
    match add_checked (committed l1) n with
    | None => (false, l1)
    | Some c => (true, mkLine (total l1) (online l1) (unavailable l1)
                              (reserved l1) c (draining l1))
    end.

Definition line_release (l : CapacityLine) (n : Z) : bool * CapacityLine :=
  let '(c, remaining) :=
    if bool_decide (n > 0) && bool_decide (committed l > 0)
    then let take := if bool_decide (n < committed l) then n else committed l in
         (sub64 (committed l) take, sub64 n take)
    else (committed l, n) in
  if bool_decide (remaining > 0) then
    if bool_decide (remaining > reserved l) then (false, l)
    else (true, mkLine (total l) (online l) (unavailable l)
                       (sub64 (reserved l) remaining) c (draining l))
  else (true, mkLine (total l) (online l) (unavailable l) (reserved l) c (draining l)).

Definition line_fence_drain (l : CapacityLine) (n : Z) : bool * CapacityLine :=
  if bool_decide (n > add64 (add64 (line_free l) (reserved l)) (committed l))
  then (false, l)
  else (true, mkLine (total l) (online l) (unavailable l) (reserved l) (committed l)
                     (add64 (draining l) n)).

(** ** The governed invariant

    [line_ok] states the documented invariants over unbounded integers: every
    component is a 64-bit value, the four used components together fit in the
    online capacity, and the online capacity in the total. *)

Definition line_sum (l : CapacityLine) : Z :=
  unavailable l + reserved l + committed l + draining l.

Definition line_nonneg (l : CapacityLine) : Prop :=
  0 <= unavailable l /\ 0 <= reserved l /\ 0 <= committed l /\ 0 <= draining l.

Definition line_ok (l : CapacityLine) : Prop :=
  line_nonneg l /\ line_sum l <= online l <= total l /\ total l <= UINT64_MAX.

(** ** Checked arithmetic is exact or refuses *)

Lemma add_checked_spec a b :
  in_u64 a -> in_u64 b ->
  add_checked a b = if bool_decide (a + b <= UINT64_MAX) then Some (a + b) else None.
Proof.
  unfold in_u64, add_checked. intros. repeat case_bool_decide; try lia; [done|].
  by rewrite add64_small by lia.
Qed.

Lemma sub_checked_spec a b :
  in_u64 a -> in_u64 b ->
  sub_checked a b = if bool_decide (b <= a) then Some (a - b) else None.
Proof.
  unfold in_u64, sub_checked. intros. repeat case_bool_decide; try lia; [done|].
  by rewrite sub64_small by lia.
Qed.

Lemma mul_checked_spec a b :
  in_u64 a -> in_u64 b ->
  mul_checked a b = if bool_decide (a * b <= UINT64_MAX) then Some (a * b) else None.
Proof.
  unfold in_u64, mul_checked. intros Ha Hb.
  destruct (Z.eqb_spec a 0) as [-> | Ha0]; simpl; [done|].
  assert (b > UINT64_MAX / a <-> UINT64_MAX < a * b) as Hiff.
  { split; intros H.
    - destruct (Z_lt_le_dec UINT64_MAX (a * b)); [done|].
      pose proof (Z.div_le_lower_bound UINT64_MAX a b ltac:(lia) ltac:(lia)). lia.
    - apply Z.lt_gt, Z.div_lt_upper_bound; lia. }
  repeat case_bool_decide; try lia; [done|]. f_equal. apply u64_small. unfold in_u64. nia.
Qed.

(** Checked arithmetic is exact: on 64-bit operands [add_checked],
    [sub_checked] and [mul_checked] return the mathematical sum, difference and
    product whenever it is a 64-bit value, and refuse in every other case; no
    result is ever a wrapped one. *)
Theorem checked_arithmetic_exact a b :
  in_u64 a -> in_u64 b ->
  add_checked a b = (if bool_decide (in_u64 (a + b)) then Some (a + b) else None) /\
  sub_checked a b = (if bool_decide (in_u64 (a - b)) then Some (a - b) else None) /\
  mul_checked a b = (if bool_decide (in_u64 (a * b)) then Some (a * b) else None).
Proof.
  intros Ha Hb. rewrite add_checked_spec, sub_checked_spec, mul_checked_spec by done.
  unfold in_u64 in *. repeat split; repeat case_bool_decide; try done; nia.
Qed.

Lemma checked_arithmetic_exact_witness :
  in_u64 UINT64_MAX /\ in_u64 2 /\
  add_checked UINT64_MAX 2 = None /\ mul_checked UINT64_MAX 2 = None.
Proof.
  assert (in_u64 UINT64_MAX) as H1 by (by vm_compute).
  assert (in_u64 2) as H2 by (by vm_compute).
  destruct (checked_arithmetic_exact UINT64_MAX 2 H1 H2) as (-> & _ & ->).
  repeat split; by vm_compute.
Defined.

(** ** The operations of a capacity line *)

Lemma line_used_exact l : line_nonneg l -> line_sum l <= UINT64_MAX -> line_used l = line_sum l.
Proof.
  unfold line_nonneg, line_used, line_sum. intros (?&?&?&?) ?.
  rewrite (add64_small (unavailable l)), (add64_small (_ + _)), add64_small by lia. done.
Qed.

Lemma line_free_exact l : line_ok l -> line_free l = online l - line_sum l.
Proof.
  intros (Hnn & Hs & Ht). unfold line_free. rewrite line_used_exact by (done || lia).
  assert (0 <= line_sum l) by (unfold line_nonneg, line_sum in *; lia).
  case_bool_decide; [lia|]. apply sub64_small; lia.
Qed.

Lemma line_audit_exact l :
  line_nonneg l -> line_sum l <= UINT64_MAX -> total l <= UINT64_MAX ->
  line_audit l = None <-> line_ok l.
Proof.
  intros Hnn Hs Ht. unfold line_audit. rewrite line_used_exact by done.
  assert (0 <= line_sum l) by (unfold line_nonneg, line_sum in *; lia).
  split.
  - intros Ha. by repeat case_bool_decide.
  - intros Hok. rewrite line_free_exact by done. destruct Hok as (_ & ? & _).
    repeat (case_bool_decide; [lia|]). done.
Qed.

Lemma line_reserve_exact l n :
  line_ok l -> in_u64 n ->
  line_reserve l n =
    if bool_decide (0 < n <= online l - line_sum l)
    then (true, mkLine (total l) (online l) (unavailable l) (reserved l + n) (committed l)
                       (draining l))
    else (false, l).
Proof.
  intros Hok Hn. unfold line_reserve. rewrite line_free_exact by done.
  destruct Hok as ((?&?&?&?) & ? & ?). unfold line_sum, in_u64 in *.
  destruct (Z.eqb_spec n 0); repeat case_bool_decide; try lia; try done.
  rewrite add64_small by lia. done.
Qed.

Lemma line_commit_exact l n :
  line_ok l -> in_u64 n ->
  line_commit l n =
    if bool_decide (0 < n <= reserved l)
    then (true, mkLine (total l) (online l) (unavailable l) (reserved l - n) (committed l + n)
                       (draining l))
    else (false, l).
Proof.
  intros Hok Hn. unfold line_commit.
  destruct Hok as ((?&?&?&?) & ? & ?). unfold line_sum, in_u64 in *.
  destruct (Z.eqb_spec n 0); simpl; repeat case_bool_decide; simpl; try lia; try done.
  rewrite add_checked_spec by (unfold in_u64; lia). case_bool_decide; [|lia].
  rewrite sub64_small by lia. done.
Qed.

Lemma line_release_exact l n :
  line_ok l -> in_u64 n ->
  line_release l n =
    if bool_decide (n <= committed l + reserved l)
    then (true, mkLine (total l) (online l) (unavailable l)
                       (reserved l - (n - Z.min n (committed l)))
                       (committed l - Z.min n (committed l)) (draining l))
    else (false, l).
Proof.
  intros Hok Hn. unfold line_release.
  destruct Hok as ((?&?&?&?) & ? & ?). unfold line_sum, in_u64 in *.
  repeat case_bool_decide; simpl; try lia.
  all: rewrite ?sub64_small in * by lia.
  all: repeat case_bool_decide; try lia; try done.
  all: rewrite ?sub64_small by lia; f_equal; destruct l; simpl in *; f_equal; lia.
Qed.

(** The operations of a governed capacity line do exactly what their
    documentation says, on every 64-bit argument: [reserve] succeeds exactly when
    0 < n <= free and moves n bytes from free to reserved; [commit] succeeds exactly
    when 0 < n <= reserved and moves them to committed; [release] succeeds exactly
    when n does not exceed what is outstanding, taking from committed first; a
    refused operation changes nothing; and the invariant holds again afterwards,
    with free + unavailable + reserved + committed + draining = online. *)
Theorem capacity_line_operations l n :
  line_ok l -> in_u64 n ->
  line_reserve l n =
    (if bool_decide (0 < n <= line_free l)
     then (true, mkLine (total l) (online l) (unavailable l) (reserved l + n) (committed l)
                        (draining l))
     else (false, l)) /\
  line_commit l n =
    (if bool_decide (0 < n <= reserved l)
     then (true, mkLine (total l) (online l) (unavailable l) (reserved l - n)
                        (committed l + n) (draining l))
     else (false, l)) /\
  line_release l n =
    (if bool_decide (n <= committed l + reserved l)
     then (true, mkLine (total l) (online l) (unavailable l)
                        (reserved l - (n - Z.min n (committed l)))
                        (committed l - Z.min n (committed l)) (draining l))
     else (false, l)) /\
  Forall (fun l' => line_ok l' /\ line_audit l' = None /\
                    line_free l' + line_sum l' = online l')
         [(line_reserve l n).2; (line_commit l n).2; (line_release l n).2].
Proof.
  intros Hok Hn. rewrite line_free_exact by done.
  rewrite line_reserve_exact, line_commit_exact, line_release_exact by done.
  do 3 (split; [done|]).
  assert (Hall : forall l', line_ok l' ->
    line_ok l' /\ line_audit l' = None /\ line_free l' + line_sum l' = online l').
  { intros l' Hok'. split; [done|]. split; [|rewrite line_free_exact by done; lia].
    apply line_audit_exact; try done; destruct Hok' as (? & ? & ?); lia || done. }
  repeat (apply Forall_cons; split); try apply Forall_nil_2; apply Hall; case_bool_decide; simpl; try done;
    destruct Hok as ((?&?&?&?) & ? & ?);
    unfold line_ok, line_nonneg, line_sum, in_u64 in *; simpl in *; lia.
Qed.

Lemma capacity_line_operations_witness :
  let l := mkLine 100 80 10 20 5 0 in
  line_ok l /\ in_u64 25 /\ line_release l 25 = (true, mkLine 100 80 10 0 0 0).
Proof.
  simpl. assert (line_ok (mkLine 100 80 10 20 5 0)) as H1 by (by vm_compute).
  assert (in_u64 25) as H2 by (by vm_compute).
  destruct (capacity_line_operations _ 25 H1 H2) as (_ & _ & -> & _).
  repeat split; by vm_compute.
Defined.

(** [fence_drain] does not keep the invariant: it marks bytes as draining
    without taking them from the free, reserved or committed components it checked
    them against. Whenever it is asked to fence more than the free bytes and
    accepts, the result fails [audit]. *)
Theorem fence_drain_breaks_invariant l n :
  line_ok l -> in_u64 n -> line_free l < n <= line_free l + reserved l + committed l ->
  (line_fence_drain l n).1 = true /\
  (draining l + n + unavailable l + reserved l + committed l <= UINT64_MAX ->
   line_audit (line_fence_drain l n).2 = Some "used > online").
Proof.
  intros Hok Hn Hrange. pose proof (line_free_exact l Hok) as Hf.
  destruct Hok as ((?&?&?&?) & ? & ?). unfold line_sum, in_u64 in *.
  unfold line_fence_drain. rewrite (add64_small (line_free l)), add64_small by lia.
  case_bool_decide; [lia|].
  split; [done|]. intros Hfit. unfold line_audit. simpl.
  rewrite add64_small by lia. case_bool_decide; [lia|].
  rewrite line_used_exact by (unfold line_nonneg, line_sum; simpl; lia).
  unfold line_sum; simpl. case_bool_decide; [done|lia].
Qed.

Lemma fence_drain_breaks_invariant_witness :
  let l := mkLine 10 10 0 10 0 0 in
  line_ok l /\ line_audit l = None /\
  line_fence_drain l 5 = (true, mkLine 10 10 0 10 0 5) /\
  line_audit (line_fence_drain l 5).2 = Some "used > online".
Proof.
  simpl. assert (line_ok (mkLine 10 10 0 10 0 0)) as H1 by (by vm_compute).
  destruct (fence_drain_breaks_invariant _ 5 H1) as [_ H]; [by vm_compute.. |].
  split; [done|]. do 2 (split; [by vm_compute|]). apply H. by vm_compute.
Defined.
