(* ===== verification/Records.v ===== *)
(** * The records of the fabric

    [core/capability.hpp], [core/economics.hpp], [core/device.hpp],
    [core/region.hpp], [core/pool.hpp], [core/reservation.hpp] and
    [core/authority.hpp]. Field names carry the prefix of their struct. A default
    member initialiser of the source is a field of the [_default] value. *)
From Stdlib Require Import QArith.
From S2P Require Import Prelude.
From S2P Require Import Identity.
From S2P Require Import Enums.
#[local] Open Scope Z_scope.

(** ** Capabilities *)

Record Capability : Set := mkCapability {
  cap_klass : CapabilityClass;
  cap_state : SupportState;
  cap_version : Z;
  cap_provenance : Provenance;
  cap_evidence_generation : EvidenceGeneration;
  cap_evidence_current : bool;
  cap_constraints : string;
}.

Definition cap_is_supported (c : Capability) : bool :=
  bool_decide (cap_state c = SupportState_SUPPORTED).
Definition cap_is_unknown (c : Capability) : bool :=
  bool_decide (cap_state c = SupportState_UNKNOWN).
Definition cap_requires_revalidation (c : Capability) : bool :=
  bool_decide (cap_state c = SupportState_REVALIDATION_REQUIRED).

(** [std::map<CapabilityClass, Capability>], keyed by the underlying integer of the
    class, which is what the map of the source compares. *)
Abbreviation Capabilities := (gmap Z Capability).

Definition caps_set (m : Capabilities) (cap : Capability) : Capabilities :=
  <[enum_to_int (cap_klass cap) := cap]> m.
Definition caps_get (m : Capabilities) (k : CapabilityClass) : option Capability :=
  m !! enum_to_int k.
Definition caps_has (m : Capabilities) (k : CapabilityClass) : bool :=
  bool_decide (is_Some (caps_get m k)).
Definition caps_required_supported
    (m : Capabilities) (k : CapabilityClass) (require_current_evidence : bool) : bool :=
  match caps_get m k with
  | None => false
  | Some c =>
      if negb (bool_decide (cap_state c = SupportState_SUPPORTED)) then false
      else if require_current_evidence && negb (cap_evidence_current c) then false
      else true
  end.

(** ** Access economics *)

(** [access_penalty_vs_local] is a [double] no decision reads; it is kept as the
    rational number it denotes. *)
Record AccessEconomics : Set := mkEconomics {
  econ_locality : LocalityClass;
  econ_tier : TierClass;
  econ_evidence_class : EvidenceClass;
  econ_provenance : Provenance;
  econ_estimated_latency_ns : Z;
  econ_estimated_bandwidth_mbps : Z;
  econ_hop_count : Z;
  econ_access_penalty_vs_local : Q;
  econ_migration_cost_bytes : Z;
  econ_failsafe_valid : bool;
  econ_notes : string;
}.

Definition economics_default : AccessEconomics :=
  mkEconomics LocalityClass_UNKNOWN TierClass_CXL_UNKNOWN EvidenceClass_UNKNOWN
    Provenance_UNSUPPORTED 0 0 0 1%Q 0 false "".

Inductive LatencyClass : Set :=
  | LatencyClass_UNKNOWN | LatencyClass_NEAR | LatencyClass_LOCAL | LatencyClass_SHARED
  | LatencyClass_REMOTE | LatencyClass_CROSS_HOST.

Definition latency_class (e : AccessEconomics) : LatencyClass :=
  match econ_locality e with
  | LocalityClass_DIRECT_LOCAL => LatencyClass_NEAR
  | LocalityClass_SAME_HOST | LocalityClass_SAME_NUMA_DOMAIN => LatencyClass_LOCAL
  | LocalityClass_REMOTE_NUMA_DOMAIN | LocalityClass_SAME_CXL_ROOT
  | LocalityClass_SAME_SWITCH | LocalityClass_SWITCH_REMOTE
  | LocalityClass_MULTI_HOP_CXL => LatencyClass_REMOTE
  | LocalityClass_CROSS_HOST => LatencyClass_CROSS_HOST
  | LocalityClass_UNKNOWN => LatencyClass_UNKNOWN
  | LocalityClass_raw _ => LatencyClass_UNKNOWN
  end.

Definition econ_ordinal (e : AccessEconomics) : Z :=
  match econ_locality e with
  | LocalityClass_DIRECT_LOCAL => 0
  | LocalityClass_SAME_HOST => 1
  | LocalityClass_SAME_NUMA_DOMAIN => 2
  | LocalityClass_REMOTE_NUMA_DOMAIN => 3
  | LocalityClass_SAME_CXL_ROOT => 4
  | LocalityClass_SAME_SWITCH => 5
  | LocalityClass_SWITCH_REMOTE => 6
  | LocalityClass_MULTI_HOP_CXL => 7
  | LocalityClass_CROSS_HOST => 8
  | LocalityClass_UNKNOWN => 9
  | LocalityClass_raw _ => 9
  end.

Definition more_local_than (a b : AccessEconomics) : bool := econ_ordinal a <? econ_ordinal b.

(** ** Devices *)

Record CxlDevice : Set := mkDevice {
  dev_id : DeviceId;
  dev_generation : DeviceGeneration;
  dev_boot_id : DeviceBootId;
  dev_raw_identity : string;
  dev_vendor_device_id : string;
  dev_cxl_device_class : string;
  dev_device_type : string;
  dev_host : HostId;
  dev_ports : list PortId;
  dev_switch_ancestry : list SwitchId;
  dev_total_physical_bytes : Z;
  dev_online_bytes : Z;
  dev_volatility : VolatilityKind;
  dev_sharing : SharingMode;
  dev_multi_host_capable : bool;
  dev_interleave_capable : bool;
  dev_accelerator_access : AcceleratorAccessState;
  dev_health : HealthState;
  dev_state : DeviceState;
  dev_capabilities : Capabilities;
  dev_economics : AccessEconomics;
  dev_provenance : Provenance;
  dev_evidence_generation : EvidenceGeneration;
  dev_evidence_current : bool;
  dev_firmware_metadata : string;
  dev_lifecycle_note : string;
}.

Definition device_default : CxlDevice :=
  mkDevice id_default gen_default id_default "" "" "" "" id_default [] [] 0 0
    VolatilityKind_UNKNOWN SharingMode_UNKNOWN false false AcceleratorAccessState_UNKNOWN
    HealthState_UNKNOWN DeviceState_DISCOVERED ∅ economics_default Provenance_UNSUPPORTED
    gen_default false "" "".

(** The three fields the fabric assigns on a stored device. *)
Definition dev_with_status (d : CxlDevice) (h : HealthState) (s : DeviceState) (cur : bool)
    : CxlDevice :=
  mkDevice (dev_id d) (dev_generation d) (dev_boot_id d) (dev_raw_identity d)
    (dev_vendor_device_id d) (dev_cxl_device_class d) (dev_device_type d) (dev_host d)
    (dev_ports d) (dev_switch_ancestry d) (dev_total_physical_bytes d) (dev_online_bytes d)
    (dev_volatility d) (dev_sharing d) (dev_multi_host_capable d) (dev_interleave_capable d)
    (dev_accelerator_access d) h s (dev_capabilities d) (dev_economics d) (dev_provenance d)
    (dev_evidence_generation d) cur (dev_firmware_metadata d) (dev_lifecycle_note d).

Definition dev_set_state (d : CxlDevice) (s : DeviceState) (cur : bool) : CxlDevice :=
  dev_with_status d (dev_health d) s cur.

(** ** Regions *)

Record CxlRegion : Set := mkRegion {
  reg_id : RegionId;
  reg_generation : RegionGeneration;
  reg_pool : PoolId;
  reg_member_devices : list DeviceId;
  reg_interleave_set : string;
  reg_region_capacity_bytes : Z;
  reg_interleaved : bool;
  reg_state : RegionState;
  reg_decoders : list DecoderId;
  reg_windows : list WindowId;
  reg_access_mode : string;
  reg_consumer_scope : ConsumerId;
  reg_locality : LocalityClass;
  reg_tier : TierClass;
  reg_health : HealthState;
  reg_reserved_bytes : Z;
  reg_committed_bytes : Z;
  reg_provenance : Provenance;
  reg_evidence_generation : EvidenceGeneration;
  reg_evidence_current : bool;
  reg_device_local : bool;
}.

Definition region_default : CxlRegion :=
  mkRegion id_default gen_default id_default [] "" 0 false RegionState_DEFINED [] [] ""
    id_default LocalityClass_UNKNOWN TierClass_CXL_UNKNOWN HealthState_UNKNOWN 0 0
    Provenance_UNSUPPORTED gen_default false false.

Definition reg_with_status (r : CxlRegion) (gen : RegionGeneration) (members : list DeviceId)
    (st : RegionState) (h : HealthState) (cur : bool) : CxlRegion :=
  mkRegion (reg_id r) gen (reg_pool r) members (reg_interleave_set r)
    (reg_region_capacity_bytes r) (reg_interleaved r) st (reg_decoders r) (reg_windows r)
    (reg_access_mode r) (reg_consumer_scope r) (reg_locality r) (reg_tier r) h
    (reg_reserved_bytes r) (reg_committed_bytes r) (reg_provenance r)
    (reg_evidence_generation r) cur (reg_device_local r).

Definition reg_set_state (r : CxlRegion) (st : RegionState) (h : HealthState) (cur : bool)
    : CxlRegion :=
  reg_with_status r (reg_generation r) (reg_member_devices r) st h cur.

(** Assigns [reserved_bytes] and [committed_bytes]. *)
Definition reg_set_account (r : CxlRegion) (rsv com : Z) : CxlRegion :=
  mkRegion (reg_id r) (reg_generation r) (reg_pool r) (reg_member_devices r)
    (reg_interleave_set r) (reg_region_capacity_bytes r) (reg_interleaved r) (reg_state r)
    (reg_decoders r) (reg_windows r) (reg_access_mode r) (reg_consumer_scope r)
    (reg_locality r) (reg_tier r) (reg_health r) rsv com (reg_provenance r)
    (reg_evidence_generation r) (reg_evidence_current r) (reg_device_local r).

(** ** Pools *)

Record PoolMember : Set := mkMember {
  mem_device : DeviceId;
  mem_device_generation : DeviceGeneration;
  mem_nominal_bytes : Z;
  mem_online : bool;
  mem_health_ok : bool;
  mem_failure_domain : string;
  mem_locality : LocalityClass;
}.

Definition member_default : PoolMember :=
  mkMember id_default gen_default 0 false false "" LocalityClass_UNKNOWN.

Record CxlPool : Set := mkPool {
  pool_id : PoolId;
  pool_generation : PoolGeneration;
  pool_members : list PoolMember;
  pool_total_governed_bytes : Z;
  pool_committed_bytes : Z;
  pool_reserved_bytes : Z;
  pool_draining_bytes : Z;
  pool_unavailable_bytes : Z;
  pool_admission_policy : string;
  pool_failure_domains : list string;
  pool_locality_distribution : LocalityClass;
  pool_health_summary : HealthState;
  pool_state : PoolState;
  pool_provenance : Provenance;
  pool_evidence_generation : EvidenceGeneration;
  pool_evidence_current : bool;
  pool_lifecycle_note : string;
}.

Definition pool_default : CxlPool :=
  mkPool id_default gen_default [] 0 0 0 0 0 "" [] LocalityClass_UNKNOWN HealthState_UNKNOWN
    PoolState_DEFINED Provenance_UNSUPPORTED gen_default false "".

(** [CxlPool::free_bytes]. *)
Definition pool_free_bytes (p : CxlPool) : Z :=
  let online := pool_total_governed_bytes p in
  if bool_decide (online <= pool_unavailable_bytes p) then 0 else
  let used := add64 (add64 (add64 (pool_unavailable_bytes p) (pool_reserved_bytes p))
                           (pool_committed_bytes p)) (pool_draining_bytes p) in
  if bool_decide (online <= used) then 0 else sub64 online used.

(** Assigns [members] and [generation]. *)
Definition pool_set_members (p : CxlPool) (ms : list PoolMember) (g : PoolGeneration) : CxlPool :=
  mkPool (pool_id p) g ms (pool_total_governed_bytes p) (pool_committed_bytes p)
    (pool_reserved_bytes p) (pool_draining_bytes p) (pool_unavailable_bytes p)
    (pool_admission_policy p) (pool_failure_domains p) (pool_locality_distribution p)
    (pool_health_summary p) (pool_state p) (pool_provenance p) (pool_evidence_generation p)
    (pool_evidence_current p) (pool_lifecycle_note p).

(** Assigns [total_governed_bytes], [unavailable_bytes] and [failure_domains]. *)
Definition pool_set_totals (p : CxlPool) (tot unav : Z) (fds : list string) : CxlPool :=
  mkPool (pool_id p) (pool_generation p) (pool_members p) tot (pool_committed_bytes p)
    (pool_reserved_bytes p) (pool_draining_bytes p) unav
    (pool_admission_policy p) fds (pool_locality_distribution p)
    (pool_health_summary p) (pool_state p) (pool_provenance p) (pool_evidence_generation p)
    (pool_evidence_current p) (pool_lifecycle_note p).

(** Assigns [reserved_bytes] and [committed_bytes]. *)
Definition pool_set_account (p : CxlPool) (rsv com : Z) : CxlPool :=
  mkPool (pool_id p) (pool_generation p) (pool_members p) (pool_total_governed_bytes p) com
    rsv (pool_draining_bytes p) (pool_unavailable_bytes p)
    (pool_admission_policy p) (pool_failure_domains p) (pool_locality_distribution p)
    (pool_health_summary p) (pool_state p) (pool_provenance p) (pool_evidence_generation p)
    (pool_evidence_current p) (pool_lifecycle_note p).

(** Assigns [state], [evidence_current] and [health_summary]. *)
Definition pool_set_state (p : CxlPool) (st : PoolState) (cur : bool) (h : HealthState) : CxlPool :=
  mkPool (pool_id p) (pool_generation p) (pool_members p) (pool_total_governed_bytes p)
    (pool_committed_bytes p) (pool_reserved_bytes p) (pool_draining_bytes p)
    (pool_unavailable_bytes p) (pool_admission_policy p) (pool_failure_domains p)
    (pool_locality_distribution p) h st (pool_provenance p) (pool_evidence_generation p)
    cur (pool_lifecycle_note p).

(** ** Admission requests and reservations *)

Record AdmissionRequest : Set := mkRequest {
  req_bytes : Z;
  req_volatility : VolatilityKind;
  req_consumer : ConsumerId;
  req_host : HostId;
  req_required_pool : option PoolId;
  req_minimum_locality : option LocalityClass;
  req_required_tier : option TierClass;
  req_accelerator_access : option AcceleratorAccessState;
  req_failure_domain_minimum : option FailureDomainLevel;
  req_sharing : SharingMode;
  req_require_unique_failure_domain : bool;
  req_require_persistence : bool;
  req_require_accelerator_path : bool;
  req_prefer_fallback : bool;
  req_policy_class : string;
  req_minimum_bandwidth_mbps : Z;
  req_maximum_latency_ns : Z;
}.

Definition request_default : AdmissionRequest :=
  mkRequest 0 VolatilityKind_UNKNOWN id_default id_default None None None None None
    SharingMode_UNKNOWN false false false false "" 0 0.

(** A request that sets only [bytes] and [consumer], as the control plane builds. *)
Definition request_for (bytes : Z) (consumer : ConsumerId) : AdmissionRequest :=
  mkRequest bytes VolatilityKind_UNKNOWN consumer id_default None None None None None
    SharingMode_UNKNOWN false false false false "" 0 0.

Record Reservation : Set := mkReservation {
  res_id : ReservationId;
  res_consumer : ConsumerId;
  res_consumer_generation : ConsumerGeneration;
  res_pool : PoolId;
  res_pool_generation : PoolGeneration;
  res_region : RegionId;
  res_region_generation : RegionGeneration;
  res_device : DeviceId;
  res_device_generation : DeviceGeneration;
  res_device_boot_id : DeviceBootId;
  res_bytes : Z;
  res_state : ResumeState;
  res_created_epoch : CoordinatorEpoch;
  res_commit_epoch : CoordinatorEpoch;
  res_worker_boot_id : WorkerBootId;
  res_evidence_current_at_reserve : bool;
  res_failed_device_entry : bool;
}.

Definition reservation_default : Reservation :=
  mkReservation id_default id_default gen_default id_default gen_default id_default gen_default
    id_default gen_default id_default 0 ResumeState_RESERVED gen_default gen_default id_default
    false true.

(** Assigns [state] and [commit_epoch]. *)
Definition res_set_state (r : Reservation) (s : ResumeState) (e : CoordinatorEpoch) : Reservation :=
  mkReservation (res_id r) (res_consumer r) (res_consumer_generation r) (res_pool r)
    (res_pool_generation r) (res_region r) (res_region_generation r) (res_device r)
    (res_device_generation r) (res_device_boot_id r) (res_bytes r) s (res_created_epoch r) e
    (res_worker_boot_id r) (res_evidence_current_at_reserve r) (res_failed_device_entry r).

(** ** Authority *)

Record AuthorityContext : Set := mkContext {
  ctx_coordinator_epoch : CoordinatorEpoch;
  ctx_policy_generation : PolicyGeneration;
  ctx_worker_boot_id : WorkerBootId;
  ctx_consumer_generation : ConsumerGeneration;
}.

Record AuthorityTarget : Set := mkTarget {
  tgt_device_generation : DeviceGeneration;
  tgt_device_boot_id : DeviceBootId;
  tgt_region_generation : RegionGeneration;
  tgt_pool_generation : PoolGeneration;
  tgt_reservation_id : ReservationId;
}.

Definition validate_authority (ctx : AuthorityContext) (tgt : AuthorityTarget)
    (device_bound region_bound pool_bound reservation_bound worker_authority_required : bool)
    : bool * DecisionReason :=
  if gen_empty (ctx_coordinator_epoch ctx) || gen_empty (tgt_device_generation tgt)
  then (false, DecisionReason_INVALID_ARGUMENT)
  else if worker_authority_required && id_empty (ctx_worker_boot_id ctx)
  then (false, DecisionReason_RESERVATION_STALE)
  else if reservation_bound && id_empty (tgt_reservation_id tgt)
  then (false, DecisionReason_RESERVATION_STALE)
  else if device_bound && gen_empty (tgt_device_generation tgt)
  then (false, DecisionReason_DEVICE_STALE)
  else if region_bound && gen_empty (tgt_region_generation tgt)
  then (false, DecisionReason_REGION_STALE)
  else if pool_bound && gen_empty (tgt_pool_generation tgt)
  then (false, DecisionReason_POOL_STALE)
  else (true, DecisionReason_OK).

(** ** Properties *)

Lemma caps_get_set m c k :
  k ∈ enum_named -> cap_klass c ∈ enum_named ->
  caps_get (caps_set m c) k = if bool_decide (k = cap_klass c) then Some c else caps_get m k.
Proof.
  intros Hk Hc. unfold caps_get, caps_set. rewrite lookup_insert. case_decide as E.
  - assert (cap_klass c = k) as <-.
    { rewrite <- (enum_of_to _ Hk), <- (enum_of_to _ Hc). by rewrite E. }
    by rewrite bool_decide_true.
  - case_bool_decide; [congruence|done].
Qed.

(** A capability satisfies a hard requirement only when it is asserted, SUPPORTED
    and (if current evidence is asked for) current: UNKNOWN fails closed. *)
Lemma caps_required_supported_spec m k cur :
  caps_required_supported m k cur = true <->
  exists c, caps_get m k = Some c /\ cap_state c = SupportState_SUPPORTED /\
            (cur = true -> cap_evidence_current c = true).
Proof.
  unfold caps_required_supported. split.
  - destruct (caps_get m k) as [c|]; [|done]. case_bool_decide; simpl; [|done].
    destruct cur, (cap_evidence_current c) eqn:E; simpl; naive_solver.
  - intros (c & -> & Hs & Hc). rewrite bool_decide_true by done; simpl.
    destruct cur; simpl; [by rewrite Hc|done].
Qed.

(** The verdict of [validate_authority] as one condition. The [device_bound] flag
    plays no part in it: an empty device generation is refused before any bound is
    looked at. *)
Lemma validate_authority_allowed ctx tgt d r p v w :
  (validate_authority ctx tgt d r p v w).1 =
  negb (gen_empty (ctx_coordinator_epoch ctx)) && negb (gen_empty (tgt_device_generation tgt)) &&
  (negb w || negb (id_empty (ctx_worker_boot_id ctx))) &&
  (negb v || negb (id_empty (tgt_reservation_id tgt))) &&
  (negb r || negb (gen_empty (tgt_region_generation tgt))) &&
  (negb p || negb (gen_empty (tgt_pool_generation tgt))).
Proof.
  unfold validate_authority.
  destruct (gen_empty (ctx_coordinator_epoch ctx)), (gen_empty (tgt_device_generation tgt));
    [reflexivity..|].
  destruct w, (id_empty (ctx_worker_boot_id ctx)), v, (id_empty (tgt_reservation_id tgt)), d, r,
    (gen_empty (tgt_region_generation tgt)), p, (gen_empty (tgt_pool_generation tgt));
    reflexivity.
Qed.
