(* ===== verification/Selection.v ===== *)
(** * Candidate evaluation ([core/selection.hpp])

    The hard constraints of an admission decision, checked in the order of the
    source, each with its reason code and its named factor. A candidate's record
    pointers, which may be null, are options. *)
From S2P Require Import Prelude.
From S2P Require Import Identity.
From S2P Require Import Enums.
From S2P Require Import Records.

Record Candidate : Set := mkCandidate {
  cand_pool : PoolId;
  cand_pool_generation : PoolGeneration;
  cand_region : RegionId;
  cand_region_generation : RegionGeneration;
  cand_device : DeviceId;
  cand_device_generation : DeviceGeneration;
  cand_available_bytes : Z;
  cand_device_record : option CxlDevice;
  cand_region_record : option CxlRegion;
  cand_pool_record : option CxlPool;
}.

Definition candidate_default : Candidate :=
  mkCandidate id_default gen_default id_default gen_default id_default gen_default 0 None None
    None.

Record SelectionFactor : Set := mkFactor {
  fac_name : string;
  fac_pass : bool;
  fac_detail : string;
}.

Record SelectionResult : Set := mkResult {
  sel_selected : bool;
  sel_reason : DecisionReason;
  sel_pool : string;
  sel_region : string;
  sel_device : string;
  sel_locality : string;
  sel_free_bytes : Z;
  sel_health : HealthState;
  sel_evidence_current : bool;
  sel_rejections : list DecisionReason;
  sel_factors : list SelectionFactor;
  sel_explanation : string;
}.

Definition result_default : SelectionResult :=
  mkResult false DecisionReason_OK "" "" "" "" 0 HealthState_UNKNOWN false [] [] "".

(** Assigns [selected] and [reason]. *)
Definition sel_set_verdict (r : SelectionResult) (sel : bool) (why : DecisionReason)
    : SelectionResult :=
  mkResult sel why (sel_pool r) (sel_region r) (sel_device r) (sel_locality r)
    (sel_free_bytes r) (sel_health r) (sel_evidence_current r) (sel_rejections r)
    (sel_factors r) (sel_explanation r).

(** Assigns [explanation]. *)
Definition sel_set_explanation (r : SelectionResult) (s : string) : SelectionResult :=
  mkResult (sel_selected r) (sel_reason r) (sel_pool r) (sel_region r) (sel_device r)
    (sel_locality r) (sel_free_bytes r) (sel_health r) (sel_evidence_current r)
    (sel_rejections r) (sel_factors r) s.

(** [std::to_string] of an unsigned value. *)
Definition to_string_u64 (n : Z) : string := pretty (Z.to_N n).

(** The ordinal of a locality class, lower is more local: the lambda of
    [locality_satisfies]. *)
Definition locality_ord (l : LocalityClass) : Z :=
  match l with
  | LocalityClass_DIRECT_LOCAL => 0
  | LocalityClass_SAME_HOST => 1
  | LocalityClass_SAME_NUMA_DOMAIN => 2
  | LocalityClass_REMOTE_NUMA_DOMAIN => 3
  | LocalityClass_SAME_CXL_ROOT => 4
  | LocalityClass_SAME_SWITCH => 5
  | LocalityClass_SWITCH_REMOTE => 6
  | LocalityClass_MULTI_HOP_CXL => 7
  | LocalityClass_CROSS_HOST => 8
  | LocalityClass_UNKNOWN => 9
  | LocalityClass_raw _ => 9
  end.

Definition locality_satisfies (have need : LocalityClass) : bool :=
  locality_ord have <=? locality_ord need.

(** The three factors every result starts with. *)
Definition initial_factors (c : Candidate) : list SelectionFactor :=
  [mkFactor "pool" true (id_str (cand_pool c)); mkFactor "region" true (id_str (cand_region c));
   mkFactor "device" true (id_str (cand_device c))].

(** A rejection: the reason code is recorded and the failing factor appended. *)
Definition reject (c : Candidate) (why : DecisionReason) (fs : list SelectionFactor)
    : SelectionResult :=
  mkResult false why "" "" "" "" 0 HealthState_UNKNOWN false [why] (initial_factors c ++ fs) "".

Definition unhealthy (h : HealthState) : bool :=
  bool_decide (h = HealthState_FAILED) || bool_decide (h = HealthState_POISONED).

(** The result of a candidate that passed, with the factors it is ranked by. *)
Definition passed_result (c : Candidate) (dev : CxlDevice) (reg : CxlRegion) (pool : CxlPool)
    : SelectionResult :=
  let econ := dev_economics dev in
  mkResult true DecisionReason_OK (id_str (pool_id pool)) (id_str (reg_id reg))
    (id_str (dev_id dev)) (enum_to_string (econ_locality econ)) (cand_available_bytes c)
    (dev_health dev) (dev_evidence_current dev) []
    (initial_factors c ++
     [mkFactor "locality" true (enum_to_string (econ_locality econ));
      mkFactor "capacity" true (to_string_u64 (cand_available_bytes c));
      mkFactor "failure_domain" true
        (if String.eqb (econ_notes econ) "" then "n/a" else econ_notes econ)] ++
     (if 0 <? econ_estimated_latency_ns econ
      then [mkFactor "latency" true
              (to_string_u64 (econ_estimated_latency_ns econ) +:+ "ns")] else []) ++
     (if 0 <? econ_estimated_bandwidth_mbps econ
      then [mkFactor "bandwidth" true
              (to_string_u64 (econ_estimated_bandwidth_mbps econ) +:+ "MB/s")] else []))
    "".

Definition evaluate_candidate (c : Candidate) (req : AdmissionRequest)
    (pool_evidence_current : bool) : SelectionResult :=
  match cand_device_record c, cand_region_record c, cand_pool_record c with
  | Some dev, Some reg, Some pool =>
    let econ := dev_economics dev in
    (* Current evidence. *)
    if negb (dev_evidence_current dev) || negb (reg_evidence_current reg)
       || negb pool_evidence_current
    then reject c DecisionReason_EVIDENCE_STALE [mkFactor "evidence_current" false "stale"]
    (* Device / region / pool online. *)
    else if negb (bool_decide (dev_state dev = DeviceState_ONLINE))
    then reject c DecisionReason_DEVICE_NOT_ONLINE
           [mkFactor "device_state" false (enum_to_string (dev_state dev))]
    else if negb (bool_decide (reg_state reg = RegionState_ONLINE))
    then reject c DecisionReason_REGION_NOT_ONLINE
           [mkFactor "region_state" false (enum_to_string (reg_state reg))]
    else if negb (bool_decide (pool_state pool = PoolState_AVAILABLE))
            && negb (bool_decide (pool_state pool = PoolState_DEFINED))
    then reject c DecisionReason_POOL_STALE
           [mkFactor "pool_state" false (enum_to_string (pool_state pool))]
    (* Draining / failed / revalidation. *)
    else if bool_decide (dev_state dev = DeviceState_DRAINING)
    then reject c DecisionReason_DRAINING [mkFactor "device_draining" false "true"]
    else if bool_decide (dev_state dev = DeviceState_FAILED)
            || bool_decide (reg_state reg = RegionState_FAILED)
    then reject c DecisionReason_FAILED [mkFactor "device_failed" false "true"]
    else if bool_decide (dev_state dev = DeviceState_REVALIDATION_REQUIRED)
            || bool_decide (reg_state reg = RegionState_REVALIDATION_REQUIRED)
            || bool_decide (pool_state pool = PoolState_REVALIDATION_REQUIRED)
    then reject c DecisionReason_REVALIDATION_REQUIRED
           [mkFactor "revalidation_required" false "true"]
    (* Health. *)
    else if unhealthy (dev_health dev) || unhealthy (reg_health reg)
            || unhealthy (pool_health_summary pool)
    then reject c DecisionReason_HEALTH_UNACCEPTABLE
           [mkFactor "health" false (enum_to_string (dev_health dev))]
    (* Capacity. *)
    else if cand_available_bytes c <? req_bytes req
    then reject c DecisionReason_CAPACITY_INSUFFICIENT
           [mkFactor "capacity" false (to_string_u64 (cand_available_bytes c))]
    (* Volatility. *)
    else if req_require_persistence req
            && negb (bool_decide (dev_volatility dev = VolatilityKind_PERSISTENT))
    then reject c DecisionReason_VOLATILITY_MISMATCH
           [mkFactor "volatility" false (enum_to_string (dev_volatility dev))]
    else if negb (bool_decide (req_volatility req = VolatilityKind_UNKNOWN))
            && negb (bool_decide (dev_volatility dev = VolatilityKind_UNKNOWN))
            && negb (bool_decide (req_volatility req = dev_volatility dev))
    then reject c DecisionReason_VOLATILITY_MISMATCH
           [mkFactor "volatility" false (enum_to_string (dev_volatility dev))]
    (* Host compatibility. *)
    else if negb (id_empty (req_host req)) && negb (id_empty (dev_host dev))
            && negb (bool_decide (req_host req = dev_host dev))
    then reject c DecisionReason_HOST_INCOMPATIBLE
           [mkFactor "host" false (id_str (dev_host dev))]
    (* Sharing. *)
    else if negb (bool_decide (req_sharing req = SharingMode_UNKNOWN))
            && negb (bool_decide (dev_sharing dev = SharingMode_UNKNOWN))
            && negb (bool_decide (req_sharing req = dev_sharing dev))
    then reject c DecisionReason_SHARING_MISMATCH
           [mkFactor "sharing" false (enum_to_string (dev_sharing dev))]
    (* Pool requirement. *)
    else if match req_required_pool req with
            | Some p => negb (bool_decide (p = pool_id pool))
            | None => false
            end
    then reject c DecisionReason_POOL_STALE
           [mkFactor "required_pool" false (id_str (pool_id pool))]
    (* Locality. *)
    else if match req_minimum_locality req with
            | Some need => negb (locality_satisfies (econ_locality econ) need)
            | None => false
            end
    then reject c DecisionReason_REQUIRED_LOCALITY_UNSATISFIED
           [mkFactor "locality" false (enum_to_string (econ_locality econ))]
    (* Tier. *)
    else if match req_required_tier req with
            | Some t => negb (bool_decide (reg_tier reg = t))
            | None => false
            end
    then reject c DecisionReason_POLICY_DENIED
           [mkFactor "tier" false (enum_to_string (reg_tier reg))]
    (* Accelerator access. *)
    else if match req_accelerator_access req with
            | Some need => negb (bool_decide (need = dev_accelerator_access dev))
            | None => false
            end
    then reject c DecisionReason_ACCELERATOR_ACCESS_UNSATISFIED
           [mkFactor "accelerator_access" false (enum_to_string (dev_accelerator_access dev))]
    (* Bandwidth / latency. *)
    else if (0 <? req_minimum_bandwidth_mbps req)
            && negb (econ_estimated_bandwidth_mbps econ =? 0)
            && (econ_estimated_bandwidth_mbps econ <? req_minimum_bandwidth_mbps req)
    then reject c DecisionReason_POLICY_DENIED
           [mkFactor "bandwidth" false (to_string_u64 (econ_estimated_bandwidth_mbps econ))]
    else if (0 <? req_maximum_latency_ns req)
            && negb (econ_estimated_latency_ns econ =? 0)
            && (req_maximum_latency_ns req <? econ_estimated_latency_ns econ)
    then reject c DecisionReason_POLICY_DENIED
           [mkFactor "latency" false (to_string_u64 (econ_estimated_latency_ns econ))]
    (* Passed hardness. *)
    else
      passed_result c dev reg pool
  | _, _, _ => reject c DecisionReason_UNKNOWN_ERROR []
  end.

(** ** The declarative admission predicate

    What "this candidate may serve this request" means, as a conjunction with no
    order and no early return. *)
Record admissible (dev : CxlDevice) (reg : CxlRegion) (pool : CxlPool) (available : Z)
    (req : AdmissionRequest) (pool_current : bool) : Prop := {
  adm_evidence : dev_evidence_current dev = true /\ reg_evidence_current reg = true /\
                 pool_current = true;
  adm_online : dev_state dev = DeviceState_ONLINE /\ reg_state reg = RegionState_ONLINE /\
               (pool_state pool = PoolState_AVAILABLE \/ pool_state pool = PoolState_DEFINED);
  adm_health : unhealthy (dev_health dev) = false /\ unhealthy (reg_health reg) = false /\
               unhealthy (pool_health_summary pool) = false;
  adm_capacity : req_bytes req <= available;
  adm_persistence : req_require_persistence req = true ->
                    dev_volatility dev = VolatilityKind_PERSISTENT;
  adm_volatility : req_volatility req = VolatilityKind_UNKNOWN \/
                   dev_volatility dev = VolatilityKind_UNKNOWN \/
                   req_volatility req = dev_volatility dev;
  adm_host : req_host req = id_default \/ dev_host dev = id_default \/
             req_host req = dev_host dev;
  adm_sharing : req_sharing req = SharingMode_UNKNOWN \/
                dev_sharing dev = SharingMode_UNKNOWN \/ req_sharing req = dev_sharing dev;
  adm_pool : forall p, req_required_pool req = Some p -> p = pool_id pool;
  adm_locality : forall need, req_minimum_locality req = Some need ->
    locality_ord (econ_locality (dev_economics dev)) <= locality_ord need;
  adm_tier : forall t, req_required_tier req = Some t -> reg_tier reg = t;
  adm_accelerator : forall need, req_accelerator_access req = Some need ->
    dev_accelerator_access dev = need;
  adm_bandwidth : 0 < req_minimum_bandwidth_mbps req ->
    econ_estimated_bandwidth_mbps (dev_economics dev) = 0 \/
    req_minimum_bandwidth_mbps req <= econ_estimated_bandwidth_mbps (dev_economics dev);
  adm_latency : 0 < req_maximum_latency_ns req ->
    econ_estimated_latency_ns (dev_economics dev) = 0 \/
    econ_estimated_latency_ns (dev_economics dev) <= req_maximum_latency_ns req;
}.

(** ** Soundness and completeness of the hard-constraint check *)

Lemma selected_if_reject c why fs (g : bool) k :
  sel_selected (if g then reject c why fs else k) = negb g && sel_selected k.
Proof. by destruct g. Qed.

Lemma reason_if_reject (Q : DecisionReason -> Prop) c why fs (g : bool) k :
  (g = true -> Q why) -> (g = false -> Q (sel_reason k)) ->
  Q (sel_reason (if g then reject c why fs else k)).
Proof. destruct g; auto. Qed.

Lemma unhealthy_false h :
  unhealthy h = false <-> h <> HealthState_FAILED /\ h <> HealthState_POISONED.
Proof. unfold unhealthy. by rewrite orb_false_iff, !bool_decide_eq_false. Qed.

(** Turns the boolean tests of a guard into propositions. *)
Ltac guard_props :=
  repeat (rewrite ?andb_true_iff, ?negb_true_iff, ?orb_false_iff, ?andb_false_iff,
            ?negb_false_iff, ?bool_decide_eq_true, ?bool_decide_eq_false, ?Z.ltb_ge, ?Z.ltb_lt,
            ?Z.eqb_eq, ?Z.leb_le, ?id_empty_spec).

Lemma option_guard {A} (o : option A) (f : A -> bool) (P : A -> Prop) :
  (forall a, f a = false <-> P a) ->
  (match o with Some a => f a | None => false end) = false <-> (forall a, o = Some a -> P a).
Proof. intros Hf. destruct o as [a|]; [rewrite Hf; split; [by intros ? ? [= <-] | auto] | done]. Qed.

Lemma evaluate_selected_iff c req cur dev reg pool :
  cand_device_record c = Some dev -> cand_region_record c = Some reg ->
  cand_pool_record c = Some pool ->
  sel_selected (evaluate_candidate c req cur) = true <->
  admissible dev reg pool (cand_available_bytes c) req cur.
Proof.
  intros Hd Hr Hp. unfold evaluate_candidate. rewrite Hd, Hr, Hp. cbv zeta.
  rewrite !selected_if_reject. cbn [passed_result sel_selected].
  rewrite !andb_true_iff, !negb_true_iff.
  rewrite (option_guard _ _ (fun p => p = pool_id pool)) by (intros; by guard_props).
  rewrite (option_guard _ _ (fun need =>
    locality_ord (econ_locality (dev_economics dev)) <= locality_ord need))
    by (intros; unfold locality_satisfies; by guard_props).
  rewrite (option_guard _ _ (fun t => reg_tier reg = t)) by (intros; by guard_props).
  rewrite (option_guard _ _ (fun need => dev_accelerator_access dev = need))
    by (intros; guard_props; naive_solver).
  guard_props. split.
  - intros H. decompose [and] H. clear H.
    constructor; intros; try (first [done | by apply or_assoc | by eauto | lia]).
    match goal with H : req_require_persistence req = false \/ _ |- _ => destruct H end;
      congruence.
  - intros []. destruct_and!.
    repeat match goal with |- _ /\ _ => split end; try done; try (intuition congruence).
    all: try (destruct (req_require_persistence req); by auto).
    all: try (destruct (decide (0 < req_minimum_bandwidth_mbps req)); intuition lia).
    all: try (destruct (decide (0 < req_maximum_latency_ns req)); intuition lia).
Qed.

Lemma evaluate_no_records c req cur :
  sel_selected (evaluate_candidate c req cur) = true ->
  exists dev reg pool, cand_device_record c = Some dev /\ cand_region_record c = Some reg /\
                       cand_pool_record c = Some pool.
Proof.
  unfold evaluate_candidate.
  destruct (cand_device_record c), (cand_region_record c), (cand_pool_record c);
    first [by eauto 10 | done].
Qed.

(** The shape of a verdict: a selected candidate carries no rejection, a rejected
    one exactly its reason code, which is never [OK]. *)
Definition verdict_explained (r : SelectionResult) : Prop :=
  if sel_selected r
  then sel_reason r = DecisionReason_OK /\ sel_rejections r = [] /\
       Forall (fun f => fac_pass f = true) (sel_factors r)
  else sel_reason r <> DecisionReason_OK /\ sel_rejections r = [sel_reason r].

Lemma reject_explained c why fs : why <> DecisionReason_OK -> verdict_explained (reject c why fs).
Proof. by unfold verdict_explained. Qed.

Lemma explained_if_reject c why fs (g : bool) k :
  why <> DecisionReason_OK -> verdict_explained k ->
  verdict_explained (if g then reject c why fs else k).
Proof. destruct g; auto using reject_explained. Qed.

Lemma evaluate_explained c req cur : verdict_explained (evaluate_candidate c req cur).
Proof.
  unfold evaluate_candidate.
  destruct (cand_device_record c), (cand_region_record c), (cand_pool_record c);
    try by apply reject_explained.
  cbv zeta. repeat (apply explained_if_reject; [done|]).
  split_and!; try done. unfold initial_factors. cbn [sel_factors app].
  repeat apply List.Forall_cons; try done. apply Forall_app; split; case_test; auto.
Qed.

(** A selected result carries the names of the three records. *)
Lemma evaluate_selected_names c req cur dev reg pool :
  cand_device_record c = Some dev -> cand_region_record c = Some reg ->
  cand_pool_record c = Some pool ->
  let r := evaluate_candidate c req cur in
  sel_selected r = true ->
  sel_pool r = id_str (pool_id pool) /\ sel_region r = id_str (reg_id reg) /\
  sel_device r = id_str (dev_id dev).
Proof.
  intros Hd Hr Hp. unfold evaluate_candidate. rewrite Hd, Hr, Hp. cbv zeta.
  repeat match goal with |- context [if ?g then reject _ _ _ else _] =>
    destruct g; [done|] end. done.
Qed.

(** Evaluating a candidate decides exactly the declarative admission predicate:
    it is selected if and only if its three records are present and every hard
    constraint holds (current evidence, online states, acceptable health, capacity,
    volatility, host, sharing, required pool, locality, tier, accelerator access,
    bandwidth and latency). The verdict is always explained: a selected candidate
    has reason OK and only passing factors, a rejected one exactly one explicit
    reason code. *)
Theorem evaluate_candidate_decides c req cur :
  (sel_selected (evaluate_candidate c req cur) = true <->
   exists dev reg pool,
     cand_device_record c = Some dev /\ cand_region_record c = Some reg /\
     cand_pool_record c = Some pool /\
     admissible dev reg pool (cand_available_bytes c) req cur) /\
  verdict_explained (evaluate_candidate c req cur).
Proof.
  split; [split|].
  - intros Hs. destruct (evaluate_no_records _ _ _ Hs) as (d & r & p & Hd & Hr & Hp).
    exists d, r, p. split_and!; try done. by eapply evaluate_selected_iff.
  - intros (d & r & p & Hd & Hr & Hp & Hadm). by apply (evaluate_selected_iff _ _ _ d r p).
  - apply evaluate_explained.
Qed.

(** The reason codes an evaluation can report. *)
Definition live_reason (w : DecisionReason) : Prop :=
  w ∉ [DecisionReason_DRAINING; DecisionReason_FAILED; DecisionReason_REVALIDATION_REQUIRED].

#[export] Instance live_reason_dec w : Decision (live_reason w).
Proof. unfold live_reason. apply _. Defined.

(** Refutes a guard on a state that an earlier guard has already fixed. *)
Ltac dead_guard :=
  let Hg := fresh "Hg" in
  intros Hg; exfalso; revert Hg; rewrite ?orb_true_iff, ?bool_decide_eq_true;
  repeat match goal with
  | H : negb _ = false |- _ => apply negb_false_iff, bool_decide_eq_true in H
  | H : (negb _ && negb _) = false |- _ =>
      apply andb_false_iff in H as [?%negb_false_iff%bool_decide_eq_true |
                                    ?%negb_false_iff%bool_decide_eq_true]
  end; intuition congruence.

(** Dead reason codes: no evaluation ever reports DRAINING, FAILED or
    REVALIDATION_REQUIRED. The checks that would report them come after the check
    that the device and the region are ONLINE and the pool is AVAILABLE or DEFINED,
    so a draining, failed or revalidation-pending record is reported as
    DEVICE_NOT_ONLINE, REGION_NOT_ONLINE or POOL_STALE instead. *)
Theorem evaluate_dead_reasons c req cur :
  live_reason (sel_reason (evaluate_candidate c req cur)).
Proof.
  unfold evaluate_candidate.
  destruct (cand_device_record c) as [d|], (cand_region_record c) as [r|],
    (cand_pool_record c) as [p|]; try by apply (bool_decide_unpack _).
  cbv zeta. do 4 (apply (reason_if_reject live_reason); [intros _; by apply (bool_decide_unpack _)|]; intros ?).
  do 3 (apply (reason_if_reject live_reason); [dead_guard|intros _]).
  repeat (apply (reason_if_reject live_reason); [intros _; by apply (bool_decide_unpack _)|]; intros _).
  by apply (bool_decide_unpack _).
Qed.
