(* ===== verification/Fabric.v ===== *)
(** * The governance engine ([core/fabric.hpp], [core/fabric.cpp])

    The state of a [Fabric] and every operation of it. Each public operation of the
    source takes the mutation lock for its whole body, so an operation is one atomic
    step here: a function from a state to a result and a state. A test that returns
    early in the source returns early here, with the state as it is at that point
    (which, for [release], is not always the state it started from). *)
From S2P Require Import Prelude.
From S2P Require Import Identity.
From S2P Require Import Enums.
From S2P Require Import Lifecycle.
From S2P Require Import Accounting.
From S2P Require Import Records.
From S2P Require Import Selection.

(** ** State *)

Record StateSnapshot : Set := mkSnapshot {
  st_coordinator_epoch : CoordinatorEpoch;
  st_policy_generation : PolicyGeneration;
  st_devices : gmap DeviceId CxlDevice;
  st_regions : gmap RegionId CxlRegion;
  st_pools : gmap PoolId CxlPool;
  st_reservations : gmap ReservationId Reservation;
  st_evidence_generation : EvidenceGeneration;
  st_global_ledger : CapacityLine;
}.

Record Fabric : Set := mkFabric {
  state_ : StateSnapshot;
  sequence_ : Z;
}.

Record AuditReport : Set := mkReport {
  rep_ok : bool;
  rep_errors : list string;
  rep_global_ledger : CapacityLine;
}.

Record SelectionOutcome : Set := mkOutcome {
  out_ok : bool;
  out_chosen : Candidate;
  out_result : SelectionResult;
  out_candidates : list SelectionResult;
}.

Record ReserveOutcome : Set := mkReserveOutcome {
  ro_ok : bool;
  ro_reason : DecisionReason;
  ro_reservation : Reservation;
}.

Record ReconfigureOutcome : Set := mkReconfigureOutcome {
  rc_ok : bool;
  rc_reason : DecisionReason;
  rc_new_generation : RegionGeneration;
}.

Record FailoverPlan : Set := mkPlan {
  plan_outcome : FailoverOutcome;
  plan_replacement : option Candidate;
  plan_note : string;
}.

(** [core/persistence.hpp]: the durable subset of the state. *)
Record PersistedState : Set := mkPersisted {
  ps_policy_generation : PolicyGeneration;
  ps_devices : gmap DeviceId CxlDevice;
  ps_regions : gmap RegionId CxlRegion;
  ps_pools : gmap PoolId CxlPool;
}.

(** Field assignments on the state. *)
Definition st_with_devices (s : StateSnapshot) m : StateSnapshot :=
  mkSnapshot (st_coordinator_epoch s) (st_policy_generation s) m (st_regions s) (st_pools s)
    (st_reservations s) (st_evidence_generation s) (st_global_ledger s).
Definition st_with_regions (s : StateSnapshot) m : StateSnapshot :=
  mkSnapshot (st_coordinator_epoch s) (st_policy_generation s) (st_devices s) m (st_pools s)
    (st_reservations s) (st_evidence_generation s) (st_global_ledger s).
Definition st_with_pools (s : StateSnapshot) m : StateSnapshot :=
  mkSnapshot (st_coordinator_epoch s) (st_policy_generation s) (st_devices s) (st_regions s) m
    (st_reservations s) (st_evidence_generation s) (st_global_ledger s).
Definition st_with_reservations (s : StateSnapshot) m : StateSnapshot :=
  mkSnapshot (st_coordinator_epoch s) (st_policy_generation s) (st_devices s) (st_regions s)
    (st_pools s) m (st_evidence_generation s) (st_global_ledger s).
Definition st_with_ledger (s : StateSnapshot) g : StateSnapshot :=
  mkSnapshot (st_coordinator_epoch s) (st_policy_generation s) (st_devices s) (st_regions s)
    (st_pools s) (st_reservations s) (st_evidence_generation s) g.

Definition with_state (f : Fabric) (s : StateSnapshot) : Fabric := mkFabric s (sequence_ f).

(** ** Construction and the scalar fields *)

Definition fabric_init (epoch : CoordinatorEpoch) (policy : PolicyGeneration) : Fabric :=
  mkFabric (mkSnapshot epoch policy ∅ ∅ ∅ ∅ gen_default line_default) 0.

Definition set_epoch (f : Fabric) (e : CoordinatorEpoch) : Fabric :=
  let s := state_ f in
  with_state f (mkSnapshot e (st_policy_generation s) (st_devices s) (st_regions s) (st_pools s)
                  (st_reservations s) (st_evidence_generation s) (st_global_ledger s)).

Definition epoch (f : Fabric) : CoordinatorEpoch := st_coordinator_epoch (state_ f).

Definition policy_generation (f : Fabric) : PolicyGeneration := st_policy_generation (state_ f).
Definition evidence_generation (f : Fabric) : EvidenceGeneration := st_evidence_generation (state_ f).
Definition snapshot (f : Fabric) : StateSnapshot := state_ f.

Definition set_policy_generation (f : Fabric) (p : PolicyGeneration) : Fabric :=
  let s := state_ f in
  with_state f (mkSnapshot (st_coordinator_epoch s) p (st_devices s) (st_regions s) (st_pools s)
                  (st_reservations s) (st_evidence_generation s) (st_global_ledger s)).

Definition advance_evidence_generation (f : Fabric) : Fabric :=
  let s := state_ f in
  with_state f (mkSnapshot (st_coordinator_epoch s) (st_policy_generation s) (st_devices s)
                  (st_regions s) (st_pools s) (st_reservations s)
                  (gen_advance (st_evidence_generation s)) (st_global_ledger s)).

(** ** Free capacity *)

Definition pool_free (p : CxlPool) : Z :=
  let used := add64 (add64 (add64 (pool_unavailable_bytes p) (pool_reserved_bytes p))
                           (pool_committed_bytes p)) (pool_draining_bytes p) in
  if bool_decide (pool_total_governed_bytes p <= used) then 0
  else sub64 (pool_total_governed_bytes p) used.

Definition region_free (r : CxlRegion) : Z :=
  let used := add64 (reg_reserved_bytes r) (reg_committed_bytes r) in
  if bool_decide (reg_region_capacity_bytes r <= used) then 0
  else sub64 (reg_region_capacity_bytes r) used.

(** ** Recomputation *)

(** The loop body of [recompute_global_locked] for one pool; an addition that would
    overflow leaves the pool after the components already added ([continue]). *)
Definition ledger_add_pool (g : CapacityLine) (p : CxlPool) : CapacityLine :=
  if bool_decide (pool_state p = PoolState_RETIRED) then g else
  match add_checked (total g) (pool_total_governed_bytes p) with
  | None => g
  | Some t =>
    let g := mkLine t (online g) (unavailable g) (reserved g) (committed g) (draining g) in
    match add_checked (online g) (pool_total_governed_bytes p) with
    | None => g
    | Some t =>
      let g := mkLine (total g) t (unavailable g) (reserved g) (committed g) (draining g) in
      match add_checked (unavailable g) (pool_unavailable_bytes p) with
      | None => g
      | Some t =>
        let g := mkLine (total g) (online g) t (reserved g) (committed g) (draining g) in
        match add_checked (reserved g) (pool_reserved_bytes p) with
        | None => g
        | Some t =>
          let g := mkLine (total g) (online g) (unavailable g) t (committed g) (draining g) in
          match add_checked (committed g) (pool_committed_bytes p) with
          | None => g
          | Some t =>
            let g := mkLine (total g) (online g) (unavailable g) (reserved g) t (draining g) in
            match add_checked (draining g) (pool_draining_bytes p) with
            | None => g
            | Some t =>
              mkLine (total g) (online g) (unavailable g) (reserved g) (committed g) t
            end
          end
        end
      end
    end
  end.

Definition global_ledger_of (pools : gmap PoolId CxlPool) : CapacityLine :=
  foldl (fun g kv => ledger_add_pool g kv.2) line_default (map_iter pools).

Definition recompute_global (s : StateSnapshot) : StateSnapshot :=
  st_with_ledger s (global_ledger_of (st_pools s)).

(** The accumulator of [recompute_pool_locked]: total, unavailable, domains. *)
Definition pool_add_member (acc : Z * Z * list string) (m : PoolMember) : Z * Z * list string :=
  let '(tot, unav, domains) := acc in
  if negb (mem_online m) then acc else
  let tot := default tot (add_checked tot (mem_nominal_bytes m)) in
  let unav := if negb (mem_health_ok m)
              then default unav (add_checked unav (mem_nominal_bytes m)) else unav in
  let domains :=
    if negb (String.eqb (mem_failure_domain m) "")
    then if bool_decide (mem_failure_domain m ∈ domains) then domains
         else domains ++ [mem_failure_domain m]
    else domains in
  (tot, unav, domains).

Definition recompute_pool (p : CxlPool) : CxlPool :=
  let '(tot, unav, domains) := foldl pool_add_member (0, 0, []) (pool_members p) in
  pool_set_totals p tot unav domains.

(** ** Device registry *)

(** [ctx.coordinator_epoch != state_.coordinator_epoch]. *)
Definition stale_epoch (f : Fabric) (ctx : AuthorityContext) : bool :=
  negb (bool_decide (ctx_coordinator_epoch ctx = st_coordinator_epoch (state_ f))).

Definition put_device (f : Fabric) (k : DeviceId) (d : CxlDevice) : Fabric :=
  with_state f (st_with_devices (state_ f) (<[k := d]> (st_devices (state_ f)))).

Definition register_device (f : Fabric) (dev : CxlDevice) (ctx : AuthorityContext)
    : DecisionReason * Fabric :=
  if stale_epoch f ctx then (DecisionReason_RESERVATION_STALE, f)
  else if id_empty (dev_id dev) || gen_empty (dev_generation dev) || id_empty (dev_boot_id dev)
  then (DecisionReason_INVALID_ARGUMENT, f)
  else match st_devices (state_ f) !! dev_id dev with
  | None => (DecisionReason_OK, put_device f (dev_id dev) dev)
  | Some existing =>
    if bool_decide (dev_generation existing = dev_generation dev) then
      if negb (String.eqb (dev_vendor_device_id existing) (dev_vendor_device_id dev))
      then (DecisionReason_CONFLICTING_FACTS, f)
      else if negb (dev_total_physical_bytes existing =? dev_total_physical_bytes dev)
      then (DecisionReason_CONFLICTING_FACTS, f)
      else (DecisionReason_OK, put_device f (dev_id dev) dev)
    else if gen_lt (dev_generation dev) (dev_generation existing)
    then (DecisionReason_DEVICE_STALE, f)
    else if negb (valid_transition_device (dev_state existing) (dev_state dev))
    then (DecisionReason_INVALID_ARGUMENT, f)
    else (DecisionReason_OK, put_device f (dev_id dev) dev)
  end.

(** ** Region registry *)

Definition put_region (f : Fabric) (k : RegionId) (r : CxlRegion) : Fabric :=
  with_state f (st_with_regions (state_ f) (<[k := r]> (st_regions (state_ f)))).

Definition is_member (d : DeviceId) (ms : list PoolMember) : bool :=
  existsb (fun m => bool_decide (mem_device m = d)) ms.

(** The loop of [create_region]: the reason of the first member that fails. *)
Fixpoint check_region_members (devices : gmap DeviceId CxlDevice) (pool : CxlPool)
    (ds : list DeviceId) : option DecisionReason :=
  match ds with
  | [] => None
  | d :: ds' =>
    match devices !! d with
    | None => Some DecisionReason_DEVICE_NOT_ONLINE
    | Some _ =>
      if negb (is_member d (pool_members pool)) then Some DecisionReason_CONFLICTING_FACTS
      else check_region_members devices pool ds'
    end
  end.

Definition create_region (f : Fabric) (region : CxlRegion) (ctx : AuthorityContext)
    : DecisionReason * Fabric :=
  if stale_epoch f ctx then (DecisionReason_RESERVATION_STALE, f)
  else if id_empty (reg_id region) || gen_empty (reg_generation region)
          || id_empty (reg_pool region)
  then (DecisionReason_INVALID_ARGUMENT, f)
  else match st_regions (state_ f) !! reg_id region with
  | Some _ => (DecisionReason_DUPLICATE_IDENTITY, f)
  | None =>
    match st_pools (state_ f) !! reg_pool region with
    | None => (DecisionReason_POOL_STALE, f)
    | Some pool =>
      match check_region_members (st_devices (state_ f)) pool (reg_member_devices region) with
      | Some why => (why, f)
      | None => (DecisionReason_OK, put_region f (reg_id region) region)
      end
    end
  end.

Definition update_region (f : Fabric) (region : CxlRegion) (ctx : AuthorityContext)
    : DecisionReason * Fabric :=
  if stale_epoch f ctx then (DecisionReason_RESERVATION_STALE, f)
  else match st_regions (state_ f) !! reg_id region with
  | None => (DecisionReason_REGION_STALE, f)
  | Some old =>
    if gen_lt (reg_generation region) (reg_generation old) then (DecisionReason_REGION_STALE, f)
    else (DecisionReason_OK, put_region f (reg_id region) region)
  end.

Definition reconfigure_region (f : Fabric) (id : RegionId) (new_members : list DeviceId)
    (ctx : AuthorityContext) : ReconfigureOutcome * Fabric :=
  if stale_epoch f ctx
  then (mkReconfigureOutcome false DecisionReason_RESERVATION_STALE gen_default, f)
  else match st_regions (state_ f) !! id with
  | None => (mkReconfigureOutcome false DecisionReason_REGION_STALE gen_default, f)
  | Some r =>
    let ng := gen_next (reg_generation r) in
    if gen_empty ng then (mkReconfigureOutcome false DecisionReason_INVALID_ARGUMENT gen_default, f)
    else (mkReconfigureOutcome true DecisionReason_OK ng,
          put_region f id
            (reg_with_status r ng new_members RegionState_RECONFIGURING (reg_health r) false))
  end.

(** ** Pool registry *)

Definition put_pool (f : Fabric) (k : PoolId) (p : CxlPool) : Fabric :=
  with_state f (st_with_pools (state_ f) (<[k := p]> (st_pools (state_ f)))).

(** [put_pool] followed by [recompute_global_locked]. *)
Definition put_pool_recompute (f : Fabric) (k : PoolId) (p : CxlPool) : Fabric :=
  let f' := put_pool f k p in with_state f' (recompute_global (state_ f')).

(** Is the device a member of any pool of the list? *)
Definition governed_in (d : DeviceId) (pools : list (PoolId * CxlPool)) : bool :=
  existsb (fun kv => is_member d (pool_members kv.2)) pools.

(** The loop of [create_pool]. *)
Fixpoint check_new_members (devices : gmap DeviceId CxlDevice) (pools : list (PoolId * CxlPool))
    (seen : list DeviceId) (ms : list PoolMember) : option DecisionReason :=
  match ms with
  | [] => None
  | m :: ms' =>
    match devices !! mem_device m with
    | None => Some DecisionReason_DEVICE_NOT_ONLINE
    | Some _ =>
      if bool_decide (mem_device m ∈ seen) then Some DecisionReason_DUPLICATE_IDENTITY
      else if governed_in (mem_device m) pools then Some DecisionReason_CONFLICTING_FACTS
      else check_new_members devices pools (seen ++ [mem_device m]) ms'
    end
  end.

Definition create_pool (f : Fabric) (pool : CxlPool) (ctx : AuthorityContext)
    : DecisionReason * Fabric :=
  if stale_epoch f ctx then (DecisionReason_RESERVATION_STALE, f)
  else if id_empty (pool_id pool) || gen_empty (pool_generation pool)
  then (DecisionReason_INVALID_ARGUMENT, f)
  else match st_pools (state_ f) !! pool_id pool with
  | Some _ => (DecisionReason_DUPLICATE_IDENTITY, f)
  | None =>
    match check_new_members (st_devices (state_ f)) (map_iter (st_pools (state_ f))) []
            (pool_members pool) with
    | Some why => (why, f)
    | None =>
      let copy := recompute_pool pool in
      let copy := pool_set_state copy PoolState_AVAILABLE true (pool_health_summary copy) in
      (DecisionReason_OK, put_pool_recompute f (pool_id copy) copy)
    end
  end.

Definition add_pool_member (f : Fabric) (pid : PoolId) (member : PoolMember)
    (ctx : AuthorityContext) : DecisionReason * Fabric :=
  if stale_epoch f ctx then (DecisionReason_RESERVATION_STALE, f)
  else match st_pools (state_ f) !! pid with
  | None => (DecisionReason_POOL_STALE, f)
  | Some p =>
    match st_devices (state_ f) !! mem_device member with
    | None => (DecisionReason_DEVICE_NOT_ONLINE, f)
    | Some _ =>
      if gen_empty (mem_device_generation member) then (DecisionReason_INVALID_ARGUMENT, f)
      else if is_member (mem_device member) (pool_members p)
      then (DecisionReason_DUPLICATE_IDENTITY, f)
      else if governed_in (mem_device member)
                (List.filter (fun kv => negb (bool_decide (kv.1 = pid)))
                   (map_iter (st_pools (state_ f))))
      then (DecisionReason_CONFLICTING_FACTS, f)
      else
        let p' := pool_set_members p (pool_members p ++ [member])
                    (gen_advance (pool_generation p)) in
        (DecisionReason_OK, put_pool_recompute f pid (recompute_pool p'))
    end
  end.

(** [members.erase] of the first member with that device; [None] if there is none. *)
Fixpoint erase_member (d : DeviceId) (ms : list PoolMember) : option (list PoolMember) :=
  match ms with
  | [] => None
  | m :: ms' => if bool_decide (mem_device m = d) then Some ms'
                else cons m <$> erase_member d ms'
  end.

Definition remove_pool_member (f : Fabric) (pid : PoolId) (device : DeviceId)
    (ctx : AuthorityContext) : DecisionReason * Fabric :=
  if stale_epoch f ctx then (DecisionReason_RESERVATION_STALE, f)
  else match st_pools (state_ f) !! pid with
  | None => (DecisionReason_POOL_STALE, f)
  | Some p =>
    match erase_member device (pool_members p) with
    | None => (DecisionReason_DEVICE_NOT_ONLINE, f)
    | Some ms =>
      let p' := pool_set_members p ms (gen_advance (pool_generation p)) in
      (DecisionReason_OK, put_pool_recompute f pid (recompute_pool p'))
    end
  end.

(** ** Evidence and lifecycle *)

Definition mark_device_revalidation (f : Fabric) (d : DeviceId) (ctx : AuthorityContext)
    : DecisionReason * Fabric :=
  if stale_epoch f ctx then (DecisionReason_RESERVATION_STALE, f)
  else match st_devices (state_ f) !! d with
  | None => (DecisionReason_DEVICE_NOT_ONLINE, f)
  | Some dev =>
    if negb (valid_transition_device (dev_state dev) DeviceState_REVALIDATION_REQUIRED)
    then (DecisionReason_INVALID_ARGUMENT, f)
    else (DecisionReason_OK,
          put_device f d (dev_set_state dev DeviceState_REVALIDATION_REQUIRED false))
  end.

Definition mark_device_online (f : Fabric) (d : DeviceId) (ctx : AuthorityContext)
    : DecisionReason * Fabric :=
  if stale_epoch f ctx then (DecisionReason_RESERVATION_STALE, f)
  else match st_devices (state_ f) !! d with
  | None => (DecisionReason_DEVICE_NOT_ONLINE, f)
  | Some dev =>
    if negb (valid_transition_device (dev_state dev) DeviceState_ONLINE)
    then (DecisionReason_INVALID_ARGUMENT, f)
    else (DecisionReason_OK, put_device f d (dev_set_state dev DeviceState_ONLINE true))
  end.

Definition mark_region_draining (f : Fabric) (id : RegionId) (ctx : AuthorityContext)
    : DecisionReason * Fabric :=
  if stale_epoch f ctx then (DecisionReason_RESERVATION_STALE, f)
  else match st_regions (state_ f) !! id with
  | None => (DecisionReason_REGION_STALE, f)
  | Some r =>
    if negb (valid_transition_region (reg_state r) RegionState_DRAINING)
    then (DecisionReason_INVALID_ARGUMENT, f)
    else (DecisionReason_OK,
          put_region f id (reg_set_state r RegionState_DRAINING (reg_health r)
                             (reg_evidence_current r)))
  end.

Definition mark_pool_draining (f : Fabric) (id : PoolId) (ctx : AuthorityContext)
    : DecisionReason * Fabric :=
  if stale_epoch f ctx then (DecisionReason_RESERVATION_STALE, f)
  else match st_pools (state_ f) !! id with
  | None => (DecisionReason_POOL_STALE, f)
  | Some p =>
    if negb (valid_transition_pool (pool_state p) PoolState_DRAINING)
    then (DecisionReason_INVALID_ARGUMENT, f)
    else (DecisionReason_OK,
          put_pool f id (pool_set_state p PoolState_DRAINING (pool_evidence_current p)
                           (pool_health_summary p)))
  end.

Definition reconcile_pool (f : Fabric) (id : PoolId) (ctx : AuthorityContext)
    : DecisionReason * Fabric :=
  if stale_epoch f ctx then (DecisionReason_RESERVATION_STALE, f)
  else match st_pools (state_ f) !! id with
  | None => (DecisionReason_POOL_STALE, f)
  | Some p => (DecisionReason_OK, put_pool_recompute f id (recompute_pool p))
  end.

Definition revalidate_pool (f : Fabric) (id : PoolId) (ctx : AuthorityContext)
    : DecisionReason * Fabric :=
  if stale_epoch f ctx then (DecisionReason_RESERVATION_STALE, f)
  else match st_pools (state_ f) !! id with
  | None => (DecisionReason_POOL_STALE, f)
  | Some p =>
    if negb (valid_transition_pool (pool_state p) PoolState_AVAILABLE)
    then (DecisionReason_INVALID_ARGUMENT, f)
    else (DecisionReason_OK,
          put_pool_recompute f id
            (recompute_pool (pool_set_state p PoolState_AVAILABLE true HealthState_HEALTHY)))
  end.

Definition revalidate_region (f : Fabric) (id : RegionId) (ctx : AuthorityContext)
    : DecisionReason * Fabric :=
  if stale_epoch f ctx then (DecisionReason_RESERVATION_STALE, f)
  else match st_regions (state_ f) !! id with
  | None => (DecisionReason_REGION_STALE, f)
  | Some r =>
    if negb (valid_transition_region (reg_state r) RegionState_ONLINE)
    then (DecisionReason_INVALID_ARGUMENT, f)
    else (DecisionReason_OK,
          put_region f id (reg_set_state r RegionState_ONLINE HealthState_HEALTHY true))
  end.

(** ** Selection *)

(** The three nested loops of [build_selection]: every (pool, region, device) triple
    that passes the pre-filters, in iteration order. *)
Definition device_candidates (s : StateSnapshot) (pool : CxlPool) (region : CxlRegion)
    : list Candidate :=
  omap (fun did =>
    match st_devices s !! did with
    | None => None
    | Some dev =>
      if negb (dev_evidence_current dev) then None
      else if negb (bool_decide (dev_state dev = DeviceState_ONLINE)) then None
      else Some (mkCandidate (pool_id pool) (pool_generation pool) (reg_id region)
                   (reg_generation region) (dev_id dev) (dev_generation dev)
                   (region_free region) (Some dev) (Some region) (Some pool))
    end) (reg_member_devices region).

Definition region_candidates (s : StateSnapshot) (pool : CxlPool) : list Candidate :=
  map_iter (st_regions s) ≫= fun kv =>
    let region := kv.2 in
    if negb (bool_decide (reg_pool region = pool_id pool)) then []
    else if negb (reg_evidence_current region) then []
    else if negb (bool_decide (reg_state region = RegionState_ONLINE)) then []
    else device_candidates s pool region.

Definition pool_candidates (s : StateSnapshot) : list Candidate :=
  map_iter (st_pools s) ≫= fun kv =>
    let pool := kv.2 in
    if negb (pool_evidence_current pool) then []
    else if negb (bool_decide (pool_state pool = PoolState_AVAILABLE))
            && negb (bool_decide (pool_state pool = PoolState_DEFINED)) then []
    else region_candidates s pool.

(** [evaluate_candidate(c, req, pool.evidence_current)]. *)
Definition evaluate_in_pool (req : AdmissionRequest) (c : Candidate) : SelectionResult :=
  evaluate_candidate c req
    (match cand_pool_record c with Some p => pool_evidence_current p | None => false end).

(** The file-local [locality_ordinal] of [fabric.cpp]. *)
Definition locality_ordinal (l : LocalityClass) : Z :=
  match l with
  | LocalityClass_DIRECT_LOCAL => 0
  | LocalityClass_SAME_HOST => 1
  | LocalityClass_SAME_NUMA_DOMAIN => 2
  | LocalityClass_REMOTE_NUMA_DOMAIN => 3
  | LocalityClass_SAME_CXL_ROOT => 4
  | LocalityClass_SAME_SWITCH => 5
  | LocalityClass_SWITCH_REMOTE => 6
  | LocalityClass_MULTI_HOP_CXL => 7
  | LocalityClass_CROSS_HOST => 8
  | LocalityClass_UNKNOWN => 9
  | LocalityClass_raw _ => 9
  end.

(** The ranking comparator. The source dereferences the device record, which every
    ranked candidate has; the default stands for a record that is never absent. *)
Definition ranked_device (c : Candidate) : CxlDevice :=
  default device_default (cand_device_record c).

Definition ranking_name (c : Candidate) : string :=
  id_str (cand_pool c) +:+ id_str (cand_region c) +:+ id_str (cand_device c).

Definition ranks_before (a b : Candidate) : bool :=
  let ea := dev_economics (ranked_device a) in
  let eb := dev_economics (ranked_device b) in
  let la := locality_ordinal (econ_locality ea) in
  let lb := locality_ordinal (econ_locality eb) in
  if negb (la =? lb) then la <? lb
  else if negb (econ_estimated_latency_ns ea =? econ_estimated_latency_ns eb)
  then econ_estimated_latency_ns ea <? econ_estimated_latency_ns eb
  else if negb (econ_estimated_bandwidth_mbps ea =? econ_estimated_bandwidth_mbps eb)
  then econ_estimated_bandwidth_mbps eb <? econ_estimated_bandwidth_mbps ea
  else if negb (cand_available_bytes a =? cand_available_bytes b)
  then cand_available_bytes b <? cand_available_bytes a
  else String.ltb (ranking_name a) (ranking_name b).

(** The result kept for the chosen candidate. *)
Definition result_matches (chosen : Candidate) (r : SelectionResult) : bool :=
  String.eqb (sel_pool r) (id_str (cand_pool chosen)) &&
  String.eqb (sel_region r) (id_str (cand_region chosen)) &&
  String.eqb (sel_device r) (id_str (cand_device chosen)) && sel_selected r.

Definition build_selection (s : StateSnapshot) (req : AdmissionRequest) : SelectionOutcome :=
  let cs := pool_candidates s in
  let explain r := if sel_selected r then sel_set_explanation r "candidate passed" else r in
  let results := (fun c => explain (evaluate_in_pool req c)) <$> cs in
  let selected := List.filter (fun c => sel_selected (evaluate_in_pool req c)) cs in
  match stable_sort ranks_before selected with
  | chosen :: _ =>
    mkOutcome true chosen
      (default (default result_default (head results))
         (List.find (result_matches chosen) results)) results
  | [] =>
    match results with
    | r :: _ => mkOutcome false candidate_default (sel_set_verdict r false (sel_reason r)) results
    | [] => mkOutcome false candidate_default
              (sel_set_verdict result_default false DecisionReason_CAPACITY_INSUFFICIENT) []
    end
  end.

(** [selection_snapshot_locked]: everything but the reservations. *)
Definition selection_snapshot (f : Fabric) : StateSnapshot := st_with_reservations (state_ f) ∅.

Definition select (f : Fabric) (req : AdmissionRequest) : SelectionOutcome :=
  build_selection (selection_snapshot f) req.

(** ** Reservations *)

Definition refuse (why : DecisionReason) : ReserveOutcome :=
  mkReserveOutcome false why reservation_default.

Definition reservation_name (n : Z) : ReservationId := mkId ("res-" +:+ to_string_u64 n).

Definition reserve (f : Fabric) (req : AdmissionRequest) (ctx : AuthorityContext)
    : ReserveOutcome * Fabric :=
  if stale_epoch f ctx then (refuse DecisionReason_RESERVATION_STALE, f)
  else if req_bytes req =? 0 then (refuse DecisionReason_INVALID_ARGUMENT, f)
  else
    let sel := build_selection (selection_snapshot f) req in
    if negb (out_ok sel) then (refuse (sel_reason (out_result sel)), f)
    else
      let c := out_chosen sel in
      let s := state_ f in
      match st_pools s !! cand_pool c, st_regions s !! cand_region c,
            st_devices s !! cand_device c with
      | Some pool, Some region, Some dev =>
        if negb (bool_decide (pool_generation pool = cand_pool_generation c))
           || negb (bool_decide (reg_generation region = cand_region_generation c))
           || negb (bool_decide (dev_generation dev = cand_device_generation c))
        then (refuse DecisionReason_POOL_GENERATION_STALE, f)
        else
          let pf := pool_free pool in
          let rf := region_free region in
          if bool_decide (req_bytes req > pf) || bool_decide (req_bytes req > rf)
          then (refuse DecisionReason_CAPACITY_OVERCOMMIT, f)
          else
            let pool' := pool_set_account pool (add64 (pool_reserved_bytes pool) (req_bytes req))
                           (pool_committed_bytes pool) in
            let region' := reg_set_account region
                             (add64 (reg_reserved_bytes region) (req_bytes req))
                             (reg_committed_bytes region) in
            let s1 := st_with_pools s (<[cand_pool c := pool']> (st_pools s)) in
            let s2 := st_with_regions s1 (<[cand_region c := region']> (st_regions s1)) in
            let s3 := recompute_global s2 in
            let seq := add64 (sequence_ f) 1 in
            let res :=
              mkReservation (reservation_name seq) (req_consumer req)
                (ctx_consumer_generation ctx) (cand_pool c) (cand_pool_generation c)
                (cand_region c) (cand_region_generation c) (cand_device c)
                (cand_device_generation c) (dev_boot_id dev) (req_bytes req)
                ResumeState_RESERVED (st_coordinator_epoch s) gen_default
                (ctx_worker_boot_id ctx) (dev_evidence_current dev) true in
            (* [emplace]: an existing entry is kept *)
            let resv := match st_reservations s3 !! res_id res with
                        | Some _ => st_reservations s3
                        | None => <[res_id res := res]> (st_reservations s3)
                        end in
            (mkReserveOutcome true DecisionReason_OK res,
             mkFabric (st_with_reservations s3 resv) seq)
      | _, _, _ => (refuse DecisionReason_UNKNOWN_ERROR, f)
      end.

Definition commit (f : Fabric) (rid : ReservationId) (ctx : AuthorityContext)
    : ReserveOutcome * Fabric :=
  let s := state_ f in
  match st_reservations s !! rid with
  | None => (refuse DecisionReason_RESERVATION_STALE, f)
  | Some res =>
    if negb (bool_decide (res_state res = ResumeState_RESERVED))
    then (refuse DecisionReason_RESERVATION_STALE, f)
    else if stale_epoch f ctx then (refuse DecisionReason_RESERVATION_STALE, f)
    else if negb (bool_decide (res_created_epoch res = st_coordinator_epoch s))
    then (refuse DecisionReason_RESERVATION_STALE, f)
    else if negb (id_empty (ctx_worker_boot_id ctx))
            && negb (bool_decide (ctx_worker_boot_id ctx = res_worker_boot_id res))
    then (refuse DecisionReason_RESERVATION_STALE, f)
    else match st_pools s !! res_pool res, st_regions s !! res_region res,
               st_devices s !! res_device res with
    | Some pool, Some region, Some dev =>
      if negb (bool_decide (pool_generation pool = res_pool_generation res))
      then (refuse DecisionReason_POOL_GENERATION_STALE, f)
      else if negb (bool_decide (reg_generation region = res_region_generation res))
      then (refuse DecisionReason_REGION_STALE, f)
      else if negb (bool_decide (dev_generation dev = res_device_generation res))
      then (refuse DecisionReason_DEVICE_STALE, f)
      else if bool_decide (res_bytes res > pool_reserved_bytes pool)
      then (refuse DecisionReason_CAPACITY_OVERCOMMIT, f)
      else
        let pool' := pool_set_account pool (sub64 (pool_reserved_bytes pool) (res_bytes res))
                       (add64 (pool_committed_bytes pool) (res_bytes res)) in
        let region' := reg_set_account region (sub64 (reg_reserved_bytes region) (res_bytes res))
                         (add64 (reg_committed_bytes region) (res_bytes res)) in
        let res' := res_set_state res ResumeState_COMMITTED (st_coordinator_epoch s) in
        let s1 := st_with_pools s (<[res_pool res := pool']> (st_pools s)) in
        let s2 := st_with_regions s1 (<[res_region res := region']> (st_regions s1)) in
        let s3 := st_with_reservations s2 (<[rid := res']> (st_reservations s2)) in
        (mkReserveOutcome true DecisionReason_OK res', with_state f (recompute_global s3))
    | _, _, _ => (refuse DecisionReason_POOL_GENERATION_STALE, f)
    end
  end.

(** The release arithmetic [release] applies to a pool and then to a region: from
    committed first, the rest from reserved if it covers it. The result is
    (reserved, committed, remaining). *)
Definition account_release (rsv com bytes : Z) : Z * Z * Z :=
  let '(com, remaining) :=
    if bool_decide (bytes > 0) && bool_decide (com > 0)
    then let take := if bool_decide (bytes < com) then bytes else com in
         (sub64 com take, sub64 bytes take)
    else (com, bytes) in
  if bool_decide (remaining > 0) && bool_decide (remaining <= rsv)
  then (sub64 rsv remaining, com, 0)
  else (rsv, com, remaining).

Definition release (f : Fabric) (rid : ReservationId) (ctx : AuthorityContext)
    : ReserveOutcome * Fabric :=
  let s := state_ f in
  match st_reservations s !! rid with
  | None => (refuse DecisionReason_RESERVATION_STALE, f)
  | Some res =>
    if bool_decide (res_state res = ResumeState_RELEASED)
    then (refuse DecisionReason_RESERVATION_STALE, f)
    else if stale_epoch f ctx then (refuse DecisionReason_RESERVATION_STALE, f)
    else if negb (bool_decide (res_state res = ResumeState_COMMITTED))
            && negb (bool_decide (res_state res = ResumeState_RESERVED))
    then (refuse DecisionReason_RESERVATION_STALE, f)
    else
      (* the pool, mutated before the remainder is checked *)
      let '(s1, conflict) :=
        match st_pools s !! res_pool res with
        | None => (s, false)
        | Some pool =>
          let '(rsv, com, remaining) :=
            account_release (pool_reserved_bytes pool) (pool_committed_bytes pool)
              (res_bytes res) in
          (st_with_pools s (<[res_pool res := pool_set_account pool rsv com]> (st_pools s)),
           negb (remaining =? 0))
        end in
      if conflict then (refuse DecisionReason_RESERVATION_CONFLICT, with_state f s1)
      else
        let s2 :=
          match st_regions s1 !! res_region res with
          | None => s1
          | Some region =>
            let '(rsv, com, _) :=
              account_release (reg_reserved_bytes region) (reg_committed_bytes region)
                (res_bytes res) in
            st_with_regions s1
              (<[res_region res := reg_set_account region rsv com]> (st_regions s1))
          end in
        let res' := res_set_state res ResumeState_RELEASED (res_commit_epoch res) in
        let s3 := st_with_reservations s2 (<[rid := res']> (st_reservations s2)) in
        (mkReserveOutcome true DecisionReason_OK res', with_state f (recompute_global s3))
  end.

(** ** Failover planning *)

(** The failure domain of the failed device: that of the last member, in iteration
    order, that names it. *)
Definition failed_domain_of (s : StateSnapshot) (failed_device : DeviceId) : string :=
  foldl (fun acc kv =>
    foldl (fun acc m => if bool_decide (mem_device m = failed_device)
                        then mem_failure_domain m else acc)
      acc (pool_members kv.2))
    "" (map_iter (st_pools s)).

Definition failover_device_candidates (s : StateSnapshot) (failed_device : DeviceId)
    (p : CxlPool) (r : CxlRegion) : list Candidate :=
  omap (fun did =>
    if bool_decide (did = failed_device) then None else
    match st_devices s !! did with
    | None => None
    | Some dev =>
      if negb (dev_evidence_current dev) then None
      else if negb (bool_decide (dev_state dev = DeviceState_ONLINE)) then None
      else Some (mkCandidate (pool_id p) (pool_generation p) (reg_id r) (reg_generation r) did
                   (dev_generation dev) (region_free r) (Some dev) (Some r) (Some p))
    end) (reg_member_devices r).

Definition failover_region_candidates (s : StateSnapshot) (failed_device : DeviceId)
    (p : CxlPool) : list Candidate :=
  map_iter (st_regions s) ≫= fun kv =>
    let r := kv.2 in
    if negb (bool_decide (reg_pool r = pool_id p)) then []
    else if negb (reg_evidence_current r)
            || negb (bool_decide (reg_state r = RegionState_ONLINE)) then []
    else failover_device_candidates s failed_device p r.

Definition failover_candidates (s : StateSnapshot) (pid : PoolId) (failed_device : DeviceId)
    : list Candidate :=
  map_iter (st_pools s) ≫= fun kv =>
    let p := kv.2 in
    if negb (id_empty pid) && negb (bool_decide (kv.1 = pid)) then []
    else if negb (pool_evidence_current p) then []
    else failover_region_candidates s failed_device p.

(** Whether a candidate's device lies in the failed domain. *)
Definition same_domain (failed_domain : string) (c : Candidate) : bool :=
  match cand_device_record c with
  | Some dev => negb (String.eqb failed_domain "")
                && String.eqb (econ_notes (dev_economics dev)) failed_domain
  | None => false
  end.

Definition plan_failover (f : Fabric) (pid : PoolId) (failed_device : DeviceId)
    (req : AdmissionRequest) : FailoverPlan :=
  let s := state_ f in
  let failed_domain := failed_domain_of s failed_device in
  let passed := List.filter (fun c => sel_selected (evaluate_in_pool req c))
                  (failover_candidates s pid failed_device) in
  let cross := List.filter (fun c => negb (same_domain failed_domain c)) passed in
  let same := List.filter (same_domain failed_domain) passed in
  match cross with
  | c :: _ => mkPlan FailoverOutcome_FAILOVER (Some c) "cross-domain replacement found"
  | [] =>
    match same with
    | c :: _ => mkPlan FailoverOutcome_DEGRADED (Some c)
                  "only same-failure-domain replacement available -> degraded fallback"
    | [] => mkPlan FailoverOutcome_REJECT None "no replacement candidate satisfies the request"
    end
  end.

(** ** Persistence of the state *)

Definition export_persisted (f : Fabric) : PersistedState :=
  let s := state_ f in
  mkPersisted (st_policy_generation s) (st_devices s) (st_regions s) (st_pools s).

Definition import_persisted (f : Fabric) (inp : PersistedState) : Fabric :=
  let s := state_ f in
  let devices := (fun d => dev_with_status d HealthState_UNKNOWN
                             DeviceState_REVALIDATION_REQUIRED false) <$> ps_devices inp in
  let regions := (fun r => reg_set_state r RegionState_REVALIDATION_REQUIRED (reg_health r)
                             false) <$> ps_regions inp in
  let pools := (fun p => pool_set_state p PoolState_REVALIDATION_REQUIRED false
                           (pool_health_summary p)) <$> ps_pools inp in
  with_state f
    (recompute_global
       (mkSnapshot (st_coordinator_epoch s) (ps_policy_generation inp) devices regions pools ∅
          (st_evidence_generation s) (st_global_ledger s))).

(** ** Audit *)

(** One pool of the audit loop: each sum on its own, skipped if it overflows. *)
Definition audit_add_pool (g : CapacityLine) (p : CxlPool) : CapacityLine :=
  if bool_decide (pool_state p = PoolState_RETIRED) then g else
  mkLine (default (total g) (add_checked (total g) (pool_total_governed_bytes p)))
    (default (online g) (add_checked (online g) (pool_total_governed_bytes p)))
    (default (unavailable g) (add_checked (unavailable g) (pool_unavailable_bytes p)))
    (default (reserved g) (add_checked (reserved g) (pool_reserved_bytes p)))
    (default (committed g) (add_checked (committed g) (pool_committed_bytes p)))
    (default (draining g) (add_checked (draining g) (pool_draining_bytes p))).

Definition pool_used64 (p : CxlPool) : Z :=
  add64 (add64 (add64 (pool_unavailable_bytes p) (pool_reserved_bytes p))
               (pool_committed_bytes p)) (pool_draining_bytes p).

Definition audit_pool_errors (p : CxlPool) : list string :=
  if bool_decide (pool_state p = PoolState_RETIRED) then []
  else if bool_decide (pool_total_governed_bytes p < pool_used64 p)
  then ["pool " +:+ id_str (pool_id p) +:+ " used > governed"] else [].

Definition audit (f : Fabric) : AuditReport :=
  let pools := map_iter (st_pools (state_ f)) in
  let g := foldl (fun g kv => audit_add_pool g kv.2) line_default pools in
  let errors := pools ≫= fun kv => audit_pool_errors kv.2 in
  let errors := match line_audit g with
                | Some err => errors ++ ["global ledger: " +:+ err]
                | None => errors
                end in
  mkReport (bool_decide (errors = [])) errors g.

Definition device_count (f : Fabric) : Z := Z.of_nat (size (st_devices (state_ f))).
Definition region_count (f : Fabric) : Z := Z.of_nat (size (st_regions (state_ f))).
Definition pool_count (f : Fabric) : Z := Z.of_nat (size (st_pools (state_ f))).
Definition reservation_count (f : Fabric) : Z := Z.of_nat (size (st_reservations (state_ f))).

(** ** The operations as steps

    Every mutating call a client can make, with its arguments, and the effect of a
    call on the state. A run of the engine is a sequence of such calls. *)
Inductive FabricOp : Set :=
  | OpSetEpoch (e : CoordinatorEpoch)
  | OpSetPolicyGeneration (p : PolicyGeneration)
  | OpAdvanceEvidence
  | OpRegisterDevice (d : CxlDevice) (ctx : AuthorityContext)
  | OpCreateRegion (r : CxlRegion) (ctx : AuthorityContext)
  | OpUpdateRegion (r : CxlRegion) (ctx : AuthorityContext)
  | OpReconfigureRegion (id : RegionId) (ms : list DeviceId) (ctx : AuthorityContext)
  | OpCreatePool (p : CxlPool) (ctx : AuthorityContext)
  | OpAddPoolMember (id : PoolId) (m : PoolMember) (ctx : AuthorityContext)
  | OpRemovePoolMember (id : PoolId) (d : DeviceId) (ctx : AuthorityContext)
  | OpMarkDeviceRevalidation (d : DeviceId) (ctx : AuthorityContext)
  | OpMarkDeviceOnline (d : DeviceId) (ctx : AuthorityContext)
  | OpMarkRegionDraining (id : RegionId) (ctx : AuthorityContext)
  | OpMarkPoolDraining (id : PoolId) (ctx : AuthorityContext)
  | OpReconcilePool (id : PoolId) (ctx : AuthorityContext)
  | OpRevalidatePool (id : PoolId) (ctx : AuthorityContext)
  | OpRevalidateRegion (id : RegionId) (ctx : AuthorityContext)
  | OpReserve (req : AdmissionRequest) (ctx : AuthorityContext)
  | OpCommit (rid : ReservationId) (ctx : AuthorityContext)
  | OpRelease (rid : ReservationId) (ctx : AuthorityContext)
  | OpImport (ps : PersistedState).

Definition step (f : Fabric) (op : FabricOp) : DecisionReason * Fabric :=
  match op with
  | OpSetEpoch e => (DecisionReason_OK, set_epoch f e)
  | OpSetPolicyGeneration p => (DecisionReason_OK, set_policy_generation f p)
  | OpAdvanceEvidence => (DecisionReason_OK, advance_evidence_generation f)
  | OpRegisterDevice d ctx => register_device f d ctx
  | OpCreateRegion r ctx => create_region f r ctx
  | OpUpdateRegion r ctx => update_region f r ctx
  | OpReconfigureRegion id ms ctx =>
      let '(o, f') := reconfigure_region f id ms ctx in (rc_reason o, f')
  | OpCreatePool p ctx => create_pool f p ctx
  | OpAddPoolMember id m ctx => add_pool_member f id m ctx
  | OpRemovePoolMember id d ctx => remove_pool_member f id d ctx
  | OpMarkDeviceRevalidation d ctx => mark_device_revalidation f d ctx
  | OpMarkDeviceOnline d ctx => mark_device_online f d ctx
  | OpMarkRegionDraining id ctx => mark_region_draining f id ctx
  | OpMarkPoolDraining id ctx => mark_pool_draining f id ctx
  | OpReconcilePool id ctx => reconcile_pool f id ctx
  | OpRevalidatePool id ctx => revalidate_pool f id ctx
  | OpRevalidateRegion id ctx => revalidate_region f id ctx
  | OpReserve req ctx => let '(o, f') := reserve f req ctx in (ro_reason o, f')
  | OpCommit rid ctx => let '(o, f') := commit f rid ctx in (ro_reason o, f')
  | OpRelease rid ctx => let '(o, f') := release f rid ctx in (ro_reason o, f')
  | OpImport ps => (DecisionReason_OK, import_persisted f ps)
  end.

(** The authority context a call presents, if it takes one. *)
Definition op_context (op : FabricOp) : option AuthorityContext :=
  match op with
  | OpSetEpoch _ | OpSetPolicyGeneration _ | OpAdvanceEvidence | OpImport _ => None
  | OpRegisterDevice _ ctx | OpCreateRegion _ ctx | OpUpdateRegion _ ctx
  | OpReconfigureRegion _ _ ctx | OpCreatePool _ ctx | OpAddPoolMember _ _ ctx
  | OpRemovePoolMember _ _ ctx | OpMarkDeviceRevalidation _ ctx | OpMarkDeviceOnline _ ctx
  | OpMarkRegionDraining _ ctx | OpMarkPoolDraining _ ctx | OpReconcilePool _ ctx
  | OpRevalidatePool _ ctx | OpRevalidateRegion _ ctx | OpReserve _ ctx | OpCommit _ ctx
  | OpRelease _ ctx => Some ctx
  end.
