(* ===== verification/Synthetic.v ===== *)
(** * The synthetic topology ([backend/synthetic.hpp]) and the topology of the CLI
    ([setup_synthetic] of [cli/cxl_fabric_cli.cpp])

    Deterministic constructors of devices, regions and pools, and the baseline
    topology the CLI and the tests start from. The concrete states built here are the
    inputs of the witnesses of the other files. *)
From Stdlib Require Import QArith.
From S2P Require Import Prelude.
From S2P Require Import Identity.
From S2P Require Import Enums.
From S2P Require Import Accounting.
From S2P Require Import Records.
From S2P Require Import Fabric.
#[local] Open Scope Z_scope.

(** The lambda [addcap] of [make_device]. *)
Definition synthetic_cap (k : CapabilityClass) (s : SupportState) (version : Z)
    (g : EvidenceGeneration) : Capability :=
  mkCapability k s version Provenance_SYNTHETIC g true "".

Definition synthetic_caps (vol : VolatilityKind) : Capabilities :=
  let m := caps_set ∅ (synthetic_cap CapabilityClass_MEMORY_DEVICE SupportState_SUPPORTED 1
                         (mkGen 1)) in
  let m := caps_set m (synthetic_cap CapabilityClass_TYPE3_MEMORY SupportState_SUPPORTED 1
                         (mkGen 1)) in
  let m := caps_set m (synthetic_cap CapabilityClass_VOLATILE_CAPACITY SupportState_SUPPORTED 1
                         (mkGen 1)) in
  let m := caps_set m (synthetic_cap CapabilityClass_DYNAMIC_CAPACITY SupportState_SUPPORTED 1
                         (mkGen 1)) in
  caps_set m (synthetic_cap CapabilityClass_PERSISTENT_CAPACITY
                (if bool_decide (vol = VolatilityKind_PERSISTENT)
                 then SupportState_SUPPORTED else SupportState_UNSUPPORTED) 0 gen_default).

Definition make_device (id : DeviceId) (gen : DeviceGeneration) (boot : DeviceBootId)
    (host : HostId) (bytes : Z) (vol : VolatilityKind) (sharing : SharingMode)
    (loc : LocalityClass) (latency_ns bw_mbps hops : Z) (failure_domain : string) : CxlDevice :=
  mkDevice id gen boot ("synthetic:" +:+ id_str id) "VEND:0001 DEVI:0001" "Type-3" "memory" host
    [] [] bytes bytes vol sharing false (bool_decide (vol = VolatilityKind_VOLATILE))
    AcceleratorAccessState_HOST_MEDIATED HealthState_HEALTHY DeviceState_ONLINE
    (synthetic_caps vol)
    (mkEconomics loc
       (if bool_decide (vol = VolatilityKind_PERSISTENT) then TierClass_CXL_PERSISTENT
        else TierClass_CXL_CAPACITY)
       EvidenceClass_SYNTHETIC Provenance_SYNTHETIC latency_ns bw_mbps hops
       (1 + inject_Z hops * (1 # 4))%Q (bytes / 8) true failure_domain)
    Provenance_SYNTHETIC (mkGen 1) true "" "synthetic".

Definition make_region (id : RegionId) (gen : RegionGeneration) (pool : PoolId)
    (members : list DeviceId) (bytes : Z) (loc : LocalityClass) (tier : TierClass)
    (st : RegionState) : CxlRegion :=
  mkRegion id gen pool members "" bytes (bool_decide (1 < length members)%nat) st [] []
    "dedicated" id_default loc tier HealthState_HEALTHY 0 0 Provenance_SYNTHETIC (mkGen 1) true
    false.

Definition make_pool (id : PoolId) (gen : PoolGeneration) (members : list PoolMember) : CxlPool :=
  mkPool id gen members 0 0 0 0 0 "default" [] LocalityClass_UNKNOWN HealthState_HEALTHY
    PoolState_AVAILABLE Provenance_SYNTHETIC (mkGen 1) true "".

Definition GiB : Z := 1024 * 1024 * 1024.

Definition baseline_devices (host : HostId) : list CxlDevice :=
  [make_device (mkId "dev-1") (mkGen 1) (mkId "boot-1") host (16 * GiB) VolatilityKind_VOLATILE
     SharingMode_DEDICATED LocalityClass_SAME_HOST 180 32000 1 "fd-root-a";
   make_device (mkId "dev-2") (mkGen 1) (mkId "boot-2") host (64 * GiB) VolatilityKind_VOLATILE
     SharingMode_SHARED LocalityClass_REMOTE_NUMA_DOMAIN 400 16000 3 "fd-root-b";
   make_device (mkId "dev-3") (mkGen 1) (mkId "boot-3") host (8 * GiB) VolatilityKind_PERSISTENT
     SharingMode_DEDICATED LocalityClass_SAME_CXL_ROOT 260 24000 2 "fd-root-a"].

(** The lambda [mk_member] of [setup_synthetic]. *)
Definition mk_member (id : string) (bytes : Z) (fd : string) : PoolMember :=
  mkMember (mkId id) (mkGen 1) bytes true true fd LocalityClass_SAME_HOST.

Definition synthetic_context (f : Fabric) : AuthorityContext :=
  mkContext (epoch f) (st_policy_generation (state_ f)) id_default (mkGen 1).

Definition setup_synthetic (f : Fabric) : Fabric :=
  let ctx := synthetic_context f in
  let f := foldl (fun f d => (register_device f d ctx).2) f
             (baseline_devices (mkId "host-synth")) in
  let f := (create_pool f
              (make_pool (mkId "p-1") (mkGen 1)
                 [mk_member "dev-1" (16 * GiB) "fd-root-a";
                  mk_member "dev-2" (64 * GiB) "fd-root-b";
                  mk_member "dev-3" (8 * GiB) "fd-root-a"]) ctx).2 in
  let f := (create_region f
              (make_region (mkId "reg-1") (mkGen 1) (mkId "p-1") [mkId "dev-1"] (16 * GiB)
                 LocalityClass_SAME_HOST TierClass_CXL_NEAR RegionState_ONLINE) ctx).2 in
  let f := (create_region f
              (make_region (mkId "reg-2") (mkGen 1) (mkId "p-1") [mkId "dev-2"] (64 * GiB)
                 LocalityClass_REMOTE_NUMA_DOMAIN TierClass_CXL_REMOTE RegionState_ONLINE)
              ctx).2 in
  (create_region f
     (make_region (mkId "reg-3") (mkGen 1) (mkId "p-1") [mkId "dev-3"] (8 * GiB)
        LocalityClass_SAME_CXL_ROOT TierClass_CXL_PERSISTENT RegionState_ONLINE) ctx).2.

(** The fabric the CLI starts every command with. *)
Definition demo : Fabric := setup_synthetic (fabric_init (mkGen 1) (mkGen 1)).
Definition demo_ctx : AuthorityContext := mkContext (mkGen 1) (mkGen 1) id_default (mkGen 1).

(** The demo after the 1 GiB reservation of [synthetic-demo]. *)
Definition demo_reserved : Fabric := (reserve demo (request_for GiB (mkId "svc")) demo_ctx).2.
