(* ===== verification/SelectionProps.v ===== *)
(** * Properties of placement selection

    [build_selection] enumerates candidates, evaluates them, ranks the survivors and
    keeps the first. The theorems state that this finds an admissible placement
    exactly when there is one, and a best one under the documented ranking. *)
From S2P Require Import Prelude.
From S2P Require Import Identity.
From S2P Require Import Enums.
From S2P Require Import Records.
From S2P Require Import Selection.
From S2P Require Import Fabric.
From S2P Require Import Synthetic.

(** ** What a placement is *)

(** The candidate tuple of a pool, one of its regions and one of its devices. *)
Definition candidate_of (p : CxlPool) (r : CxlRegion) (d : CxlDevice) : Candidate :=
  mkCandidate (pool_id p) (pool_generation p) (reg_id r) (reg_generation r) (dev_id d)
    (dev_generation d) (region_free r) (Some d) (Some r) (Some p).

(** [p], [r] and [d] are records of the state, the region belongs to the pool, the
    device is a member of the region, and the three together are admissible. *)
Definition placement (s : StateSnapshot) (req : AdmissionRequest) (p : CxlPool)
    (r : CxlRegion) (d : CxlDevice) : Prop :=
  (exists kp, st_pools s !! kp = Some p) /\ (exists kr, st_regions s !! kr = Some r) /\
  reg_pool r = pool_id p /\
  (exists did, did ∈ reg_member_devices r /\ st_devices s !! did = Some d) /\
  admissible d r p (region_free r) req (pool_evidence_current p).

(** ** The enumeration *)

Lemma elem_of_device_candidates s p r c :
  c ∈ device_candidates s p r <->
  exists did d, did ∈ reg_member_devices r /\ st_devices s !! did = Some d /\
    dev_evidence_current d = true /\ dev_state d = DeviceState_ONLINE /\ c = candidate_of p r d.
Proof.
  unfold device_candidates. rewrite list_elem_of_omap. split.
  - intros (did & Hin & H). destruct (st_devices s !! did) as [d|] eqn:Hd; [|done].
    destruct (dev_evidence_current d) eqn:He; simpl in H; [|done].
    case_bool_decide; simpl in H; [|done]. simplify_eq. eauto 10.
  - intros (did & d & Hin & Hd & He & Hst & ->). exists did. split; [done|].
    rewrite Hd, He, Hst. done.
Qed.

Lemma elem_of_region_candidates s p c :
  c ∈ region_candidates s p <->
  exists k r, st_regions s !! k = Some r /\ reg_pool r = pool_id p /\
    reg_evidence_current r = true /\ reg_state r = RegionState_ONLINE /\
    c ∈ device_candidates s p r.
Proof.
  unfold region_candidates. rewrite list_elem_of_bind. split.
  - intros ([k r] & Hc & Hin%elem_of_map_iter); simpl in *.
    case_bool_decide; simpl in Hc; [|by apply not_elem_of_nil in Hc].
    destruct (reg_evidence_current r) eqn:?; simpl in Hc; [|by apply not_elem_of_nil in Hc].
    case_bool_decide; simpl in Hc; [|by apply not_elem_of_nil in Hc]. eauto 10.
  - intros (k & r & Hk & Hp & He & Hs & Hc). exists (k, r). split; [|by apply elem_of_map_iter].
    simpl. rewrite Hp, He, Hs. rewrite !bool_decide_true by done. done.
Qed.

Lemma elem_of_pool_candidates s c :
  c ∈ pool_candidates s <->
  exists k p, st_pools s !! k = Some p /\ pool_evidence_current p = true /\
    (pool_state p = PoolState_AVAILABLE \/ pool_state p = PoolState_DEFINED) /\
    c ∈ region_candidates s p.
Proof.
  unfold pool_candidates. rewrite list_elem_of_bind. split.
  - intros ([k p] & Hc & Hin%elem_of_map_iter); simpl in *.
    destruct (pool_evidence_current p) eqn:?; simpl in Hc; [|by apply not_elem_of_nil in Hc].
    case_test_in Hc; [by apply not_elem_of_nil in Hc|].
    apply andb_false_iff in E as [E%negb_false_iff%bool_decide_eq_true |
                                  E%negb_false_iff%bool_decide_eq_true]; eauto 10.
  - intros (k & p & Hk & He & Hs & Hc). exists (k, p). split; [|by apply elem_of_map_iter].
    simpl. rewrite He. simpl. destruct Hs as [Hs | Hs]; rewrite Hs; done.
Qed.

(** A candidate that passes evaluation is a placement, and every placement is among
    the candidates and passes: the pre-filters lose nothing. *)
Lemma passing_candidate_iff s req c :
  (c ∈ pool_candidates s /\ sel_selected (evaluate_in_pool req c) = true) <->
  (exists p r d, c = candidate_of p r d /\ placement s req p r d).
Proof.
  split.
  - intros [Hc Hsel].
    apply elem_of_pool_candidates in Hc as (kp & p & Hp & Hpe & Hps & Hc).
    apply elem_of_region_candidates in Hc as (kr & r & Hr & Hrp & Hre & Hrs & Hc).
    apply elem_of_device_candidates in Hc as (did & d & Hin & Hd & Hde & Hds & ->).
    exists p, r, d. split; [done|]. unfold placement. split_and!; eauto.
    unfold evaluate_in_pool in Hsel. simpl in Hsel.
    by apply (evaluate_selected_iff (candidate_of p r d) _ _ d r p) in Hsel.
  - intros (p & r & d & -> & (kp & Hp) & (kr & Hr) & Hrp & (did & Hin & Hd) & Hadm).
    pose proof (adm_evidence _ _ _ _ _ _ Hadm) as (Hde & Hre & Hpe).
    pose proof (adm_online _ _ _ _ _ _ Hadm) as (Hds & Hrs & Hps). split.
    + apply elem_of_pool_candidates. exists kp, p. split_and!; try done.
      apply elem_of_region_candidates. exists kr, r. split_and!; try done.
      apply elem_of_device_candidates. eauto 10.
    + unfold evaluate_in_pool. simpl.
      by apply (evaluate_selected_iff (candidate_of p r d) _ _ d r p).
Qed.

Lemma elem_of_list_filter {A} (P : A -> bool) (x : A) l :
  x ∈ List.filter P l <-> x ∈ l /\ P x = true.
Proof. rewrite !list_elem_of_In. apply filter_In. Qed.

(** ** The ranking is a strict weak order

    [std::stable_sort] requires it; without it the behaviour is undefined. *)
#[export] Instance ranks_before_swo : StrictWeakOrder ranks_before.
Proof.
  pose (econ c := dev_economics (ranked_device c)).
  exact (lex_asc_swo (fun c => locality_ordinal (econ_locality (econ c))) _
    (lex_asc_swo (fun c => econ_estimated_latency_ns (econ c)) _
      (lex_desc_swo (fun c => econ_estimated_bandwidth_mbps (econ c)) _
        (lex_desc_swo cand_available_bytes _ (string_key_swo ranking_name))))).
Qed.

(** ** The outcome *)

Definition passing (s : StateSnapshot) (req : AdmissionRequest) : list Candidate :=
  List.filter (fun c => sel_selected (evaluate_in_pool req c)) (pool_candidates s).

Lemma elem_of_passing s req c :
  c ∈ passing s req <-> exists p r d, c = candidate_of p r d /\ placement s req p r d.
Proof. unfold passing. rewrite elem_of_list_filter. apply passing_candidate_iff. Qed.

(** The two shapes of an outcome. *)
Lemma build_selection_cases s req :
  (exists c rest, stable_sort ranks_before (passing s req) = c :: rest /\
     out_ok (build_selection s req) = true /\ out_chosen (build_selection s req) = c) \/
  (passing s req = [] /\ out_ok (build_selection s req) = false).
Proof.
  unfold build_selection. fold (passing s req).
  destruct (stable_sort ranks_before (passing s req)) as [|c rest] eqn:E.
  - right. split; [by apply (stable_sort_nil ranks_before)|]. by case_match.
  - left. eauto.
Qed.

Lemma build_selection_ok_iff s req :
  out_ok (build_selection s req) = true <-> exists p r d, placement s req p r d.
Proof.
  destruct (build_selection_cases s req) as [(c & rest & Hs & -> & _) | [Hnil ->]].
  - split; [intros _|done].
    apply (stable_sort_head ranks_before) in Hs as [Hin _].
    apply elem_of_passing in Hin as (p & r & d & _ & Hpl). eauto.
  - split; [done|]. intros (p & r & d & Hpl).
    assert (candidate_of p r d ∈ passing s req) as H by (apply elem_of_passing; eauto).
    rewrite Hnil in H. by apply not_elem_of_nil in H.
Qed.

Lemma build_selection_chosen s req :
  out_ok (build_selection s req) = true ->
  exists p r d, out_chosen (build_selection s req) = candidate_of p r d /\
    placement s req p r d /\
    (forall p' r' d', placement s req p' r' d' ->
       ranks_before (candidate_of p' r' d') (candidate_of p r d) = false).
Proof.
  destruct (build_selection_cases s req) as [(c & rest & Hs & _ & ->) | [_ ->]]; [|done].
  intros _. apply (stable_sort_head ranks_before) in Hs as [Hin Hmin].
  apply elem_of_passing in Hin as (p & r & d & -> & Hpl).
  exists p, r, d. split_and!; try done. intros p' r' d' Hpl'.
  apply Hmin, elem_of_passing. eauto.
Qed.

(** The verdict reported with a refused selection is never [OK]. *)
Lemma build_selection_refused s req :
  out_ok (build_selection s req) = false ->
  sel_selected (out_result (build_selection s req)) = false /\
  sel_reason (out_result (build_selection s req)) <> DecisionReason_OK.
Proof.
  destruct (build_selection_cases s req) as [(c & rest & _ & -> & _) | [Hnil _]]; [done|].
  intros _. unfold build_selection. fold (passing s req). rewrite Hnil. simpl.
  destruct (pool_candidates s) as [|c cs] eqn:Hcs; simpl; [done|].
  split; [done|].
  assert (sel_selected (evaluate_in_pool req c) = false) as Hns.
  { destruct (sel_selected (evaluate_in_pool req c)) eqn:E; [|done].
    assert (c ∈ passing s req) as Hin.
    { unfold passing. rewrite Hcs. apply elem_of_list_filter. split; [|done].
      apply list_elem_of_here. }
    rewrite Hnil in Hin. by apply not_elem_of_nil in Hin. }
  rewrite Hns. unfold evaluate_in_pool in *.
  match goal with |- context [evaluate_candidate c req ?cur] =>
    pose proof (evaluate_explained c req cur) as Hex end.
  unfold verdict_explained in Hex. rewrite Hns in Hex. tauto.
Qed.

(** The result reported with a successful selection is the evaluation of a placement
    with the names of the chosen candidate. *)
Lemma build_selection_result s req :
  out_ok (build_selection s req) = true ->
  sel_selected (out_result (build_selection s req)) = true /\
  result_matches (out_chosen (build_selection s req)) (out_result (build_selection s req)) = true.
Proof.
  intros Hok. destruct (build_selection_chosen s req Hok) as (p & r & d & Hch & Hpl & _).
  assert (Hfind : exists res, List.find (result_matches (candidate_of p r d))
                                (out_candidates (build_selection s req)) = Some res /\
                              out_result (build_selection s req) = res).
  { unfold build_selection in *. fold (passing s req) in *.
    destruct (stable_sort ranks_before (passing s req)) as [|c rest] eqn:E;
      [by case_match|]. cbn [out_chosen out_result out_candidates] in *. subst c.
    match goal with |- exists res, ?F = _ /\ _ => destruct F as [res|] eqn:Hf end;
      [by eexists|].
    assert (candidate_of p r d ∈ passing s req) as Hin by (apply elem_of_passing; eauto).
    apply elem_of_list_filter in Hin as [Hin Hsel].
    eapply List.find_none with (x := sel_set_explanation
      (evaluate_in_pool req (candidate_of p r d)) "candidate passed") in Hf.
    - exfalso. revert Hf. unfold result_matches, evaluate_in_pool in *; simpl in *.
      destruct (evaluate_selected_names (candidate_of p r d) req _ d r p
        eq_refl eq_refl eq_refl Hsel) as (-> & -> & ->).
      by rewrite Hsel, !String.eqb_refl.
    - apply list_elem_of_In, list_elem_of_fmap. eexists. split; [|done]. by rewrite Hsel. }
  destruct Hfind as (res & Hf & ->). rewrite Hch.
  apply List.find_some in Hf as [_ Hm]. split; [|done].
  unfold result_matches in Hm. by apply andb_true_iff in Hm as [_ ?].
Qed.

(** *** The order of preference

    Stated on the records themselves: the closer device, then the one with the lower
    latency, then with the higher bandwidth, then the region with more free bytes, then
    the lower name. *)

(** The locality classes from near to far; UNKNOWN and every other value come last. *)
Definition near_to_far : list LocalityClass :=
  [LocalityClass_DIRECT_LOCAL; LocalityClass_SAME_HOST; LocalityClass_SAME_NUMA_DOMAIN;
   LocalityClass_REMOTE_NUMA_DOMAIN; LocalityClass_SAME_CXL_ROOT; LocalityClass_SAME_SWITCH;
   LocalityClass_SWITCH_REMOTE; LocalityClass_MULTI_HOP_CXL; LocalityClass_CROSS_HOST].

Definition distance (l : LocalityClass) : nat :=
  match list_find (eq l) near_to_far with Some (i, _) => i | None => length near_to_far end.

Definition placement_name (p : CxlPool) (r : CxlRegion) (d : CxlDevice) : string :=
  id_str (pool_id p) +:+ id_str (reg_id r) +:+ id_str (dev_id d).

(** Better in one respect, or equal in it and what follows decides. *)
Definition first_by (better : Prop) (equal : Prop) (next : Prop) : Prop := better \/ equal /\ next.

Definition not_worse (p : CxlPool) (r : CxlRegion) (d : CxlDevice)
    (p' : CxlPool) (r' : CxlRegion) (d' : CxlDevice) : Prop :=
  let e := dev_economics d in
  let e' := dev_economics d' in
  first_by (distance (econ_locality e) < distance (econ_locality e'))%nat
           (distance (econ_locality e) = distance (econ_locality e'))
  (first_by (econ_estimated_latency_ns e < econ_estimated_latency_ns e')
            (econ_estimated_latency_ns e = econ_estimated_latency_ns e')
  (first_by (econ_estimated_bandwidth_mbps e' < econ_estimated_bandwidth_mbps e)
            (econ_estimated_bandwidth_mbps e' = econ_estimated_bandwidth_mbps e)
  (first_by (region_free r' < region_free r) (region_free r' = region_free r)
            (String.ltb (placement_name p' r' d') (placement_name p r d) = false)))).

Lemma locality_ordinal_distance l : locality_ordinal l = Z.of_nat (distance l).
Proof. by destruct l. Qed.

(** The comparator of the code says the same. *)
Lemma ranks_before_spec p r d p' r' d' :
  ranks_before (candidate_of p' r' d') (candidate_of p r d) = false <-> not_worse p r d p' r' d'.
Proof.
  unfold ranks_before, not_worse, first_by.
  change (ranked_device (candidate_of p' r' d')) with d'. change (ranked_device (candidate_of p r d)) with d.
  change (cand_available_bytes (candidate_of p' r' d')) with (region_free r').
  change (cand_available_bytes (candidate_of p r d)) with (region_free r).
  change (ranking_name (candidate_of p' r' d')) with (placement_name p' r' d').
  change (ranking_name (candidate_of p r d)) with (placement_name p r d).
  rewrite !locality_ordinal_distance.
  repeat match goal with |- context [negb (?a =? ?b)] => destruct (Z.eqb_spec a b); cbn [negb] end;
    rewrite ?Z.ltb_ge; try lia.
  destruct (String.ltb _ _); [split; [done | lia] | split; [intros _ | done]].
  repeat (right; split; [lia|]). done.
Qed.




(** The ranking comparator meets the requirement of [std::stable_sort]: it is
    a strict weak ordering of all candidates (irreflexive, transitive, with
    transitive incomparability), so the sort is well defined and deterministic, and
    candidates it cannot separate keep their enumeration order. The three copies of
    the locality ordinal in the source agree on every locality value. *)
Theorem ranking_well_defined :
  StrictWeakOrder ranks_before /\
  (forall l z, List.filter (equivalent ranks_before z) (stable_sort ranks_before l)
               = List.filter (equivalent ranks_before z) l) /\
  (forall e, locality_ordinal (econ_locality e) = econ_ordinal e /\
             locality_ord (econ_locality e) = econ_ordinal e).
Proof.
  split; [apply _|]. split.
  - intros l z. apply (stable_sort_stable ranks_before).
  - intros e. unfold econ_ordinal. by destruct (econ_locality e).
Qed.

(** ** Failover planning *)

(** A replacement for [failed]: like a placement, in the given pool if one is named,
    on another device. *)
Definition replacement (s : StateSnapshot) (pid : PoolId) (failed : DeviceId)
    (req : AdmissionRequest) (c : Candidate) : Prop :=
  exists kp p kr r did d,
    st_pools s !! kp = Some p /\ (pid = id_default \/ kp = pid) /\
    st_regions s !! kr = Some r /\ reg_pool r = pool_id p /\
    did ∈ reg_member_devices r /\ did <> failed /\ st_devices s !! did = Some d /\
    admissible d r p (region_free r) req (pool_evidence_current p) /\
    c = mkCandidate (pool_id p) (pool_generation p) (reg_id r) (reg_generation r) did
          (dev_generation d) (region_free r) (Some d) (Some r) (Some p).

Lemma elem_of_failover_device s failed p r c :
  c ∈ failover_device_candidates s failed p r <->
  exists did d, did ∈ reg_member_devices r /\ did <> failed /\ st_devices s !! did = Some d /\
    dev_evidence_current d = true /\ dev_state d = DeviceState_ONLINE /\
    c = mkCandidate (pool_id p) (pool_generation p) (reg_id r) (reg_generation r) did
          (dev_generation d) (region_free r) (Some d) (Some r) (Some p).
Proof.
  unfold failover_device_candidates. rewrite list_elem_of_omap. split.
  - intros (did & Hin & H). case_bool_decide; [done|].
    destruct (st_devices s !! did) as [d|] eqn:Hd; [|done].
    destruct (dev_evidence_current d) eqn:He; simpl in H; [|done].
    case_bool_decide; simpl in H; [|done]. simplify_eq. eauto 10.
  - intros (did & d & Hin & Hne & Hd & He & Hst & ->). exists did. split; [done|].
    rewrite bool_decide_false by done. rewrite Hd, He, Hst. done.
Qed.

Lemma elem_of_failover_region s failed p c :
  c ∈ failover_region_candidates s failed p <->
  exists k r, st_regions s !! k = Some r /\ reg_pool r = pool_id p /\
    reg_evidence_current r = true /\ reg_state r = RegionState_ONLINE /\
    c ∈ failover_device_candidates s failed p r.
Proof.
  unfold failover_region_candidates. rewrite list_elem_of_bind. split.
  - intros ([k r] & Hc & Hin%elem_of_map_iter); simpl in *.
    case_bool_decide; simpl in Hc; [|by apply not_elem_of_nil in Hc].
    destruct (reg_evidence_current r) eqn:?; simpl in Hc; [|by apply not_elem_of_nil in Hc].
    case_bool_decide; simpl in Hc; [|by apply not_elem_of_nil in Hc]. eauto 10.
  - intros (k & r & Hk & Hp & He & Hs & Hc). exists (k, r). split; [|by apply elem_of_map_iter].
    simpl. rewrite Hp, He, Hs. rewrite !bool_decide_true by done. done.
Qed.

Lemma elem_of_failover_candidates s pid failed c :
  c ∈ failover_candidates s pid failed <->
  exists k p, st_pools s !! k = Some p /\ (pid = id_default \/ k = pid) /\
    pool_evidence_current p = true /\ c ∈ failover_region_candidates s failed p.
Proof.
  unfold failover_candidates. rewrite list_elem_of_bind. split.
  - intros ([k p] & Hc & Hin%elem_of_map_iter); simpl in *.
    destruct (id_empty pid) eqn:Hid; [apply id_empty_spec in Hid|];
      simpl in Hc; repeat case_bool_decide; simpl in Hc; try by apply not_elem_of_nil in Hc.
    all: destruct (pool_evidence_current p) eqn:?; simpl in Hc;
      [|by apply not_elem_of_nil in Hc]; eauto 10.
  - intros (k & p & Hk & Hid & He & Hc). exists (k, p). split; [|by apply elem_of_map_iter].
    simpl. rewrite He. destruct Hid as [->| ->]; [done|].
    rewrite bool_decide_true by done. rewrite andb_false_r. done.
Qed.

Lemma replacement_iff s pid failed req c :
  (c ∈ failover_candidates s pid failed /\ sel_selected (evaluate_in_pool req c) = true) <->
  replacement s pid failed req c.
Proof.
  split.
  - intros [Hc Hsel].
    apply elem_of_failover_candidates in Hc as (kp & p & Hp & Hid & Hpe & Hc).
    apply elem_of_failover_region in Hc as (kr & r & Hr & Hrp & Hre & Hrs & Hc).
    apply elem_of_failover_device in Hc as (did & d & Hin & Hne & Hd & Hde & Hds & ->).
    exists kp, p, kr, r, did, d. split_and!; try done.
    by apply (evaluate_selected_iff _ _ _ d r p) in Hsel.
  - intros (kp & p & kr & r & did & d & Hp & Hid & Hr & Hrp & Hin & Hne & Hd & Hadm & ->).
    pose proof (adm_evidence _ _ _ _ _ _ Hadm) as (Hde & Hre & Hpe).
    pose proof (adm_online _ _ _ _ _ _ Hadm) as (Hds & Hrs & Hps). split.
    + apply elem_of_failover_candidates. exists kp, p. split_and!; try done.
      apply elem_of_failover_region. exists kr, r. split_and!; try done.
      apply elem_of_failover_device. exists did, d. done.
    + by apply (evaluate_selected_iff _ _ _ d r p).
Qed.
