(* ===== verification/Ledger.v ===== *)
(** * The capacity ledger: an abstract specification

    What the governance engine promises about capacity, without its registries: an
    account per pool, a claim per reservation, and the only events that may change
    them, each with its guard, over unbounded integers. The invariants are proved
    here, by cases on the events; [LedgerRefinement] shows that every operation of
    the engine performs one of these events. *)
From S2P Require Import Prelude.
From S2P Require Import Identity.
From S2P Require Import Enums.

(** ** Accounts, claims and events *)

Record Account : Set := mkAccount {
  ac_total : Z;
  ac_unavailable : Z;
  ac_reserved : Z;
  ac_committed : Z;
  ac_draining : Z;
}.

Record Claim : Set := mkClaim {
  cl_pool : PoolId;
  cl_bytes : Z;
  cl_state : ResumeState;
}.

Record Ledger : Set := mkLedger {
  lg_accounts : gmap PoolId Account;
  lg_claims : gmap ReservationId Claim;
}.

(** No pool governs more than 2^63 - 1 bytes (8 EiB). Half of the 64-bit range is
    what makes the four-term sums of the engine fit in 64 bits whatever the order of
    membership changes. *)
Definition CAPACITY_BOUND : Z := 2 ^ 63 - 1.

Definition ac_used (a : Account) : Z :=
  ac_unavailable a + ac_reserved a + ac_committed a + ac_draining a.

Definition ac_free (a : Account) : Z := Z.max 0 (ac_total a - ac_used a).

Definition account_ok (a : Account) : Prop :=
  0 <= ac_unavailable a <= ac_total a /\ ac_total a <= CAPACITY_BOUND /\
  0 <= ac_reserved a /\ 0 <= ac_committed a /\ 0 <= ac_draining a /\
  ac_reserved a + ac_committed a + ac_draining a <= CAPACITY_BOUND.

(** What is promised never exceeds what is governed. *)
Definition account_covered (a : Account) : Prop := ac_used a <= ac_total a.

Definition ac_resize (a : Account) (tot unav : Z) : Account :=
  mkAccount tot unav (ac_reserved a) (ac_committed a) (ac_draining a).
Definition ac_reserve (a : Account) (n : Z) : Account :=
  mkAccount (ac_total a) (ac_unavailable a) (ac_reserved a + n) (ac_committed a) (ac_draining a).
Definition ac_commit (a : Account) (n : Z) : Account :=
  mkAccount (ac_total a) (ac_unavailable a) (ac_reserved a - n) (ac_committed a + n)
    (ac_draining a).
(** From the committed bytes first, the rest from the reserved ones. *)
Definition ac_release (a : Account) (n : Z) : Account :=
  let take := Z.min n (ac_committed a) in
  mkAccount (ac_total a) (ac_unavailable a) (ac_reserved a - (n - take))
    (ac_committed a - take) (ac_draining a).

Definition cl_set_state (c : Claim) (st : ResumeState) : Claim :=
  mkClaim (cl_pool c) (cl_bytes c) st.

Definition lg_set_account (l : Ledger) (k : PoolId) (a : Account) : Ledger :=
  mkLedger (<[k := a]> (lg_accounts l)) (lg_claims l).
Definition lg_set_claim (l : Ledger) (id : ReservationId) (c : Claim) : Ledger :=
  mkLedger (lg_accounts l) (<[id := c]> (lg_claims l)).

Definition cl_live (c : Claim) : bool :=
  bool_decide (cl_state c = ResumeState_RESERVED) ||
  bool_decide (cl_state c = ResumeState_COMMITTED).

Inductive LedgerEvent : Set :=
  | EvIdle
  | EvOpen (k : PoolId) (a : Account)
  | EvResize (k : PoolId) (tot unav : Z)
  | EvReserve (id : ReservationId) (k : PoolId) (n : Z)
  | EvCommit (id : ReservationId)
  | EvRelease (id : ReservationId)
  | EvReset (accounts : gmap PoolId Account).

Inductive ledger_step (l : Ledger) : LedgerEvent -> Ledger -> Prop :=
  | step_idle : ledger_step l EvIdle l
  | step_open k a :
      lg_accounts l !! k = None -> account_ok a ->
      ledger_step l (EvOpen k a) (lg_set_account l k a)
  | step_resize k a tot unav :
      lg_accounts l !! k = Some a -> 0 <= unav <= tot -> tot <= CAPACITY_BOUND ->
      ledger_step l (EvResize k tot unav) (lg_set_account l k (ac_resize a tot unav))
  | step_reserve id k a n :
      lg_accounts l !! k = Some a -> lg_claims l !! id = None -> 0 < n <= ac_free a ->
      ledger_step l (EvReserve id k n)
        (lg_set_claim (lg_set_account l k (ac_reserve a n)) id
           (mkClaim k n ResumeState_RESERVED))
  | step_commit id c a :
      lg_claims l !! id = Some c -> cl_state c = ResumeState_RESERVED ->
      lg_accounts l !! cl_pool c = Some a -> cl_bytes c <= ac_reserved a ->
      ledger_step l (EvCommit id)
        (lg_set_claim (lg_set_account l (cl_pool c) (ac_commit a (cl_bytes c))) id
           (cl_set_state c ResumeState_COMMITTED))
  | step_release id c a :
      lg_claims l !! id = Some c -> cl_live c = true ->
      lg_accounts l !! cl_pool c = Some a -> cl_bytes c <= ac_reserved a + ac_committed a ->
      ledger_step l (EvRelease id)
        (lg_set_claim (lg_set_account l (cl_pool c) (ac_release a (cl_bytes c))) id
           (cl_set_state c ResumeState_RELEASED))
  | step_reset accounts :
      map_Forall (fun _ a => account_ok a) accounts ->
      ledger_step l (EvReset accounts) (mkLedger accounts ∅).

(** ** The invariant *)

(** Bytes of the claims on pool [k]: those still only reserved, and all live ones. *)
Definition held_by (k : PoolId) (c : Claim) : Z :=
  if bool_decide (cl_pool c = k) && bool_decide (cl_state c = ResumeState_RESERVED)
  then cl_bytes c else 0.
Definition owed_by (k : PoolId) (c : Claim) : Z :=
  if bool_decide (cl_pool c = k) && cl_live c then cl_bytes c else 0.

Definition held (l : Ledger) (k : PoolId) : Z := msum (held_by k) (lg_claims l).
Definition owed (l : Ledger) (k : PoolId) : Z := msum (owed_by k) (lg_claims l).

(** Every live claim is covered by its pool's account: the reserved bytes cover the
    reserved claims, and reserved and committed bytes together all live ones. *)
Record ledger_ok (l : Ledger) : Prop := {
  lok_accounts : map_Forall (fun _ a => account_ok a) (lg_accounts l);
  lok_bytes : map_Forall (fun _ c => 0 < cl_bytes c) (lg_claims l);
  lok_pools : map_Forall (fun _ c => cl_live c = true -> is_Some (lg_accounts l !! cl_pool c))
                (lg_claims l);
  lok_held : map_Forall (fun k a => held l k <= ac_reserved a) (lg_accounts l);
  lok_owed : map_Forall (fun k a => owed l k <= ac_reserved a + ac_committed a) (lg_accounts l);
}.

Definition ledger_covered (l : Ledger) : Prop :=
  map_Forall (fun _ a => account_covered a) (lg_accounts l).

(** Nothing is charged to a pool but the live claims on it. *)
Definition ledger_exact (l : Ledger) : Prop :=
  map_Forall (fun k a => ac_reserved a + ac_committed a = owed l k) (lg_accounts l).

(** ** Preservation *)

Lemma weight_range k c : 0 < cl_bytes c -> 0 <= held_by k c <= owed_by k c.
Proof. intros. unfold held_by, owed_by, cl_live. repeat case_bool_decide; simpl; lia. Qed.

Lemma held_owed l k :
  map_Forall (fun _ c => 0 < cl_bytes c) (lg_claims l) -> 0 <= held l k <= owed l k.
Proof.
  intros Hb. split; [apply msum_nonneg | apply msum_mono];
    intros id c Hc; by apply weight_range, (Hb id c Hc).
Qed.

(** The same for all claims but one. *)
Lemma held_owed_except l k id c :
  map_Forall (fun _ c => 0 < cl_bytes c) (lg_claims l) -> lg_claims l !! id = Some c ->
  held l k - held_by k c <= owed l k - owed_by k c.
Proof.
  intros Hb Hc. unfold held, owed. rewrite !(msum_delete _ _ id c Hc).
  enough (msum (held_by k) (delete id (lg_claims l)) <= msum (owed_by k) (delete id (lg_claims l)))
    by lia.
  apply msum_mono. intros id' c' [_ Hc']%lookup_delete_Some.
  by apply weight_range, (Hb id' c' Hc').
Qed.

(** A claim weighs only on its own pool. *)
Lemma owed_by_other k c : cl_pool c <> k -> owed_by k c = 0 /\ held_by k c = 0.
Proof. intros. unfold owed_by, held_by. by rewrite bool_decide_false. Qed.

Lemma owed_unknown l k :
  ledger_ok l -> lg_accounts l !! k = None -> held l k = 0 /\ owed l k = 0.
Proof.
  intros Hok Hk. pose proof (held_owed l k (lok_bytes l Hok)).
  enough (owed l k <= 0) by lia.
  rewrite <- (Z.mul_0_r 0). transitivity (msum (fun _ : Claim => 0) (lg_claims l)).
  - apply msum_mono. intros id c Hc. unfold owed_by.
    case_bool_decide as E; simpl; [|done]. destruct (cl_live c) eqn:Hlive; [|done].
    destruct (lok_pools l Hok id c Hc Hlive). congruence.
  - generalize (lg_claims l). intros m.
    induction m as [|id c m ? IH] using map_ind; [by rewrite msum_empty|].
    rewrite msum_insert_fresh by done. lia.
Qed.

Lemma ledger_ok_set_account l k a :
  ledger_ok l -> account_ok a -> held l k <= ac_reserved a ->
  owed l k <= ac_reserved a + ac_committed a -> ledger_ok (lg_set_account l k a).
Proof.
  intros [Ha Hb Hp Hh Ho] Haok Hhk Hok. split; simpl.
  - by apply map_Forall_insert_2.
  - done.
  - intros id c Hc Hlive. destruct (decide (k = cl_pool c)) as [->|].
    + rewrite lookup_insert_eq. eauto.
    + rewrite lookup_insert_ne by done. by eapply Hp.
  - by apply map_Forall_insert_2.
  - by apply map_Forall_insert_2.
Qed.

(** Replacing an account and a claim on it together: enough that the new account
    covers what the claims on it then amount to. [old] is the weight of the claim
    that was there before. *)
Lemma ledger_ok_set_both l k a id c :
  let l' := lg_set_claim (lg_set_account l k a) id c in
  ledger_ok l -> account_ok a -> cl_pool c = k -> 0 < cl_bytes c ->
  (forall k', k' <> k -> held l' k' = held l k' /\ owed l' k' = owed l k') ->
  held l' k <= ac_reserved a -> owed l' k <= ac_reserved a + ac_committed a ->
  ledger_ok l'.
Proof.
  intros l' [Ha Hb Hp Hh Ho] Haok Hck Hcb Hother Hhk Hok. split; simpl.
  - by apply map_Forall_insert_2.
  - by apply map_Forall_insert_2.
  - intros id' c' Hc' Hlive.
    destruct (decide (k = cl_pool c')) as [->|Hne]; [rewrite lookup_insert_eq; eauto|].
    rewrite lookup_insert_ne by done.
    destruct (decide (id = id')) as [->|].
    + rewrite lookup_insert_eq in Hc'. by simplify_eq.
    + rewrite lookup_insert_ne in Hc' by done. by eapply Hp.
  - intros k' a' Hk'. destruct (decide (k = k')) as [->|].
    + rewrite lookup_insert_eq in Hk'. by simplify_eq.
    + rewrite lookup_insert_ne in Hk' by done.
      destruct (Hother k' ltac:(done)) as [-> _]. by apply Hh.
  - intros k' a' Hk'. destruct (decide (k = k')) as [->|].
    + rewrite lookup_insert_eq in Hk'. by simplify_eq.
    + rewrite lookup_insert_ne in Hk' by done.
      destruct (Hother k' ltac:(done)) as [_ ->]. by apply Ho.
Qed.

(** The sums after a new claim, and after a claim changes state. *)
Lemma sums_new_claim l k a id c k' :
  lg_claims l !! id = None ->
  held (lg_set_claim (lg_set_account l k a) id c) k' = held l k' + held_by k' c /\
  owed (lg_set_claim (lg_set_account l k a) id c) k' = owed l k' + owed_by k' c.
Proof. intros H. unfold held, owed. simpl. rewrite !msum_insert_fresh by done. lia. Qed.

Lemma sums_set_claim l k a id c0 c k' :
  lg_claims l !! id = Some c0 ->
  held (lg_set_claim (lg_set_account l k a) id c) k'
    = held l k' - held_by k' c0 + held_by k' c /\
  owed (lg_set_claim (lg_set_account l k a) id c) k'
    = owed l k' - owed_by k' c0 + owed_by k' c.
Proof. intros H. unfold held, owed. simpl. by rewrite !(msum_insert _ _ _ c0) by done. Qed.

(** What a live claim weighs on its own pool. *)
Lemma claim_weight c :
  held_by (cl_pool c) c = (if bool_decide (cl_state c = ResumeState_RESERVED)
                           then cl_bytes c else 0) /\
  owed_by (cl_pool c) c = (if cl_live c then cl_bytes c else 0).
Proof. unfold held_by, owed_by. by rewrite bool_decide_true. Qed.

(** A live claim never exceeds what its account carries, a reserved one never the
    reserved part: the guards of commit and release always hold. *)
Lemma claim_backed l id c :
  ledger_ok l -> lg_claims l !! id = Some c -> cl_live c = true ->
  exists a, lg_accounts l !! cl_pool c = Some a /\ 0 < cl_bytes c /\
    cl_bytes c <= ac_reserved a + ac_committed a /\
    (cl_state c = ResumeState_RESERVED -> cl_bytes c <= ac_reserved a).
Proof.
  intros Hok Hc Hlive. destruct (lok_pools l Hok id c Hc Hlive) as [a Ha].
  assert (Hpos : forall k id c, lg_claims l !! id = Some c -> 0 <= owed_by k c /\ 0 <= held_by k c).
  { intros k id' c' Hc'. pose proof (weight_range k c' (lok_bytes l Hok id' c' Hc')). lia. }
  destruct (claim_weight c) as [Wh Wo]. rewrite Hlive in Wo.
  exists a. split_and!; [done | exact (lok_bytes l Hok id c Hc) | |].
  - etransitivity; [|exact (lok_owed l Hok _ _ Ha)]. rewrite <- Wo.
    apply (msum_le_one _ _ id); [|done]. intros ?? H. by destruct (Hpos (cl_pool c) _ _ H).
  - intros Hst. rewrite bool_decide_true in Wh by done.
    etransitivity; [|exact (lok_held l Hok _ _ Ha)]. rewrite <- Wh.
    apply (msum_le_one _ _ id); [|done]. intros ?? H. by destruct (Hpos (cl_pool c) _ _ H).
Qed.

Ltac account_arith :=
  unfold account_ok, account_covered, ac_free, ac_used, ac_reserve, ac_commit, ac_release,
    ac_resize, CAPACITY_BOUND in *; simpl in *; lia.

Section events.
Context (l : Ledger) (Hok : ledger_ok l).

(** The facts every event on a known account starts from. *)
Lemma account_facts k a :
  lg_accounts l !! k = Some a ->
  account_ok a /\ held l k <= ac_reserved a /\ owed l k <= ac_reserved a + ac_committed a.
Proof.
  intros Hk. split_and!; [exact (lok_accounts l Hok k a Hk) | exact (lok_held l Hok k a Hk) |
                          exact (lok_owed l Hok k a Hk)].
Qed.

Lemma ledger_ok_reserve k a id n :
  lg_accounts l !! k = Some a -> lg_claims l !! id = None -> 0 < n <= ac_free a ->
  ledger_ok (lg_set_claim (lg_set_account l k (ac_reserve a n)) id
               (mkClaim k n ResumeState_RESERVED)).
Proof.
  intros Hk Hid Hn. destruct (account_facts k a Hk) as (? & ? & ?).
  set (c := mkClaim k n ResumeState_RESERVED).
  pose proof (fun k' => sums_new_claim l k (ac_reserve a n) id c k' Hid) as Hs.
  destruct (claim_weight c) as [Wh Wo]; simpl in Wh, Wo.
  apply ledger_ok_set_both; simpl; try done; [account_arith | lia | | |].
  - intros k' Hne. pose proof (Hs k'). pose proof (owed_by_other k' c ltac:(done)). lia.
  - pose proof (Hs k). account_arith.
  - pose proof (Hs k). account_arith.
Qed.

(** A claim that changes state, with its account. *)
Lemma ledger_ok_set_state id c a st :
  lg_claims l !! id = Some c -> account_ok a ->
  let c' := cl_set_state c st in
  held l (cl_pool c) - held_by (cl_pool c) c + held_by (cl_pool c) c' <= ac_reserved a ->
  owed l (cl_pool c) - owed_by (cl_pool c) c + owed_by (cl_pool c) c'
    <= ac_reserved a + ac_committed a ->
  ledger_ok (lg_set_claim (lg_set_account l (cl_pool c) a) id c').
Proof.
  intros Hc Ha c' Hh Ho.
  pose proof (fun k' => sums_set_claim l (cl_pool c) a id c c' k' Hc) as Hs.
  apply ledger_ok_set_both; simpl; try done; [exact (lok_bytes l Hok id c Hc) | | |].
  - intros k' Hne. pose proof (Hs k'). pose proof (owed_by_other k' c ltac:(done)).
    pose proof (owed_by_other k' c' ltac:(done)). lia.
  - pose proof (Hs (cl_pool c)). lia.
  - pose proof (Hs (cl_pool c)). lia.
Qed.

Lemma ledger_ok_commit id c a :
  lg_claims l !! id = Some c -> cl_state c = ResumeState_RESERVED ->
  lg_accounts l !! cl_pool c = Some a -> cl_bytes c <= ac_reserved a ->
  ledger_ok (lg_set_claim (lg_set_account l (cl_pool c) (ac_commit a (cl_bytes c))) id
               (cl_set_state c ResumeState_COMMITTED)).
Proof.
  intros Hc Hst Hk Hle. destruct (account_facts _ a Hk) as (? & ? & ?).
  pose proof (lok_bytes l Hok id c Hc).
  destruct (claim_weight c) as [Wh Wo].
  destruct (claim_weight (cl_set_state c ResumeState_COMMITTED)) as [Wh' Wo'].
  unfold cl_live in Wo, Wo'. simpl in Wh', Wo'. rewrite Hst in Wh, Wo. simpl in Wh, Wo.
  apply ledger_ok_set_state; [done | account_arith..].
Qed.

Lemma ledger_ok_release id c a :
  lg_claims l !! id = Some c -> cl_live c = true ->
  lg_accounts l !! cl_pool c = Some a -> cl_bytes c <= ac_reserved a + ac_committed a ->
  ledger_ok (lg_set_claim (lg_set_account l (cl_pool c) (ac_release a (cl_bytes c))) id
               (cl_set_state c ResumeState_RELEASED)).
Proof.
  intros Hc Hlive Hk Hle. destruct (account_facts _ a Hk) as (? & ? & ?).
  pose proof (lok_bytes l Hok id c Hc).
  destruct (claim_weight c) as [Wh Wo].
  destruct (claim_weight (cl_set_state c ResumeState_RELEASED)) as [Wh' Wo'].
  simpl in Wh', Wo'. rewrite Hlive in Wo.
  pose proof (held_owed_except l (cl_pool c) id c (lok_bytes l Hok) Hc).
  pose proof (weight_range (cl_pool c) c (lok_bytes l Hok id c Hc)).
  apply ledger_ok_set_state; [done | account_arith..].
Qed.
End events.

Lemma ledger_ok_reset accounts :
  map_Forall (fun _ a => account_ok a) accounts -> ledger_ok (mkLedger accounts ∅).
Proof.
  intros Hacc. split; simpl; try done; try by apply map_Forall_empty.
  - intros k a Hk. change (held _ k) with 0. specialize (Hacc k a Hk). account_arith.
  - intros k a Hk. change (owed _ k) with 0. specialize (Hacc k a Hk). account_arith.
Qed.

Lemma ledger_step_ok l ev l' : ledger_ok l -> ledger_step l ev l' -> ledger_ok l'.
Proof.
  intros Hok. destruct 1 as [| k a Hk | k a tot unav Hk | | | |];
    eauto using ledger_ok_reserve, ledger_ok_commit, ledger_ok_release, ledger_ok_reset.
  - destruct (owed_unknown l k Hok Hk). apply ledger_ok_set_account; account_arith || done.
  - destruct (account_facts l Hok k a Hk) as (? & ? & ?).
    apply ledger_ok_set_account; account_arith || done.
Qed.

(** ** Coverage and exactness *)

(** The events that cannot uncover a pool: an account opened or restored is itself
    covered, and a resize does not shrink what is available. *)
Definition event_covering (l : Ledger) (ev : LedgerEvent) : Prop :=
  match ev with
  | EvOpen _ a => account_covered a
  | EvResize k tot unav => forall a, lg_accounts l !! k = Some a ->
                             ac_total a - ac_unavailable a <= tot - unav
  | EvReset accounts => map_Forall (fun _ a => account_covered a) accounts
  | _ => True
  end.

(** The events that charge nothing but a claim. *)
Definition event_exact (ev : LedgerEvent) : Prop :=
  match ev with
  | EvOpen _ a => ac_reserved a = 0 /\ ac_committed a = 0
  | EvReset accounts =>
      map_Forall (fun _ a => ac_reserved a = 0 /\ ac_committed a = 0) accounts
  | _ => True
  end.

Lemma ledger_step_covered l ev l' :
  ledger_ok l -> ledger_covered l -> event_covering l ev -> ledger_step l ev l' ->
  ledger_covered l'.
Proof.
  intros Hok Hcov Hev Hs. unfold ledger_covered.
  destruct Hs as [| k a Hk | k a tot unav Hk | id k a n Hk | id c a Hc Hst Hk Hle
                  | id c a Hc Hlive Hk Hle |]; simpl in *; try done;
    apply map_Forall_insert_2; try done.
  - pose proof (Hcov k a Hk). specialize (Hev a Hk). account_arith.
  - pose proof (Hcov k a Hk). account_arith.
  - pose proof (Hcov _ a Hk). account_arith.
  - pose proof (Hcov _ a Hk). pose proof (lok_accounts l Hok _ a Hk).
    pose proof (lok_bytes l Hok id c Hc). account_arith.
Qed.

(** Charging an account with exactly what its claims changed by keeps it exact. *)
Lemma ledger_exact_set_both l k a a' id c :
  let l' := lg_set_claim (lg_set_account l k a') id c in
  ledger_exact l -> lg_accounts l !! k = Some a ->
  (forall k', k' <> k -> owed l' k' = owed l k') ->
  ac_reserved a' + ac_committed a' - owed l' k = ac_reserved a + ac_committed a - owed l k ->
  ledger_exact l'.
Proof.
  intros l' Hex Hk Hother Heq. unfold ledger_exact. simpl. intros k' a0 Hk'.
  destruct (decide (k = k')) as [->|Hne].
  - rewrite lookup_insert_eq in Hk'. simplify_eq. specialize (Hex k' a Hk). simpl in *. lia.
  - rewrite lookup_insert_ne in Hk' by done. specialize (Hex k' a0 Hk'). simpl in *.
    specialize (Hother k' ltac:(done)). lia.
Qed.

Lemma ledger_step_exact l ev l' :
  ledger_ok l -> ledger_exact l -> event_exact ev -> ledger_step l ev l' -> ledger_exact l'.
Proof.
  intros Hok Hex Hev Hs.
  destruct Hs as [| k a Hk | k a tot unav Hk | id k a n Hk Hid | id c a Hc Hst Hk Hle
                  | id c a Hc Hlive Hk Hle | accounts]; simpl in *.
  - done.
  - destruct (owed_unknown l k Hok Hk) as [_ Ho]. apply map_Forall_insert_2; [|done].
    change (owed _ k) with (owed l k). lia.
  - apply map_Forall_insert_2; [|done]. exact (Hex k a Hk).
  - set (c := mkClaim k n ResumeState_RESERVED).
    pose proof (fun k' => sums_new_claim l k (ac_reserve a n) id c k' Hid) as Hs.
    apply (ledger_exact_set_both l k a); try done.
    + intros k' Hne. pose proof (Hs k'). pose proof (owed_by_other k' c ltac:(done)). lia.
    + pose proof (Hs k). destruct (claim_weight c) as [_ W]. simpl in *. lia.
  - set (c' := cl_set_state c ResumeState_COMMITTED).
    pose proof (fun k' => sums_set_claim l (cl_pool c) (ac_commit a (cl_bytes c)) id c c' k' Hc)
      as Hs.
    apply (ledger_exact_set_both l (cl_pool c) a); try done.
    + intros k' Hne. pose proof (Hs k'). pose proof (owed_by_other k' c ltac:(done)).
      pose proof (owed_by_other k' c' ltac:(done)). lia.
    + pose proof (Hs (cl_pool c)). destruct (claim_weight c) as [_ W], (claim_weight c') as [_ W'].
      unfold cl_live in *. simpl in *. rewrite Hst in W. simpl in *. lia.
  - set (c' := cl_set_state c ResumeState_RELEASED).
    pose proof (fun k' => sums_set_claim l (cl_pool c) (ac_release a (cl_bytes c)) id c c' k' Hc)
      as Hs.
    apply (ledger_exact_set_both l (cl_pool c) a); try done.
    + intros k' Hne. pose proof (Hs k'). pose proof (owed_by_other k' c ltac:(done)).
      pose proof (owed_by_other k' c' ltac:(done)). lia.
    + pose proof (Hs (cl_pool c)). destruct (claim_weight c) as [_ W], (claim_weight c') as [_ W'].
      rewrite Hlive in W. simpl in *. lia.
  - intros k a Hk. change (owed _ k) with 0. specialize (Hev k a Hk). simpl in *. lia.
Qed.

(** ** The life of a claim *)

(** RESERVED, then COMMITTED, then RELEASED; a claim never goes back. *)
Definition claim_age (st : ResumeState) : Z :=
  match st with
  | ResumeState_RESERVED => 0
  | ResumeState_COMMITTED => 1
  | ResumeState_RELEASED => 2
  | _ => 3
  end.

Definition claim_advances (c c' : Claim) : Prop :=
  cl_pool c' = cl_pool c /\ cl_bytes c' = cl_bytes c /\
  (c' = c \/ claim_age (cl_state c) < claim_age (cl_state c') <= 2).

Lemma claim_advances_refl c : claim_advances c c.
Proof. unfold claim_advances. auto. Qed.

Lemma ledger_step_claims l ev l' id c :
  ledger_step l ev l' -> lg_claims l !! id = Some c ->
  (exists c', lg_claims l' !! id = Some c' /\ claim_advances c c') \/
  (exists accounts, ev = EvReset accounts).
Proof.
  intros Hs Hid.
  destruct Hs as [| | | id' k a n Hk Hid' | id' c0 a Hc Hst | id' c0 a Hc Hlive |]; simpl;
    try (left; exists c; split; [done | apply claim_advances_refl]); [| | | by eauto].
  - left. exists c. split; [|apply claim_advances_refl]. rewrite lookup_insert_ne; congruence.
  - left. destruct (decide (id' = id)) as [->|].
    + rewrite lookup_insert_eq. simplify_eq. eexists. split; [done|].
      unfold claim_advances. simpl. rewrite Hst. simpl. auto with lia.
    + rewrite lookup_insert_ne by done. exists c. split; [done|apply claim_advances_refl].
  - left. destruct (decide (id' = id)) as [->|].
    + rewrite lookup_insert_eq. simplify_eq. eexists. split; [done|].
      unfold claim_advances, cl_live in *. simpl. split_and!; try done. right.
      repeat case_bool_decide; simpl in *; try done;
        match goal with H : cl_state _ = _ |- _ => rewrite H end; simpl; lia.
    + rewrite lookup_insert_ne by done. exists c. split; [done|apply claim_advances_refl].
Qed.
