(* ===== verification/LedgerRefinement.v ===== *)
(** * The engine implements the capacity ledger

    [ledger_of] forgets everything of a fabric but the accounts of its pools and the
    claims of its reservations. The file states the invariant of the whole engine,
    proves that every operation keeps it, and that every operation performs one event
    of the abstract ledger of [Ledger], with its guard: the 64-bit arithmetic of the
    code then never wraps. *)
From S2P Require Import Prelude.
From S2P Require Import Identity.
From S2P Require Import Enums.
From S2P Require Import Lifecycle.
From S2P Require Import Accounting.
From S2P Require Import Records.
From S2P Require Import Selection.
From S2P Require Import Fabric.
From S2P Require Import Synthetic.
From S2P Require Import SelectionProps.
From S2P Require Import Ledger.

(** ** The abstraction *)

Definition account_of (p : CxlPool) : Account :=
  mkAccount (pool_total_governed_bytes p) (pool_unavailable_bytes p) (pool_reserved_bytes p)
    (pool_committed_bytes p) (pool_draining_bytes p).

Definition claim_of (r : Reservation) : Claim :=
  mkClaim (res_pool r) (res_bytes r) (res_state r).

Definition ledger_of (f : Fabric) : Ledger :=
  mkLedger (account_of <$> st_pools (state_ f)) (claim_of <$> st_reservations (state_ f)).

(** ** Members *)

Definition members_nominal (ms : list PoolMember) : Z := lsum mem_nominal_bytes ms.
Definition members_online (ms : list PoolMember) : Z :=
  lsum (fun m => if mem_online m then mem_nominal_bytes m else 0) ms.
Definition members_unhealthy (ms : list PoolMember) : Z :=
  lsum (fun m => if mem_online m && negb (mem_health_ok m) then mem_nominal_bytes m else 0) ms.

Definition members_ok (ms : list PoolMember) : Prop :=
  Forall (fun m => 0 <= mem_nominal_bytes m) ms /\ members_nominal ms <= CAPACITY_BOUND.

Lemma members_range ms :
  members_ok ms ->
  0 <= members_unhealthy ms <= members_online ms /\ members_online ms <= members_nominal ms.
Proof.
  intros [Hm _]. unfold members_unhealthy, members_online, members_nominal.
  split; [split|]; [apply lsum_nonneg | apply lsum_mono | apply lsum_mono];
    eapply Forall_impl; try exact Hm; simpl; intros m Hn;
    destruct (mem_online m), (mem_health_ok m); simpl; lia.
Qed.

Lemma recompute_fold ms t u ds :
  Forall (fun m => 0 <= mem_nominal_bytes m) ms -> 0 <= t -> 0 <= u ->
  t + members_nominal ms <= UINT64_MAX -> u + members_nominal ms <= UINT64_MAX ->
  exists ds', foldl pool_add_member (t, u, ds) ms
              = (t + members_online ms, u + members_unhealthy ms, ds').
Proof.
  unfold members_nominal, members_online, members_unhealthy.
  intros Hm. revert t u ds.
  induction Hm as [|m ms Hn Hm IH]; intros t u ds Ht Hu Hts Hus; simpl in *.
  - exists ds. f_equal; f_equal; lia.
  - pose proof (lsum_nonneg mem_nominal_bytes ms Hm).
    destruct (mem_online m); simpl.
    + rewrite (add_checked_spec t), bool_decide_true by (unfold in_u64; lia). simpl.
      destruct (mem_health_ok m); simpl.
      * edestruct IH as [ds' ->]; [lia..|]. exists ds'. f_equal; f_equal; lia.
      * rewrite (add_checked_spec u), bool_decide_true by (unfold in_u64; lia). simpl.
        edestruct IH as [ds' ->]; [lia..|]. exists ds'. f_equal; f_equal; lia.
    + edestruct IH as [ds' ->]; [lia..|]. exists ds'. f_equal; f_equal; lia.
Qed.

(** The totals of a pool are those of its members. *)
Definition totals_exact (p : CxlPool) : Prop :=
  pool_total_governed_bytes p = members_online (pool_members p) /\
  pool_unavailable_bytes p = members_unhealthy (pool_members p).

(** [p'] is [p] with other members, totals, generation or status: same identity and
    same outstanding bytes. *)
Record retuned (p p' : CxlPool) : Prop := {
  rt_id : pool_id p' = pool_id p;
  rt_reserved : pool_reserved_bytes p' = pool_reserved_bytes p;
  rt_committed : pool_committed_bytes p' = pool_committed_bytes p;
  rt_draining : pool_draining_bytes p' = pool_draining_bytes p;
}.

Lemma recompute_pool_exact p :
  members_ok (pool_members p) ->
  totals_exact (recompute_pool p) /\ retuned p (recompute_pool p) /\
  pool_members (recompute_pool p) = pool_members p /\
  pool_state (recompute_pool p) = pool_state p.
Proof.
  intros [Hm Hcap]. unfold recompute_pool, CAPACITY_BOUND in *.
  destruct (recompute_fold (pool_members p) 0 0 [] Hm) as [ds ->];
    [unfold UINT64_MAX; lia..|].
  unfold totals_exact. simpl. by split_and!.
Qed.

(** ** The invariant of the engine *)

Record keys_ok (f : Fabric) : Prop := {
  ko_devices : map_Forall (fun k d => dev_id d = k) (st_devices (state_ f));
  ko_regions : map_Forall (fun k r => reg_id r = k) (st_regions (state_ f));
  ko_pools : map_Forall (fun k p => pool_id p = k) (st_pools (state_ f));
  ko_reservations : map_Forall (fun k r => res_id r = k) (st_reservations (state_ f));
}.

Record fabric_inv (f : Fabric) : Prop := {
  inv_keys : keys_ok f;
  inv_members : map_Forall (fun _ p => members_ok (pool_members p) /\ totals_exact p)
                  (st_pools (state_ f));
  inv_ledger : ledger_ok (ledger_of f);
  inv_global : st_global_ledger (state_ f) = global_ledger_of (st_pools (state_ f));
  inv_sequence : in_u64 (sequence_ f) /\
    map_Forall (fun k _ => exists n, 1 <= n <= sequence_ f /\ k = reservation_name n)
      (st_reservations (state_ f));
}.

(** A pool record a client may hand in, and a durable state that may be imported:
    what a well-behaved caller supplies, since the engine does not check it. *)
Definition pool_input_ok (p : CxlPool) : Prop :=
  members_ok (pool_members p) /\ 0 <= pool_reserved_bytes p /\ 0 <= pool_committed_bytes p /\
  0 <= pool_draining_bytes p /\
  pool_reserved_bytes p + pool_committed_bytes p + pool_draining_bytes p <= CAPACITY_BOUND.

Record persisted_ok (ps : PersistedState) : Prop := {
  pok_devices : map_Forall (fun k d => dev_id d = k) (ps_devices ps);
  pok_regions : map_Forall (fun k r => reg_id r = k) (ps_regions ps);
  pok_pools : map_Forall (fun k p => pool_id p = k /\ pool_input_ok p /\ totals_exact p)
                (ps_pools ps);
}.

Definition op_wf (f : Fabric) (op : FabricOp) : Prop :=
  match op with
  | OpCreatePool p _ => pool_input_ok p
  | OpAddPoolMember id m _ =>
      0 <= mem_nominal_bytes m /\
      forall p, st_pools (state_ f) !! id = Some p ->
        members_nominal (pool_members p) + mem_nominal_bytes m <= CAPACITY_BOUND
  | OpReserve req _ => 0 <= req_bytes req /\ sequence_ f < UINT64_MAX
  | OpImport ps => persisted_ok ps
  | _ => True
  end.

Lemma account_of_input p : pool_input_ok p -> totals_exact p -> account_ok (account_of p).
Proof.
  intros (Hm & ? & ? & ? & ?) [Ht Hu]. pose proof (members_range _ Hm). destruct Hm as [_ ?].
  unfold account_ok. simpl. lia.
Qed.

Section facts.
Context (f : Fabric) (Hinv : fabric_inv f).

Lemma inv_account k p :
  st_pools (state_ f) !! k = Some p -> account_ok (account_of p).
Proof.
  intros Hk. apply (lok_accounts _ (inv_ledger f Hinv) k).
  simpl. by rewrite lookup_fmap, Hk.
Qed.

Lemma inv_pool_id k p : st_pools (state_ f) !! k = Some p -> pool_id p = k.
Proof. exact (ko_pools f (inv_keys f Hinv) k p). Qed.
End facts.

(** Under the invariant the free capacity the code computes is the exact one. *)
Lemma pool_used64_exact p : account_ok (account_of p) -> pool_used64 p = ac_used (account_of p).
Proof.
  unfold account_ok, pool_used64, ac_used, CAPACITY_BOUND. simpl. intros.
  rewrite (add64_small (pool_unavailable_bytes p)), (add64_small (_ + _)), add64_small
    by (unfold UINT64_MAX; lia). done.
Qed.

Lemma pool_free_exact p : account_ok (account_of p) -> pool_free p = ac_free (account_of p).
Proof.
  intros Hok. pose proof (pool_used64_exact p Hok) as Hu.
  unfold pool_free. fold (pool_used64 p). rewrite Hu.
  unfold account_ok, ac_free, ac_used, CAPACITY_BOUND in *. simpl in *.
  case_bool_decide; [lia|]. rewrite sub64_small by (unfold UINT64_MAX; lia). lia.
Qed.

(** ** Operations on the registries: the books are untouched *)

Record same_books (f f' : Fabric) : Prop := {
  sb_pools : st_pools (state_ f') = st_pools (state_ f);
  sb_reservations : st_reservations (state_ f') = st_reservations (state_ f);
  sb_global : st_global_ledger (state_ f') = st_global_ledger (state_ f);
  sb_sequence : sequence_ f' = sequence_ f;
}.

Lemma same_books_refl f : same_books f f.
Proof. done. Qed.

Definition registry_op (op : FabricOp) : bool :=
  match op with
  | OpCreatePool _ _ | OpAddPoolMember _ _ _ | OpRemovePoolMember _ _ _ | OpMarkPoolDraining _ _
  | OpReconcilePool _ _ | OpRevalidatePool _ _ | OpReserve _ _ | OpCommit _ _ | OpRelease _ _
  | OpImport _ => false
  | _ => true
  end.

(** Opens an operation and splits its guards, one branch at a time. *)
Ltac open_op :=
  repeat match goal with
  | |- context [if ?b then _ else _] => destruct b eqn:?
  | |- context [match ?o with Some _ => _ | None => _ end] => destruct o eqn:?
  end.

Lemma registry_op_books f op : registry_op op = true -> same_books f (step f op).2.
Proof.
  intros Hr. destruct op; simpl in *; try discriminate; try done;
    unfold register_device, create_region, update_region, reconfigure_region,
      mark_device_revalidation, mark_device_online, mark_region_draining, revalidate_region;
    open_op; done.
Qed.

Lemma keys_ok_put_device f k d : keys_ok f -> dev_id d = k -> keys_ok (put_device f k d).
Proof. intros [Hd Hr Hp Hv] He. split; simpl; try done. by apply map_Forall_insert_2. Qed.

Lemma keys_ok_put_region f k r : keys_ok f -> reg_id r = k -> keys_ok (put_region f k r).
Proof. intros [Hd Hr Hp Hv] He. split; simpl; try done. by apply map_Forall_insert_2. Qed.

Lemma registry_op_keys f op : registry_op op = true -> keys_ok f -> keys_ok (step f op).2.
Proof.
  intros Hr Hk. destruct op; simpl in *; try discriminate; try (by destruct Hk);
    unfold register_device, create_region, update_region, reconfigure_region,
      mark_device_revalidation, mark_device_online, mark_region_draining, revalidate_region;
    open_op; simpl; try done;
    first [apply keys_ok_put_device | apply keys_ok_put_region]; try done; simpl;
    by first [eapply (ko_devices f Hk) | eapply (ko_regions f Hk)].
Qed.

Lemma same_books_ledger f f' : same_books f f' -> ledger_of f' = ledger_of f.
Proof. intros [Hp Hv _ _]. unfold ledger_of. by rewrite Hp, Hv. Qed.

Lemma same_books_inv f f' :
  same_books f f' -> keys_ok f' -> fabric_inv f -> fabric_inv f'.
Proof.
  intros Hb Hk [_ Hm Hl Hg Hs]. pose proof (same_books_ledger _ _ Hb) as He.
  destruct Hb as [Hp Hv Hgl Hq]. split; [done | | | |].
  - by rewrite Hp.
  - by rewrite He.
  - by rewrite Hgl, Hp.
  - by rewrite Hq, Hv.
Qed.

(** ** Operations on one pool *)

(** The effect of a pool operation: nothing, or one pool retuned and the global
    ledger recomputed. *)
Definition pool_effect (f f' : Fabric) (k : PoolId) (R : CxlPool -> CxlPool -> Prop) : Prop :=
  f' = f \/
  exists p p', st_pools (state_ f) !! k = Some p /\ R p p' /\ f' = put_pool_recompute f k p'.

(** A pool retuned to a well-formed one; [grows] if what is available did not shrink. *)
Record retuned_ok (p p' : CxlPool) : Prop := {
  ro_retuned : retuned p p';
  ro_members : members_ok (pool_members p');
  ro_totals : totals_exact p';
}.

Definition grows (p p' : CxlPool) : Prop :=
  pool_total_governed_bytes p - pool_unavailable_bytes p
  <= pool_total_governed_bytes p' - pool_unavailable_bytes p'.

Lemma put_pool_recompute_ledger f k p' :
  ledger_of (put_pool_recompute f k p') = lg_set_account (ledger_of f) k (account_of p').
Proof. unfold ledger_of, lg_set_account. simpl. by rewrite fmap_insert. Qed.

Lemma pool_effect_inv f f' k :
  fabric_inv f -> pool_effect f f' k retuned_ok -> fabric_inv f'.
Proof.
  intros Hinv [-> | (p & p' & Hk & [Hrt Hm Ht] & ->)]; [done|].
  pose proof (inv_account f Hinv k p Hk) as Ha.
  destruct (account_facts _ (inv_ledger f Hinv) k (account_of p)) as (_ & Hh & Ho).
  { simpl. by rewrite lookup_fmap, Hk. }
  destruct Hrt as [Hid Hr Hc Hd]. pose proof (members_range _ Hm). pose proof Hm as [_ ?].
  destruct Ht as [Htot Hun].
  destruct Hinv as [[Kd Kr Kp Kv] Hms Hl Hg Hs]. split; simpl; try done.
  - split; simpl; try done. apply map_Forall_insert_2; [|done]. rewrite Hid. by apply Kp.
  - by apply map_Forall_insert_2.
  - rewrite put_pool_recompute_ledger. apply ledger_ok_set_account; simpl in *; try lia; [done|].
    unfold account_ok in *. simpl in *. lia.
Qed.

Lemma pool_effect_refines f f' k :
  fabric_inv f -> pool_effect f f' k retuned_ok ->
  exists ev, ledger_step (ledger_of f) ev (ledger_of f') /\
    (ev = EvIdle \/ exists tot unav, ev = EvResize k tot unav).
Proof.
  intros Hinv [-> | (p & p' & Hk & [Hrt Hm Ht] & ->)].
  { exists EvIdle. split; [constructor | by left]. }
  rewrite put_pool_recompute_ledger.
  pose proof (members_range _ Hm). destruct Hrt as [_ Hr Hc Hd], Ht as [Htot Hun].
  eexists. split; [|right; by eexists _, _].
  replace (account_of p') with
    (ac_resize (account_of p) (pool_total_governed_bytes p') (pool_unavailable_bytes p'))
    by (unfold ac_resize, account_of; simpl; congruence).
  destruct Hm as [_ Hcap]. apply step_resize; [|lia..].
  simpl. by rewrite lookup_fmap, Hk.
Qed.

(** [recompute_pool] after any change that keeps identity and outstanding bytes. *)
Lemma recompute_retuned p q :
  retuned p q -> members_ok (pool_members q) -> retuned_ok p (recompute_pool q).
Proof.
  intros [Hi Hr Hc Hd] Hm.
  destruct (recompute_pool_exact q Hm) as (Ht & [Ri Rr Rc Rd] & Hmem & _).
  split; [split; congruence | by rewrite Hmem | done].
Qed.

Lemma members_ok_snoc ms m :
  members_ok ms -> 0 <= mem_nominal_bytes m ->
  members_nominal ms + mem_nominal_bytes m <= CAPACITY_BOUND -> members_ok (ms ++ [m]).
Proof.
  intros [Hall Hs] Hm Hcap. split.
  - apply Forall_app_2; [done|]. by apply Forall_singleton.
  - unfold members_nominal in *. rewrite lsum_app. simpl. lia.
Qed.

Lemma erase_member_spec d ms ms' :
  erase_member d ms = Some ms' -> exists m, mem_device m = d /\ ms ≡ₚ m :: ms'.
Proof.
  revert ms'. induction ms as [|m ms IH]; intros ms'; simpl; [done|].
  case_bool_decide; [intros; simplify_eq; by exists m|].
  destruct (erase_member d ms) as [ms0|]; simpl; [|done]. intros; simplify_eq.
  destruct (IH ms0 eq_refl) as (m' & Hd & Hp). exists m'. split; [done|].
  rewrite Hp. apply perm_swap.
Qed.

Lemma members_ok_erase d ms ms' :
  members_ok ms -> erase_member d ms = Some ms' -> members_ok ms'.
Proof.
  intros [Hall Hs] (m & _ & Hp)%erase_member_spec. rewrite Hp in Hall.
  apply Forall_cons in Hall as [Hm Hall]. split; [done|].
  unfold members_nominal in *. rewrite (lsum_perm _ _ _ Hp) in Hs. simpl in Hs. lia.
Qed.

(** The bookkeeping of a pool kept by a change of status. *)
Lemma put_pool_status f k p st cur h :
  fabric_inv f -> st_pools (state_ f) !! k = Some p ->
  pool_state p <> PoolState_RETIRED -> st <> PoolState_RETIRED ->
  put_pool f k (pool_set_state p st cur h)
  = put_pool_recompute f k (pool_set_state p st cur h).
Proof.
  intros Hinv Hk Hp Hst. unfold put_pool_recompute, put_pool, recompute_global, with_state. simpl.
  f_equal. unfold st_with_ledger, st_with_pools. simpl. f_equal.
  rewrite (inv_global f Hinv). unfold global_ledger_of. symmetry.
  apply (foldl_map_iter_replace _ _ _ p); [done|]. intros g. unfold ledger_add_pool. simpl.
  by rewrite !bool_decide_false.
Qed.

(** Names the pool an opened operation found. *)
Ltac the_pool p Hp :=
  match goal with H : st_pools (state_ _) !! _ = Some ?q |- _ => rename q into p, H into Hp end.

Section pool_operations.
Context (f : Fabric) (Hinv : fabric_inv f).

Lemma inv_members_at k p :
  st_pools (state_ f) !! k = Some p -> members_ok (pool_members p) /\ totals_exact p.
Proof. exact (inv_members f Hinv k p). Qed.

Definition retuned_grows (p p' : CxlPool) : Prop := retuned_ok p p' /\ grows p p'.

Lemma same_members_grows p p' :
  totals_exact p -> totals_exact p' -> pool_members p' = pool_members p -> grows p p'.
Proof. unfold totals_exact, grows. intros [-> ->] [-> ->] ->. lia. Qed.

Lemma add_pool_member_effect pid m ctx :
  op_wf f (OpAddPoolMember pid m ctx) ->
  pool_effect f (add_pool_member f pid m ctx).2 pid retuned_grows.
Proof.
  intros [Hn Hcap]. unfold add_pool_member. open_op; simpl; try by left.
  the_pool p Hp.
  right. eexists _, _. split; [done|]. split; [|done].
  destruct (inv_members_at pid p Hp) as [Hm Ht].
  assert (Hm' : members_ok (pool_members p ++ [m])) by (apply members_ok_snoc; auto).
  set (q := pool_set_members p _ _).
  destruct (recompute_pool_exact q Hm') as ([Ht1 Ht2] & _ & Hmem & _).
  split; [by apply recompute_retuned|].
  unfold grows, totals_exact in *. rewrite Hmem in *. destruct Ht as [-> ->].
  rewrite Ht1, Ht2. simpl. unfold members_online, members_unhealthy. rewrite !lsum_app. simpl.
  destruct (mem_online m), (mem_health_ok m); simpl; lia.
Qed.

Lemma remove_pool_member_effect pid d ctx :
  pool_effect f (remove_pool_member f pid d ctx).2 pid retuned_ok.
Proof.
  unfold remove_pool_member. open_op; simpl; try by left.
  the_pool p Hp.
  right. eexists _, _. split; [done|]. split; [|done].
  destruct (inv_members_at pid p Hp) as [Hm Ht].
  apply recompute_retuned; [done|]. simpl. by eapply members_ok_erase.
Qed.

Lemma mark_pool_draining_effect pid ctx :
  pool_effect f (mark_pool_draining f pid ctx).2 pid retuned_grows.
Proof.
  unfold mark_pool_draining. open_op; simpl; try by left.
  the_pool p Hp.
  right. destruct (inv_members_at pid p Hp) as [Hm Ht].
  rewrite put_pool_status; try done.
  - eexists _, _. split; [done|]. split; [|done].
    split; [done|]. by apply same_members_grows.
  - match goal with H : negb _ = false |- _ => apply negb_false_iff in H as Hst end.
    by eapply pool_step_retired.
Qed.

Lemma reconcile_pool_effect pid ctx :
  pool_effect f (reconcile_pool f pid ctx).2 pid retuned_grows.
Proof.
  unfold reconcile_pool. open_op; simpl; try by left.
  the_pool p Hp.
  right. eexists _, _. split; [done|]. split; [|done].
  destruct (inv_members_at pid p Hp) as [Hm Ht].
  destruct (recompute_pool_exact p Hm) as (Ht' & _ & Hmem & _).
  split; [by apply recompute_retuned | by apply same_members_grows].
Qed.

Lemma revalidate_pool_effect pid ctx :
  pool_effect f (revalidate_pool f pid ctx).2 pid retuned_grows.
Proof.
  unfold revalidate_pool. open_op; simpl; try by left.
  the_pool p Hp.
  right. eexists _, _. split; [done|]. split; [|done].
  destruct (inv_members_at pid p Hp) as [Hm Ht].
  set (q := pool_set_state p _ _ _).
  destruct (recompute_pool_exact q Hm) as (Ht' & _ & Hmem & _).
  split; [by apply recompute_retuned | by apply same_members_grows].
Qed.
End pool_operations.

(** ** Creating a pool *)

Definition created_pool (p : CxlPool) : CxlPool :=
  let q := recompute_pool p in
  pool_set_state q PoolState_AVAILABLE true (pool_health_summary q).

Lemma create_pool_effect f p ctx :
  (create_pool f p ctx).2 = f \/
  st_pools (state_ f) !! pool_id p = None /\
  (create_pool f p ctx).2 = put_pool_recompute f (pool_id p) (created_pool p).
Proof.
  unfold create_pool. open_op; simpl; try by left. right. split; [done|].
  unfold created_pool. f_equal. unfold recompute_pool.
  by destruct (foldl pool_add_member _ _) as [[? ?] ?].
Qed.

Lemma created_pool_ok p :
  pool_input_ok p ->
  retuned p (created_pool p) /\ members_ok (pool_members (created_pool p)) /\
  totals_exact (created_pool p) /\ account_ok (account_of (created_pool p)).
Proof.
  intros Hp. pose proof Hp as (Hm & ? & ? & ? & ?).
  destruct (recompute_pool_exact p Hm) as (Ht & [Hi Hr Hc Hd] & Hmem & _).
  assert (pool_input_ok (created_pool p)) as Hin.
  { unfold pool_input_ok, created_pool. simpl. rewrite Hmem, Hr, Hc, Hd. done. }
  split_and!; [by split | by apply Hin | done | by apply account_of_input].
Qed.

Lemma create_pool_inv f p ctx :
  fabric_inv f -> pool_input_ok p -> fabric_inv (create_pool f p ctx).2.
Proof.
  intros Hinv Hp. destruct (create_pool_effect f p ctx) as [-> | [Hk ->]]; [done|].
  destruct (created_pool_ok p Hp) as ([Hi _ _ _] & Hm & Ht & Ha).
  destruct (owed_unknown _ (pool_id p) (inv_ledger f Hinv)) as [H1 H2].
  { simpl. by rewrite lookup_fmap, Hk. }
  destruct Hinv as [[Kd Kr Kp Kv] Hms Hl Hg Hs]. split; simpl; try done.
  - split; simpl; try done. by apply map_Forall_insert_2.
  - by apply map_Forall_insert_2.
  - rewrite put_pool_recompute_ledger. pose proof Ha as (? & ? & ? & ? & ? & ?).
    apply ledger_ok_set_account; try done; lia.
Qed.

Lemma create_pool_refines f p ctx :
  pool_input_ok p ->
  exists ev, ledger_step (ledger_of f) ev (ledger_of (create_pool f p ctx).2) /\
    (ev = EvIdle \/ ev = EvOpen (pool_id p) (account_of (created_pool p))).
Proof.
  intros Hp. destruct (create_pool_effect f p ctx) as [-> | [Hk ->]].
  { exists EvIdle. split; [constructor | by left]. }
  eexists. split; [|by right]. rewrite put_pool_recompute_ledger. constructor.
  - simpl. by rewrite lookup_fmap, Hk.
  - by apply created_pool_ok.
Qed.
