(* ===== verification/Reservations.v ===== *)
(** * Reserve, commit and release

    The exact effect of the three reservation operations, first as they are written
    (case lemmas that need no invariant but the identity of the keys), then as events
    of the abstract ledger. *)
From S2P Require Import Prelude.
From S2P Require Import Identity.
From S2P Require Import Enums.
From S2P Require Import Accounting.
From S2P Require Import Records.
From S2P Require Import Selection.
From S2P Require Import Fabric.
From S2P Require Import Synthetic.
From S2P Require Import SelectionProps.
From S2P Require Import Ledger.
From S2P Require Import LedgerRefinement.

(** ** Reserve *)

(** The reservation [reserve] builds for a placement, and the state it leaves. *)
Definition reservation_for (f : Fabric) (req : AdmissionRequest) (ctx : AuthorityContext)
    (p : CxlPool) (r : CxlRegion) (d : CxlDevice) : Reservation :=
  mkReservation (reservation_name (add64 (sequence_ f) 1)) (req_consumer req)
    (ctx_consumer_generation ctx) (pool_id p) (pool_generation p) (reg_id r) (reg_generation r)
    (dev_id d) (dev_generation d) (dev_boot_id d) (req_bytes req) ResumeState_RESERVED
    (st_coordinator_epoch (state_ f)) gen_default (ctx_worker_boot_id ctx)
    (dev_evidence_current d) true.

Definition charge_pool (p : CxlPool) (n : Z) : CxlPool :=
  pool_set_account p (add64 (pool_reserved_bytes p) n) (pool_committed_bytes p).
Definition charge_region (r : CxlRegion) (n : Z) : CxlRegion :=
  reg_set_account r (add64 (reg_reserved_bytes r) n) (reg_committed_bytes r).

Definition after_reserve (f : Fabric) (p : CxlPool) (r : CxlRegion) (res : Reservation)
    : Fabric :=
  let s := state_ f in
  let pools := <[pool_id p := charge_pool p (res_bytes res)]> (st_pools s) in
  mkFabric
    (mkSnapshot (st_coordinator_epoch s) (st_policy_generation s) (st_devices s)
       (<[reg_id r := charge_region r (res_bytes res)]> (st_regions s)) pools
       (match st_reservations s !! res_id res with
        | Some _ => st_reservations s
        | None => <[res_id res := res]> (st_reservations s)
        end) (st_evidence_generation s) (global_ledger_of pools))
    (add64 (sequence_ f) 1).

(** The records of a placement are found again under their own identities. *)
Lemma placement_lookup f req p r d :
  keys_ok f -> placement (state_ f) req p r d ->
  st_pools (state_ f) !! pool_id p = Some p /\ st_regions (state_ f) !! reg_id r = Some r /\
  st_devices (state_ f) !! dev_id d = Some d.
Proof.
  intros [Kd Kr Kp _] ((kp & Hp) & (kr & Hr) & _ & (kd & _ & Hd) & _).
  rewrite (Kp kp p Hp), (Kr kr r Hr), (Kd kd d Hd). done.
Qed.

(** Everything [reserve] checks, as one condition: the selection has succeeded with
    this placement and its pool has room. *)
Record reservable (f : Fabric) (req : AdmissionRequest) (ctx : AuthorityContext)
    (p : CxlPool) (r : CxlRegion) (d : CxlDevice) : Prop := {
  rs_epoch : ctx_coordinator_epoch ctx = epoch f;
  rs_bytes : req_bytes req <> 0;
  rs_selected : out_ok (select f req) = true;
  rs_chosen : out_chosen (select f req) = candidate_of p r d;
  rs_room : req_bytes req <= pool_free p;
}.

Ltac not_reservable tac :=
  left; eexists; split; [|split; [reflexivity|]]; [try discriminate | intros ? ? ? []; tac].

Lemma reserve_cases f req ctx :
  keys_ok f ->
  (exists why, why <> DecisionReason_OK /\ reserve f req ctx = (refuse why, f) /\
     forall p r d, ~ reservable f req ctx p r d) \/
  (exists p r d, reservable f req ctx p r d /\ placement (state_ f) req p r d /\
     st_pools (state_ f) !! pool_id p = Some p /\
     st_regions (state_ f) !! reg_id r = Some r /\
     reserve f req ctx =
       (mkReserveOutcome true DecisionReason_OK (reservation_for f req ctx p r d),
        after_reserve f p r (reservation_for f req ctx p r d))).
Proof.
  intros Hk. unfold reserve, stale_epoch. fold (select f req). fold (epoch f).
  case_bool_decide as He; simpl; [|not_reservable done].
  destruct (Z.eqb_spec (req_bytes req) 0) as [|Hn]; [not_reservable done|].
  destruct (out_ok (select f req)) eqn:Hok; simpl.
  2:{ not_reservable congruence. by apply build_selection_refused. }
  destruct (build_selection_chosen _ _ Hok) as (p & r & d & Hch & Hpl & _).
  fold (select f req) in Hch. rewrite Hch.
  change (placement (state_ f) req p r d) in Hpl.
  destruct (placement_lookup f req p r d Hk Hpl) as (Hp & Hr & Hd). simpl.
  rewrite Hp, Hr, Hd. rewrite !bool_decide_true by done. simpl.
  destruct Hpl as (Hpl1 & Hpl2 & Hpl3 & Hpl4 & Hadm).
  pose proof (adm_capacity _ _ _ _ _ _ Hadm).
  rewrite (bool_decide_false (req_bytes req > region_free r)), orb_false_r by lia.
  case_bool_decide as Hcap.
  - not_reservable idtac. assert (p0 = p) as -> by (unfold candidate_of in *; congruence). lia.
  - right. exists p, r, d. split_and!; try done; split; done || lia.
Qed.

(** Reservation names are distinct for distinct sequence numbers. *)
Lemma reservation_name_inj a b :
  0 <= a -> 0 <= b -> reservation_name a = reservation_name b -> a = b.
Proof.
  unfold reservation_name, to_string_u64. intros Ha Hb [= H].
  change (pretty (Z.to_N a) = pretty (Z.to_N b)) in H.
  apply (inj pretty) in H. by apply Z2N.inj.
Qed.

(** ** Commit *)

(** Everything [commit] checks, as one condition. *)
Record committable (f : Fabric) (rid : ReservationId) (ctx : AuthorityContext)
    (res : Reservation) (p : CxlPool) (r : CxlRegion) (d : CxlDevice) : Prop := {
  cm_found : st_reservations (state_ f) !! rid = Some res;
  cm_reserved : res_state res = ResumeState_RESERVED;
  cm_epoch : ctx_coordinator_epoch ctx = epoch f /\ res_created_epoch res = epoch f;
  cm_boot : ctx_worker_boot_id ctx = id_default \/
            ctx_worker_boot_id ctx = res_worker_boot_id res;
  cm_pool : st_pools (state_ f) !! res_pool res = Some p /\
    pool_generation p = res_pool_generation res;
  cm_region : st_regions (state_ f) !! res_region res = Some r /\
    reg_generation r = res_region_generation res;
  cm_device : st_devices (state_ f) !! res_device res = Some d /\
    dev_generation d = res_device_generation res;
  cm_backed : res_bytes res <= pool_reserved_bytes p;
}.

Definition committed_reservation (f : Fabric) (res : Reservation) : Reservation :=
  res_set_state res ResumeState_COMMITTED (epoch f).

Definition after_commit (f : Fabric) (rid : ReservationId) (res : Reservation) (p : CxlPool)
    (r : CxlRegion) : Fabric :=
  let s := state_ f in
  let n := res_bytes res in
  let pools := <[res_pool res := pool_set_account p (sub64 (pool_reserved_bytes p) n)
                                   (add64 (pool_committed_bytes p) n)]> (st_pools s) in
  mkFabric
    (mkSnapshot (st_coordinator_epoch s) (st_policy_generation s) (st_devices s)
       (<[res_region res := reg_set_account r (sub64 (reg_reserved_bytes r) n)
                              (add64 (reg_committed_bytes r) n)]> (st_regions s)) pools
       (<[rid := committed_reservation f res]> (st_reservations s)) (st_evidence_generation s)
       (global_ledger_of pools))
    (sequence_ f).

(** Reads the tests of a guarded operation as propositions. *)
Ltac read_guards :=
  repeat match goal with
  | H : stale_epoch _ _ = false |- _ =>
      unfold stale_epoch in H; apply negb_false_iff, bool_decide_eq_true in H
  | H : negb (bool_decide _) = false |- _ => apply negb_false_iff, bool_decide_eq_true in H
  | H : bool_decide _ = false |- _ => apply bool_decide_eq_false in H
  | H : bool_decide _ = true |- _ => apply bool_decide_eq_true in H
  end.

(** The refusals of [commit]: the test that failed contradicts [committable]. *)
Ltac refused_by tac :=
  left; eexists; split; [|split; [reflexivity|]]; [discriminate|];
  intros ? ? ? ? []; destruct_and?; simplify_eq; tac.

Lemma boot_guard (ctx : AuthorityContext) (res : Reservation) :
  negb (id_empty (ctx_worker_boot_id ctx))
  && negb (bool_decide (ctx_worker_boot_id ctx = res_worker_boot_id res)) = false <->
  (ctx_worker_boot_id ctx = id_default \/ ctx_worker_boot_id ctx = res_worker_boot_id res).
Proof.
  rewrite andb_false_iff, !negb_false_iff, bool_decide_eq_true, id_empty_spec. done.
Qed.

Lemma commit_cases f rid ctx :
  (exists why, why <> DecisionReason_OK /\ commit f rid ctx = (refuse why, f) /\
     forall res p r d, ~ committable f rid ctx res p r d) \/
  (exists res p r d, committable f rid ctx res p r d /\
     commit f rid ctx =
       (mkReserveOutcome true DecisionReason_OK (committed_reservation f res),
        after_commit f rid res p r)).
Proof.
  unfold commit, stale_epoch, epoch in *.
  destruct (st_reservations (state_ f) !! rid) as [res|] eqn:Hres; [|refused_by idtac].
  case_bool_decide as Hst; simpl; [|refused_by done].
  case_bool_decide as He; simpl; [|refused_by done].
  case_bool_decide as Hc; simpl; [|refused_by done].
  case_test; [refused_by ltac:(by rewrite (proj2 (boot_guard ctx res)) in E)|].
  apply boot_guard in E.
  destruct (st_pools (state_ f) !! res_pool res) as [p|] eqn:Hp; [|refused_by idtac].
  destruct (st_regions (state_ f) !! res_region res) as [r|] eqn:Hr; [|refused_by idtac].
  destruct (st_devices (state_ f) !! res_device res) as [d|] eqn:Hd; [|refused_by idtac].
  case_bool_decide; simpl; [|refused_by done].
  case_bool_decide; simpl; [|refused_by done].
  case_bool_decide; simpl; [|refused_by done].
  case_bool_decide; simpl; [refused_by lia|].
  right. exists res, p, r, d. split; [|done]. split; unfold epoch; try done; lia.
Qed.

(** ** Release *)

Definition released_reservation (res : Reservation) : Reservation :=
  res_set_state res ResumeState_RELEASED (res_commit_epoch res).

Definition res_live (res : Reservation) : bool :=
  bool_decide (res_state res = ResumeState_RESERVED) ||
  bool_decide (res_state res = ResumeState_COMMITTED).

(** The release arithmetic is exact when the account covers the bytes. *)
Lemma account_release_exact rsv com n :
  0 <= rsv <= UINT64_MAX -> 0 <= com <= UINT64_MAX -> 0 <= n <= rsv + com -> n <= UINT64_MAX ->
  account_release rsv com n = (rsv - (n - Z.min n com), com - Z.min n com, 0).
Proof.
  intros Hr Hc Hn Hm. unfold account_release.
  destruct (bool_decide (n > 0) && bool_decide (com > 0)) eqn:E1.
  - apply andb_true_iff in E1 as [?%bool_decide_eq_true ?%bool_decide_eq_true].
    destruct (decide (n < com)).
    { rewrite (bool_decide_true (n < com)) by done. rewrite (sub64_small com), (sub64_small n n) by lia.
      rewrite bool_decide_false by lia. simpl. repeat apply (f_equal2 pair); lia. }
    rewrite (bool_decide_false (n < com)) by done. rewrite (sub64_small com), (sub64_small n com) by lia.
    case_bool_decide; simpl; [rewrite bool_decide_true by lia; rewrite sub64_small by lia|].
    all: repeat apply (f_equal2 pair); lia.
  - apply andb_false_iff in E1. rewrite !bool_decide_eq_false in E1.
    case_bool_decide; simpl; [rewrite bool_decide_true by lia; rewrite sub64_small by lia|].
    all: repeat apply (f_equal2 pair); lia.
Qed.

Definition release_region (m : gmap RegionId CxlRegion) (res : Reservation)
    : gmap RegionId CxlRegion :=
  match m !! res_region res with
  | None => m
  | Some region =>
    let '(rsv, com, _) :=
      account_release (reg_reserved_bytes region) (reg_committed_bytes region) (res_bytes res) in
    <[res_region res := reg_set_account region rsv com]> m
  end.

Definition after_release (f : Fabric) (rid : ReservationId) (res : Reservation) (p : CxlPool)
    : Fabric :=
  let s := state_ f in
  let take := Z.min (res_bytes res) (pool_committed_bytes p) in
  let pools := <[res_pool res :=
                   pool_set_account p (pool_reserved_bytes p - (res_bytes res - take))
                     (pool_committed_bytes p - take)]> (st_pools s) in
  mkFabric
    (mkSnapshot (st_coordinator_epoch s) (st_policy_generation s) (st_devices s)
       (release_region (st_regions s) res) pools
       (<[rid := released_reservation res]> (st_reservations s)) (st_evidence_generation s)
       (global_ledger_of pools))
    (sequence_ f).

(** [release] under the invariant: the conflict path cannot be taken. *)
Lemma release_cases f rid ctx :
  fabric_inv f ->
  (release f rid ctx = (refuse DecisionReason_RESERVATION_STALE, f) /\
   (ctx_coordinator_epoch ctx = epoch f ->
    forall res, st_reservations (state_ f) !! rid = Some res -> res_live res = false)) \/
  (exists res p, st_reservations (state_ f) !! rid = Some res /\ res_live res = true /\
     ctx_coordinator_epoch ctx = epoch f /\ st_pools (state_ f) !! res_pool res = Some p /\
     res_bytes res <= pool_reserved_bytes p + pool_committed_bytes p /\
     release f rid ctx =
       (mkReserveOutcome true DecisionReason_OK (released_reservation res),
        after_release f rid res p)).
Proof.
  intros Hinv. unfold release, stale_epoch, epoch, res_live in *.
  destruct (st_reservations (state_ f) !! rid) as [res|] eqn:Hres; [|by left].
  case_bool_decide as Hrel.
  { left. split; [done|]. intros _ ? [= <-]. by rewrite Hrel. }
  case_bool_decide as He; simpl; [|by left].
  destruct (cl_live (claim_of res)) eqn:Hlive.
  2:{ unfold cl_live in Hlive. simpl in Hlive. apply orb_false_iff in Hlive as [H1 H2].
      rewrite H1, H2. left. split; [done|]. intros _ ? [= <-]. by rewrite H1, H2. }
  destruct (claim_backed (ledger_of f) rid (claim_of res) (inv_ledger f Hinv)) as
    (a & Ha & Hpos & Hle & _); [by simpl; rewrite lookup_fmap, Hres | done |].
  simpl in Ha, Hpos, Hle. rewrite lookup_fmap in Ha.
  destruct (st_pools (state_ f) !! res_pool res) as [p|] eqn:Hp; [|done].
  simpl in Ha. simplify_eq. pose proof (inv_account f Hinv _ p Hp) as Hacc.
  unfold account_ok, CAPACITY_BOUND in Hacc. simpl in *.
  right. exists res, p. split_and!; try done.
  rewrite account_release_exact by (unfold UINT64_MAX; lia). simpl.
  assert (negb (bool_decide (res_state res = ResumeState_COMMITTED)) &&
          negb (bool_decide (res_state res = ResumeState_RESERVED)) = false) as ->.
  { unfold cl_live in Hlive. simpl in Hlive. by repeat case_bool_decide. }
  unfold after_release, release_region, with_state, recompute_global. simpl.
  destruct (st_regions (state_ f) !! res_region res) as [r|]; [|done].
  by destruct (account_release _ _ _) as [[? ?] ?].
Qed.

(** ** The three operations as ledger events *)

Section events.
Context (f : Fabric) (Hinv : fabric_inv f).

Lemma next_sequence : sequence_ f < UINT64_MAX -> add64 (sequence_ f) 1 = sequence_ f + 1.
Proof.
  intros H. destruct (inv_sequence f Hinv) as [[? _] _]. apply add64_small; lia.
Qed.

Lemma next_reservation_fresh :
  sequence_ f < UINT64_MAX ->
  st_reservations (state_ f) !! reservation_name (add64 (sequence_ f) 1) = None.
Proof.
  intros H. rewrite next_sequence by done.
  destruct (st_reservations (state_ f) !! _) as [r|] eqn:Hr; [|done].
  destruct (inv_sequence f Hinv) as [[Hlo _] Hnames].
  destruct (Hnames _ _ Hr) as (n & Hn & Heq). apply reservation_name_inj in Heq; lia.
Qed.

Lemma inv_account_at k p :
  st_pools (state_ f) !! k = Some p ->
  lg_accounts (ledger_of f) !! k = Some (account_of p) /\ account_ok (account_of p).
Proof.
  intros Hk. split; [simpl; by rewrite lookup_fmap, Hk | by eapply inv_account].
Qed.

Lemma claim_at rid res :
  st_reservations (state_ f) !! rid = Some res ->
  lg_claims (ledger_of f) !! rid = Some (claim_of res).
Proof. intros H. simpl. by rewrite lookup_fmap, H. Qed.

(** A reservation that succeeded: the guard of the event, and its effect. *)
Lemma reserve_event p r res n :
  st_pools (state_ f) !! pool_id p = Some p ->
  st_reservations (state_ f) !! res_id res = None ->
  claim_of res = mkClaim (pool_id p) n ResumeState_RESERVED ->
  0 < n <= ac_free (account_of p) ->
  ledger_step (ledger_of f) (EvReserve (res_id res) (pool_id p) n)
    (ledger_of (after_reserve f p r res)).
Proof.
  intros Hp Hfresh Hcl Hn. destruct (inv_account_at _ _ Hp) as [Ha Hok].
  assert (ledger_of (after_reserve f p r res) =
    lg_set_claim (lg_set_account (ledger_of f) (pool_id p) (ac_reserve (account_of p) n))
      (res_id res) (mkClaim (pool_id p) n ResumeState_RESERVED)) as ->.
  { unfold ledger_of, lg_set_claim, lg_set_account, after_reserve. simpl. rewrite Hfresh.
    rewrite !fmap_insert, Hcl. do 2 f_equal. f_equal. unfold account_of, ac_reserve. simpl.
    assert (res_bytes res = n) as -> by (by injection Hcl).
    rewrite add64_small; [done| ..];
      unfold account_ok, ac_free, ac_used, CAPACITY_BOUND, UINT64_MAX in *; simpl in *; lia. }
  constructor; [done| |done]. simpl. by rewrite lookup_fmap, Hfresh.
Qed.

Lemma commit_event rid ctx res p r d :
  committable f rid ctx res p r d ->
  ledger_step (ledger_of f) (EvCommit rid) (ledger_of (after_commit f rid res p r)).
Proof.
  intros [Hres Hst _ _ [Hp _] _ _ Hle]. destruct (inv_account_at _ _ Hp) as [Ha Hok].
  pose proof (lok_bytes _ (inv_ledger f Hinv) rid (claim_of res) (claim_at _ _ Hres)) as Hb.
  assert (ledger_of (after_commit f rid res p r) =
    lg_set_claim (lg_set_account (ledger_of f) (res_pool res)
                    (ac_commit (account_of p) (res_bytes res)))
      rid (cl_set_state (claim_of res) ResumeState_COMMITTED)) as ->.
  { unfold ledger_of, lg_set_claim, lg_set_account, after_commit. simpl.
    rewrite !fmap_insert. do 2 f_equal. f_equal. unfold account_of, ac_commit. simpl.
    unfold account_ok, CAPACITY_BOUND, UINT64_MAX in *. simpl in *.
    rewrite sub64_small, add64_small; [done| unfold UINT64_MAX; lia ..]. }
  by apply (step_commit _ rid (claim_of res)); [apply claim_at|..].
Qed.

Lemma release_event rid res p :
  st_reservations (state_ f) !! rid = Some res -> res_live res = true ->
  st_pools (state_ f) !! res_pool res = Some p ->
  res_bytes res <= pool_reserved_bytes p + pool_committed_bytes p ->
  ledger_step (ledger_of f) (EvRelease rid) (ledger_of (after_release f rid res p)).
Proof.
  intros Hres Hlive Hp Hle. destruct (inv_account_at _ _ Hp) as [Ha Hok].
  assert (ledger_of (after_release f rid res p) =
    lg_set_claim (lg_set_account (ledger_of f) (res_pool res)
                    (ac_release (account_of p) (res_bytes res)))
      rid (cl_set_state (claim_of res) ResumeState_RELEASED)) as ->.
  { unfold ledger_of, lg_set_claim, lg_set_account, after_release. simpl.
    by rewrite !fmap_insert. }
  by apply (step_release _ rid (claim_of res)); [apply claim_at|..].
Qed.

(** ** ... and the rest of the invariant after them *)

(** What the three operations have in common: one pool with another account, one
    region with another account, one reservation written under its own name. *)
Lemma booked_inv f' k p p' rid res :
  st_pools (state_ f) !! k = Some p -> pool_id p' = pool_id p ->
  pool_members p' = pool_members p ->
  totals_exact p' -> res_id res = rid ->
  st_devices (state_ f') = st_devices (state_ f) ->
  map_Forall (fun k r => reg_id r = k) (st_regions (state_ f')) ->
  st_pools (state_ f') = <[k := p']> (st_pools (state_ f)) ->
  st_reservations (state_ f') = <[rid := res]> (st_reservations (state_ f)) ->
  st_global_ledger (state_ f') = global_ledger_of (st_pools (state_ f')) ->
  sequence_ f <= sequence_ f' <= UINT64_MAX ->
  (exists n, 1 <= n <= sequence_ f' /\ rid = reservation_name n) ->
  (exists ev, ledger_step (ledger_of f) ev (ledger_of f')) ->
  fabric_inv f'.
Proof.
  intros Hk Hid Hmem Ht Hrid Hd Hr Hps Hrs Hg Hseq Hname [ev Hev].
  destruct (inv_keys f Hinv) as [Kd Kr Kp Kv]. destruct (inv_sequence f Hinv) as [[? ?] Hnames].
  split.
  - split; [by rewrite Hd | done | |].
    + rewrite Hps. apply map_Forall_insert_2; [|done]. rewrite Hid. by apply Kp.
    + rewrite Hrs. by apply map_Forall_insert_2.
  - rewrite Hps. apply map_Forall_insert_2; [|exact (inv_members f Hinv)].
    split; [|done]. rewrite Hmem. by apply (inv_members f Hinv k p).
  - exact (ledger_step_ok _ _ _ (inv_ledger f Hinv) Hev).
  - done.
  - split; [unfold in_u64; lia|]. rewrite Hrs. apply map_Forall_insert_2; [done|].
    intros k' r' Hk'. destruct (Hnames k' r' Hk') as (n & ? & ?). exists n. split; [lia|done].
Qed.

Lemma region_keys_insert k r rsv com :
  st_regions (state_ f) !! k = Some r ->
  map_Forall (fun k r => reg_id r = k)
    (<[k := reg_set_account r rsv com]> (st_regions (state_ f))).
Proof.
  intros Hk. pose proof (ko_regions f (inv_keys f Hinv)) as Kr.
  apply map_Forall_insert_2; [|done]. by apply (Kr k r).
Qed.

Lemma release_region_keys res :
  map_Forall (fun k r => reg_id r = k) (release_region (st_regions (state_ f)) res).
Proof.
  unfold release_region. destruct (st_regions (state_ f) !! res_region res) as [r|] eqn:Hr.
  - destruct (account_release _ _ _) as [[? ?] ?]. by apply region_keys_insert.
  - exact (ko_regions f (inv_keys f Hinv)).
Qed.
End events.

Lemma reserve_ok f req ctx :
  fabric_inv f -> op_wf f (OpReserve req ctx) ->
  fabric_inv (reserve f req ctx).2 /\
  exists ev, ledger_step (ledger_of f) ev (ledger_of (reserve f req ctx).2) /\
    (ev = EvIdle /\ ro_reason (reserve f req ctx).1 <> DecisionReason_OK \/
     exists id k, ev = EvReserve id k (req_bytes req) /\ ro_reason (reserve f req ctx).1 = DecisionReason_OK).
Proof.
  intros Hinv [Hn Hseq].
  destruct (reserve_cases f req ctx (inv_keys f Hinv)) as
    [(why & Hwhy & -> & _) | (p & r & d & [_ Hn0 _ _ Hpf] & Hpl & Hp & Hr & ->)]; simpl.
  { split; [done|]. exists EvIdle. split; [constructor | by left]. }
  set (res := reservation_for f req ctx p r d).
  pose proof (next_reservation_fresh f Hinv Hseq) as Hfresh.
  rewrite (pool_free_exact p) in Hpf by (by eapply inv_account).
  assert (Hev := reserve_event f Hinv p r res (req_bytes req) Hp Hfresh eq_refl ltac:(lia)).
  destruct (inv_members f Hinv _ p Hp) as [_ Ht].
  split; [|eexists; split; [exact Hev|]; right; by eexists _, _].
  apply (booked_inv f Hinv _ (pool_id p) p (charge_pool p (req_bytes req)) (res_id res) res);
    try done; simpl; rewrite ?Hfresh; try done.
  - by apply (region_keys_insert f Hinv).
  - rewrite (next_sequence f Hinv) by done. lia.
  - eexists. split; [|done]. rewrite (next_sequence f Hinv) by done.
    destruct (inv_sequence f Hinv) as [[? _] _]. lia.
  - eexists. exact Hev.
Qed.

Lemma commit_ok f rid ctx :
  fabric_inv f ->
  fabric_inv (commit f rid ctx).2 /\
  exists ev, ledger_step (ledger_of f) ev (ledger_of (commit f rid ctx).2) /\
    (ev = EvIdle /\ ro_reason (commit f rid ctx).1 <> DecisionReason_OK \/
     ev = EvCommit rid /\ ro_reason (commit f rid ctx).1 = DecisionReason_OK).
Proof.
  intros Hinv. destruct (commit_cases f rid ctx) as
    [(why & Hwhy & -> & _) | (res & p & r & d & Hc & ->)]; simpl.
  { split; [done|]. exists EvIdle. split; [constructor | by left]. }
  assert (Hev := commit_event f Hinv rid ctx res p r d Hc).
  split; [|eexists; split; [exact Hev|]; by right].
  destruct Hc as [Hres _ _ _ [Hp _] [Hr _] _ _].
  destruct (inv_members f Hinv _ p Hp) as [_ Ht].
  destruct (inv_sequence f Hinv) as [[? ?] Hnames].
  set (n := res_bytes res).
  apply (booked_inv f Hinv _ (res_pool res) p
           (pool_set_account p (sub64 (pool_reserved_bytes p) n) (add64 (pool_committed_bytes p) n))
           rid (committed_reservation f res)); try done.
  - exact (ko_reservations f (inv_keys f Hinv) rid res Hres).
  - by apply (region_keys_insert f Hinv).
  - exact (Hnames rid res Hres).
  - eexists. exact Hev.
Qed.

Lemma release_ok f rid ctx :
  fabric_inv f ->
  fabric_inv (release f rid ctx).2 /\
  exists ev, ledger_step (ledger_of f) ev (ledger_of (release f rid ctx).2) /\
    (ev = EvIdle /\ ro_reason (release f rid ctx).1 <> DecisionReason_OK \/
     ev = EvRelease rid /\ ro_reason (release f rid ctx).1 = DecisionReason_OK).
Proof.
  intros Hinv. destruct (release_cases f rid ctx Hinv) as
    [[-> _] | (res & p & Hres & Hlive & _ & Hp & Hle & ->)]; simpl.
  { split; [done|]. exists EvIdle. split; [constructor | by left]. }
  assert (Hev := release_event f Hinv rid res p Hres Hlive Hp Hle).
  split; [|eexists; split; [exact Hev|]; by right].
  destruct (inv_members f Hinv _ p Hp) as [_ Ht].
  destruct (inv_sequence f Hinv) as [[? ?] Hnames].
  set (take := Z.min (res_bytes res) (pool_committed_bytes p)).
  apply (booked_inv f Hinv _ (res_pool res) p
           (pool_set_account p (pool_reserved_bytes p - (res_bytes res - take))
              (pool_committed_bytes p - take)) rid (released_reservation res)); try done.
  - exact (ko_reservations f (inv_keys f Hinv) rid res Hres).
  - by apply (release_region_keys f Hinv).
  - exact (Hnames rid res Hres).
  - eexists. exact Hev.
Qed.
