(* ===== verification/Invariants.v ===== *)
(** * The invariants of the governance engine

    Every operation keeps the invariant of [LedgerRefinement] and performs one event
    of the abstract ledger; the capacity guarantees of the engine in every reachable
    state follow. *)
From S2P Require Import Prelude.
From S2P Require Import Identity.
From S2P Require Import Enums.
From S2P Require Import Accounting.
From S2P Require Import Records.
From S2P Require Import Selection.
From S2P Require Import Fabric.
From S2P Require Import Synthetic.
From S2P Require Import SelectionProps.
From S2P Require Import Ledger.
From S2P Require Import LedgerRefinement.
From S2P Require Import Reservations.

(** ** Import *)

Lemma imported_accounts ps :
  account_of <$> ((fun p => pool_set_state p PoolState_REVALIDATION_REQUIRED false
                              (pool_health_summary p)) <$> ps_pools ps)
  = account_of <$> ps_pools ps.
Proof. rewrite <- map_fmap_compose. by apply map_fmap_ext. Qed.

Lemma import_event f ps :
  persisted_ok ps ->
  ledger_step (ledger_of f) (EvReset (account_of <$> ps_pools ps))
    (ledger_of (import_persisted f ps)).
Proof.
  intros [_ _ Hp]. unfold ledger_of at 2. simpl. rewrite imported_accounts, fmap_empty.
  constructor. intros k a Ha. apply lookup_fmap_Some in Ha as (p & <- & Hk).
  destruct (Hp k p Hk) as (_ & Hin & Ht). by apply account_of_input.
Qed.

Lemma import_inv f ps : fabric_inv f -> persisted_ok ps -> fabric_inv (import_persisted f ps).
Proof.
  intros Hinv Hps. pose proof (import_event f ps Hps) as Hev.
  destruct Hps as [Hd Hr Hp]. split; simpl; try done.
  - split; simpl; try by apply map_Forall_empty.
    + intros k d (d0 & <- & Hk)%lookup_fmap_Some. by apply (Hd k d0).
    + intros k r (r0 & <- & Hk)%lookup_fmap_Some. by apply (Hr k r0).
    + intros k p (p0 & <- & Hk)%lookup_fmap_Some. by apply (Hp k p0).
  - intros k p (p0 & <- & Hk)%lookup_fmap_Some.
    destruct (Hp k p0 Hk) as (_ & [Hm _] & Ht). done.
  - exact (ledger_step_ok _ _ _ (inv_ledger f Hinv) Hev).
  - split; [exact (proj1 (inv_sequence f Hinv)) | by apply map_Forall_empty].
Qed.

(** ** Every operation *)

(** The event an operation may perform, given whether it reports success: a refusal
    is idle, and a successful reservation, commit or release is not. *)
Definition op_event (op : FabricOp) (ok : bool) (ev : LedgerEvent) : Prop :=
  match op, ev with
  | OpReserve req _, EvReserve _ _ n => ok = true /\ n = req_bytes req
  | OpCommit rid _, EvCommit id => ok = true /\ id = rid
  | OpRelease rid _, EvRelease id => ok = true /\ id = rid
  | OpReserve _ _, EvIdle | OpCommit _ _, EvIdle | OpRelease _ _, EvIdle => ok = false
  | OpImport ps, EvReset m => m = account_of <$> ps_pools ps
  | OpCreatePool p _, EvOpen k a => k = pool_id p /\ a = account_of (created_pool p)
  | OpAddPoolMember id _ _, EvResize k _ _ | OpRemovePoolMember id _ _, EvResize k _ _
  | OpMarkPoolDraining id _, EvResize k _ _ | OpReconcilePool id _, EvResize k _ _
  | OpRevalidatePool id _, EvResize k _ _ => k = id
  | OpImport _, EvIdle => False
  | _, EvIdle => True
  | _, _ => False
  end.

Definition op_succeeds (f : Fabric) (op : FabricOp) : bool :=
  bool_decide ((step f op).1 = DecisionReason_OK).

Lemma pool_effect_weaken f f' k (R R' : CxlPool -> CxlPool -> Prop) :
  (forall p p', R p p' -> R' p p') -> pool_effect f f' k R -> pool_effect f f' k R'.
Proof. intros H [->|(p & p' & Hk & HR & ->)]; [by left|]. right. eauto 10. Qed.

(** The pool operations other than creation, as one case. *)
Definition pool_op (op : FabricOp) : option PoolId :=
  match op with
  | OpAddPoolMember id _ _ | OpRemovePoolMember id _ _ | OpMarkPoolDraining id _
  | OpReconcilePool id _ | OpRevalidatePool id _ => Some id
  | _ => None
  end.

Lemma pool_op_effect f op k :
  fabric_inv f -> op_wf f op -> pool_op op = Some k ->
  pool_effect f (step f op).2 k retuned_ok.
Proof.
  intros Hinv Hwf Hk. destruct op; simpl in Hk; simplify_eq; simpl.
  2: by apply remove_pool_member_effect.
  all: eapply (pool_effect_weaken _ _ _ retuned_grows); [by intros ?? []|].
  - by apply add_pool_member_effect.
  - by apply mark_pool_draining_effect.
  - by apply reconcile_pool_effect.
  - by apply revalidate_pool_effect.
Qed.

Lemma step_inv f op : fabric_inv f -> op_wf f op -> fabric_inv (step f op).2.
Proof.
  intros Hinv Hwf. destruct (registry_op op) eqn:Hreg.
  { eapply same_books_inv; [by apply registry_op_books | | done].
    apply registry_op_keys; [done|]. by apply inv_keys. }
  destruct (pool_op op) as [k|] eqn:Hpool.
  { eapply pool_effect_inv; [done|]. by eapply pool_op_effect. }
  destruct op; simpl in *; try discriminate.
  - by apply create_pool_inv.
  - destruct (reserve_ok f req ctx Hinv Hwf) as [H _].
    by destruct (reserve f req ctx).
  - destruct (commit_ok f rid ctx Hinv) as [H _]. by destruct (commit f rid ctx).
  - destruct (release_ok f rid ctx Hinv) as [H _]. by destruct (release f rid ctx).
  - by apply import_inv.
Qed.

Lemma step_refines f op :
  fabric_inv f -> op_wf f op ->
  exists ev, ledger_step (ledger_of f) ev (ledger_of (step f op).2) /\
             op_event op (op_succeeds f op) ev.
Proof.
  intros Hinv Hwf. unfold op_succeeds.
  destruct (registry_op op) eqn:Hreg.
  { exists EvIdle. rewrite (same_books_ledger f (step f op).2) by (by apply registry_op_books).
    split; [constructor | by destruct op]. }
  destruct (pool_op op) as [k|] eqn:Hpool.
  { destruct (pool_effect_refines f _ k Hinv (pool_op_effect f op k Hinv Hwf Hpool))
      as (ev & Hs & Hev).
    exists ev. split; [done|].
    destruct Hev as [-> | (? & ? & ->)]; destruct op; simpl in *; by simplify_eq. }
  destruct op; simpl in *; try discriminate.
  - destruct (create_pool_refines f p ctx Hwf) as (ev & Hs & Hev). exists ev.
    split; [done|]. by destruct Hev as [-> | ->].
  - destruct (reserve_ok f req ctx Hinv Hwf) as [_ (ev & Hs & Hev)]. exists ev.
    destruct (reserve f req ctx) as [o f']; simpl in *. split; [done|].
    destruct Hev as [[-> ?] | (? & ? & -> & ?)]; simpl; by rewrite ?bool_decide_eq_false, ?bool_decide_eq_true.
  - destruct (commit_ok f rid ctx Hinv) as [_ (ev & Hs & Hev)]. exists ev.
    destruct (commit f rid ctx) as [o f']; simpl in *. split; [done|].
    destruct Hev as [[-> ?] | [-> ?]]; simpl; by rewrite ?bool_decide_eq_false, ?bool_decide_eq_true.
  - destruct (release_ok f rid ctx Hinv) as [_ (ev & Hs & Hev)]. exists ev.
    destruct (release f rid ctx) as [o f']; simpl in *. split; [done|].
    destruct Hev as [[-> ?] | [-> ?]]; simpl; by rewrite ?bool_decide_eq_false, ?bool_decide_eq_true.
  - eexists. split; [by apply import_event | done].
Qed.

(** ** Reachable states *)

(** The states reached from a new fabric by operations that satisfy [ok]. *)
Inductive reachable (ok : Fabric -> FabricOp -> Prop) : Fabric -> Prop :=
  | reach_init e pol : reachable ok (fabric_init e pol)
  | reach_step f op : reachable ok f -> ok f op -> reachable ok (step f op).2.

Lemma reachable_mono (ok ok' : Fabric -> FabricOp -> Prop) f :
  (forall f op, ok f op -> ok' f op) -> reachable ok f -> reachable ok' f.
Proof. intros H. induction 1; constructor; auto. Qed.

(** A run as a list of operations, for concrete states. *)
Definition run_ops (f : Fabric) (ops : list FabricOp) : Fabric :=
  foldl (fun f op => (step f op).2) f ops.

Fixpoint all_ok (ok : Fabric -> FabricOp -> Prop) (f : Fabric) (ops : list FabricOp) : Prop :=
  match ops with
  | [] => True
  | op :: ops' => ok f op /\ all_ok ok (step f op).2 ops'
  end.

Lemma reachable_run ok f ops :
  reachable ok f -> all_ok ok f ops -> reachable ok (run_ops f ops).
Proof.
  revert f. induction ops as [|op ops IH]; intros f Hf; simpl; [done|].
  intros [Hop Hops]. apply IH; [by constructor | done].
Qed.

Lemma fabric_init_inv e pol : fabric_inv (fabric_init e pol).
Proof.
  split; simpl; try by apply map_Forall_empty.
  - split; simpl; by apply map_Forall_empty.
  - unfold ledger_of. simpl. rewrite !fmap_empty. apply ledger_ok_reset, map_Forall_empty.
  - unfold global_ledger_of. by rewrite map_iter_empty.
  - split; [by vm_compute | by apply map_Forall_empty].
Qed.

Lemma reachable_inv f : reachable op_wf f -> fabric_inv f.
Proof. induction 1; [apply fabric_init_inv | by apply step_inv]. Qed.

(** ** Coverage *)

(** The operations that keep every pool covered: all but the removal of a member, as
    long as a pool is created or restored with its outstanding bytes covered. *)
Definition op_covering (f : Fabric) (op : FabricOp) : Prop :=
  op_wf f op /\
  match op with
  | OpRemovePoolMember _ _ _ => False
  | OpCreatePool p _ => account_covered (account_of (created_pool p))
  | OpImport ps => map_Forall (fun _ p => account_covered (account_of p)) (ps_pools ps)
  | _ => True
  end.

Lemma pool_op_grows f op k :
  fabric_inv f -> op_covering f op -> pool_op op = Some k ->
  pool_effect f (step f op).2 k retuned_grows.
Proof.
  intros Hinv [Hwf Hop] Hk. destruct op; simpl in Hk; simplify_eq; simpl; try done.
  - by apply add_pool_member_effect.
  - by apply mark_pool_draining_effect.
  - by apply reconcile_pool_effect.
  - by apply revalidate_pool_effect.
Qed.

(** A pool operation that grows what is available leaves its account covered. *)
Lemma pool_effect_covered f f' k :
  ledger_covered (ledger_of f) -> pool_effect f f' k retuned_grows ->
  ledger_covered (ledger_of f').
Proof.
  intros Hcov [-> | (p & p' & Hk & [[[_ Hr Hc Hd] _ _] Hg] & ->)]; [done|].
  rewrite put_pool_recompute_ledger. apply map_Forall_insert_2; [|done].
  assert (account_covered (account_of p)) as Hp.
  { apply (Hcov k). simpl. by rewrite lookup_fmap, Hk. }
  unfold account_covered, ac_used, grows in *. simpl in *. lia.
Qed.

Lemma step_covered f op :
  fabric_inv f -> op_covering f op ->
  ledger_covered (ledger_of f) -> ledger_covered (ledger_of (step f op).2).
Proof.
  intros Hinv Hop Hcov. destruct (pool_op op) as [k|] eqn:Hpool.
  { eapply pool_effect_covered; [done|]. by eapply pool_op_grows. }
  destruct Hop as [Hwf Hop].
  destruct (step_refines f op Hinv Hwf) as (ev & Hs & Hev).
  eapply ledger_step_covered; [by apply inv_ledger | done | | done].
  destruct op; simpl in *; try discriminate; destruct ev; try done.
  - by destruct Hev as [-> ->].
  - subst. simpl. intros k a (p & <- & Hk)%lookup_fmap_Some. by apply (Hop k p).
Qed.

Lemma reachable_covered f : reachable op_covering f -> ledger_covered (ledger_of f).
Proof.
  induction 1 as [e pol | f op Hf IH Hop].
  - unfold ledger_covered, ledger_of. simpl. rewrite fmap_empty. apply map_Forall_empty.
  - apply step_covered; [|done..]. apply reachable_inv.
    eapply reachable_mono; [|done]. by intros ?? [].
Qed.

(** ** Exactness *)

(** Pools are created and restored without outstanding bytes. *)
Definition op_exact (f : Fabric) (op : FabricOp) : Prop :=
  op_wf f op /\
  match op with
  | OpCreatePool p _ => pool_reserved_bytes p = 0 /\ pool_committed_bytes p = 0
  | OpImport ps => map_Forall (fun _ p => pool_reserved_bytes p = 0 /\ pool_committed_bytes p = 0)
                     (ps_pools ps)
  | _ => True
  end.

Lemma reachable_exact f : reachable op_exact f -> ledger_exact (ledger_of f).
Proof.
  induction 1 as [e pol | f op Hf IH [Hwf Hop]].
  { unfold ledger_exact, ledger_of. simpl. rewrite fmap_empty. apply map_Forall_empty. }
  assert (fabric_inv f) as Hinv.
  { apply reachable_inv. eapply reachable_mono; [|done]. by intros ?? []. }
  destruct (step_refines f op Hinv Hwf) as (ev & Hs & Hev).
  eapply ledger_step_exact; [by apply inv_ledger | done | | done].
  destruct op; simpl in *; destruct ev; try done.
  - destruct Hev as [-> ->]. destruct (created_pool_ok p Hwf) as ([_ Hr Hc _] & _).
    destruct Hop as [Hr0 Hc0]. split; [exact (eq_trans Hr Hr0) | exact (eq_trans Hc Hc0)].
  - subst. simpl. intros k a (p & <- & Hk)%lookup_fmap_Some. by apply (Hop k p).
Qed.

(** ** The global ledger and the audit *)

(** The sum of a component over the pools that are not retired. *)
Definition pool_weight (g : CxlPool -> Z) (p : CxlPool) : Z :=
  if bool_decide (pool_state p = PoolState_RETIRED) then 0 else g p.

Definition exact_global (pools : gmap PoolId CxlPool) : CapacityLine :=
  let sum g := msum (pool_weight g) pools in
  mkLine (sum pool_total_governed_bytes) (sum pool_total_governed_bytes)
    (sum pool_unavailable_bytes) (sum pool_reserved_bytes) (sum pool_committed_bytes)
    (sum pool_draining_bytes).

Definition line_add (g : CapacityLine) (l : list (PoolId * CxlPool)) : CapacityLine :=
  let sum h := lsum (fun kv => pool_weight h kv.2) l in
  mkLine (total g + sum pool_total_governed_bytes) (online g + sum pool_total_governed_bytes)
    (unavailable g + sum pool_unavailable_bytes) (reserved g + sum pool_reserved_bytes)
    (committed g + sum pool_committed_bytes) (draining g + sum pool_draining_bytes).

(** An intermediate ledger of the loops: covered, and with room for what is left. *)
Definition line_partial (g : CapacityLine) : Prop :=
  line_nonneg g /\ online g = total g /\ line_sum g <= total g.

Definition pool_good (p : CxlPool) : Prop :=
  account_ok (account_of p) /\ account_covered (account_of p).

Lemma add_pool_exact g p :
  line_partial g -> pool_good p -> total g + pool_weight pool_total_governed_bytes p <= UINT64_MAX ->
  ledger_add_pool g p = line_add g [(pool_id p, p)] /\
  audit_add_pool g p = line_add g [(pool_id p, p)] /\
  line_partial (line_add g [(pool_id p, p)]).
Proof.
  intros ((?&?&?&?) & Ho & Hs) [Ha Hc] Hcap.
  unfold account_ok, account_covered, ac_used, line_sum, CAPACITY_BOUND in *. simpl in *.
  unfold ledger_add_pool, audit_add_pool, line_add, line_partial, line_nonneg, line_sum,
    pool_weight in *. simpl in *.
  destruct (bool_decide (pool_state p = PoolState_RETIRED)) eqn:E.
  { rewrite !Z.add_0_r. destruct g; simpl in *. split_and!; done || lia. }
  rewrite !add_checked_spec by (unfold in_u64; lia).
  rewrite !bool_decide_true by lia. simpl.
  rewrite !Z.add_0_r. split_and!; try done; lia.
Qed.

Lemma line_add_cons g kv l : line_add (line_add g [kv]) l = line_add g (kv :: l).
Proof. unfold line_add. simpl. f_equal; lia. Qed.

Lemma folds_exact l g :
  Forall (fun kv => pool_good kv.2) l -> line_partial g ->
  total g + lsum (fun kv => pool_weight pool_total_governed_bytes kv.2) l <= UINT64_MAX ->
  foldl (fun g kv => ledger_add_pool g kv.2) g l = line_add g l /\
  foldl (fun g kv => audit_add_pool g kv.2) g l = line_add g l /\ line_partial (line_add g l).
Proof.
  intros Hl. revert g. induction Hl as [|[k p] l Hp Hl IH]; intros g Hg Hcap; simpl in *.
  { unfold line_add. simpl. rewrite !Z.add_0_r. by destruct g. }
  assert (0 <= lsum (fun kv => pool_weight pool_total_governed_bytes kv.2) l).
  { apply lsum_nonneg. eapply Forall_impl; [exact Hl|]. intros [k' p'] [Ha _].
    unfold account_ok in Ha. simpl in *. unfold pool_weight. case_test; lia. }
  destruct (add_pool_exact g p Hg Hp) as (-> & -> & Hg'); [lia|].
  replace (line_add g [(pool_id p, p)]) with (line_add g [(k, p)]) in * by done.
  destruct (IH (line_add g [(k, p)]) Hg') as (-> & -> & Hfin); [simpl; lia|].
  by rewrite line_add_cons in *.
Qed.

Lemma line_add_global pools : line_add line_default (map_iter pools) = exact_global pools.
Proof. unfold line_add, exact_global. simpl. by rewrite !msum_iter. Qed.

Lemma pools_good f :
  fabric_inv f -> ledger_covered (ledger_of f) ->
  forall k p, st_pools (state_ f) !! k = Some p -> pool_good p.
Proof.
  intros Hinv Hcov k p Hk. split; [by eapply inv_account|].
  apply (Hcov k). simpl. by rewrite lookup_fmap, Hk.
Qed.

Lemma global_exact f :
  fabric_inv f -> ledger_covered (ledger_of f) ->
  msum (pool_weight pool_total_governed_bytes) (st_pools (state_ f)) <= UINT64_MAX ->
  st_global_ledger (state_ f) = exact_global (st_pools (state_ f)) /\
  rep_global_ledger (audit f) = exact_global (st_pools (state_ f)) /\
  line_ok (exact_global (st_pools (state_ f))).
Proof.
  intros Hinv Hcov Hcap.
  destruct (folds_exact (map_iter (st_pools (state_ f))) line_default) as (H1 & H2 & Hp).
  - apply Forall_forall. intros [k p] Hin%elem_of_map_iter. by eapply pools_good.
  - by vm_compute.
  - simpl. by rewrite msum_iter.
  - rewrite line_add_global in *. split; [by rewrite (inv_global f Hinv)|]. split; [done|].
    destruct Hp as (Hnn & Ho & Hs). split; [done|]. simpl in *. lia.
Qed.

Lemma audit_pool_errors_nil p : pool_good p -> audit_pool_errors p = [].
Proof.
  intros [Ha Hc]. unfold audit_pool_errors. rewrite pool_used64_exact by done.
  case_bool_decide; [done|]. rewrite bool_decide_false; [done|].
  unfold account_covered in Hc. simpl in Hc. lia.
Qed.

Lemma audit_passes f :
  fabric_inv f -> ledger_covered (ledger_of f) ->
  msum (pool_weight pool_total_governed_bytes) (st_pools (state_ f)) <= UINT64_MAX ->
  rep_ok (audit f) = true /\ rep_errors (audit f) = [].
Proof.
  intros Hinv Hcov Hcap. destruct (global_exact f Hinv Hcov Hcap) as (_ & Hrep & Hok).
  assert ((map_iter (st_pools (state_ f)) ≫= fun kv => audit_pool_errors kv.2) = []) as Hnil.
  { assert (Forall (fun kv => pool_good kv.2) (map_iter (st_pools (state_ f)))) as Hall.
    { apply Forall_forall. intros [k p] Hin%elem_of_map_iter. by eapply pools_good. }
    induction Hall as [|kv l Hkv _ IH]; [done|].
    rewrite bind_cons, IH, audit_pool_errors_nil by done. done. }
  unfold audit in *. simpl in Hrep. rewrite Hrep, Hnil in *.
  assert (line_audit (exact_global (st_pools (state_ f))) = None) as ->; [|done].
  apply line_audit_exact; [..|done]; destruct Hok as (? & ? & ?); done || lia.
Qed.
