(* ===== verification/CapacitySafety.v ===== *)
(** * Capacity guarantees of the engine

    The theorems of this file are about every state the engine can reach, whatever
    the order of the calls and whoever makes them. *)
From S2P Require Import Prelude.
From S2P Require Import Identity.
From S2P Require Import Enums.
From S2P Require Import Accounting.
From S2P Require Import Records.
From S2P Require Import Selection.
From S2P Require Import Fabric.
From S2P Require Import Synthetic.
From S2P Require Import SelectionProps.
From S2P Require Import Ledger.
From S2P Require Import LedgerRefinement.
From S2P Require Import Reservations.
From S2P Require Import Invariants.

(** The bytes of the live reservations on a pool. *)
Definition live_bytes (f : Fabric) (k : PoolId) : Z :=
  msum (fun r => if bool_decide (res_pool r = k) && res_live r then res_bytes r else 0)
    (st_reservations (state_ f)).

Lemma live_bytes_owed f k : live_bytes f k = owed (ledger_of f) k.
Proof. unfold live_bytes, owed. simpl. by rewrite msum_fmap. Qed.

(** ** Concrete runs *)

(** The operations of [setup_synthetic] as a run. *)
Definition demo_ops : list FabricOp :=
  ((fun d => OpRegisterDevice d demo_ctx) <$> baseline_devices (mkId "host-synth")) ++
  [OpCreatePool
     (make_pool (mkId "p-1") (mkGen 1)
        [mk_member "dev-1" (16 * GiB) "fd-root-a"; mk_member "dev-2" (64 * GiB) "fd-root-b";
         mk_member "dev-3" (8 * GiB) "fd-root-a"]) demo_ctx;
   OpCreateRegion
     (make_region (mkId "reg-1") (mkGen 1) (mkId "p-1") [mkId "dev-1"] (16 * GiB)
        LocalityClass_SAME_HOST TierClass_CXL_NEAR RegionState_ONLINE) demo_ctx;
   OpCreateRegion
     (make_region (mkId "reg-2") (mkGen 1) (mkId "p-1") [mkId "dev-2"] (64 * GiB)
        LocalityClass_REMOTE_NUMA_DOMAIN TierClass_CXL_REMOTE RegionState_ONLINE) demo_ctx;
   OpCreateRegion
     (make_region (mkId "reg-3") (mkGen 1) (mkId "p-1") [mkId "dev-3"] (8 * GiB)
        LocalityClass_SAME_CXL_ROOT TierClass_CXL_PERSISTENT RegionState_ONLINE) demo_ctx].

Definition demo_request : AdmissionRequest := request_for GiB (mkId "svc").

(** The strongest of the input conditions: nothing outstanding in a new pool, no
    removal, no import. *)
Definition op_plain (f : Fabric) (op : FabricOp) : Prop := op_covering f op /\ op_exact f op.

Lemma demo_reachable : reachable op_plain demo.
Proof.
  assert (demo = run_ops (fabric_init (mkGen 1) (mkGen 1)) demo_ops) as -> by (by vm_compute).
  apply reachable_run; [constructor|].
  repeat (apply conj || exact I); try done; try (by vm_compute).
  all: repeat constructor; by vm_compute.
Qed.

Lemma step_reserve f req ctx :
  step f (OpReserve req ctx) = (ro_reason (reserve f req ctx).1, (reserve f req ctx).2).
Proof. simpl. by destruct (reserve f req ctx). Qed.

Lemma step_commit f rid ctx :
  step f (OpCommit rid ctx) = (ro_reason (commit f rid ctx).1, (commit f rid ctx).2).
Proof. simpl. by destruct (commit f rid ctx). Qed.

Lemma step_release f rid ctx :
  step f (OpRelease rid ctx) = (ro_reason (release f rid ctx).1, (release f rid ctx).2).
Proof. simpl. by destruct (release f rid ctx). Qed.

Lemma reach_reserve ok f req ctx :
  reachable ok f -> ok f (OpReserve req ctx) -> reachable ok (reserve f req ctx).2.
Proof.
  intros Hf Hok. pose proof (reach_step ok f _ Hf Hok) as H. by rewrite step_reserve in H.
Qed.

Lemma demo_reserved_reachable : reachable op_plain demo_reserved.
Proof.
  apply reach_reserve; [exact demo_reachable|].
  assert (sequence_ demo < UINT64_MAX) as Hs by (by vm_compute).
  assert (0 <= req_bytes (request_for GiB (mkId "svc"))) as Hb by (by vm_compute).
  unfold op_plain, op_covering, op_exact, op_wf. auto.
Qed.

(** ** The guarantees *)

Lemma covering_inv f : reachable op_covering f -> fabric_inv f.
Proof.
  intros H. apply reachable_inv. eapply reachable_mono; [|exact H]. by intros ?? [].
Qed.

(** What is live, what is accounted and what is governed, in this order. *)
Lemma covering_capacity f k p :
  reachable op_covering f -> st_pools (state_ f) !! k = Some p ->
  live_bytes f k <= pool_reserved_bytes p + pool_committed_bytes p /\
  pool_unavailable_bytes p + pool_reserved_bytes p + pool_committed_bytes p
    + pool_draining_bytes p <= pool_total_governed_bytes p.
Proof.
  intros Hf Hk. pose proof (covering_inv f Hf) as Hinv.
  destruct (pools_good f Hinv (reachable_covered f Hf) k p Hk) as [Ha Hc].
  destruct (inv_account_at f Hinv k p Hk) as [Hla _].
  destruct (account_facts _ (inv_ledger f Hinv) k _ Hla) as (_ & _ & Ho).
  rewrite live_bytes_owed. unfold account_covered, ac_used in *. simpl in *. lia.
Qed.

(** C1. Operations on covered pools never oversubscribe capacity. Take any state reached by
    calls in any order, accepted or refused, other than the removal of a pool member
    ([remove_member_oversubscribes]), such that every pool that was created or imported
    could cover, with its healthy members, the reserved, committed and draining bytes it came
    with (the engine does not check it, see [unbacked_pool_accepted]; a published pool comes
    with none), and the sizes were in range ([op_wf]: not negative, the members of one pool
    below 2^63 bytes together). Then for every pool: the bytes of the live reservations on
    it do not exceed the bytes it accounts as reserved or committed, and these together with
    the unavailable and draining bytes do not exceed the capacity it governs, so the live
    reservations always fit in the healthy capacity. The free capacity the code computes in
    64 bits is the exact difference. *)
Theorem capacity_never_oversubscribed f k p :
  reachable op_covering f -> st_pools (state_ f) !! k = Some p ->
  live_bytes f k <= pool_reserved_bytes p + pool_committed_bytes p /\
  pool_unavailable_bytes p + pool_reserved_bytes p + pool_committed_bytes p
    + pool_draining_bytes p <= pool_total_governed_bytes p /\
  live_bytes f k <= pool_total_governed_bytes p - pool_unavailable_bytes p /\
  pool_free p = pool_total_governed_bytes p - (pool_unavailable_bytes p
    + pool_reserved_bytes p + pool_committed_bytes p + pool_draining_bytes p).
Proof.
  intros Hf Hk. destruct (covering_capacity f k p Hf Hk) as [Hlive Hcov].
  destruct (pools_good f (covering_inv f Hf) (reachable_covered f Hf) k p Hk) as [Ha _].
  rewrite (pool_free_exact p Ha). unfold account_ok, ac_free, ac_used in *. simpl in *. lia.
Qed.

Lemma plain_covering f : reachable op_plain f -> reachable op_covering f.
Proof. apply reachable_mono. by intros ?? []. Qed.

Lemma capacity_never_oversubscribed_witness :
  live_bytes demo_reserved (mkId "p-1") = GiB /\
  exists p, st_pools (state_ demo_reserved) !! mkId "p-1" = Some p /\
    pool_reserved_bytes p = GiB /\ pool_free p = 87 * GiB.
Proof.
  split; [by vm_compute|].
  destruct (st_pools (state_ demo_reserved) !! mkId "p-1") as [p|] eqn:Hp;
    [|vm_compute in Hp; discriminate].
  destruct (capacity_never_oversubscribed demo_reserved (mkId "p-1") p
    (plain_covering _ demo_reserved_reachable) Hp) as (_ & _ & _ & Hfree).
  exists p. split; [done|]. vm_compute in Hp. injection Hp as <-. split; [by vm_compute|].
  rewrite Hfree. by vm_compute.
Defined.

(** C3. The books are exact. When pools are created and restored with nothing
    outstanding, then in every reachable state, members removed or not, the reserved
    plus committed bytes of a pool are exactly the bytes of its live reservations: no
    capacity leaks and none is promised twice. The reserved bytes alone always cover
    the reservations that are not yet committed. *)
Theorem pool_accounting_exact f k p :
  reachable op_exact f -> st_pools (state_ f) !! k = Some p ->
  pool_reserved_bytes p + pool_committed_bytes p = live_bytes f k /\
  msum (fun r => if bool_decide (res_pool r = k) && bool_decide (res_state r = ResumeState_RESERVED)
                 then res_bytes r else 0) (st_reservations (state_ f)) <= pool_reserved_bytes p.
Proof.
  intros Hf Hk.
  assert (fabric_inv f) as Hinv.
  { apply reachable_inv. eapply reachable_mono; [|exact Hf]. by intros ?? []. }
  destruct (inv_account_at f Hinv k p Hk) as [Hla _].
  destruct (account_facts _ (inv_ledger f Hinv) k _ Hla) as (_ & Hh & _). split.
  - rewrite live_bytes_owed. exact (reachable_exact f Hf k _ Hla).
  - unfold held in Hh. simpl in Hh. by rewrite msum_fmap in Hh.
Qed.

Lemma pool_accounting_exact_witness :
  exists p, st_pools (state_ demo_reserved) !! mkId "p-1" = Some p /\
    pool_reserved_bytes p + pool_committed_bytes p = GiB.
Proof.
  destruct (st_pools (state_ demo_reserved) !! mkId "p-1") as [p|] eqn:Hp;
    [|vm_compute in Hp; discriminate].
  exists p. split; [done|].
  assert (reachable op_exact demo_reserved) as Hr.
  { eapply reachable_mono; [|exact demo_reserved_reachable]. by intros ?? []. }
  destruct (pool_accounting_exact demo_reserved (mkId "p-1") p Hr Hp) as [-> _].
  by vm_compute.
Defined.

(** C2. Every operation implements the abstract ledger. From any reachable state, on
    any well-formed input, each of the 21 operations performs one step of the abstract
    capacity ledger, the one that belongs to the operation: a successful reserve,
    commit or release performs exactly the event of that name on that reservation,
    with its guard, a refused one performs none; membership operations only resize
    their own pool; registry operations never touch an account. The ledger invariant
    (every live reservation is backed by its pool's account) holds before and after. *)
Theorem fabric_refines_ledger f op :
  reachable op_wf f -> op_wf f op ->
  ledger_ok (ledger_of f) /\ ledger_ok (ledger_of (step f op).2) /\
  exists ev, ledger_step (ledger_of f) ev (ledger_of (step f op).2) /\
             op_event op (op_succeeds f op) ev.
Proof.
  intros Hf Hop. pose proof (reachable_inv f Hf) as Hinv.
  split; [by apply inv_ledger|]. split; [by apply inv_ledger, step_inv|].
  by apply step_refines.
Qed.

Lemma plain_wf f : reachable op_plain f -> reachable op_wf f.
Proof. apply reachable_mono. by intros ?? [[] _]. Qed.

Lemma fabric_refines_ledger_witness :
  (step demo (OpReserve demo_request demo_ctx)).1 = DecisionReason_OK /\
  exists ev, op_event (OpReserve demo_request demo_ctx) true ev /\
    ledger_step (ledger_of demo) ev (ledger_of (step demo (OpReserve demo_request demo_ctx)).2).
Proof.
  assert (op_wf demo (OpReserve demo_request demo_ctx)) as Hwf by (split; by vm_compute).
  destruct (fabric_refines_ledger demo _ (plain_wf _ demo_reachable) Hwf)
    as (_ & _ & ev & Hs & Hev).
  split; [by vm_compute|]. exists ev. split; [|exact Hs].
  assert (op_succeeds demo (OpReserve demo_request demo_ctx) = true) as Ht by (by vm_compute).
  by rewrite Ht in Hev.
Defined.

(** C16. The audit passes as long as pools start covered. In every state reached by
    well-formed calls without member removals, where every pool that was created or
    imported could cover the outstanding bytes it came with, and whose pools together govern
    at most 2^64 - 1 bytes, [audit] reports no error, and both the ledger it recomputes and
    the incrementally maintained global ledger are the exact sums over the pools, with no
    addition skipped or wrapped. Without the condition on created pools the audit can fail:
    [unbacked_pool_accepted]. *)
Theorem audit_always_passes f :
  reachable op_covering f ->
  msum (pool_weight pool_total_governed_bytes) (st_pools (state_ f)) <= UINT64_MAX ->
  rep_ok (audit f) = true /\ rep_errors (audit f) = [] /\
  rep_global_ledger (audit f) = exact_global (st_pools (state_ f)) /\
  st_global_ledger (state_ f) = exact_global (st_pools (state_ f)).
Proof.
  intros Hf Hcap. pose proof (covering_inv f Hf) as Hinv.
  pose proof (reachable_covered f Hf) as Hcov.
  destruct (audit_passes f Hinv Hcov Hcap). destruct (global_exact f Hinv Hcov Hcap) as (? & ? & _).
  done.
Qed.

Lemma audit_always_passes_witness :
  rep_ok (audit demo_reserved) = true /\
  st_global_ledger (state_ demo_reserved) = mkLine (88 * GiB) (88 * GiB) 0 GiB 0 0.
Proof.
  assert (msum (pool_weight pool_total_governed_bytes) (st_pools (state_ demo_reserved))
          <= UINT64_MAX) as Hcap by (by vm_compute).
  destruct (audit_always_passes demo_reserved (plain_covering _ demo_reserved_reachable) Hcap)
    as (Hok & _ & _ & ->).
  split; [exact Hok | by vm_compute].
Defined.

(** ** Pools that start uncovered *)

Lemma audit_fails f k p :
  st_pools (state_ f) !! k = Some p -> audit_pool_errors p <> [] -> rep_ok (audit f) = false.
Proof.
  intros Hk He. assert ((map_iter (st_pools (state_ f)) ≫= fun kv => audit_pool_errors kv.2) <> []) as Hne.
  { intros Hnil. apply He. destruct (audit_pool_errors p) as [|e es] eqn:Hp; [done|].
    assert (e ∈ map_iter (st_pools (state_ f)) ≫= fun kv => audit_pool_errors kv.2) as Hin.
    { apply list_elem_of_bind. exists (k, p). split; [simpl; rewrite Hp; by left | by apply elem_of_map_iter]. }
    rewrite Hnil in Hin. by apply not_elem_of_nil in Hin. }
  unfold audit. cbn [rep_ok]. apply bool_decide_eq_false. destruct (line_audit _); [|done].
  by intros []%app_eq_nil.
Qed.

(** A pool in use beyond what it governs fails the audit. *)
Lemma audit_fails_used f k p :
  st_pools (state_ f) !! k = Some p -> pool_state p <> PoolState_RETIRED ->
  pool_total_governed_bytes p < pool_used64 p -> rep_ok (audit f) = false.
Proof.
  intros Hk Hst Hu. apply (audit_fails f k p Hk). unfold audit_pool_errors.
  by rewrite bool_decide_false, bool_decide_true.
Qed.

Lemma check_new_members_reason devices pools seen ms :
  check_new_members devices pools seen ms <> Some DecisionReason_OK.
Proof.
  revert seen. induction ms as [|m ms IH]; intros seen; simpl; [done|].
  destruct (devices !! mem_device m); [|done]. case_bool_decide; [done|].
  destruct (governed_in _ _); [done | apply IH].
Qed.

Lemma create_pool_accepted f p ctx :
  (create_pool f p ctx).1 = DecisionReason_OK ->
  st_pools (state_ (create_pool f p ctx).2) !! pool_id p = Some (created_pool p).
Proof.
  unfold create_pool. open_op; try done; simpl.
  { intros ->. by apply check_new_members_reason in Heqo0. }
  intros _. unfold created_pool, recompute_pool.
  destruct (foldl pool_add_member _ _) as [[? ?] ?]. simpl. apply lookup_insert_eq.
Qed.

(** [create_pool] takes the accounts of a new pool from its caller. A pool that comes with
    more outstanding bytes than its healthy members have is accepted all the same, is
    oversubscribed from the start, and the audit fails. *)
Theorem unbacked_pool_accepted f p ctx :
  reachable op_wf f -> op_wf f (OpCreatePool p ctx) ->
  (create_pool f p ctx).1 = DecisionReason_OK -> ~ account_covered (account_of (created_pool p)) ->
  let f' := (create_pool f p ctx).2 in
  reachable op_wf f' /\ rep_ok (audit f') = false /\
  exists q, st_pools (state_ f') !! pool_id p = Some q /\
    pool_total_governed_bytes q < pool_unavailable_bytes q + pool_reserved_bytes q
      + pool_committed_bytes q + pool_draining_bytes q.
Proof.
  intros Hf Hwf Hok Hno. cbv zeta. split; [exact (reach_step op_wf f _ Hf Hwf)|].
  pose proof (create_pool_accepted f p ctx Hok) as Hk.
  destruct (created_pool_ok p Hwf) as (_ & _ & _ & Ha). pose proof (pool_used64_exact _ Ha) as Hu.
  unfold account_covered, ac_used in *. cbn [account_of ac_total ac_unavailable ac_reserved
    ac_committed ac_draining] in *.
  split; [|eexists; split; [exact Hk | lia]].
  apply (audit_fails_used _ _ _ Hk); [discriminate | lia].
Qed.

Lemma unbacked_pool_accepted_witness :
  rep_ok (audit (create_pool demo
    (pool_set_account (make_pool (mkId "p-9") (mkGen 1) []) 0 10) demo_ctx).2) = false.
Proof.
  apply (unbacked_pool_accepted demo (pool_set_account (make_pool (mkId "p-9") (mkGen 1) []) 0 10) demo_ctx
           (plain_wf _ demo_reachable)).
  - split; [split; [constructor | vm_compute; discriminate]|]. split_and!; vm_compute; discriminate.
  - vm_compute. reflexivity.
  - vm_compute. intros H. by apply H.
Defined.
