(* ===== verification/ReservationProps.v ===== *)
(** * Correctness of the reservation operations

    What reserve, commit and release do on every branch, in every reachable state,
    and the life of a reservation across operations. *)
From S2P Require Import Prelude.
From S2P Require Import Identity.
From S2P Require Import Enums.
From S2P Require Import Accounting.
From S2P Require Import Records.
From S2P Require Import Selection.
From S2P Require Import Fabric.
From S2P Require Import Synthetic.
From S2P Require Import SelectionProps.
From S2P Require Import Ledger.
From S2P Require Import LedgerRefinement.
From S2P Require Import Reservations.
From S2P Require Import Invariants.
From S2P Require Import CapacitySafety.

(** C5. [reserve] is correct on every branch. It succeeds if and only if the caller
    presents the current epoch, asks for a non-zero size, and the selection finds a
    placement whose pool has room. It then records, under an identity never used
    before, a reservation bound to the generations of the chosen pool, region and
    device and to the caller's worker boot and the current epoch; it charges exactly
    the requested bytes to that pool and to that region and leaves every other pool
    and all devices alone. When it refuses it reports a reason and changes nothing. *)
Theorem reserve_correct f req ctx :
  reachable op_wf f -> op_wf f (OpReserve req ctx) ->
  let o := (reserve f req ctx).1 in
  let f' := (reserve f req ctx).2 in
  (ro_ok o = true <-> exists p r d, reservable f req ctx p r d) /\
  (ro_ok o = false -> f' = f /\ ro_reason o <> DecisionReason_OK) /\
  (ro_ok o = true -> exists p r d,
     let res := reservation_for f req ctx p r d in
     ro_reason o = DecisionReason_OK /\ ro_reservation o = res /\
     placement (state_ f) req p r d /\
     st_reservations (state_ f) !! res_id res = None /\
     st_reservations (state_ f') = <[res_id res := res]> (st_reservations (state_ f)) /\
     st_pools (state_ f') = <[pool_id p := pool_set_account p
         (pool_reserved_bytes p + req_bytes req) (pool_committed_bytes p)]>
         (st_pools (state_ f)) /\
     st_regions (state_ f') = <[reg_id r := charge_region r (req_bytes req)]>
         (st_regions (state_ f)) /\
     st_devices (state_ f') = st_devices (state_ f) /\
     sequence_ f' = sequence_ f + 1).
Proof.
  intros Hf [Hn Hseq]. cbv zeta. pose proof (reachable_inv f Hf) as Hinv.
  destruct (reserve_cases f req ctx (inv_keys f Hinv)) as
    [(why & Hwhy & -> & Hno) | (p & r & d & Hrs & Hpl & Hp & Hr & ->)]; simpl.
  { split_and!; try done. split; [done|]. intros (p & r & d & H). by destruct (Hno p r d). }
  split_and!; [split; eauto 10 | done |]. intros _. exists p, r, d.
  pose proof (next_reservation_fresh f Hinv Hseq) as Hfresh.
  destruct Hrs as [_ Hn0 _ _ Hroom]. pose proof (inv_account f Hinv _ p Hp) as Ha.
  rewrite (pool_free_exact p Ha) in Hroom. rewrite Hfresh.
  split_and!; try done; [|by apply next_sequence].
  unfold charge_pool. rewrite add64_small; [done|..];
    unfold account_ok, ac_free, ac_used, CAPACITY_BOUND, UINT64_MAX in *; simpl in *; lia.
Qed.

Lemma reserve_correct_witness :
  ro_ok (reserve demo demo_request demo_ctx).1 = true /\
  exists p r d, reservable demo demo_request demo_ctx p r d.
Proof.
  assert (ro_ok (reserve demo demo_request demo_ctx).1 = true) as Hok by (by vm_compute).
  split; [exact Hok|].
  assert (op_wf demo (OpReserve demo_request demo_ctx)) as Hwf by (split; by vm_compute).
  destruct (reserve_correct demo demo_request demo_ctx (plain_wf _ demo_reachable) Hwf)
    as [Hiff _].
  by apply Hiff.
Defined.

(** What a commit needs, the backing of its pool left out. *)
Definition commit_current (f : Fabric) (rid : ReservationId) (ctx : AuthorityContext)
    (res : Reservation) : Prop :=
  st_reservations (state_ f) !! rid = Some res /\ res_state res = ResumeState_RESERVED /\
  ctx_coordinator_epoch ctx = epoch f /\ res_created_epoch res = epoch f /\
  (ctx_worker_boot_id ctx = id_default \/ ctx_worker_boot_id ctx = res_worker_boot_id res) /\
  (exists p, st_pools (state_ f) !! res_pool res = Some p /\
             pool_generation p = res_pool_generation res) /\
  (exists r, st_regions (state_ f) !! res_region res = Some r /\
             reg_generation r = res_region_generation res) /\
  (exists d, st_devices (state_ f) !! res_device res = Some d /\
             dev_generation d = res_device_generation res).

Lemma commit_current_committable f rid ctx res :
  fabric_inv f -> commit_current f rid ctx res ->
  exists p r d, committable f rid ctx res p r d.
Proof.
  intros Hinv (Hres & Hst & He & Hc & Hb & (p & Hp & Hpg) & (r & Hr) & (d & Hd)).
  exists p, r, d. split; try done.
  destruct (claim_backed (ledger_of f) rid (claim_of res) (inv_ledger f Hinv)) as
    (a & Ha & _ & _ & Hle); [by apply claim_at | by unfold cl_live; simpl; rewrite Hst |].
  simpl in Ha. rewrite lookup_fmap, Hp in Ha. simplify_eq/=. by apply Hle.
Qed.

(** C6. What [commit] checks and does, on every branch. In every reachable state it succeeds
    if and only if the reservation exists and is RESERVED, the caller and the reservation
    both carry the current epoch, the caller's worker boot is the reservation's or empty,
    and the pool, region and device still have the generations the reservation was made
    under: the capacity to commit is then always there. Nothing else is checked, neither the
    policy generation, nor the generation of the consumer, nor the boot identity of the
    device, which the documentation says are ([stale_consumer_and_device_boot_commit]). It moves
    exactly the reserved bytes of the pool to committed, marks the reservation
    COMMITTED under the current epoch, and touches no other pool or reservation. When
    it refuses it changes nothing. *)
Theorem commit_correct f rid ctx :
  reachable op_wf f ->
  let o := (commit f rid ctx).1 in
  let f' := (commit f rid ctx).2 in
  (ro_ok o = true <-> exists res, commit_current f rid ctx res) /\
  (ro_ok o = false -> f' = f /\ ro_reason o <> DecisionReason_OK) /\
  (forall res, commit_current f rid ctx res -> exists p,
     st_pools (state_ f) !! res_pool res = Some p /\
     st_pools (state_ f') = <[res_pool res := pool_set_account p
         (pool_reserved_bytes p - res_bytes res) (pool_committed_bytes p + res_bytes res)]>
         (st_pools (state_ f)) /\
     st_reservations (state_ f') =
       <[rid := res_set_state res ResumeState_COMMITTED (epoch f)]> (st_reservations (state_ f)) /\
     st_devices (state_ f') = st_devices (state_ f)).
Proof.
  intros Hf. cbv zeta. pose proof (reachable_inv f Hf) as Hinv.
  destruct (commit_cases f rid ctx) as
    [(why & Hwhy & -> & Hno) | (res & p & r & d & Hc & ->)]; simpl.
  - assert (forall res, ~ commit_current f rid ctx res) as Hno'.
    { intros res Hcc. destruct (commit_current_committable f rid ctx res Hinv Hcc)
        as (p & r & d & H). by destruct (Hno res p r d). }
    split_and!; [|done|]; [|intros res H; by destruct (Hno' res)].
    split; [done|]. intros [res H]. by destruct (Hno' res).
  - destruct Hc as [Hres Hst [He1 He2] Hb [Hp Hpg] [Hr Hrg] [Hd Hdg] Hle].
    split_and!; [|done|].
    + split; [|done]. intros _. exists res. unfold commit_current. eauto 20.
    + intros res' (Hres' & _). simplify_eq. exists p. split; [done|]. split; [|done].
      pose proof (inv_account f Hinv _ p Hp) as Ha.
      pose proof (lok_bytes _ (inv_ledger f Hinv) rid (claim_of res) (claim_at f _ _ Hres)) as Hpos.
      unfold account_ok, CAPACITY_BOUND in Ha. simpl in *.
      by rewrite sub64_small, add64_small by (unfold UINT64_MAX; lia).
Qed.

Lemma commit_correct_witness :
  ro_ok (commit demo_reserved (mkId "res-1") demo_ctx).1 = true /\
  exists res, commit_current demo_reserved (mkId "res-1") demo_ctx res.
Proof.
  assert (ro_ok (commit demo_reserved (mkId "res-1") demo_ctx).1 = true) as Hok
    by (by vm_compute).
  split; [exact Hok|].
  destruct (commit_correct demo_reserved (mkId "res-1") demo_ctx
              (plain_wf _ demo_reserved_reachable)) as [Hiff _].
  by apply Hiff.
Defined.

(** Neither the generation of the consumer nor the boot identity of the device is looked
    at: what could be committed can be committed under any other consumer generation, and
    also after the device was registered again under its old generation, with whatever boot
    identity. *)
Theorem stale_consumer_and_device_boot_commit f rid ctx res :
  reachable op_wf f -> commit_current f rid ctx res ->
  (forall g, ro_ok (commit f rid (mkContext (ctx_coordinator_epoch ctx) (ctx_policy_generation ctx)
                                    (ctx_worker_boot_id ctx) g)).1 = true) /\
  (forall d, dev_id d = res_device res -> dev_generation d = res_device_generation res ->
     (register_device f d ctx).1 = DecisionReason_OK ->
     ro_ok (commit (register_device f d ctx).2 rid ctx).1 = true).
Proof.
  intros Hf Hcc. assert (forall g ctx', reachable op_wf g -> commit_current g rid ctx' res ->
    ro_ok (commit g rid ctx').1 = true) as Hok.
  { intros g ctx' Hg Hc. destruct (commit_current_committable g rid ctx' res (reachable_inv g Hg) Hc)
      as (p & r & d & H). destruct (commit_cases g rid ctx') as
      [(why & _ & _ & Hno) | (res' & p' & r' & d' & _ & ->)]; [by destruct (Hno res p r d) | done]. }
  split.
  - intros g. by apply Hok.
  - intros d Hid Hgen Hreg. apply Hok; [exact (reach_step op_wf f (OpRegisterDevice d ctx) Hf I)|].
    assert ((register_device f d ctx).2 = put_device f (dev_id d) d) as ->.
    { revert Hreg. unfold register_device. by open_op. }
    destruct Hcc as (Hr & Hst & He & Hc & Hb & Hp & Hrg & _). split_and!; try done.
    exists d. split; [|done]. simpl. rewrite Hid. apply lookup_insert_eq.
Qed.

Lemma demo_commit_current :
  exists res, st_reservations (state_ demo_reserved) !! mkId "res-1" = Some res /\
              commit_current demo_reserved (mkId "res-1") demo_ctx res.
Proof.
  destruct (commit_cases demo_reserved (mkId "res-1") demo_ctx) as
    [(why & Hwhy & Heq & _) | (res & p & r & d & [Hres Hst [He1 He2] Hb [Hp Hpg] [Hr Hrg] [Hd Hdg] _] & _)].
  - assert (ro_ok (commit demo_reserved (mkId "res-1") demo_ctx).1 = true) as Hok
      by (vm_compute; reflexivity). rewrite Heq in Hok. discriminate.
  - exists res. split; [done|]. unfold commit_current. eauto 20.
Qed.

Lemma stale_consumer_and_device_boot_commit_witness :
  exists d, dev_boot_id d = mkId "another" /\
    ro_ok (commit (register_device demo_reserved d demo_ctx).2 (mkId "res-1") demo_ctx).1 = true.
Proof.
  destruct demo_commit_current as (res & Hres & Hc).
  destruct (stale_consumer_and_device_boot_commit demo_reserved (mkId "res-1") demo_ctx res
    (plain_wf _ demo_reserved_reachable) Hc) as [_ H].
  exists (make_device (mkId "dev-1") (mkGen 1) (mkId "another") (mkId "host-synth") (16 * GiB)
      VolatilityKind_VOLATILE SharingMode_DEDICATED LocalityClass_SAME_HOST 180 32000 1 "fd-root-a").
  split; [reflexivity|]. vm_compute in Hres.
  apply H; injection Hres as <-; vm_compute; reflexivity.
Defined.

(** Releasing a reservation takes its bytes out of the live ones of its pool. *)
Lemma after_release_live f rid res p :
  st_reservations (state_ f) !! rid = Some res -> res_live res = true ->
  live_bytes (after_release f rid res p) (res_pool res)
  = live_bytes f (res_pool res) - res_bytes res.
Proof.
  intros Hres Hlive. unfold live_bytes. simpl. rewrite (msum_insert _ _ _ res) by done. simpl.
  rewrite !bool_decide_true, Hlive by done. simpl. lia.
Qed.

(** C7. [release] is correct on every branch and never half-done. In every reachable
    state it succeeds if and only if the reservation is live (RESERVED or COMMITTED)
    and the caller presents the current epoch. It then returns exactly the bytes of
    the reservation to its pool, committed bytes first, and marks the reservation
    RELEASED, so a second release is refused; a refusal is always RESERVATION_STALE
    and changes nothing: the conflict path, which would leave the pool modified, is
    unreachable. *)
Theorem release_correct f rid ctx :
  reachable op_wf f ->
  let o := (release f rid ctx).1 in
  let f' := (release f rid ctx).2 in
  (ro_ok o = true <-> exists res, st_reservations (state_ f) !! rid = Some res /\
                        res_live res = true /\ ctx_coordinator_epoch ctx = epoch f) /\
  (ro_ok o = false -> f' = f /\ ro_reason o = DecisionReason_RESERVATION_STALE) /\
  (forall res, ro_ok o = true -> st_reservations (state_ f) !! rid = Some res -> exists p rsv com,
     st_pools (state_ f) !! res_pool res = Some p /\
     st_pools (state_ f') = <[res_pool res := pool_set_account p rsv com]> (st_pools (state_ f)) /\
     rsv + com = pool_reserved_bytes p + pool_committed_bytes p - res_bytes res /\
     0 <= rsv <= pool_reserved_bytes p /\ 0 <= com <= pool_committed_bytes p /\
     live_bytes f' (res_pool res) = live_bytes f (res_pool res) - res_bytes res /\
     st_reservations (state_ f') =
       <[rid := res_set_state res ResumeState_RELEASED (res_commit_epoch res)]>
         (st_reservations (state_ f))).
Proof.
  intros Hf. cbv zeta. pose proof (reachable_inv f Hf) as Hinv.
  destruct (release_cases f rid ctx Hinv) as
    [[-> Hno] | (res & p & Hres & Hlive & He & Hp & Hle & ->)]; simpl.
  - split_and!; try done. split; [done|]. intros (res & Hres & Hlive & He).
    by rewrite (Hno He res Hres) in Hlive.
  - split_and!; [|done|].
    + split; [|done]. intros _. by exists res.
    + intros res' _ Hres'. assert (res' = res) as -> by congruence. eexists p, _, _.
      pose proof (inv_account f Hinv _ p Hp) as Ha.
      pose proof (lok_bytes _ (inv_ledger f Hinv) rid (claim_of res) (claim_at f _ _ Hres)) as Hpos.
      unfold account_ok in Ha. simpl in *.
      split_and!; try done; try lia. by apply after_release_live.
Qed.

Lemma release_correct_witness :
  let f := demo_reserved in
  let f' := (release f (mkId "res-1") demo_ctx).2 in
  ro_ok (release f (mkId "res-1") demo_ctx).1 = true /\
  live_bytes f (mkId "p-1") = GiB /\ live_bytes f' (mkId "p-1") = 0 /\
  ro_ok (release f' (mkId "res-1") demo_ctx).1 = false.
Proof.
  cbv zeta.
  destruct (release_correct demo_reserved (mkId "res-1") demo_ctx
              (plain_wf _ demo_reserved_reachable)) as [Hiff _].
  split; [|split_and!; by vm_compute].
  destruct (st_reservations (state_ demo_reserved) !! mkId "res-1") as [res|] eqn:Hr;
    [|vm_compute in Hr; discriminate].
  apply Hiff. exists res. split; [done|]. vm_compute in Hr. injection Hr as <-.
  split; by vm_compute.
Defined.
