(* ===== verification/Fencing.v ===== *)
(** * Fencing: stale authority changes nothing

    Epochs, generations and the life of a reservation: what a caller that holds an
    old authority can still do, which is nothing. *)
From S2P Require Import Prelude.
From S2P Require Import Identity.
From S2P Require Import Enums.
From S2P Require Import Lifecycle.
From S2P Require Import Accounting.
From S2P Require Import Records.
From S2P Require Import Selection.
From S2P Require Import Fabric.
From S2P Require Import Synthetic.
From S2P Require Import SelectionProps.
From S2P Require Import Ledger.
From S2P Require Import LedgerRefinement.
From S2P Require Import Reservations.
From S2P Require Import Invariants.
From S2P Require Import CapacitySafety.

(** ** Epochs and refusals *)

(** C9. A stale epoch is fenced everywhere. Whatever the state and whatever the
    operation and its arguments, a call that presents an epoch other than the
    coordinator's current one is answered RESERVATION_STALE and the state is left
    exactly as it was. *)
Theorem stale_epoch_fenced f op ctx :
  op_context op = Some ctx -> ctx_coordinator_epoch ctx <> epoch f ->
  step f op = (DecisionReason_RESERVATION_STALE, f).
Proof.
  intros Hctx Hne.
  assert (stale_epoch f ctx = true) as Hst.
  { unfold stale_epoch. by rewrite bool_decide_false. }
  destruct op; simpl in Hctx; simplify_eq; simpl;
    unfold register_device, create_region, update_region, reconfigure_region, create_pool,
      add_pool_member, remove_pool_member, mark_device_revalidation, mark_device_online,
      mark_region_draining, mark_pool_draining, reconcile_pool, revalidate_pool,
      revalidate_region, reserve, commit, release;
    rewrite ?Hst; try done;
    destruct (st_reservations (state_ f) !! rid) as [res|]; try done; by repeat case_test.
Qed.

Lemma stale_epoch_fenced_witness :
  step demo_reserved (OpRelease (mkId "res-1") (mkContext (mkGen 2) (mkGen 1) id_default (mkGen 1)))
  = (DecisionReason_RESERVATION_STALE, demo_reserved).
Proof.
  apply (stale_epoch_fenced _ _ (mkContext (mkGen 2) (mkGen 1) id_default (mkGen 1)));
    [reflexivity | by vm_compute].
Defined.

Lemma refused_unchanged f op :
  fabric_inv f -> (step f op).1 <> DecisionReason_OK -> (step f op).2 = f.
Proof.
  intros Hinv Hr.
  destruct op; simpl in *; try done;
    try (unfold register_device, create_region, update_region, reconfigure_region, create_pool,
           add_pool_member, remove_pool_member, mark_device_revalidation, mark_device_online,
           mark_region_draining, mark_pool_draining, reconcile_pool, revalidate_pool,
           revalidate_region in *; revert Hr; open_op; done).
  - destruct (reserve_cases f req ctx (inv_keys f Hinv)) as
      [(why & _ & -> & _) | (p & r & d & _ & _ & _ & _ & H)]; [done|]. by rewrite H in Hr.
  - destruct (commit_cases f rid ctx) as [(why & _ & -> & _) | (res & p & r & d & _ & H)];
      [done|]. by rewrite H in Hr.
  - destruct (release_cases f rid ctx Hinv) as [[-> _] | (res & p & _ & _ & _ & _ & _ & H)];
      [done|]. by rewrite H in Hr.
Qed.

(** C14. A refused operation is without effect: from any reachable state, if any of the
    21 operations reports a reason other than OK, the whole state, with its registries,
    reservations, ledgers and sequence number, is unchanged. *)
Theorem refused_changes_nothing f op :
  reachable op_wf f -> (step f op).1 <> DecisionReason_OK -> (step f op).2 = f.
Proof. intros Hf. apply refused_unchanged. by apply reachable_inv. Qed.

Lemma refused_changes_nothing_witness :
  (step demo_reserved (OpReserve (request_for (100 * GiB) (mkId "svc")) demo_ctx)).1
    = DecisionReason_CAPACITY_INSUFFICIENT /\
  (step demo_reserved (OpReserve (request_for (100 * GiB) (mkId "svc")) demo_ctx)).2
    = demo_reserved.
Proof.
  assert ((step demo_reserved (OpReserve (request_for (100 * GiB) (mkId "svc")) demo_ctx)).1
    = DecisionReason_CAPACITY_INSUFFICIENT) as H by (by vm_compute).
  split; [exact H|].
  apply (refused_changes_nothing _ _ (plain_wf _ demo_reserved_reachable)). rewrite H. discriminate.
Defined.

(** ** The life of a reservation *)

(** One step in the life of a reservation: nothing, a commit, or a release; all its
    other fields are for ever those of its creation. *)
Inductive res_advances (e : CoordinatorEpoch) (res : Reservation) : Reservation -> Prop :=
  | adv_same : res_advances e res res
  | adv_commit : res_state res = ResumeState_RESERVED ->
      res_advances e res (res_set_state res ResumeState_COMMITTED e)
  | adv_release : res_live res = true ->
      res_advances e res (res_set_state res ResumeState_RELEASED (res_commit_epoch res)).

Definition is_import (op : FabricOp) : bool :=
  match op with OpImport _ => true | _ => false end.

(** The operations that leave the reservations alone. *)
Lemma other_op_reservations f op :
  match op with OpReserve _ _ | OpCommit _ _ | OpRelease _ _ | OpImport _ => false
              | _ => true end = true ->
  st_reservations (state_ (step f op).2) = st_reservations (state_ f).
Proof.
  intros Hop.
  destruct op; simpl in *; try done;
    unfold register_device, create_region, update_region, reconfigure_region, create_pool,
      add_pool_member, remove_pool_member, mark_device_revalidation, mark_device_online,
      mark_region_draining, mark_pool_draining, reconcile_pool, revalidate_pool,
      revalidate_region; open_op; done.
Qed.

Lemma lookup_insert_advance (m : gmap ReservationId Reservation) e rid rid' res res' :
  m !! rid = Some res -> m !! rid' = Some res' -> forall new, res_advances e res' new ->
  exists res'', <[rid' := new]> m !! rid = Some res'' /\ res_advances e res res''.
Proof.
  intros H H' new Hadv. destruct (decide (rid' = rid)) as [->|].
  - rewrite lookup_insert_eq. simplify_eq. eauto.
  - rewrite lookup_insert_ne by done. eexists. split; [exact H | constructor].
Qed.

Lemma step_reservation f op rid res :
  fabric_inv f -> op_wf f op -> st_reservations (state_ f) !! rid = Some res ->
  is_import op = false ->
  exists res', st_reservations (state_ (step f op).2) !! rid = Some res' /\
               res_advances (epoch f) res res'.
Proof.
  intros Hinv Hwf Hres Himp. destruct op; try discriminate;
    try (rewrite other_op_reservations by done; by eauto using adv_same); simpl.
  - destruct Hwf as [_ Hseq].
    destruct (reserve_cases f req ctx (inv_keys f Hinv)) as
      [(why & _ & -> & _) | (p & r & d & _ & _ & _ & _ & ->)]; [eauto using adv_same|].
    simpl. pose proof (next_reservation_fresh f Hinv Hseq) as Hfresh. rewrite Hfresh.
    exists res. split; [|constructor]. rewrite lookup_insert_ne; congruence.
  - destruct (commit_cases f rid0 ctx) as
      [(why & _ & -> & _) | (res' & p & r & d & [Hres' Hst _ _ _ _ _ _] & ->)];
      [eauto using adv_same|].
    simpl. eapply lookup_insert_advance; [done..|]. by constructor.
  - destruct (release_cases f rid0 ctx Hinv) as
      [[-> _] | (res' & p & Hres' & Hlive & _ & _ & _ & ->)]; [eauto using adv_same|].
    simpl. eapply lookup_insert_advance; [done..|]. by constructor.
Qed.

(** C15. A reservation lives once: RESERVED, then COMMITTED, then RELEASED, each at
    most once. Any operation on any reachable state (import apart, which drops all
    reservations) keeps the reservation, with its identity, owner, placement,
    generations and bytes, and either leaves its state, commits it from RESERVED, or
    releases it from RESERVED or COMMITTED; a RELEASED reservation never changes
    again, and every attempt to commit or to release it is refused. *)
Theorem reservation_lifecycle f op rid res :
  reachable op_wf f -> op_wf f op -> st_reservations (state_ f) !! rid = Some res ->
  (is_import op = false ->
   exists res', st_reservations (state_ (step f op).2) !! rid = Some res' /\
                res_advances (epoch f) res res' /\
                (res_state res = ResumeState_RELEASED -> res' = res)) /\
  (is_import op = true -> st_reservations (state_ (step f op).2) = ∅) /\
  (res_state res = ResumeState_RELEASED -> forall ctx,
     step f (OpCommit rid ctx) = (DecisionReason_RESERVATION_STALE, f) /\
     step f (OpRelease rid ctx) = (DecisionReason_RESERVATION_STALE, f)).
Proof.
  intros Hf Hwf Hres. pose proof (reachable_inv f Hf) as Hinv. split_and!.
  - intros Himp. destruct (step_reservation f op rid res Hinv Hwf Hres Himp) as (res' & Hr & Hadv).
    exists res'. split_and!; try done. intros Hrel. destruct Hadv as [|Hst|Hlive]; [done|..].
    + congruence.
    + unfold res_live in Hlive. rewrite Hrel in Hlive. done.
  - by destruct op.
  - intros Hrel ctx. simpl. unfold commit, release. rewrite Hres, Hrel. simpl. done.
Qed.

Lemma reservation_lifecycle_witness :
  exists res', st_reservations
      (state_ (step demo_reserved (OpCommit (mkId "res-1") demo_ctx)).2) !! mkId "res-1" = Some res' /\
    res_state res' = ResumeState_COMMITTED.
Proof.
  destruct (st_reservations (state_ demo_reserved) !! mkId "res-1") as [res|] eqn:Hr;
    [|vm_compute in Hr; discriminate].
  destruct (reservation_lifecycle demo_reserved (OpCommit (mkId "res-1") demo_ctx) _ res
              (plain_wf _ demo_reserved_reachable) I Hr) as [Hl _].
  destruct (Hl eq_refl) as (res' & Hr' & _ & _).
  exists res'. split; [exact Hr'|]. vm_compute in Hr'. injection Hr' as <-. by vm_compute.
Defined.
