(* ===== verification/Generations.v ===== *)
(** * Generations only advance, and what is bound to an old one is dead

    A reservation carries the generations of the pool, region and device it was made
    under. The registries never hand out a smaller generation again, so a reservation
    that has fallen behind can never be committed, in any later state. *)
From S2P Require Import Prelude.
From S2P Require Import Identity.
From S2P Require Import Enums.
From S2P Require Import Lifecycle.
From S2P Require Import Accounting.
From S2P Require Import Records.
From S2P Require Import Selection.
From S2P Require Import Fabric.
From S2P Require Import Synthetic.
From S2P Require Import SelectionProps.
From S2P Require Import Ledger.
From S2P Require Import LedgerRefinement.
From S2P Require Import Reservations.
From S2P Require Import Invariants.
From S2P Require Import CapacitySafety.
From S2P Require Import Fencing.

(** ** Registries whose generations advance *)

Section registry.
Context {K V : Type} `{Countable K} (gen : V -> Z).
Implicit Types m : gmap K V.

(** Every entry of [m] is still in [m'] with at least its generation, and all
    generations of [m'] are 64-bit values. *)
Definition advances (m m' : gmap K V) : Prop :=
  map_Forall (fun _ v => in_u64 (gen v)) m' /\
  forall k v, m !! k = Some v -> exists v', m' !! k = Some v' /\ gen v <= gen v'.

Lemma advances_refl m : map_Forall (fun _ v => in_u64 (gen v)) m -> advances m m.
Proof. intros Hm. split; [done|]. intros k v Hk. exists v. split; [done|lia]. Qed.

Lemma advances_insert m k v :
  map_Forall (fun _ v => in_u64 (gen v)) m -> in_u64 (gen v) ->
  (forall v0, m !! k = Some v0 -> gen v0 <= gen v) -> advances m (<[k := v]> m).
Proof.
  intros Hm Hv Hle. split; [by apply map_Forall_insert_2|]. intros k' v' Hk'.
  destruct (decide (k = k')) as [->|].
  - rewrite lookup_insert_eq. eauto.
  - rewrite lookup_insert_ne by done. exists v'. split; [done|lia].
Qed.

(** The new value has the generation of the one it replaces. *)
Lemma advances_update m k v0 v :
  map_Forall (fun _ v => in_u64 (gen v)) m -> m !! k = Some v0 -> gen v = gen v0 ->
  advances m (<[k := v]> m).
Proof.
  intros Hm Hk Hg. apply advances_insert; [done| |].
  - rewrite Hg. exact (Hm k v0 Hk).
  - intros v1 Hk1. simplify_eq. lia.
Qed.
End registry.

Definition dev_gen (d : CxlDevice) : Z := gen_value (dev_generation d).
Definition reg_gen (r : CxlRegion) : Z := gen_value (reg_generation r).
Definition pool_gen (p : CxlPool) : Z := gen_value (pool_generation p).

Record gens_wf (f : Fabric) : Prop := {
  gw_devices : map_Forall (fun _ d => in_u64 (dev_gen d)) (st_devices (state_ f));
  gw_regions : map_Forall (fun _ r => in_u64 (reg_gen r)) (st_regions (state_ f));
  gw_pools : map_Forall (fun _ p => in_u64 (pool_gen p)) (st_pools (state_ f));
}.

Record gens_advance (f f' : Fabric) : Prop := {
  ga_devices : advances dev_gen (st_devices (state_ f)) (st_devices (state_ f'));
  ga_regions : advances reg_gen (st_regions (state_ f)) (st_regions (state_ f'));
  ga_pools : advances pool_gen (st_pools (state_ f)) (st_pools (state_ f'));
}.

Lemma gens_advance_wf f f' : gens_advance f f' -> gens_wf f'.
Proof. intros [[? _] [? _] [? _]]. by split. Qed.

Lemma gens_advance_refl f : gens_wf f -> gens_advance f f.
Proof. intros []. split; by apply advances_refl. Qed.

(** The generations a caller hands in are 64-bit values. *)
Definition op_gens (f : Fabric) (op : FabricOp) : Prop :=
  op_wf f op /\
  match op with
  | OpRegisterDevice d _ => in_u64 (dev_gen d)
  | OpCreateRegion r _ | OpUpdateRegion r _ => in_u64 (reg_gen r)
  | OpCreatePool p _ => in_u64 (pool_gen p)
  | OpImport ps =>
      map_Forall (fun _ d => in_u64 (dev_gen d)) (ps_devices ps) /\
      map_Forall (fun _ r => in_u64 (reg_gen r)) (ps_regions ps) /\
      map_Forall (fun _ p => in_u64 (pool_gen p)) (ps_pools ps)
  | _ => True
  end.

Lemma recompute_pool_gen p : pool_generation (recompute_pool p) = pool_generation p.
Proof. unfold recompute_pool. by destruct (foldl pool_add_member _ _) as [[? ?] ?]. Qed.

Lemma gen_advance_range {T} (g : Generation T) :
  in_u64 (gen_value g) ->
  gen_value g <= gen_value (gen_advance g) /\ in_u64 (gen_value (gen_advance g)).
Proof.
  intros Hg. split; [|by apply gen_advance_wf].
  destruct (gen_advance_cases g Hg) as [[? ->] | [? ->]]; lia.
Qed.

Lemma gen_next_range {T} (g : Generation T) :
  in_u64 (gen_value g) -> gen_empty (gen_next g) = false ->
  gen_value g < gen_value (gen_next g) /\ in_u64 (gen_value (gen_next g)).
Proof.
  intros Hg Hne. split; [|apply gen_next_wf].
  destruct (gen_next_cases g Hg) as [[? ->] | [? He]]; [lia|]. by rewrite He in Hne.
Qed.

Section step.
Context (f : Fabric) (Hgw : gens_wf f).

Lemma advance_device k d :
  in_u64 (dev_gen d) ->
  (forall d0, st_devices (state_ f) !! k = Some d0 -> dev_gen d0 <= dev_gen d) ->
  gens_advance f (put_device f k d).
Proof.
  intros Hd Hle. destruct Hgw. split; simpl; try by apply advances_refl.
  by apply advances_insert.
Qed.

Lemma advance_region k r :
  in_u64 (reg_gen r) ->
  (forall r0, st_regions (state_ f) !! k = Some r0 -> reg_gen r0 <= reg_gen r) ->
  gens_advance f (put_region f k r).
Proof.
  intros Hd Hle. destruct Hgw. split; simpl; try by apply advances_refl.
  by apply advances_insert.
Qed.

Lemma advance_pool k p :
  in_u64 (pool_gen p) ->
  (forall p0, st_pools (state_ f) !! k = Some p0 -> pool_gen p0 <= pool_gen p) ->
  gens_advance f (put_pool f k p) /\ gens_advance f (put_pool_recompute f k p).
Proof.
  intros Hd Hle. destruct Hgw. split; split; simpl; try by apply advances_refl.
  all: by apply advances_insert.
Qed.

(** A stored record kept under its own generation. *)
Lemma advance_device_same k d d' :
  st_devices (state_ f) !! k = Some d -> dev_gen d' = dev_gen d -> gens_advance f (put_device f k d').
Proof.
  intros Hk Hg. pose proof (gw_devices f Hgw k d Hk) as Hd.
  apply advance_device; [by rewrite Hg|]. intros d0 Hk0. simplify_eq. lia.
Qed.

Lemma advance_region_same k r r' :
  st_regions (state_ f) !! k = Some r -> reg_gen r' = reg_gen r -> gens_advance f (put_region f k r').
Proof.
  intros Hk Hg. pose proof (gw_regions f Hgw k r Hk) as Hd.
  apply advance_region; [by rewrite Hg|]. intros r0 Hk0. simplify_eq. lia.
Qed.

Lemma advance_pool_next k p p' :
  st_pools (state_ f) !! k = Some p ->
  (pool_generation p' = pool_generation p \/ pool_generation p' = gen_advance (pool_generation p)) ->
  gens_advance f (put_pool f k p') /\ gens_advance f (put_pool_recompute f k p').
Proof.
  intros Hk Hg. pose proof (gw_pools f Hgw k p Hk) as Hd. simpl in Hd.
  destruct (gen_advance_range (pool_generation p) Hd) as [Hle Hin]. unfold pool_gen in *.
  apply advance_pool; unfold pool_gen.
  - by destruct Hg as [-> | ->].
  - intros p0 Hk0. simplify_eq. destruct Hg as [-> | ->]; lia.
Qed.

Lemma register_device_gens d ctx :
  in_u64 (dev_gen d) -> gens_advance f (register_device f d ctx).2.
Proof.
  intros Hd. unfold register_device. open_op; try (by apply gens_advance_refl); simpl.
  all: apply advance_device; [done|]; intros d0 Hk0; simplify_eq.
  - read_guards. unfold dev_gen.
    match goal with H : dev_generation _ = dev_generation d |- _ => rewrite H end. lia.
  - unfold gen_lt, dev_gen in *.
    match goal with H : (_ <? _) = false |- _ => apply Z.ltb_ge in H; exact H end.
Qed.

Lemma region_ops_gens op :
  op_gens f op ->
  match op with OpCreateRegion _ _ | OpUpdateRegion _ _ | OpReconfigureRegion _ _ _
              | OpMarkRegionDraining _ _ | OpRevalidateRegion _ _ => true | _ => false end = true ->
  gens_advance f (step f op).2.
Proof.
  intros [_ Hin] Hop. destruct op; try discriminate; simpl in *;
    unfold create_region, update_region, reconfigure_region, mark_region_draining,
      revalidate_region; open_op; simpl; try (by apply gens_advance_refl).
  - apply advance_region; [done|]. intros r0 Hk0. simplify_eq.
  - apply advance_region; [done|]. intros r0 Hk0. simplify_eq. unfold gen_lt in *.
    match goal with H : (_ <? _) = false |- _ => apply Z.ltb_ge in H; exact H end.
  - match goal with H : st_regions _ !! _ = Some ?r |- _ =>
      destruct (gen_next_range (reg_generation r)) as [Hlt Hr];
        [exact (gw_regions f Hgw _ r H) | done |] end.
    apply advance_region; [done|]. intros r0 Hk0. simplify_eq. unfold reg_gen in *. simpl. lia.
  - by eapply advance_region_same.
  - by eapply advance_region_same.
Qed.

Lemma pool_ops_gens op :
  op_gens f op ->
  match op with OpCreatePool _ _ | OpAddPoolMember _ _ _ | OpRemovePoolMember _ _ _
              | OpMarkPoolDraining _ _ | OpReconcilePool _ _ | OpRevalidatePool _ _ => true
              | _ => false end = true ->
  gens_advance f (step f op).2.
Proof.
  intros [_ Hin] Hop. destruct op; try discriminate; simpl in *.
  { destruct (create_pool_effect f p ctx) as [-> | [Hk ->]]; [by apply gens_advance_refl|].
    apply advance_pool; [|intros p0 Hk0; congruence].
    unfold pool_gen, created_pool. simpl. by rewrite recompute_pool_gen. }
  all: unfold add_pool_member, remove_pool_member, mark_pool_draining, reconcile_pool,
    revalidate_pool; open_op; simpl; try (by apply gens_advance_refl).
  all: eapply advance_pool_next; [done|]; rewrite ?recompute_pool_gen; simpl; auto.
Qed.

Lemma release_region_advances res :
  advances reg_gen (st_regions (state_ f)) (release_region (st_regions (state_ f)) res).
Proof.
  destruct Hgw as [_ Hr _]. unfold release_region.
  destruct (st_regions (state_ f) !! res_region res) as [r|] eqn:Hk; [|by apply advances_refl].
  destruct (account_release _ _ _) as [[? ?] ?]. by eapply advances_update.
Qed.

Lemma reservation_ops_gens op :
  fabric_inv f ->
  match op with OpReserve _ _ | OpCommit _ _ | OpRelease _ _ => true | _ => false end = true ->
  gens_advance f (step f op).2.
Proof.
  intros Hinv Hop. pose proof Hgw as [Hd Hr Hp]. destruct op; try discriminate; simpl.
  - destruct (reserve_cases f req ctx (inv_keys f Hinv)) as
      [(why & _ & -> & _) | (p & r & d & _ & _ & Hkp & Hkr & ->)]; [by apply gens_advance_refl|].
    split; simpl; [by apply advances_refl | by eapply advances_update..].
  - destruct (commit_cases f rid ctx) as
      [(why & _ & -> & _) | (res & p & r & d & [_ _ _ _ [Hkp _] [Hkr _] _ _] & ->)];
      [by apply gens_advance_refl|].
    split; simpl; [by apply advances_refl | by eapply advances_update..].
  - destruct (release_cases f rid ctx Hinv) as
      [[-> _] | (res & p & _ & _ & _ & Hkp & _ & ->)]; [by apply gens_advance_refl|].
    split; simpl; [by apply advances_refl | apply release_region_advances
                  | by eapply advances_update].
Qed.

Lemma step_gens_advance op :
  fabric_inv f -> op_gens f op -> is_import op = false -> gens_advance f (step f op).2.
Proof.
  intros Hinv Hop Himp. pose proof (gens_advance_refl f Hgw) as Hrefl.
  destruct op; try discriminate;
    try (by apply region_ops_gens); try (by apply pool_ops_gens);
    try (by apply reservation_ops_gens); try (destruct Hrefl; by split).
  - by apply register_device_gens, Hop.
  - simpl. unfold mark_device_revalidation. open_op; simpl; try done.
    by eapply advance_device_same.
  - simpl. unfold mark_device_online. open_op; simpl; try done. by eapply advance_device_same.
Qed.
End step.

(** ** Later states *)

Inductive later (ok : Fabric -> FabricOp -> Prop) (f0 : Fabric) : Fabric -> Prop :=
  | later_refl : later ok f0 f0
  | later_step f op : later ok f0 f -> ok f op -> later ok f0 (step f op).2.

Lemma later_reachable ok f0 f : reachable ok f0 -> later ok f0 f -> reachable ok f.
Proof. intros H0. induction 1; [done | by constructor]. Qed.

Lemma gens_inv f : reachable op_gens f -> fabric_inv f.
Proof. intros H. apply reachable_inv. eapply reachable_mono; [|exact H]. by intros ?? []. Qed.

Lemma import_gens_wf f ps : op_gens f (OpImport ps) -> gens_wf (import_persisted f ps).
Proof.
  intros (_ & Hd & Hr & Hp). split; simpl; intros k x (x0 & <- & Hk)%lookup_fmap_Some.
  - exact (Hd k x0 Hk).
  - exact (Hr k x0 Hk).
  - exact (Hp k x0 Hk).
Qed.

Lemma reachable_gens_wf f : reachable op_gens f -> gens_wf f.
Proof.
  induction 1 as [e pol | f op Hf IH Hop]; [by split; apply map_Forall_empty|].
  destruct (is_import op) eqn:Himp.
  - destruct op; try discriminate. by apply import_gens_wf.
  - eapply gens_advance_wf, step_gens_advance; try done. by apply gens_inv.
Qed.

(** ** Reservations and the generations they are bound to *)

(** The registry has at least, or more than, the bound generation. *)
Record res_bound (f : Fabric) (res : Reservation) : Prop := {
  rb_pool : exists p, st_pools (state_ f) !! res_pool res = Some p /\
                      gen_value (res_pool_generation res) <= pool_gen p;
  rb_region : exists r, st_regions (state_ f) !! res_region res = Some r /\
                        gen_value (res_region_generation res) <= reg_gen r;
  rb_device : exists d, st_devices (state_ f) !! res_device res = Some d /\
                        gen_value (res_device_generation res) <= dev_gen d;
}.

Definition outdated (f : Fabric) (res : Reservation) : Prop :=
  (exists p, st_pools (state_ f) !! res_pool res = Some p /\
             gen_value (res_pool_generation res) < pool_gen p) \/
  (exists r, st_regions (state_ f) !! res_region res = Some r /\
             gen_value (res_region_generation res) < reg_gen r) \/
  (exists d, st_devices (state_ f) !! res_device res = Some d /\
             gen_value (res_device_generation res) < dev_gen d).

(** Two reservations bound to the same records and generations. *)
Definition same_binding (a b : Reservation) : Prop :=
  res_pool a = res_pool b /\ res_pool_generation a = res_pool_generation b /\
  res_region a = res_region b /\ res_region_generation a = res_region_generation b /\
  res_device a = res_device b /\ res_device_generation a = res_device_generation b.

Lemma res_advances_binding e a b : res_advances e a b -> same_binding b a.
Proof. by destruct 1. Qed.

Lemma res_bound_advance f f' a b :
  gens_advance f f' -> same_binding b a -> res_bound f a -> res_bound f' b.
Proof.
  intros [[_ Hd] [_ Hr] [_ Hp]] (E1 & E2 & E3 & E4 & E5 & E6).
  intros [(p & Hkp & Lp) (r & Hkr & Lr) (d & Hkd & Ld)].
  destruct (Hp _ _ Hkp) as (p' & ? & ?), (Hr _ _ Hkr) as (r' & ? & ?), (Hd _ _ Hkd) as (d' & ? & ?).
  split; rewrite ?E1, ?E2, ?E3, ?E4, ?E5, ?E6; eexists; (split; [done|lia]).
Qed.

Lemma outdated_advance f f' a b :
  gens_advance f f' -> same_binding b a -> outdated f a -> outdated f' b.
Proof.
  intros [[_ Hd] [_ Hr] [_ Hp]] Hb Hout. unfold outdated.
  destruct Hb as (-> & -> & -> & -> & -> & ->).
  destruct Hout as [(p & Hk & L) | [(r & Hk & L) | (d & Hk & L)]].
  - left. destruct (Hp _ _ Hk) as (p' & ? & ?). eexists. split; [done|lia].
  - right; left. destruct (Hr _ _ Hk) as (r' & ? & ?). eexists. split; [done|lia].
  - right; right. destruct (Hd _ _ Hk) as (d' & ? & ?). eexists. split; [done|lia].
Qed.

(** The reservation an operation adds is bound to current generations. *)
Lemma new_reservation_bound f op rid res :
  fabric_inv f -> op_wf f op -> gens_advance f (step f op).2 ->
  st_reservations (state_ f) !! rid = None ->
  st_reservations (state_ (step f op).2) !! rid = Some res -> res_bound (step f op).2 res.
Proof.
  intros Hinv Hwf Hga Hno Hnew.
  destruct op; try (rewrite other_op_reservations in Hnew by done; congruence); simpl in *.
  - destruct Hwf as [_ Hseq].
    destruct (reserve_cases f req ctx (inv_keys f Hinv)) as
      [(why & _ & H & _) | (p & r & d & _ & Hpl & Hp & Hr & H)]; rewrite H in *; simpl in *;
      [congruence|].
    rewrite (next_reservation_fresh f Hinv Hseq) in *.
    apply lookup_insert_Some in Hnew as [[_ <-] | [_ ?]]; [|congruence].
    destruct (placement_lookup f req p r d (inv_keys f Hinv) Hpl) as (_ & _ & Hd).
    eapply res_bound_advance; [exact Hga | done |].
    split; simpl; eexists; (split; [done|]); unfold pool_gen, reg_gen, dev_gen; lia.
  - destruct (commit_cases f rid0 ctx) as
      [(why & _ & H & _) | (res' & p & r & d & [Hres _ _ _ _ _ _ _] & H)];
      rewrite H in *; simpl in *; [congruence|].
    apply lookup_insert_Some in Hnew as [[-> _] | [_ ?]]; congruence.
  - destruct (release_cases f rid0 ctx Hinv) as
      [[H _] | (res' & p & Hres & _ & _ & _ & _ & H)]; rewrite H in *; simpl in *; [congruence|].
    apply lookup_insert_Some in Hnew as [[-> _] | [_ ?]]; congruence.
Qed.

Lemma reachable_bound f :
  reachable op_gens f -> map_Forall (fun _ res => res_bound f res) (st_reservations (state_ f)).
Proof.
  induction 1 as [e pol | f op Hf IH Hop]; [apply map_Forall_empty|].
  pose proof (gens_inv f Hf) as Hinv. pose proof Hop as [Hwf _].
  destruct (is_import op) eqn:Himp; [destruct op; try discriminate; apply map_Forall_empty|].
  pose proof (step_gens_advance f (reachable_gens_wf f Hf) op Hinv Hop Himp) as Hga.
  intros rid res' Hres'. destruct (st_reservations (state_ f) !! rid) as [res|] eqn:Hres.
  - destruct (step_reservation f op rid res Hinv Hwf Hres Himp) as (res'' & Hr'' & Hadv).
    assert (res'' = res') as -> by congruence.
    eapply res_bound_advance; [done | by eapply res_advances_binding | exact (IH _ _ Hres)].
  - by eapply new_reservation_bound.
Qed.

(** ** Fenced for ever *)

(** The same reservation, possibly further in its life. *)
Definition same_reservation (a b : Reservation) : Prop :=
  exists s e, a = res_set_state b s e.

Lemma res_advances_same e a b c :
  res_advances e a b -> same_reservation a c -> same_reservation b c.
Proof. intros Hab (s & e' & ->). destruct Hab; by eexists _, _. Qed.

(** Nothing committable is left under the name [rid] of [res0]: it is not there and will
    not be given out again, or what is there is [res0] still, and outdated. *)
Definition dead_name (f : Fabric) (rid : ReservationId) (res0 : Reservation) : Prop :=
  (exists n, 1 <= n <= sequence_ f /\ rid = reservation_name n) /\
  forall res, st_reservations (state_ f) !! rid = Some res ->
    outdated f res /\ same_reservation res res0.

Lemma dead_name_refused f rid res0 ctx :
  dead_name f rid res0 -> (step f (OpCommit rid ctx)).1 <> DecisionReason_OK /\
                     (step f (OpCommit rid ctx)).2 = f.
Proof.
  intros [_ Hout]. rewrite step_commit. simpl.
  destruct (commit_cases f rid ctx) as
    [(why & Hwhy & -> & _) | (res & p & r & d & [Hres _ _ _ [Hp Gp] [Hr Gr] [Hd Gd] _] & _)];
    [done|]. exfalso.
  destruct (proj1 (Hout res Hres)) as [(x & Hx & L) | [(x & Hx & L) | (x & Hx & L)]]; simplify_eq;
    unfold pool_gen, reg_gen, dev_gen in L; rewrite ?Gp, ?Gr, ?Gd in L; lia.
Qed.

Lemma sequence_grows f op : fabric_inv f -> op_wf f op -> sequence_ f <= sequence_ (step f op).2.
Proof.
  intros Hinv Hwf. destruct op; simpl in *; try lia;
    try (unfold register_device, create_region, update_region, reconfigure_region, create_pool,
      add_pool_member, remove_pool_member, mark_device_revalidation, mark_device_online,
      mark_region_draining, mark_pool_draining, reconcile_pool, revalidate_pool,
      revalidate_region; open_op; simpl; lia).
  - destruct Hwf as [_ Hseq].
    destruct (reserve_cases f req ctx (inv_keys f Hinv)) as
      [(why & _ & -> & _) | (p & r & d & _ & _ & _ & _ & ->)]; simpl; [lia|].
    rewrite (next_sequence f Hinv Hseq). lia.
  - destruct (commit_cases f rid ctx) as [(why & _ & -> & _) | (? & ? & ? & ? & _ & ->)]; simpl; lia.
  - destruct (release_cases f rid ctx Hinv) as [[-> _] | (? & ? & _ & _ & _ & _ & _ & ->)]; simpl; lia.
Qed.

(** A name given out before is not given out again. *)
Lemma step_new_name f op rid n res :
  fabric_inv f -> op_wf f op -> rid = reservation_name n -> 1 <= n <= sequence_ f ->
  st_reservations (state_ f) !! rid = None ->
  st_reservations (state_ (step f op).2) !! rid = Some res -> False.
Proof.
  intros Hinv Hwf -> Hn Hno Hnew.
  destruct op; try (rewrite other_op_reservations in Hnew by done; congruence); simpl in *.
  - destruct Hwf as [_ Hseq].
    destruct (reserve_cases f req ctx (inv_keys f Hinv)) as
      [(why & _ & H & _) | (p & r & d & _ & _ & Hp & Hr & H)]; rewrite H in *; simpl in *;
      [congruence|].
    rewrite (next_reservation_fresh f Hinv Hseq), (next_sequence f Hinv Hseq) in *.
    apply lookup_insert_Some in Hnew as [[Heq _] | [_ ?]]; [|congruence].
    apply reservation_name_inj in Heq; lia.
  - destruct (commit_cases f rid ctx) as
      [(why & _ & H & _) | (res' & p & r & d & [Hres _ _ _ _ _ _ _] & H)];
      rewrite H in *; simpl in *; [congruence|].
    apply lookup_insert_Some in Hnew as [[-> _] | [_ ?]]; congruence.
  - destruct (release_cases f rid ctx Hinv) as
      [[H _] | (res' & p & Hres & _ & _ & _ & _ & H)]; rewrite H in *; simpl in *; [congruence|].
    apply lookup_insert_Some in Hnew as [[-> _] | [_ ?]]; congruence.
Qed.

Lemma dead_name_step f op rid res0 :
  reachable op_gens f -> op_gens f op -> dead_name f rid res0 -> dead_name (step f op).2 rid res0.
Proof.
  intros Hf Hop [(n & Hn & Hrid) Hout]. pose proof (gens_inv f Hf) as Hinv.
  pose proof Hop as [Hwf _]. pose proof (sequence_grows f op Hinv Hwf).
  split; [exists n; split; [lia|done]|]. intros res' Hres'.
  destruct (is_import op) eqn:Himp; [destruct op; try discriminate; by apply lookup_empty_Some in Hres'|].
  destruct (st_reservations (state_ f) !! rid) as [res|] eqn:Hres.
  - destruct (step_reservation f op rid res Hinv Hwf Hres Himp) as (res'' & Hr'' & Hadv).
    assert (res'' = res') as -> by congruence. destruct (Hout res eq_refl) as [Ho Hsame].
    split; [|by eapply res_advances_same].
    eapply outdated_advance; [| by eapply res_advances_binding | exact Ho].
    apply step_gens_advance; try done. by apply reachable_gens_wf.
  - by destruct (step_new_name f op rid n res' Hinv Hwf Hrid Hn Hres Hres').
Qed.

Lemma dead_name_later f f' rid res0 :
  reachable op_gens f -> later op_gens f f' -> dead_name f rid res0 -> dead_name f' rid res0.
Proof.
  intros Hf Hl Hd. induction Hl as [|f' op Hl IH Hop]; [done|].
  apply dead_name_step; [|done..]. by eapply later_reachable.
Qed.

Lemma outdated_dead f rid res :
  reachable op_gens f -> st_reservations (state_ f) !! rid = Some res -> outdated f res ->
  dead_name f rid res.
Proof.
  intros Hf Hres Hout. split.
  - exact (proj2 (inv_sequence f (gens_inv f Hf)) rid res Hres).
  - intros res' Hres'. simplify_eq. split; [done|].
    exists (res_state res), (res_commit_epoch res). by destruct res.
Qed.

(** ** The guarantees *)

Lemma demo_reachable_gens : reachable op_gens demo.
Proof.
  assert (demo = run_ops (fabric_init (mkGen 1) (mkGen 1)) demo_ops) as -> by (by vm_compute).
  apply reachable_run; [constructor|].
  repeat (apply conj || exact I); try done; try (by vm_compute).
  all: repeat constructor; by vm_compute.
Qed.

Lemma demo_reserved_reachable_gens : reachable op_gens demo_reserved.
Proof.
  apply reach_reserve; [exact demo_reachable_gens|].
  assert (sequence_ demo < UINT64_MAX) as Hs by (by vm_compute).
  assert (0 <= req_bytes (request_for GiB (mkId "svc"))) as Hb by (by vm_compute).
  unfold op_gens, op_wf. auto.
Qed.

(** C17. Generations never go back. In every reachable state, every operation but an
    import keeps every device, region and pool in its registry, under a generation that
    is a 64-bit value no smaller than before; a successful change of a pool's members
    raises its generation by exactly one (unless it is already at the maximum), and a
    successful reconfiguration of a region always raises the region's. *)
Theorem generations_never_go_back f op :
  reachable op_gens f -> op_gens f op -> is_import op = false ->
  gens_advance f (step f op).2 /\
  (forall k p, st_pools (state_ f) !! k = Some p -> pool_gen p < gen_max ->
     (exists m ctx, op = OpAddPoolMember k m ctx) \/ (exists d ctx, op = OpRemovePoolMember k d ctx) ->
     (step f op).1 = DecisionReason_OK ->
     exists p', st_pools (state_ (step f op).2) !! k = Some p' /\ pool_gen p' = pool_gen p + 1) /\
  (forall k r ms ctx, st_regions (state_ f) !! k = Some r -> op = OpReconfigureRegion k ms ctx ->
     (step f op).1 = DecisionReason_OK ->
     exists r', st_regions (state_ (step f op).2) !! k = Some r' /\ reg_gen r' = reg_gen r + 1 /\
                reg_member_devices r' = ms /\ reg_evidence_current r' = false).
Proof.
  intros Hf Hop Himp. pose proof (reachable_gens_wf f Hf) as Hgw. split_and!.
  - apply step_gens_advance; try done. by apply gens_inv.
  - intros k p Hk Hlt Hwhich Hok.
    destruct (gen_advance_cases (pool_generation p) (gw_pools f Hgw k p Hk)) as [[_ Hadv]|[? _]];
      [|unfold pool_gen in *; lia].
    destruct Hwhich as [(m & ctx & ->) | (d & ctx & ->)]; simpl in *;
      [unfold add_pool_member in * | unfold remove_pool_member in *]; rewrite Hk in *;
      revert Hok; open_op; intros Hok; try discriminate; simpl; rewrite lookup_insert_eq;
      (eexists; split; [done|]); unfold pool_gen; rewrite recompute_pool_gen; exact Hadv.
  - intros k r ms ctx Hk -> Hok. simpl in *. unfold reconfigure_region in *. rewrite Hk in *.
    revert Hok. open_op; intros Hok; try discriminate. simpl. rewrite lookup_insert_eq.
    eexists. split; [done|]. unfold reg_gen. simpl. split; [|done].
    destruct (gen_next_cases (reg_generation r) (gw_regions f Hgw k r Hk)) as [[_ ->]|[_ He]];
      [done|]. by rewrite He in *.
Qed.

Lemma generations_never_go_back_witness :
  exists p', st_pools (state_ (step demo_reserved
      (OpRemovePoolMember (mkId "p-1") (mkId "dev-3") demo_ctx)).2) !! mkId "p-1" = Some p' /\
    pool_gen p' = 2.
Proof.
  destruct (st_pools (state_ demo_reserved) !! mkId "p-1") as [p|] eqn:Hp;
    [|vm_compute in Hp; discriminate].
  destruct (generations_never_go_back demo_reserved
    (OpRemovePoolMember (mkId "p-1") (mkId "dev-3") demo_ctx) demo_reserved_reachable_gens
    (conj I I) eq_refl) as (_ & Hm & _).
  assert (pool_gen p = 1) as Hg by (vm_compute in Hp; injection Hp as <-; by vm_compute).
  destruct (Hm (mkId "p-1") p Hp) as (p' & Hp' & Hg').
  - rewrite Hg. by vm_compute.
  - right. by eexists _, _.
  - by vm_compute.
  - exists p'. split; [exact Hp' | lia].
Defined.

(** C10. A reservation bound to an old generation is fenced for ever. Once the pool,
    the region or the device of a reservation has a generation other than the one the
    reservation was made under, then in every later state, after any further sequence
    of operations on the same engine (imports included), every attempt to commit it, by
    any caller, is refused and changes nothing, and what the registry has under its name,
    if anything, is that reservation itself, all but its state and commit epoch as it was:
    the engine does not give the name to another one. (A new process starts counting
    again and does: [Restart.session_after_restart].) *)
Theorem stale_generation_never_commits f f' rid res ctx :
  reachable op_gens f -> later op_gens f f' -> st_reservations (state_ f) !! rid = Some res ->
  (exists p, st_pools (state_ f) !! res_pool res = Some p /\
             pool_generation p <> res_pool_generation res) \/
  (exists r, st_regions (state_ f) !! res_region res = Some r /\
             reg_generation r <> res_region_generation res) \/
  (exists d, st_devices (state_ f) !! res_device res = Some d /\
             dev_generation d <> res_device_generation res) ->
  (step f' (OpCommit rid ctx)).1 <> DecisionReason_OK /\ (step f' (OpCommit rid ctx)).2 = f' /\
  forall res', st_reservations (state_ f') !! rid = Some res' -> same_reservation res' res.
Proof.
  intros Hf Hl Hres Hdiff.
  enough (dead_name f' rid res) as Hd.
  { destruct (dead_name_refused f' rid res ctx Hd) as [Hno Hsame]. split_and!; [done..|].
    intros res' Hres'. by apply Hd. }
  eapply dead_name_later; [done..|]. eapply outdated_dead; [done..|].
  destruct (reachable_bound f Hf rid res Hres) as [(p & Hp & Lp) (r & Hr & Lr) (d & Hd & Ld)].
  assert (Hval : forall T (a b : Generation T), a <> b -> gen_value b <= gen_value a ->
                   gen_value b < gen_value a).
  { intros T [a] [b] Hne Hle. simpl in *. assert (a <> b) by congruence. lia. }
  destruct Hdiff as [(x & Hx & Hne) | [(x & Hx & Hne) | (x & Hx & Hne)]]; simplify_eq.
  - left. eexists. split; [done|]. by apply Hval.
  - right; left. eexists. split; [done|]. by apply Hval.
  - right; right. eexists. split; [done|]. by apply Hval.
Qed.

(** The demo after a member has left the pool of the reservation. *)
Definition demo_fenced : Fabric :=
  (step demo_reserved (OpRemovePoolMember (mkId "p-1") (mkId "dev-3") demo_ctx)).2.

Lemma demo_fenced_reachable : reachable op_gens demo_fenced.
Proof. apply reach_step; [exact demo_reserved_reachable_gens | exact (conj I I)]. Qed.

Lemma demo_fenced_bound :
  exists res p, st_reservations (state_ demo_fenced) !! mkId "res-1" = Some res /\
    st_pools (state_ demo_fenced) !! res_pool res = Some p /\
    pool_generation p <> res_pool_generation res.
Proof. eexists _, _. split_and!; [vm_compute; reflexivity.. | vm_compute; discriminate]. Qed.

Lemma stale_generation_never_commits_witness :
  (step demo_fenced (OpCommit (mkId "res-1") demo_ctx)).1 <> DecisionReason_OK.
Proof.
  destruct demo_fenced_bound as (res & p & Hr & Hp & Hg).
  refine (proj1 (stale_generation_never_commits demo_fenced demo_fenced _ res demo_ctx
                   demo_fenced_reachable (later_refl _ _) Hr _)).
  left. exists p. split; [exact Hp | exact Hg].
Defined.
