(* ===== verification/Registry.v ===== *)
(** * The registries: exclusive membership, restart, and what goes wrong

    Invariants of the device and pool registries, the state after a restart, and the
    reachable states in which the engine breaks a promise of its documentation. *)
From S2P Require Import Prelude.
From S2P Require Import Identity.
From S2P Require Import Enums.
From S2P Require Import Lifecycle.
From S2P Require Import Accounting.
From S2P Require Import Records.
From S2P Require Import Selection.
From S2P Require Import Fabric.
From S2P Require Import Synthetic.
From S2P Require Import SelectionProps.
From S2P Require Import Ledger.
From S2P Require Import LedgerRefinement.
From S2P Require Import Reservations.
From S2P Require Import Invariants.
From S2P Require Import CapacitySafety.

(** ** One pool per device *)

Definition member_devices (p : CxlPool) : list DeviceId := mem_device <$> pool_members p.

Definition members_at (f : Fabric) (k : PoolId) : option (list DeviceId) :=
  member_devices <$> st_pools (state_ f) !! k.

Record members_exclusive (f : Fabric) : Prop := {
  mx_registered : forall k ds d, members_at f k = Some ds -> d ∈ ds ->
    is_Some (st_devices (state_ f) !! d);
  mx_nodup : forall k ds, members_at f k = Some ds -> NoDup ds;
  mx_once : forall k k' ds ds' d, members_at f k = Some ds -> members_at f k' = Some ds' ->
    d ∈ ds -> d ∈ ds' -> k = k';
}.

(** Devices are never forgotten. *)
Definition devices_kept (f f' : Fabric) : Prop :=
  forall d, is_Some (st_devices (state_ f) !! d) -> is_Some (st_devices (state_ f') !! d).

Lemma exclusive_same f f' :
  (forall k, members_at f' k = members_at f k) -> devices_kept f f' ->
  members_exclusive f -> members_exclusive f'.
Proof.
  intros Hm Hd [H1 H2 H3]. split.
  - intros k ds d. rewrite Hm. eauto.
  - intros k ds. rewrite Hm. eauto.
  - intros k k' ds ds' d. rewrite !Hm. eauto.
Qed.

(** One pool gets a new member list. *)
Lemma exclusive_update f f' k ds :
  (forall k', members_at f' k' = if decide (k' = k) then Some ds else members_at f k') ->
  devices_kept f f' -> NoDup ds -> (forall d, d ∈ ds -> is_Some (st_devices (state_ f) !! d)) ->
  (forall d k' ds', d ∈ ds -> k' <> k -> members_at f k' = Some ds' -> d ∉ ds') ->
  members_exclusive f -> members_exclusive f'.
Proof.
  intros Hm Hd Hnd Hreg Hnew [H1 H2 H3]. split.
  - intros k' ds' d. rewrite Hm. case_decide; intros ? Hin; simplify_eq; eauto.
  - intros k' ds'. rewrite Hm. case_decide; intros ?; simplify_eq; eauto.
  - intros k1 k2 ds1 ds2 d. rewrite !Hm.
    repeat case_decide; intros E1 E2 Hi1 Hi2; simplify_eq; try done; eauto.
    + by destruct (Hnew d k2 ds2).
    + by destruct (Hnew d k1 ds1).
Qed.

Lemma members_at_put f k p k' :
  members_at (put_pool_recompute f k p) k'
  = if decide (k' = k) then Some (member_devices p) else members_at f k'.
Proof.
  unfold members_at. simpl. case_decide as E; [subst; by rewrite lookup_insert_eq|].
  by rewrite lookup_insert_ne.
Qed.

Lemma is_member_spec d ms : is_member d ms = true <-> d ∈ (mem_device <$> ms).
Proof.
  unfold is_member. rewrite existsb_exists, list_elem_of_fmap. split.
  - intros (m & Hin & Hd%bool_decide_eq_true). exists m. by rewrite list_elem_of_In.
  - intros (m & -> & Hin). exists m. rewrite <- list_elem_of_In. by rewrite bool_decide_true.
Qed.

Lemma governed_in_spec d l :
  governed_in d l = true <-> exists kv, kv ∈ l /\ d ∈ member_devices kv.2.
Proof.
  unfold governed_in. rewrite existsb_exists.
  split; intros (kv & Hin & Hd); exists kv; split;
    first [by apply list_elem_of_In | by apply is_member_spec].
Qed.

Lemma governed_in_false d l kv : governed_in d l = false -> kv ∈ l -> d ∉ member_devices kv.2.
Proof.
  intros Hg Hin Hd. enough (governed_in d l = true) by congruence.
  apply governed_in_spec. eauto.
Qed.

Lemma check_new_members_ok devices pools seen ms :
  check_new_members devices pools seen ms = None ->
  NoDup (mem_device <$> ms) /\
  forall d, d ∈ (mem_device <$> ms) ->
    is_Some (devices !! d) /\ (d ∉ seen) /\ forall kv, kv ∈ pools -> d ∉ member_devices kv.2.
Proof.
  revert seen. induction ms as [|m ms IH]; intros seen; simpl.
  { intros _. split; [constructor|]. intros d Hd. by apply not_elem_of_nil in Hd. }
  destruct (devices !! mem_device m) eqn:Hdev; [|done].
  case_bool_decide as Hseen; [done|]. destruct (governed_in _ _) eqn:Hg; [done|].
  intros (Hnd & Hall)%IH. split.
  - constructor; [|done]. intros Hin. destruct (Hall _ Hin) as (_ & Hn & _).
    apply Hn, elem_of_app. right. by apply list_elem_of_singleton.
  - intros d [-> | Hin]%elem_of_cons.
    + split_and!; [eauto|done|]. intros kv Hkv. by eapply governed_in_false.
    + destruct (Hall d Hin) as (? & Hn & ?). split_and!; try done.
      intros Hs. apply Hn, elem_of_app. by left.
Qed.

Lemma recompute_pool_members p : pool_members (recompute_pool p) = pool_members p.
Proof. unfold recompute_pool. by destruct (foldl pool_add_member _ _) as [[? ?] ?]. Qed.

Lemma devices_kept_refl f : devices_kept f f.
Proof. by intros d. Qed.

(** The durable state an import may bring back. *)
Definition persisted_exclusive (ps : PersistedState) : Prop :=
  (forall k p d, ps_pools ps !! k = Some p -> d ∈ member_devices p ->
     is_Some (ps_devices ps !! d)) /\
  (forall k p, ps_pools ps !! k = Some p -> NoDup (member_devices p)) /\
  (forall k k' p p' d, ps_pools ps !! k = Some p -> ps_pools ps !! k' = Some p' ->
     d ∈ member_devices p -> d ∈ member_devices p' -> k = k').

Definition op_exclusive (f : Fabric) (op : FabricOp) : Prop :=
  op_wf f op /\ match op with OpImport ps => persisted_exclusive ps | _ => True end.

Lemma registry_op_devices f op : registry_op op = true -> devices_kept f (step f op).2.
Proof.
  intros Hr. assert (Hput : forall k d, devices_kept f (put_device f k d)).
  { intros k d d' Hd'. simpl. destruct (decide (k = d')) as [->|].
    - rewrite lookup_insert_eq. eauto.
    - by rewrite lookup_insert_ne. }
  destruct op; simpl in *; try discriminate; try (by intros ? ?);
    unfold register_device, create_region, update_region, reconfigure_region,
      mark_device_revalidation, mark_device_online, mark_region_draining, revalidate_region;
    open_op; simpl; try (by intros ? ?); apply Hput.
Qed.

(** Putting back a pool with the members it had. *)
Lemma members_at_same f k p p' :
  st_pools (state_ f) !! k = Some p -> pool_members p' = pool_members p ->
  forall k', member_devices <$> <[k := p']> (st_pools (state_ f)) !! k' = members_at f k'.
Proof.
  intros Hk Hm k'. unfold members_at. destruct (decide (k = k')) as [<-|].
  - rewrite lookup_insert_eq, Hk. simpl. unfold member_devices. by rewrite Hm.
  - by rewrite lookup_insert_ne.
Qed.

Lemma create_pool_exclusive f p ctx :
  members_exclusive f -> members_exclusive (create_pool f p ctx).2.
Proof.
  intros Hx. unfold create_pool. open_op; simpl; try done.
  set (q := pool_set_state _ _ _ _).
  assert (member_devices q = mem_device <$> pool_members p) as Hq.
  { unfold member_devices, q. simpl. by rewrite recompute_pool_members. }
  match goal with H : check_new_members _ _ _ _ = None |- _ =>
    apply check_new_members_ok in H as (Hnd & Hall) end.
  apply (exclusive_update f _ (pool_id (recompute_pool p)) (member_devices q));
    [apply members_at_put | by intros ? ? | by rewrite Hq | | | done].
  - intros d. rewrite Hq. intros Hd. by apply Hall.
  - intros d k' ds' Hd Hne Hk'. rewrite Hq in Hd. destruct (Hall d Hd) as (_ & _ & Hfree).
    unfold members_at in Hk'. apply fmap_Some in Hk' as (p' & Hp' & ->).
    apply (Hfree (k', p')). by apply elem_of_map_iter.
Qed.

Lemma add_pool_member_exclusive f pid m ctx :
  members_exclusive f -> members_exclusive (add_pool_member f pid m ctx).2.
Proof.
  intros Hx. unfold add_pool_member. open_op; simpl; try done. the_pool p Hp.
  set (q := recompute_pool _).
  assert (member_devices q = member_devices p ++ [mem_device m]) as Hq.
  { unfold member_devices, q. rewrite recompute_pool_members. simpl. by rewrite fmap_app. }
  assert (members_at f pid = Some (member_devices p)) as Hpid
    by (unfold members_at; by rewrite Hp).
  assert (mem_device m ∉ member_devices p) as Hnew.
  { intros Hin. apply is_member_spec in Hin. congruence. }
  apply (exclusive_update f _ pid (member_devices q));
    [apply members_at_put | by intros ? ? | | | | done]; rewrite Hq.
  - apply NoDup_app. split_and!; [by apply (mx_nodup f Hx pid) | | apply NoDup_singleton].
    intros d Hd ->%list_elem_of_singleton. done.
  - intros d [Hd | ->%list_elem_of_singleton]%elem_of_app; [by eapply (mx_registered f Hx pid)|].
    eauto.
  - intros d k' ds' [Hd | ->%list_elem_of_singleton]%elem_of_app Hne Hk' Hin.
    + apply Hne. by eapply (mx_once f Hx).
    + unfold members_at in Hk'. apply fmap_Some in Hk' as (p' & Hp' & ->).
      match goal with H : governed_in _ _ = false |- _ =>
        apply (governed_in_false _ _ (k', p') H) end; [|done].
      apply elem_of_list_filter. split; [by apply elem_of_map_iter|].
      simpl. by rewrite bool_decide_false.
Qed.

Lemma remove_pool_member_exclusive f pid d ctx :
  members_exclusive f -> members_exclusive (remove_pool_member f pid d ctx).2.
Proof.
  intros Hx. unfold remove_pool_member. open_op; simpl; try done. the_pool p Hp.
  match goal with H : erase_member _ _ = Some _ |- _ =>
    apply erase_member_spec in H as (m & _ & Hperm) end.
  set (q := recompute_pool _).
  assert (member_devices p ≡ₚ mem_device m :: member_devices q) as Hq.
  { unfold member_devices, q. rewrite recompute_pool_members, Hperm. done. }
  assert (members_at f pid = Some (member_devices p)) as Hpid
    by (unfold members_at; by rewrite Hp).
  assert (Hsub : forall d', d' ∈ member_devices q -> d' ∈ member_devices p).
  { intros d' Hd'. rewrite Hq. by apply list_elem_of_further. }
  apply (exclusive_update f _ pid (member_devices q));
    [apply members_at_put | by intros ? ? | | | | done].
  - pose proof (mx_nodup f Hx pid _ Hpid) as Hnd. rewrite Hq in Hnd.
    by apply NoDup_cons in Hnd as [_ ?].
  - intros d' Hd'. eapply (mx_registered f Hx pid); eauto.
  - intros d' k' ds' Hd' Hne Hk' Hin. apply Hne. eapply (mx_once f Hx); eauto.
Qed.

(** The operations that keep every member list and every device. *)
Lemma other_op_members f op :
  fabric_inv f -> 
  match op with OpCreatePool _ _ | OpAddPoolMember _ _ _ | OpRemovePoolMember _ _ _ | OpImport _ => false
              | _ => true end = true ->
  (forall k, members_at (step f op).2 k = members_at f k) /\ devices_kept f (step f op).2.
Proof.
  intros Hinv Hop. destruct (registry_op op) eqn:Hreg.
  { split; [|by apply registry_op_devices]. intros k. unfold members_at.
    by rewrite (sb_pools _ _ (registry_op_books f op Hreg)). }
  destruct op; try discriminate; simpl.
  1,2,3: unfold mark_pool_draining, reconcile_pool, revalidate_pool; open_op; simpl;
    try (split; [done | by intros ? ?]); the_pool p Hp; (split; [|by intros ? ?]); eapply members_at_same; [exact Hp|];
    by rewrite ?recompute_pool_members.
  - destruct (reserve_cases f req ctx (inv_keys f Hinv)) as
      [(why & _ & -> & _) | (p & r & d & _ & _ & Hp & _ & ->)]; [split; [done | by intros ? ?]|].
    split; [|by intros ? ?]. by apply (members_at_same f _ p).
  - destruct (commit_cases f rid ctx) as
      [(why & _ & -> & _) | (res & p & r & d & [_ _ _ _ [Hp _] _ _ _] & ->)]; [split; [done | by intros ? ?]|].
    split; [|by intros ? ?]. by apply (members_at_same f _ p).
  - destruct (release_cases f rid ctx Hinv) as
      [[-> _] | (res & p & _ & _ & _ & Hp & _ & ->)]; [split; [done | by intros ? ?]|].
    split; [|by intros ? ?]. by apply (members_at_same f _ p).
Qed.

Lemma import_exclusive f ps : persisted_exclusive ps -> members_exclusive (import_persisted f ps).
Proof.
  intros (H1 & H2 & H3).
  assert (Hm : forall k ds, members_at (import_persisted f ps) k = Some ds ->
    exists p, ps_pools ps !! k = Some p /\ ds = member_devices p).
  { intros k ds. unfold members_at. simpl. rewrite lookup_fmap.
    destruct (ps_pools ps !! k) as [p|]; simpl; intros; simplify_eq. by exists p. }
  split.
  - intros k ds d (p & Hp & ->)%Hm Hd. simpl. rewrite lookup_fmap.
    destruct (H1 k p d Hp Hd) as [x ->]. simpl. eauto.
  - intros k ds (p & Hp & ->)%Hm. eauto.
  - intros k k' ds ds' d (p & Hp & ->)%Hm (p' & Hp' & ->)%Hm. eauto.
Qed.

Lemma step_exclusive f op :
  fabric_inv f -> op_exclusive f op -> members_exclusive f -> members_exclusive (step f op).2.
Proof.
  intros Hinv [_ Hop] Hx.
  destruct op as [| | | | | | | p ctx | id m ctx | id d ctx | | | | | | | | | | | ps];
    try match goal with |- members_exclusive (step f ?op).2 =>
      destruct (other_op_members f op Hinv eq_refl) as [Hm Hd];
      exact (exclusive_same _ _ Hm Hd Hx) end; simpl.
  - by apply create_pool_exclusive.
  - by apply add_pool_member_exclusive.
  - by apply remove_pool_member_exclusive.
  - by apply import_exclusive.
Qed.

Lemma reachable_exclusive f : reachable op_exclusive f -> members_exclusive f.
Proof.
  induction 1 as [e pol | f op Hf IH Hop].
  - split; unfold members_at; simpl; intros *; rewrite lookup_empty; done.
  - apply step_exclusive; try done. apply reachable_inv.
    eapply reachable_mono; [|exact Hf]. by intros ?? [].
Qed.

(** C18. A device belongs to at most one pool. In every reachable state every member of
    every pool is a registered device, no pool lists a device twice, and no device is
    a member of two pools, so no capacity is counted twice. *)
Theorem device_governed_once f :
  reachable op_exclusive f ->
  (forall k p d, st_pools (state_ f) !! k = Some p -> d ∈ member_devices p ->
     is_Some (st_devices (state_ f) !! d)) /\
  (forall k p, st_pools (state_ f) !! k = Some p -> NoDup (member_devices p)) /\
  (forall k k' p p' d, st_pools (state_ f) !! k = Some p -> st_pools (state_ f) !! k' = Some p' ->
     d ∈ member_devices p -> d ∈ member_devices p' -> k = k').
Proof.
  intros Hf. destruct (reachable_exclusive f Hf) as [H1 H2 H3].
  assert (Hat : forall k p, st_pools (state_ f) !! k = Some p ->
                  members_at f k = Some (member_devices p)).
  { intros k p Hk. unfold members_at. by rewrite Hk. }
  split_and!; eauto.
Qed.

Lemma demo_reachable_exclusive : reachable op_exclusive demo.
Proof.
  assert (demo = run_ops (fabric_init (mkGen 1) (mkGen 1)) demo_ops) as -> by (by vm_compute).
  apply reachable_run; [constructor|].
  repeat (apply conj || exact I); try done; try (by vm_compute).
  all: repeat constructor; by vm_compute.
Qed.

Lemma device_governed_once_witness :
  reachable op_exclusive demo /\
  forall k p, st_pools (state_ demo) !! k = Some p -> NoDup (member_devices p).
Proof.
  split; [exact demo_reachable_exclusive|].
  exact (proj1 (proj2 (device_governed_once demo demo_reachable_exclusive))).
Defined.

(** ** Restart *)

Lemma import_pool_evidence f ps k p :
  st_pools (state_ (import_persisted f ps)) !! k = Some p -> pool_evidence_current p = false.
Proof. simpl. intros (p0 & <- & _)%lookup_fmap_Some. done. Qed.

Lemma import_no_placement f ps req p r d :
  ~ placement (state_ (import_persisted f ps)) req p r d.
Proof.
  intros ((k & Hk) & _ & _ & _ & Hadm). apply import_pool_evidence in Hk.
  destruct (adm_evidence _ _ _ _ _ _ Hadm) as (_ & _ & He). congruence.
Qed.

Lemma import_reserve_refused f ps req ctx :
  let f' := import_persisted f ps in
  ro_ok (reserve f' req ctx).1 = false /\ (reserve f' req ctx).2 = f'.
Proof.
  cbv zeta. set (f' := import_persisted f ps).
  assert (out_ok (build_selection (selection_snapshot f') req) = false) as Hno.
  { destruct (out_ok _) eqn:E; [|done].
    apply build_selection_ok_iff in E as (p & r & d & Hpl).
    by apply (import_no_placement f ps) in Hpl. }
  unfold reserve. destruct (stale_epoch f' ctx); [done|].
  destruct (req_bytes req =? 0); [done|]. by rewrite Hno.
Qed.

(** C19. After a restart nothing is trusted. Whatever the state of the engine and
    whatever was persisted, once the durable state is imported there is no reservation
    left to commit or release, no request can be placed or reserved and no failover can
    be planned, until devices, regions and pools are revalidated: every such attempt is
    refused and changes nothing. What is structural is kept: each device, region and
    pool has the identity and generation it was saved with, and each pool its members
    and totals. *)
Theorem restart_fails_closed f ps req ctx rid pid dev :
  let f' := import_persisted f ps in
  out_ok (select f' req) = false /\
  (ro_ok (reserve f' req ctx).1 = false /\ (reserve f' req ctx).2 = f') /\
  commit f' rid ctx = (refuse DecisionReason_RESERVATION_STALE, f') /\
  release f' rid ctx = (refuse DecisionReason_RESERVATION_STALE, f') /\
  plan_outcome (plan_failover f' pid dev req) = FailoverOutcome_REJECT /\
  st_reservations (state_ f') = ∅ /\
  (forall k, (fun d => (dev_id d, dev_generation d)) <$> st_devices (state_ f') !! k
             = (fun d => (dev_id d, dev_generation d)) <$> ps_devices ps !! k) /\
  (forall k, (fun r => (reg_id r, reg_generation r)) <$> st_regions (state_ f') !! k
             = (fun r => (reg_id r, reg_generation r)) <$> ps_regions ps !! k) /\
  (forall k, (fun p => (pool_id p, pool_generation p, pool_members p, account_of p))
               <$> st_pools (state_ f') !! k
             = (fun p => (pool_id p, pool_generation p, pool_members p, account_of p))
               <$> ps_pools ps !! k).
Proof.
  cbv zeta. split_and!.
  - destruct (out_ok (select _ req)) eqn:E; [|done].
    apply build_selection_ok_iff in E as (p & r & d & Hpl).
    by apply (import_no_placement f ps) in Hpl.
  - apply import_reserve_refused.
  - apply import_reserve_refused.
  - done.
  - done.
  - assert (failover_candidates (state_ (import_persisted f ps)) pid dev = []) as Hnil.
    { unfold failover_candidates. apply elem_of_nil_inv. intros c Hc.
      apply list_elem_of_bind in Hc as ([k p] & Hc & Hin%elem_of_map_iter).
      apply import_pool_evidence in Hin. simpl in Hc. rewrite Hin in Hc. simpl in Hc.
      case_test_in Hc; by apply not_elem_of_nil in Hc. }
    unfold plan_failover. by rewrite Hnil.
  - done.
  - intros k. simpl. rewrite lookup_fmap. by destruct (ps_devices ps !! k).
  - intros k. simpl. rewrite lookup_fmap. by destruct (ps_regions ps !! k).
  - intros k. simpl. rewrite lookup_fmap. by destruct (ps_pools ps !! k).
Qed.

(** A restart revives the dead. A device that was persisted FAILED, REMOVED or
    RETIRED, states that no validated transition leaves, comes back from an import as
    REVALIDATION_REQUIRED, and a single [mark_device_online] then makes it ONLINE with
    current evidence, under its old generation. *)
Theorem restart_revives_dead_device f ps k d ctx :
  ps_devices ps !! k = Some d -> device_dead (dev_state d) ->
  ctx_coordinator_epoch ctx = epoch f ->
  let r := mark_device_online (import_persisted f ps) k ctx in
  r.1 = DecisionReason_OK /\
  exists d', st_devices (state_ r.2) !! k = Some d' /\ dev_state d' = DeviceState_ONLINE /\
    dev_evidence_current d' = true /\ dev_generation d' = dev_generation d /\
    ~ rtc device_step (dev_state d) (dev_state d').
Proof.
  intros Hd Hdead He. cbv zeta. unfold mark_device_online, stale_epoch.
  rewrite bool_decide_true by done. simpl. rewrite lookup_fmap, Hd. simpl.
  split; [done|]. rewrite lookup_insert_eq. eexists. split_and!; try done.
  simpl. intros Hpath.
  assert (device_dead DeviceState_ONLINE) as Hon.
  { eapply (closed_confines device_step device_dead); [apply device_dead_closed | done..]. }
  revert Hon. by_evaluation.
Qed.

(** A device persisted as FAILED. *)
Definition failed_state : PersistedState :=
  mkPersisted (mkGen 1)
    {[ mkId "dev-9" := dev_set_state (make_device (mkId "dev-9") (mkGen 4) (mkId "boot-9")
         (mkId "host") GiB VolatilityKind_VOLATILE SharingMode_SHARED LocalityClass_SAME_HOST
         100 1000 1 "fd") DeviceState_FAILED false ]} ∅ ∅.

Lemma restart_revives_dead_device_witness :
  (mark_device_online (import_persisted demo failed_state) (mkId "dev-9") demo_ctx).1
  = DecisionReason_OK.
Proof.
  refine (proj1 (restart_revives_dead_device demo failed_state (mkId "dev-9") _ demo_ctx
                   eq_refl _ _)).
  - by apply (bool_decide_unpack _); vm_compute.
  - by vm_compute.
Defined.

(** ** Promises broken *)

Lemma reach_remove ok f pid d ctx :
  reachable ok f -> ok f (OpRemovePoolMember pid d ctx) ->
  reachable ok (remove_pool_member f pid d ctx).2.
Proof. intros Hf Hok. exact (reach_step ok f _ Hf Hok). Qed.

(** Removing a member can oversubscribe a pool. The synthetic topology, a
    reservation of 32 GiB placed on dev-2 and the removal of dev-2 from the pool, each
    accepted, lead to a reachable state in which the pool owes more than it governs
    and [audit] fails: nothing in [remove_pool_member] looks at what is outstanding. *)
Theorem remove_member_oversubscribes :
  let f := (reserve demo (request_for (32 * GiB) (mkId "svc")) demo_ctx).2 in
  let f' := (remove_pool_member f (mkId "p-1") (mkId "dev-2") demo_ctx).2 in
  reachable op_wf f' /\ rep_ok (audit f) = true /\
  (remove_pool_member f (mkId "p-1") (mkId "dev-2") demo_ctx).1 = DecisionReason_OK /\
  live_bytes f' (mkId "p-1") = 32 * GiB /\
  (pool_total_governed_bytes <$> st_pools (state_ f') !! mkId "p-1") = Some (24 * GiB) /\
  rep_errors (audit f') = ["pool p-1 used > governed"; "global ledger: used > online"].
Proof.
  cbv zeta. set (f := (reserve demo _ demo_ctx).2).
  assert (reachable op_wf f) as Hf.
  { apply reach_reserve; [exact (plain_wf _ demo_reachable)|]. split; by vm_compute. }
  split; [exact (reach_remove op_wf f _ _ _ Hf I)|].
  split_and!; by vm_compute.
Qed.

(** A restart leaks the outstanding bytes. The accounts of the pools are persisted
    with their reserved and committed bytes but the reservations are not: after an
    export and an import the bytes of every reservation stay charged to its pool, with
    no reservation left to release. *)
Theorem restart_leaks_outstanding_bytes :
  let f := import_persisted demo (export_persisted demo_reserved) in
  st_reservations (state_ f) = ∅ /\ live_bytes f (mkId "p-1") = 0 /\
  (pool_reserved_bytes <$> st_pools (state_ f) !! mkId "p-1") = Some GiB /\
  (pool_free <$> st_pools (state_ f) !! mkId "p-1") = Some (87 * GiB).
Proof. cbv zeta. split_and!; by vm_compute. Qed.
