(* ===== verification/Crc.v ===== *)
(** * The checksum ([crc32] of [core/protocol.cpp])

    The table-driven CRC-32 as it is written, the bit-by-bit definition it computes,
    and what it detects. Bytes and words are [Z] values; [&], [^] and the shifts are
    [Z.land], [Z.lxor], [Z.shiftl] and [Z.shiftr]. *)
From S2P Require Import Prelude.

Definition byte_ok (b : Z) : Prop := 0 <= b < 256.
Abbreviation bytes := (list Z).
Definition bytes_ok (l : bytes) : Prop := Forall byte_ok l.

#[export] Instance byte_ok_dec b : Decision (byte_ok b).
Proof. unfold byte_ok. apply _. Defined.
#[export] Instance bytes_ok_dec l : Decision (bytes_ok l).
Proof. unfold bytes_ok. apply _. Defined.

(** One round of the inner loop: [(c & 1) ? (0xEDB88320u ^ (c >> 1)) : (c >> 1)]. *)
Definition crc_poly : Z := 0xEDB88320.
Definition crc_bit (c : Z) : Z :=
  if Z.land c 1 =? 0 then Z.shiftr c 1 else Z.lxor crc_poly (Z.shiftr c 1).

Fixpoint crc_bits (k : nat) (c : Z) : Z :=
  match k with O => c | S k' => crc_bits k' (crc_bit c) end.

(** [table[i]] and the initialisation loop. *)
Definition crc_entry (i : Z) : Z := crc_bits 8 i.
Definition crc_table : list Z := crc_entry <$> (Z.of_nat <$> seq 0 256).
Definition crc_lookup (i : Z) : Z := default 0 (crc_table !! Z.to_nat i).

(** The loop over the data. *)
Definition crc_update (crc b : Z) : Z :=
  Z.lxor (crc_lookup (Z.land (Z.lxor crc b) 0xFF)) (Z.shiftr crc 8).

Definition crc32 (data : bytes) : Z :=
  Z.lxor (foldl crc_update 0xFFFFFFFF data) 0xFFFFFFFF.

(** ** The bit-serial definition *)

Definition crc_serial (crc b : Z) : Z := crc_bits 8 (Z.lxor crc b).

Lemma land_1_odd c : Z.land c 1 = if Z.odd c then 1 else 0.
Proof.
  change 1 with (Z.ones 1) at 1. rewrite Z.land_ones by lia. change (2 ^ 1) with 2.
  rewrite Zmod_odd. done.
Qed.

Lemma crc_bit_odd c : crc_bit c = if Z.odd c then Z.lxor crc_poly (Z.shiftr c 1) else Z.shiftr c 1.
Proof. unfold crc_bit. rewrite land_1_odd. by destruct (Z.odd c). Qed.

(** Bits shifted in above the low one pass through a round unchanged. *)
Lemma crc_bit_shift a y : crc_bit (Z.lxor a (Z.shiftl y 1)) = Z.lxor (crc_bit a) y.
Proof.
  rewrite !crc_bit_odd.
  assert (Z.odd (Z.lxor a (Z.shiftl y 1)) = Z.odd a) as ->.
  { rewrite <- !Z.bit0_odd, Z.lxor_spec, Z.shiftl_spec_low by lia. apply xorb_false_r. }
  rewrite Z.shiftr_lxor, Z.shiftr_shiftl_l, Z.sub_diag, Z.shiftl_0_r by lia.
  destruct (Z.odd a); [by rewrite Z.lxor_assoc | done].
Qed.

Lemma crc_bits_shift k a y :
  crc_bits k (Z.lxor a (Z.shiftl y (Z.of_nat k))) = Z.lxor (crc_bits k a) y.
Proof.
  revert a. induction k as [|k IH]; intros a; cbn [crc_bits].
  - by rewrite Z.shiftl_0_r.
  - rewrite Nat2Z.inj_succ. replace (Z.shiftl y (Z.succ (Z.of_nat k))) with
      (Z.shiftl (Z.shiftl y (Z.of_nat k)) 1) by (rewrite Z.shiftl_shiftl by lia; f_equal; lia).
    by rewrite crc_bit_shift, IH.
Qed.

Lemma crc_bits_add j k c : crc_bits (j + k) c = crc_bits k (crc_bits j c).
Proof. revert c. induction j; intros c; simpl; auto. Qed.

Lemma crc_lookup_entry i : 0 <= i < 256 -> crc_lookup i = crc_entry i.
Proof.
  intros Hi. unfold crc_lookup, crc_table. rewrite !list_lookup_fmap.
  rewrite lookup_seq_lt by lia. simpl. by rewrite Z2Nat.id by lia.
Qed.

Lemma land_255_range x : 0 <= Z.land x 0xFF < 256.
Proof. change 0xFF with (Z.ones 8). rewrite Z.land_ones by lia. apply Z.mod_pos_bound. lia. Qed.

Lemma split_byte x : x = Z.lxor (Z.land x 0xFF) (Z.shiftl (Z.shiftr x 8) 8).
Proof.
  apply Z.bits_inj'. intros n Hn. rewrite Z.lxor_spec, Z.land_spec.
  change 0xFF with (Z.ones 8). destruct (decide (n < 8)).
  - rewrite Z.ones_spec_low, Z.shiftl_spec_low by lia. by rewrite andb_true_r, xorb_false_r.
  - rewrite Z.ones_spec_high, Z.shiftl_spec, Z.shiftr_spec by lia.
    rewrite andb_false_r, xorb_false_l. f_equal. lia.
Qed.

Lemma crc_update_serial crc b : byte_ok b -> crc_update crc b = crc_serial crc b.
Proof.
  intros Hb. unfold crc_update, crc_serial. rewrite crc_lookup_entry by apply land_255_range.
  rewrite (split_byte (Z.lxor crc b)) at 2.
  change 8 with (Z.of_nat 8) at 2. rewrite crc_bits_shift. unfold crc_entry. f_equal.
  rewrite Z.shiftr_lxor. change 8 with (Z.of_nat 8) in *. rewrite (Z.shiftr_div_pow2 b) by lia.
  rewrite (Z.div_small b) by (unfold byte_ok in Hb; lia). by rewrite Z.lxor_0_r.
Qed.

Lemma foldl_update_serial data crc :
  bytes_ok data -> foldl crc_update crc data = foldl crc_serial crc data.
Proof.
  intros Hd. revert crc. induction Hd as [|b data Hb _ IH]; intros crc; simpl; [done|].
  by rewrite crc_update_serial, IH.
Qed.

(** ** The rounds are injective *)

Definition word_ok (c : Z) : Prop := 0 <= c < 2 ^ 32.

Lemma word_ok_bits c : 0 <= c -> (forall n, 32 <= n -> Z.testbit c n = false) -> word_ok c.
Proof.
  intros H0 Hb. split; [done|]. destruct (decide (c = 0)) as [->|]; [lia|].
  apply Z.log2_lt_pow2; [lia|]. destruct (Z_lt_le_dec (Z.log2 c) 32); [done|].
  pose proof (Z.bit_log2 c ltac:(lia)) as H. by rewrite Hb in H.
Qed.

Lemma word_ok_high c n : word_ok c -> 32 <= n -> Z.testbit c n = false.
Proof.
  intros [H0 H1] Hn. destruct (decide (c = 0)) as [->|]; [apply Z.bits_0|].
  apply Z.bits_above_log2; [done|]. apply Z.log2_lt_pow2 in H1; lia.
Qed.

Lemma lxor_word a b : word_ok a -> word_ok b -> word_ok (Z.lxor a b).
Proof.
  intros Ha Hb. apply word_ok_bits.
  - apply Z.lxor_nonneg. unfold word_ok in *. lia.
  - intros n Hn. by rewrite Z.lxor_spec, !word_ok_high.
Qed.

Lemma shiftr_word a n : word_ok a -> 0 <= n -> word_ok (Z.shiftr a n).
Proof.
  intros Ha Hn. apply word_ok_bits; [apply Z.shiftr_nonneg; by destruct Ha|].
  intros m Hm. rewrite Z.shiftr_spec by lia. apply word_ok_high; [done|lia].
Qed.

Lemma crc_bit_word c : word_ok c -> word_ok (crc_bit c).
Proof.
  intros Hc. rewrite crc_bit_odd. destruct (Z.odd c); [|by apply shiftr_word].
  apply lxor_word; [by vm_compute | by apply shiftr_word].
Qed.

Lemma crc_bits_word k c : word_ok c -> word_ok (crc_bits k c).
Proof. revert c. induction k; intros c Hc; simpl; auto using crc_bit_word. Qed.

(** The top bit of the result tells which way the round went. *)
Lemma crc_bit_top c : word_ok c -> Z.testbit (crc_bit c) 31 = Z.odd c.
Proof.
  intros Hc. assert (Z.testbit (Z.shiftr c 1) 31 = false) as Hs.
  { rewrite Z.shiftr_spec by lia. by apply word_ok_high. }
  rewrite crc_bit_odd. destruct (Z.odd c); [|done].
  rewrite Z.lxor_spec, Hs. by vm_compute.
Qed.

Lemma lxor_cancel_l a b c : Z.lxor a b = Z.lxor a c -> b = c.
Proof.
  intros H. apply (f_equal (Z.lxor a)) in H.
  by rewrite <- !Z.lxor_assoc, !Z.lxor_nilpotent, !Z.lxor_0_l in H.
Qed.

Lemma crc_bit_inj c c' : word_ok c -> word_ok c' -> crc_bit c = crc_bit c' -> c = c'.
Proof.
  intros Hc Hc' Heq.
  assert (Z.odd c = Z.odd c') as Hodd by (by rewrite <- !crc_bit_top, Heq).
  rewrite !crc_bit_odd, <- Hodd in Heq.
  assert (Z.shiftr c 1 = Z.shiftr c' 1) as Hs.
  { destruct (Z.odd c); [by eapply lxor_cancel_l | done]. }
  apply Z.bits_inj'. intros n Hn. destruct (decide (n = 0)) as [->|].
  - by rewrite !Z.bit0_odd.
  - replace n with (n - 1 + 1) by lia. by rewrite <- !Z.shiftr_spec, Hs by lia.
Qed.

Lemma crc_bits_inj k c c' : word_ok c -> word_ok c' -> crc_bits k c = crc_bits k c' -> c = c'.
Proof.
  revert c c'. induction k as [|k IH]; intros c c' Hc Hc' H; simpl in *; [done|].
  apply crc_bit_inj; try done. apply IH; auto using crc_bit_word.
Qed.

(** ** Bursts *)

(** The bytes of a run as one number, first byte lowest. *)
Fixpoint crc_word (u : bytes) : Z :=
  match u with [] => 0 | b :: u' => Z.lxor b (Z.shiftl (crc_word u') 8) end.

(** A run of bytes is fed in one go: all its rounds on the state and the number. *)
Lemma crc_serial_run u s :
  foldl crc_serial s u = crc_bits (8 * length u) (Z.lxor s (crc_word u)).
Proof.
  revert s. induction u as [|b u IH]; intros s; cbn [foldl length crc_word].
  - by rewrite Z.lxor_0_r.
  - replace (8 * S (length u))%nat with (8 + 8 * length u)%nat by lia.
    rewrite IH, crc_bits_add. unfold crc_serial. f_equal.
    rewrite <- Z.lxor_assoc. change 8 with (Z.of_nat 8). by rewrite crc_bits_shift.
Qed.

Lemma crc_word_bound u : bytes_ok u -> 0 <= crc_word u < 2 ^ (8 * Z.of_nat (length u)).
Proof.
  induction 1 as [|b u Hb Hu IH]; cbn [crc_word length]; [lia|].
  assert (Z.lxor b (Z.shiftl (crc_word u) 8) = b + crc_word u * 2 ^ 8) as ->.
  { rewrite <- Z.shiftl_mul_pow2 by lia. rewrite Z.add_nocarry_lxor; [done|].
    apply Z.bits_inj'. intros n Hn. rewrite Z.land_spec, Z.bits_0.
    destruct (decide (n < 8)); [by rewrite Z.shiftl_spec_low, andb_false_r by lia|].
    assert (Z.testbit b n = false) as ->; [|done].
    unfold byte_ok in Hb. destruct (decide (b = 0)) as [->|]; [apply Z.bits_0|].
    apply Z.bits_above_log2; [lia|]. assert (Z.log2 b < 8) by (apply Z.log2_lt_pow2; lia). lia. }
  unfold byte_ok in Hb. rewrite Nat2Z.inj_succ.
  replace (8 * Z.succ (Z.of_nat (length u))) with (8 + 8 * Z.of_nat (length u)) by lia.
  rewrite Z.pow_add_r by lia. lia.
Qed.

Lemma crc_word_inj u v :
  bytes_ok u -> bytes_ok v -> length u = length v -> crc_word u = crc_word v -> u = v.
Proof.
  intros Hu. revert v. induction Hu as [|b u Hb Hu IH]; intros v Hv Hlen Heq;
    destruct Hv as [|b' v Hb' Hv]; try done. simpl in *.
  assert (Hlow : forall x w, byte_ok x -> Z.land (Z.lxor x (Z.shiftl w 8)) (Z.ones 8) = x).
  { intros x w Hx. rewrite Z.land_ones by lia. unfold byte_ok in Hx.
    rewrite <- (Z.mod_small x (2 ^ 8)) at 2 by lia. rewrite <- !Z.land_ones by lia.
    apply Z.bits_inj'. intros n Hn. rewrite !Z.land_spec, Z.lxor_spec.
    destruct (decide (n < 8)).
    - by rewrite Z.shiftl_spec_low, xorb_false_r by lia.
    - by rewrite Z.ones_spec_high, !andb_false_r by lia. }
  assert (b = b') as <- by (by rewrite <- (Hlow b (crc_word u)), Heq, Hlow).
  apply lxor_cancel_l in Heq. f_equal. apply IH; [done|lia|].
  apply (f_equal (fun x => Z.shiftr x 8)) in Heq.
  by rewrite !Z.shiftr_shiftl_l, !Z.shiftl_0_r in Heq by lia.
Qed.

Lemma crc_serial_word s u : word_ok s -> bytes_ok u -> word_ok (foldl crc_serial s u).
Proof.
  intros Hs Hu. revert s Hs. induction Hu as [|b u Hb Hu IH]; intros s Hs; simpl; [done|].
  apply IH, crc_bits_word, lxor_word; [done|]. unfold byte_ok, word_ok in *. lia.
Qed.

Lemma crc_serial_inj s s' u :
  word_ok s -> word_ok s' -> bytes_ok u -> foldl crc_serial s u = foldl crc_serial s' u -> s = s'.
Proof.
  intros Hs Hs' Hu. revert s s' Hs Hs'.
  induction Hu as [|b u Hb Hu IH]; intros s s' Hs Hs' Heq; simpl in *; [done|].
  assert (word_ok b) as Hbw by (unfold byte_ok, word_ok in *; lia).
  apply IH in Heq; [|by apply crc_bits_word, lxor_word..].
  apply crc_bits_inj in Heq; [|by apply lxor_word..].
  rewrite !(Z.lxor_comm _ b) in Heq. by apply lxor_cancel_l in Heq.
Qed.

Lemma crc32_burst pre u v post :
  bytes_ok pre -> bytes_ok u -> bytes_ok v -> bytes_ok post ->
  length u = length v -> (length u <= 4)%nat ->
  crc32 (pre ++ u ++ post) = crc32 (pre ++ v ++ post) -> u = v.
Proof.
  intros Hpre Hu Hv Hpost Hlen H4 Heq. unfold crc32 in Heq.
  rewrite !(Z.lxor_comm _ 0xFFFFFFFF) in Heq. apply lxor_cancel_l in Heq.
  rewrite !foldl_update_serial in Heq by (unfold bytes_ok; rewrite !Forall_app; done).
  rewrite !foldl_app in Heq.
  assert (word_ok (foldl crc_serial 0xFFFFFFFF pre)) as Hs
    by (apply crc_serial_word; [by vm_compute | done]).
  apply crc_serial_inj in Heq; [|by apply crc_serial_word..|done].
  rewrite (crc_serial_run u), (crc_serial_run v), Hlen in Heq.
  assert (Hw : forall w, bytes_ok w -> (length w <= 4)%nat -> word_ok (crc_word w)).
  { intros w Hw Hl. pose proof (crc_word_bound w Hw). split; [lia|].
    enough (2 ^ (8 * Z.of_nat (length w)) <= 2 ^ 32) by lia. apply Z.pow_le_mono_r; lia. }
  apply crc_bits_inj in Heq; [|apply lxor_word; [done|]; apply Hw; [done|lia]..].
  apply lxor_cancel_l in Heq. by apply crc_word_inj.
Qed.

(** The table-driven checksum is the CRC-32 of its polynomial, and it detects every
    burst of up to 32 bits. On any data the 256-entry table gives the same state as
    feeding the bytes bit by bit through the reflected polynomial 0xEDB88320; the result
    is a 32-bit word; and two messages of the same length that differ only within four
    consecutive bytes (in particular in a single byte) never have the same checksum. *)
Theorem crc32_correct data pre u v post :
  bytes_ok data -> bytes_ok (pre ++ u ++ post) -> bytes_ok v ->
  length u = length v -> (length u <= 4)%nat -> u <> v ->
  crc32 data = Z.lxor (foldl (fun crc b => crc_bits 8 (Z.lxor crc b)) 0xFFFFFFFF data) 0xFFFFFFFF /\
  0 <= crc32 data < 2 ^ 32 /\
  crc32 (pre ++ u ++ post) <> crc32 (pre ++ v ++ post).
Proof.
  intros Hd Hall Hv Hlen H4 Hne. unfold bytes_ok in Hall. rewrite !Forall_app in Hall.
  destruct Hall as (Hpre & Hu & Hpost). split; [|split].
  - unfold crc32. by rewrite foldl_update_serial.
  - unfold crc32. rewrite foldl_update_serial by done. apply lxor_word; [|by vm_compute].
    apply crc_serial_word; [by vm_compute | done].
  - intros Heq. exact (Hne (crc32_burst pre u v post Hpre Hu Hv Hpost Hlen H4 Heq)).
Qed.

(** The check value of CRC-32 is the checksum of the digits 1 to 9. *)
Lemma crc32_correct_witness :
  crc32 [49; 50; 51; 52; 53; 54; 55; 56; 57] = 0xCBF43926 /\
  crc32 [49; 50; 51; 52; 53; 54; 55; 56; 57] <> crc32 [49; 50; 51; 99; 98; 97; 96; 56; 57].
Proof.
  split; [by vm_compute|].
  refine (proj2 (proj2 (crc32_correct [] [49; 50; 51] [52; 53; 54; 55] [99; 98; 97; 96] [56; 57]
                          _ _ _ eq_refl _ _)));
    try (apply (bool_decide_unpack _); by vm_compute); by vm_compute || discriminate.
Defined.
