(* ===== verification/Protocol.v ===== *)
(** * The wire protocol ([protocol/protocol.hpp], [core/protocol.cpp])

    Frames, their encoding and their validation, and the big-endian packing helpers.
    A buffer is the list of its bytes. The packing helpers that read take a buffer, its
    size and a position, and answer with one of three outcomes: a value and the next
    position, a refusal ([false]), or a read outside the buffer, which the language
    leaves undefined and which a caller must never reach. *)
From S2P Require Import Prelude.
From S2P Require Import Crc.

Definition kProtocolMagic : Z := 0x43584C46.
Definition kProtocolVersion : Z := 1.
Definition kFrameHeaderSize : Z := 16.
Definition kMaxPayloadBytes : Z := 65536.

Inductive FrameType : Set :=
  | FT_HELLO | FT_WORKER_BOOT | FT_WORKER_DEAD | FT_PUBLISH_DEVICE | FT_PUBLISH_CAPABILITY
  | FT_PUBLISH_REGION | FT_PUBLISH_POOL | FT_PUBLISH_HEALTH | FT_PUBLISH_LOCALITY
  | FT_RESERVE | FT_RESERVE_RESULT | FT_COMMIT | FT_COMMIT_RESULT | FT_RELEASE
  | FT_RELEASE_RESULT | FT_REVALIDATE | FT_REVALIDATE_RESULT | FT_EPOCH | FT_ERROR_REPORT
  | FT_SHUTDOWN | FT_ACK | FT_QUERY_STATE | FT_QUERY_STATE_RESULT | FT_raw (v : Z).

#[export] Instance FrameType_eq_dec : EqDecision FrameType.
Proof. solve_decision. Defined.

Definition frame_types : list FrameType :=
  [FT_HELLO; FT_WORKER_BOOT; FT_WORKER_DEAD; FT_PUBLISH_DEVICE; FT_PUBLISH_CAPABILITY;
   FT_PUBLISH_REGION; FT_PUBLISH_POOL; FT_PUBLISH_HEALTH; FT_PUBLISH_LOCALITY; FT_RESERVE;
   FT_RESERVE_RESULT; FT_COMMIT; FT_COMMIT_RESULT; FT_RELEASE; FT_RELEASE_RESULT;
   FT_REVALIDATE; FT_REVALIDATE_RESULT; FT_EPOCH; FT_ERROR_REPORT; FT_SHUTDOWN; FT_ACK;
   FT_QUERY_STATE; FT_QUERY_STATE_RESULT].

Definition FrameType_to_u16 (t : FrameType) : Z :=
  match t with
  | FT_HELLO => 1 | FT_WORKER_BOOT => 2 | FT_WORKER_DEAD => 3 | FT_PUBLISH_DEVICE => 4
  | FT_PUBLISH_CAPABILITY => 5 | FT_PUBLISH_REGION => 6 | FT_PUBLISH_POOL => 7
  | FT_PUBLISH_HEALTH => 8 | FT_PUBLISH_LOCALITY => 9 | FT_RESERVE => 10
  | FT_RESERVE_RESULT => 11 | FT_COMMIT => 12 | FT_COMMIT_RESULT => 13 | FT_RELEASE => 14
  | FT_RELEASE_RESULT => 15 | FT_REVALIDATE => 16 | FT_REVALIDATE_RESULT => 17
  | FT_EPOCH => 18 | FT_ERROR_REPORT => 19 | FT_SHUTDOWN => 20 | FT_ACK => 21
  | FT_QUERY_STATE => 22 | FT_QUERY_STATE_RESULT => 23 | FT_raw v => v
  end.

(** [FrameType(type)]. *)
Definition FrameType_of_u16 (v : Z) : FrameType :=
  match v with
  | 1 => FT_HELLO | 2 => FT_WORKER_BOOT | 3 => FT_WORKER_DEAD | 4 => FT_PUBLISH_DEVICE
  | 5 => FT_PUBLISH_CAPABILITY | 6 => FT_PUBLISH_REGION | 7 => FT_PUBLISH_POOL
  | 8 => FT_PUBLISH_HEALTH | 9 => FT_PUBLISH_LOCALITY | 10 => FT_RESERVE
  | 11 => FT_RESERVE_RESULT | 12 => FT_COMMIT | 13 => FT_COMMIT_RESULT | 14 => FT_RELEASE
  | 15 => FT_RELEASE_RESULT | 16 => FT_REVALIDATE | 17 => FT_REVALIDATE_RESULT
  | 18 => FT_EPOCH | 19 => FT_ERROR_REPORT | 20 => FT_SHUTDOWN | 21 => FT_ACK
  | 22 => FT_QUERY_STATE | 23 => FT_QUERY_STATE_RESULT | _ => FT_raw v
  end.

Record Frame : Set := mkFrame { fr_type : FrameType; fr_payload : bytes }.

Inductive DecodeStatus : Set :=
  | DS_OK | DS_BAD_MAGIC | DS_BAD_VERSION | DS_BAD_TYPE | DS_BAD_LENGTH | DS_OVERSIZED
  | DS_TRUNCATED | DS_BAD_CHECKSUM | DS_TRAILING_GARBAGE | DS_MALFORMED.

#[export] Instance DecodeStatus_eq_dec : EqDecision DecodeStatus.
Proof. solve_decision. Defined.

Record DecodeResult : Set := mkDecode {
  dr_status : DecodeStatus;
  dr_frame : Frame;
  dr_consumed : Z;
  dr_error : string;
}.

(** ** Loads and stores *)

(** [p[i]], for an index the caller has checked. *)
Definition byte_at (p : bytes) (i : nat) : Z := default 0 (p !! i).

Definition load_u32 (p : bytes) : Z :=
  Z.lor (Z.lor (Z.lor (Z.shiftl (byte_at p 0) 24) (Z.shiftl (byte_at p 1) 16))
               (Z.shiftl (byte_at p 2) 8)) (byte_at p 3).
Definition load_u16 (p : bytes) : Z :=
  u16 (Z.lor (u16 (Z.shiftl (byte_at p 0) 8)) (byte_at p 1)).

(** The bytes [store_u32] and [store_u16] write. *)
Definition store_u32 (v : Z) : bytes :=
  [u8 (Z.shiftr v 24); u8 (Z.shiftr v 16); u8 (Z.shiftr v 8); u8 v].
Definition store_u16 (v : Z) : bytes := [u8 (Z.shiftr v 8); u8 v].

Definition valid_type (t : Z) : bool :=
  bool_decide (1 <= t) && bool_decide (t <= FrameType_to_u16 FT_QUERY_STATE_RESULT).

(** ** Frames *)

Definition bsize (l : bytes) : Z := Z.of_nat (length l).

(** The header up to the length, for a payload of [n] bytes. *)
Definition frame_prefix (version : Z) (t : FrameType) (n : Z) : bytes :=
  store_u32 kProtocolMagic ++ store_u16 version ++ store_u16 (FrameType_to_u16 t) ++ store_u32 n.

Definition encode_frame (f : Frame) (version : Z) : bytes :=
  if bool_decide (bsize (fr_payload f) > kMaxPayloadBytes)
  then frame_prefix version (fr_type f) 0 ++ store_u32 0
  else
    let head := frame_prefix version (fr_type f) (bsize (fr_payload f)) in
    head ++ store_u32 (crc32 (head ++ fr_payload f)) ++ fr_payload f.

Definition frame_default : Frame := mkFrame FT_HELLO [].
Definition decode_error (st : DecodeStatus) (e : string) : DecodeResult :=
  mkDecode st frame_default 0 e.

Definition decode_frame (data : bytes) : DecodeResult :=
  let len := bsize data in
  if bool_decide (len < kFrameHeaderSize) then decode_error DS_TRUNCATED "header truncated" else
  let magic := load_u32 data in
  let version := load_u16 (drop 4 data) in
  let type := load_u16 (drop 6 data) in
  let length := load_u32 (drop 8 data) in
  let checksum := load_u32 (drop 12 data) in
  if negb (magic =? kProtocolMagic) then decode_error DS_BAD_MAGIC "bad magic"
  else if negb (version =? kProtocolVersion) then decode_error DS_BAD_VERSION "bad version"
  else if negb (valid_type type) then decode_error DS_BAD_TYPE "bad type"
  else if bool_decide (length > kMaxPayloadBytes) then decode_error DS_OVERSIZED "oversized payload"
  else
    let total := kFrameHeaderSize + length in
    if bool_decide (total > len) then decode_error DS_TRUNCATED "payload truncated" else
    let payload := take (Z.to_nat length) (drop 16 data) in
    let body := take 12 data ++ payload in
    if negb (crc32 body =? checksum) then decode_error DS_BAD_CHECKSUM "checksum mismatch" else
    let frame := mkFrame (FrameType_of_u16 type) payload in
    if negb (total =? len) then mkDecode DS_TRAILING_GARBAGE frame total "trailing bytes"
    else mkDecode DS_OK frame total "".

(** ** Packing helpers *)

Definition put_u16 (v : Z) : bytes := store_u16 v.
Definition put_u32 (v : Z) : bytes := store_u32 v.
Definition put_u64 (v : Z) : bytes :=
  [u8 (Z.shiftr v 56); u8 (Z.shiftr v 48); u8 (Z.shiftr v 40); u8 (Z.shiftr v 32);
   u8 (Z.shiftr v 24); u8 (Z.shiftr v 16); u8 (Z.shiftr v 8); u8 v].

Inductive Read (A : Type) : Type :=
  | ReadOk (v : A) (pos : Z)
  | ReadFail
  | ReadFault.
Arguments ReadOk {A} _ _.
Arguments ReadFail {A}.
Arguments ReadFault {A}.

(** The guard of every reader, [len < pos || pos > len - n] in 64 bits, followed by an
    access to the [n] bytes at [pos]. *)
Definition read_at {A} (n : Z) (get : bytes -> A) (data : bytes) (pos : Z) : Read A :=
  let len := bsize data in
  if bool_decide (len < pos) || bool_decide (pos > sub64 len n) then ReadFail
  else if bool_decide (pos + n > len) then ReadFault
  else ReadOk (get (drop (Z.to_nat pos) data)) (pos + n).

Definition get_u32 (data : bytes) (pos : Z) : Read Z := read_at 4 load_u32 data pos.
Definition get_u16 (data : bytes) (pos : Z) : Read Z := read_at 2 load_u16 data pos.
(** The loop of [get_u64]: [v = (v << 8) | data[pos + i]], eight times. *)
Definition load_u64 (p : bytes) : Z :=
  foldl (fun v b => Z.lor (u64 (Z.shiftl v 8)) b) 0 (take 8 p).
Definition get_u64 (data : bytes) (pos : Z) : Read Z := read_at 8 load_u64 data pos.
Definition get_bytes (n : Z) (data : bytes) (pos : Z) : Read bytes :=
  read_at n (take (Z.to_nat n)) data pos.

(** ** Big-endian words *)

Definition be_load (l : bytes) : Z := foldl (fun v b => Z.lor (Z.shiftl v 8) b) 0 l.

Fixpoint be_store (n : nat) (v : Z) : bytes :=
  match n with O => [] | S n' => be_store n' (Z.shiftr v 8) ++ [u8 v] end.

Lemma length_be_store n v : length (be_store n v) = n.
Proof. revert v. induction n; intros v; simpl; [done|]. rewrite length_app, IHn. simpl. lia. Qed.

Lemma u8_byte v : byte_ok (u8 v).
Proof. unfold byte_ok, u8. pose proof (Z.mod_pos_bound v (2 ^ 8)). lia. Qed.

Lemma be_store_ok n v : bytes_ok (be_store n v).
Proof.
  revert v. induction n; intros v; simpl; [constructor|].
  apply Forall_app. split; [apply IHn | constructor; [apply u8_byte | constructor]].
Qed.

(** A byte fills the bits a shift by eight has freed. *)
Lemma lor_shift_byte x b : byte_ok b -> Z.lor (Z.shiftl x 8) b = x * 256 + b.
Proof.
  intros Hb. unfold byte_ok in Hb. change 256 with (2 ^ 8). rewrite <- Z.shiftl_mul_pow2 by lia.
  rewrite Z.add_nocarry_lxor, <- Z.lxor_lor; [done| |];
    apply Z.bits_inj'; intros n Hn; rewrite Z.land_spec, Z.bits_0;
    (destruct (decide (n < 8)); [by rewrite Z.shiftl_spec_low by lia|]);
    (assert (Z.testbit b n = false) as ->; [|apply andb_false_r]);
    rewrite <- (Z.mod_small b (2 ^ 8)) by lia; by apply Z.mod_pow2_bits_high; lia.
Qed.

Lemma be_load_snoc l b : byte_ok b -> be_load (l ++ [b]) = be_load l * 256 + b.
Proof. intros Hb. unfold be_load. rewrite foldl_app. simpl. by apply lor_shift_byte. Qed.

Lemma be_load_nonneg l : bytes_ok l -> 0 <= be_load l.
Proof.
  induction l as [|b l IH] using rev_ind; intros Hl; [done|].
  apply Forall_app in Hl as [Hl Hb]. apply Forall_cons in Hb as [Hb _].
  rewrite be_load_snoc by done. unfold byte_ok in Hb. specialize (IH Hl). lia.
Qed.

Lemma be_load_bound l : bytes_ok l -> be_load l < 2 ^ (8 * Z.of_nat (length l)).
Proof.
  induction l as [|b l IH] using rev_ind; intros Hl; [done|].
  apply Forall_app in Hl as [Hl Hb]. apply Forall_cons in Hb as [Hb _].
  rewrite be_load_snoc, length_app by done. simpl.
  replace (8 * Z.of_nat (length l + 1)) with (8 * Z.of_nat (length l) + 8) by lia.
  rewrite Z.pow_add_r by lia. unfold byte_ok in Hb. specialize (IH Hl). lia.
Qed.

Lemma be_load_store n v : 0 <= v < 2 ^ (8 * Z.of_nat n) -> be_load (be_store n v) = v.
Proof.
  revert v. induction n as [|n IH]; intros v Hv.
  { simpl in *. change (2 ^ 0) with 1 in Hv. unfold be_load. simpl. lia. }
  cbn [be_store]. rewrite be_load_snoc by apply u8_byte.
  rewrite Z.shiftr_div_pow2 by lia. rewrite IH.
  - unfold u8. pose proof (Z.div_mod v (2 ^ 8)). lia.
  - split; [apply Z.div_pos; lia|]. apply Z.div_lt_upper_bound; [lia|].
    rewrite <- Z.pow_add_r by lia. replace (8 + 8 * Z.of_nat n) with (8 * Z.of_nat (S n)) by lia.
    lia.
Qed.

Lemma be_store_load l : bytes_ok l -> be_store (length l) (be_load l) = l.
Proof.
  induction l as [|b l IH] using rev_ind; intros Hl; [done|].
  apply Forall_app in Hl as [Hl Hb]. apply Forall_cons in Hb as [Hb _].
  rewrite length_app. simpl. rewrite Nat.add_1_r. cbn [be_store].
  rewrite be_load_snoc by done. unfold byte_ok in Hb. f_equal.
  - rewrite Z.shiftr_div_pow2 by lia. rewrite Z.div_add_l by lia.
    rewrite (Z.div_small b) by lia. rewrite Z.add_0_r. by apply IH.
  - unfold u8. f_equal. change (2 ^ 8) with 256.
    rewrite Z.add_comm, Z.mod_add by lia. apply Z.mod_small. lia.
Qed.

(** The loads and stores of the source are these. *)
Lemma store_u32_be v : store_u32 v = be_store 4 v.
Proof. unfold store_u32. cbn [be_store app]. by rewrite !Z.shiftr_shiftr by lia. Qed.
Lemma store_u16_be v : store_u16 v = be_store 2 v.
Proof. done. Qed.
Lemma put_u64_be v : put_u64 v = be_store 8 v.
Proof. unfold put_u64. cbn [be_store app]. by rewrite !Z.shiftr_shiftr by lia. Qed.

Lemma take_bytes n p : (n <= length p)%nat -> take n p = byte_at p <$> seq 0 n.
Proof.
  intros Hn. apply list_eq. intros i. rewrite list_lookup_fmap. unfold byte_at.
  destruct (decide (i < n)%nat).
  - rewrite lookup_take_lt, lookup_seq_lt by lia. simpl.
    destruct (lookup_lt_is_Some_2 p i) as [b Hb]; [lia|]. by rewrite Hb.
  - rewrite lookup_take_ge, lookup_seq_ge by lia. done.
Qed.

Lemma load_u32_be p : (4 <= length p)%nat -> load_u32 p = be_load (take 4 p).
Proof.
  intros Hp. rewrite take_bytes by done. unfold load_u32, be_load. cbn [seq fmap list_fmap foldl].
  rewrite Z.shiftl_0_l, Z.lor_0_l. rewrite !Z.shiftl_lor, !Z.shiftl_shiftl by lia. done.
Qed.

Lemma load_u16_be p : (2 <= length p)%nat -> bytes_ok p -> load_u16 p = be_load (take 2 p).
Proof.
  intros Hp Hok. assert (bytes_ok (take 2 p)) as Ht by (by apply Forall_take).
  pose proof (be_load_bound _ Ht) as Hb. pose proof (be_load_nonneg _ Ht).
  rewrite length_take_le in Hb by done.
  assert (byte_ok (byte_at p 0)) as H0.
  { destruct p as [|b p]; simpl in *; [lia|]. by apply Forall_cons in Hok as [? _]. }
  unfold load_u16, u16. rewrite (Z.mod_small (Z.shiftl _ 8)).
  - rewrite take_bytes in * by done. unfold be_load in *. cbn [seq fmap list_fmap foldl] in *.
    rewrite Z.shiftl_0_l, Z.lor_0_l in *. apply Z.mod_small. simpl in Hb. lia.
  - rewrite Z.shiftl_mul_pow2 by lia. unfold byte_ok in H0. lia.
Qed.

Lemma load_u64_be p : (8 <= length p)%nat -> bytes_ok p -> load_u64 p = be_load (take 8 p).
Proof.
  intros Hp Hok. unfold load_u64, be_load.
  assert (Hgen : forall l, bytes_ok l -> (length l <= 8)%nat ->
    foldl (fun v b => Z.lor (u64 (Z.shiftl v 8)) b) 0 l
    = foldl (fun v b => Z.lor (Z.shiftl v 8) b) 0 l).
  { induction l as [|b l IH] using rev_ind; intros Hl Hlen; [done|].
    apply Forall_app in Hl as [Hl Hb]. rewrite length_app in Hlen. simpl in Hlen.
    rewrite !foldl_app. simpl. rewrite IH by (done || lia). f_equal. apply u64_small.
    change (foldl _ 0 l) with (be_load l).
    pose proof (be_load_bound l Hl). pose proof (be_load_nonneg l Hl).
    rewrite Z.shiftl_mul_pow2 by lia. unfold in_u64, UINT64_MAX.
    assert (2 ^ (8 * Z.of_nat (length l)) <= 2 ^ 56) by (apply Z.pow_le_mono_r; lia). lia. }
  apply Hgen; [by apply Forall_take | rewrite length_take; lia].
Qed.

(** ** Readers *)

(** The guard is exact on a buffer of at least [n] bytes; on a shorter one [len - n]
    wraps around and the guard lets a read outside the buffer through. *)
Lemma read_at_cases {A} n (get : bytes -> A) data pos :
  0 <= n <= UINT64_MAX -> 0 <= pos -> bsize data <= UINT64_MAX ->
  read_at n get data pos =
    if bool_decide (bsize data < pos) then ReadFail
    else if bool_decide (pos + n <= bsize data)
         then ReadOk (get (drop (Z.to_nat pos) data)) (pos + n)
    else if bool_decide (bsize data < n) then ReadFault else ReadFail.
Proof.
  intros Hn Hpos Hlen. unfold read_at. assert (0 <= bsize data) by (unfold bsize; lia).
  case_bool_decide; simpl; [done|].
  destruct (decide (bsize data < n)) as [Hs|Hs].
  - assert (sub64 (bsize data) n = 2 ^ 64 + bsize data - n) as ->.
    { unfold sub64, u64, UINT64_MAX in *. symmetry. apply (Z.mod_unique_pos _ _ (-1)); lia. }
    unfold UINT64_MAX in *. rewrite (bool_decide_false (pos > _)) by lia.
    rewrite (bool_decide_false (pos + n <= bsize data)) by lia.
    by rewrite !bool_decide_true by lia.
  - rewrite sub64_small by lia. rewrite (bool_decide_false (bsize data < n)) by lia.
    repeat case_bool_decide; try done; lia.
Qed.

(** Reading what was written, anywhere in a buffer. *)
Lemma read_at_app {A} n (get : bytes -> A) pre mid post :
  0 <= n -> bsize mid = n -> bsize (pre ++ mid ++ post) <= UINT64_MAX ->
  read_at n get (pre ++ mid ++ post) (bsize pre) = ReadOk (get (mid ++ post)) (bsize (pre ++ mid)).
Proof.
  intros Hn Hm Hlen. unfold bsize in *. rewrite !length_app, !Nat2Z.inj_add in *.
  rewrite read_at_cases by (unfold bsize; rewrite ?length_app, ?Nat2Z.inj_add; lia).
  unfold bsize. rewrite !length_app, !Nat2Z.inj_add.
  rewrite (bool_decide_false (_ < _)), (bool_decide_true (_ <= _)) by lia.
  rewrite Nat2Z.id, drop_app_length. by rewrite Hm.
Qed.

Lemma load_u32_store v post : in_u32 v -> load_u32 (store_u32 v ++ post) = v.
Proof.
  intros Hv. rewrite load_u32_be by (rewrite length_app; simpl; lia).
  rewrite take_app_length', store_u32_be by done. apply be_load_store. unfold in_u32 in Hv. lia.
Qed.

Lemma load_u64_store v post : in_u64 v -> bytes_ok post -> load_u64 (put_u64 v ++ post) = v.
Proof.
  intros Hv Hp. rewrite load_u64_be.
  - rewrite take_app_length', put_u64_be by done. apply be_load_store.
    unfold in_u64, UINT64_MAX in Hv. lia.
  - rewrite length_app. simpl. lia.
  - apply Forall_app. split; [rewrite put_u64_be; apply be_store_ok | done].
Qed.

Lemma load_u16_store v post :
  0 <= v < 2 ^ 16 -> bytes_ok post -> load_u16 (store_u16 v ++ post) = v.
Proof.
  intros Hv Hp. rewrite load_u16_be.
  - rewrite take_app_length', store_u16_be by done. apply be_load_store. lia.
  - rewrite length_app. simpl. lia.
  - apply Forall_app. split; [rewrite store_u16_be; apply be_store_ok | done].
Qed.

(** The packing helpers invert each other, and where they are safe. Whatever comes
    before and after it in a buffer of less than 2^64 bytes, a 16, 32 or 64-bit value
    that was put is read back, and the position moves past it. On any buffer of at
    least the field's size a reader never reads outside the buffer: it answers with a
    value exactly when the field fits at the position, and refuses otherwise. *)
Theorem packing_round_trip pre post v w x :
  bytes_ok pre -> bytes_ok post -> bsize pre + bsize post + 8 <= UINT64_MAX ->
  in_u64 v -> in_u32 w -> 0 <= x < 2 ^ 16 ->
  get_u64 (pre ++ put_u64 v ++ post) (bsize pre) = ReadOk v (bsize pre + 8) /\
  get_u32 (pre ++ put_u32 w ++ post) (bsize pre) = ReadOk w (bsize pre + 4) /\
  get_u16 (pre ++ put_u16 x ++ post) (bsize pre) = ReadOk x (bsize pre + 2) /\
  forall data pos, 0 <= pos -> 8 <= bsize data <= UINT64_MAX ->
    (get_u64 data pos = if bool_decide (pos + 8 <= bsize data)
                        then ReadOk (load_u64 (drop (Z.to_nat pos) data)) (pos + 8)
                        else ReadFail) /\
    (get_u32 data pos = if bool_decide (pos + 4 <= bsize data)
                        then ReadOk (load_u32 (drop (Z.to_nat pos) data)) (pos + 4)
                        else ReadFail).
Proof.
  intros Hpre Hpost Hlen Hv Hw Hx.
  assert (Hsz : forall l, (length l <= 8)%nat -> bsize (pre ++ l ++ post) <= UINT64_MAX).
  { intros l Hl. unfold bsize in *. rewrite !length_app. lia. }
  assert (Happ : forall l, bsize (pre ++ l) = bsize pre + bsize l).
  { intros l. unfold bsize. rewrite length_app. lia. }
  split; [|split; [|split]].
  - unfold get_u64. rewrite read_at_app by (done || apply Hsz; done).
    by rewrite Happ, load_u64_store.
  - unfold get_u32. rewrite read_at_app by (done || apply Hsz; simpl; lia).
    by rewrite Happ; unfold put_u32; rewrite load_u32_store.
  - unfold get_u16. rewrite read_at_app by (done || apply Hsz; simpl; lia).
    by rewrite Happ; unfold put_u16; rewrite load_u16_store.
  - intros data pos Hpos Hd. unfold get_u64, get_u32.
    rewrite !read_at_cases by (unfold UINT64_MAX in *; lia).
    split; repeat case_bool_decide; try done; lia.
Qed.

Lemma packing_round_trip_witness :
  get_u32 ([1; 2; 3] ++ put_u32 0xDEADBEEF ++ [9]) 3 = ReadOk 0xDEADBEEF 7.
Proof.
  refine (proj1 (proj2 (packing_round_trip [1; 2; 3] [9] 0 0xDEADBEEF 0 _ _ _ _ _ _)));
    apply (bool_decide_unpack _); by vm_compute.
Defined.

(** The bounds check of the readers wraps. On a buffer shorter than the field, the
    subtraction [len - n] of the guard wraps around, so at every position inside the
    buffer the guard passes and the reader goes outside the buffer instead of refusing:
    a payload of one to three bytes is enough for [get_u32], one to seven for
    [get_u64]. *)
Theorem short_buffer_read_faults data pos :
  0 <= pos <= bsize data ->
  (bsize data < 2 -> get_u16 data pos = ReadFault) /\
  (bsize data < 4 -> get_u32 data pos = ReadFault) /\
  (bsize data < 8 -> get_u64 data pos = ReadFault) /\
  (forall n, bsize data < n <= UINT64_MAX -> get_bytes n data pos = ReadFault).
Proof.
  intros Hpos.
  assert (Hfault : forall A n (get : bytes -> A), bsize data < n <= UINT64_MAX ->
            read_at n get data pos = ReadFault).
  { intros A n get Hn. rewrite read_at_cases by lia.
    rewrite (bool_decide_false (_ < pos)), (bool_decide_false (_ <= _)) by lia.
    by rewrite bool_decide_true by lia. }
  split_and!; intros; apply Hfault; unfold UINT64_MAX in *; lia.
Qed.

Lemma short_buffer_read_faults_witness : get_u64 [1; 2; 3] 0 = ReadFault.
Proof.
  destruct (short_buffer_read_faults [1; 2; 3] 0) as (_ & _ & H & _);
    [by vm_compute | apply H; by vm_compute].
Defined.

(** ** Frames *)

Lemma FrameType_to_of v : FrameType_to_u16 (FrameType_of_u16 v) = v.
Proof. destruct v as [|v|v]; try done. do 5 (destruct v as [v|v|]; try done). Qed.

Lemma FrameType_of_to t : t ∈ frame_types -> FrameType_of_u16 (FrameType_to_u16 t) = t.
Proof.
  intros Ht. unfold frame_types in Ht.
  repeat (apply elem_of_cons in Ht as [-> | Ht]; [done|]). by apply not_elem_of_nil in Ht.
Qed.

Lemma frame_type_range t :
  t ∈ frame_types -> valid_type (FrameType_to_u16 t) = true /\ 0 <= FrameType_to_u16 t < 2 ^ 16.
Proof.
  intros Ht. unfold frame_types in Ht.
  repeat (apply elem_of_cons in Ht as [-> | Ht]; [by vm_compute|]). by apply not_elem_of_nil in Ht.
Qed.

(** A frame the encoder accepts: a named type and a payload within bounds. *)
Record frame_ok (f : Frame) : Prop := {
  fo_type : fr_type f ∈ frame_types;
  fo_bytes : bytes_ok (fr_payload f);
  fo_size : bsize (fr_payload f) <= kMaxPayloadBytes;
}.

Lemma store_u32_ok v : bytes_ok (store_u32 v).
Proof. rewrite store_u32_be. apply be_store_ok. Qed.

Lemma store_u16_ok v : bytes_ok (store_u16 v).
Proof. exact (be_store_ok 2 v). Qed.

Lemma frame_prefix_ok ver t n : bytes_ok (frame_prefix ver t n).
Proof.
  unfold frame_prefix.
  do 3 (apply Forall_app; split; [apply store_u32_ok || apply store_u16_ok|]). apply store_u32_ok.
Qed.

Lemma length_frame_prefix ver t n : length (frame_prefix ver t n) = 12%nat.
Proof. done. Qed.

Lemma crc32_word data : bytes_ok data -> in_u32 (crc32 data).
Proof.
  intros Hd. unfold crc32. rewrite foldl_update_serial by done.
  apply lxor_word; [|by vm_compute]. apply crc_serial_word; [by vm_compute | done].
Qed.

(** The fields of a header followed by anything. *)
Lemma header_fields ver t n rest :
  0 <= ver < 2 ^ 16 -> 0 <= FrameType_to_u16 t < 2 ^ 16 -> in_u32 n -> bytes_ok rest ->
  let data := frame_prefix ver t n ++ rest in
  load_u32 data = kProtocolMagic /\ load_u16 (drop 4 data) = ver /\
  load_u16 (drop 6 data) = FrameType_to_u16 t /\ load_u32 (drop 8 data) = n.
Proof.
  intros Hv Ht Hn Hr. cbv zeta. unfold frame_prefix. split_and!.
  - rewrite <- !app_assoc. apply load_u32_store. by vm_compute.
  - change (drop 4 _) with (store_u16 ver ++ (store_u16 (FrameType_to_u16 t) ++ store_u32 n ++ rest)).
    apply load_u16_store; [done|].
    do 2 (apply Forall_app; split; [apply store_u32_ok || apply store_u16_ok|]). done.
  - change (drop 6 _) with (store_u16 (FrameType_to_u16 t) ++ (store_u32 n ++ rest)).
    apply load_u16_store; [done|]. apply Forall_app. split; [apply store_u32_ok | done].
  - change (drop 8 _) with (store_u32 n ++ rest). by apply load_u32_store.
Qed.

Lemma decode_encode f rest :
  frame_ok f -> bytes_ok rest ->
  decode_frame (encode_frame f kProtocolVersion ++ rest) =
    if bool_decide (rest = []) then mkDecode DS_OK f (kFrameHeaderSize + bsize (fr_payload f)) ""
    else mkDecode DS_TRAILING_GARBAGE f (kFrameHeaderSize + bsize (fr_payload f)) "trailing bytes".
Proof.
  intros [Ht Hb Hs] Hr. unfold encode_frame. rewrite bool_decide_false by lia. cbv zeta.
  set (p := fr_payload f) in *. set (head := frame_prefix kProtocolVersion (fr_type f) (bsize p)).
  set (c := crc32 (head ++ p)). rewrite <- !app_assoc.
  set (data := head ++ store_u32 c ++ p ++ rest).
  destruct (frame_type_range _ Ht) as [Hvt Htr].
  assert (0 <= bsize p) by (unfold bsize; lia). unfold kMaxPayloadBytes in *.
  destruct (header_fields kProtocolVersion (fr_type f) (bsize p) (store_u32 c ++ p ++ rest))
    as (Hm & Hver & Hty & Hlen); [by vm_compute | done | unfold in_u32; lia | |].
  { apply Forall_app; split; [apply store_u32_ok | by apply Forall_app]. }
  fold head data in Hm, Hver, Hty, Hlen.
  assert (load_u32 (drop 12 data) = c) as Hcrc.
  { change (drop 12 data) with (store_u32 c ++ (p ++ rest)). apply load_u32_store, crc32_word.
    apply Forall_app. split; [apply frame_prefix_ok | done]. }
  assert (bsize data = 16 + bsize p + bsize rest) as Hsz.
  { unfold data, bsize. rewrite !length_app. unfold head. rewrite length_frame_prefix. simpl. lia. }
  assert (drop 16 data = p ++ rest) as Hd16 by done.
  assert (take 12 data = head) as Ht12 by done.
  assert (0 <= bsize rest) by (unfold bsize; lia).
  unfold decode_frame. rewrite Hm, Hver, Hty, Hlen, Hcrc, Hsz, Hd16, Ht12, Hvt.
  unfold kFrameHeaderSize, kMaxPayloadBytes. rewrite !Z.eqb_refl. simpl negb. cbv iota.
  rewrite (bool_decide_false (_ < 16)), (bool_decide_false (_ > 65536)) by lia.
  rewrite (bool_decide_false (16 + bsize p > _)) by lia.
  assert (take (Z.to_nat (bsize p)) (p ++ rest) = p) as ->.
  { unfold bsize. rewrite Nat2Z.id. apply take_app_length. }
  fold c. rewrite Z.eqb_refl, FrameType_of_to by done. simpl negb. cbv iota.
  destruct rest as [|b rest].
  - replace (16 + bsize p + bsize []) with (16 + bsize p) by (unfold bsize; simpl; lia).
    rewrite Z.eqb_refl, bool_decide_true by done. by destruct f.
  - rewrite bool_decide_false by done.
    destruct (Z.eqb_spec (16 + bsize p) (16 + bsize p + bsize (b :: rest))) as [E|_];
      [unfold bsize in E; simpl in E; lia|]. by destruct f.
Qed.

(** Splits a buffer at a position into a word and the rest. *)
Lemma store_load_u32 p : (4 <= length p)%nat -> bytes_ok p -> store_u32 (load_u32 p) = take 4 p.
Proof.
  intros Hl Hok. rewrite store_u32_be, load_u32_be by done.
  rewrite <- (be_store_load (take 4 p)) at 2 by (by apply Forall_take).
  by rewrite length_take_le.
Qed.

Lemma store_load_u16 p : (2 <= length p)%nat -> bytes_ok p -> store_u16 (load_u16 p) = take 2 p.
Proof.
  intros Hl Hok. rewrite store_u16_be, load_u16_be by done.
  rewrite <- (be_store_load (take 2 p)) at 2 by (by apply Forall_take).
  by rewrite length_take_le.
Qed.


(** A buffer of at least 16 bytes that carries the magic number and the version is a
    header prefix, a checksum and the rest. *)
Lemma header_shape data :
  (16 <= length data)%nat -> bytes_ok data -> load_u32 data = kProtocolMagic ->
  load_u16 (drop 4 data) = kProtocolVersion ->
  data = frame_prefix kProtocolVersion (FrameType_of_u16 (load_u16 (drop 6 data)))
           (load_u32 (drop 8 data)) ++ store_u32 (load_u32 (drop 12 data)) ++ drop 16 data.
Proof.
  intros Hl Hok Hm Hv. unfold frame_prefix. rewrite FrameType_to_of, <- Hm, <- Hv.
  assert (forall n, bytes_ok (drop n data)) as Hd by (intros; by apply Forall_drop).
  rewrite !store_load_u32, !store_load_u16 by (done || rewrite ?length_drop; lia).
  rewrite <- !app_assoc.
  rewrite <- (drop_drop data 4 12 : _ = drop 16 data). rewrite (take_drop 4 (drop 12 data)).
  rewrite <- (drop_drop data 4 8 : _ = drop 12 data). rewrite (take_drop 4 (drop 8 data)).
  rewrite <- (drop_drop data 2 6 : _ = drop 8 data). rewrite (take_drop 2 (drop 6 data)).
  rewrite <- (drop_drop data 2 4 : _ = drop 6 data). rewrite (take_drop 2 (drop 4 data)).
  by rewrite (take_drop 4 data).
Qed.

Lemma be_load_u32_range p : (4 <= length p)%nat -> bytes_ok p -> in_u32 (load_u32 p).
Proof.
  intros Hl Hok. rewrite load_u32_be by done.
  assert (bytes_ok (take 4 p)) as Ht by (by apply Forall_take).
  pose proof (be_load_bound _ Ht) as Hb. pose proof (be_load_nonneg _ Ht).
  rewrite length_take_le in Hb by done. unfold in_u32. simpl in Hb. lia.
Qed.

(** What the decoder accepts is what the encoder produces. *)
Lemma decode_ok_canonical data fr n e :
  bytes_ok data -> decode_frame data = mkDecode DS_OK fr n e ->
  data = encode_frame fr kProtocolVersion /\ bsize (fr_payload fr) <= kMaxPayloadBytes /\
  n = bsize data.
Proof.
  intros Hok. unfold decode_frame. cbv zeta.
  case_bool_decide as Hlen; [done|]. unfold kFrameHeaderSize, bsize in Hlen.
  assert (16 <= length data)%nat as Hl by lia.
  destruct (Z.eqb_spec (load_u32 data) kProtocolMagic) as [Hm|]; simpl; [|done].
  destruct (Z.eqb_spec (load_u16 (drop 4 data)) kProtocolVersion) as [Hv|]; simpl; [|done].
  destruct (valid_type _); simpl; [|done].
  case_bool_decide as Hmax; [done|]. case_bool_decide as Htot; [done|].
  set (sz := load_u32 (drop 8 data)) in *.
  assert (in_u32 sz) as Hsz.
  { apply be_load_u32_range; [rewrite length_drop; lia | by apply Forall_drop]. }
  unfold in_u32, kFrameHeaderSize in *.
  destruct (Z.eqb_spec (crc32 (take 12 data ++ take (Z.to_nat sz) (drop 16 data)))
                       (load_u32 (drop 12 data))) as [Hcrc|]; simpl; [|done].
  destruct (Z.eqb_spec (16 + sz) (bsize data)) as [Heq|]; simpl; [|done].
  intros [= <- <- <-]. cbn [fr_payload].
  assert (length (drop 16 data) = Z.to_nat sz) as Hp by (rewrite length_drop; unfold bsize in *; lia).
  rewrite (take_ge (drop 16 data)) by lia. rewrite (take_ge (drop 16 data)) in Hcrc by lia.
  assert (bsize (drop 16 data) = sz) as Hps by (unfold bsize; lia).
  split_and!; [| lia | done].
  unfold encode_frame. cbn [fr_payload fr_type]. rewrite Hps, bool_decide_false by done. cbv zeta.
  pose proof (header_shape data Hl Hok Hm Hv) as Hshape. fold sz in Hshape.
  set (head := frame_prefix _ _ _) in *.
  assert (take 12 data = head) as Hhead.
  { rewrite Hshape. by apply take_app_length'. }
  rewrite Hhead in Hcrc. by rewrite Hcrc.
Qed.

(** The frame codec is a bijection between valid frames and accepted buffers. Every
    frame of a defined type with a payload of at most 64 KiB is encoded to a buffer that
    decodes back to exactly that frame, consuming all of it; the same buffer followed by
    any other bytes is reported as TRAILING_GARBAGE with the frame intact; and every
    buffer the decoder accepts is the encoding of the frame it returns, with a payload
    within the bound, so there is one accepted buffer per frame. *)
Theorem frame_round_trip :
  (forall f rest, frame_ok f -> bytes_ok rest ->
     decode_frame (encode_frame f kProtocolVersion ++ rest) =
       (if bool_decide (rest = [])
        then mkDecode DS_OK f (kFrameHeaderSize + bsize (fr_payload f)) ""
        else mkDecode DS_TRAILING_GARBAGE f (kFrameHeaderSize + bsize (fr_payload f))
               "trailing bytes")) /\
  (forall data fr n e, bytes_ok data -> decode_frame data = mkDecode DS_OK fr n e ->
     data = encode_frame fr kProtocolVersion /\ bsize (fr_payload fr) <= kMaxPayloadBytes /\
     n = bsize data).
Proof. split; [apply decode_encode | apply decode_ok_canonical]. Qed.

Lemma length_encode_frame f :
  bsize (fr_payload f) <= kMaxPayloadBytes ->
  length (encode_frame f kProtocolVersion) = (16 + length (fr_payload f))%nat.
Proof.
  intros Hs. unfold encode_frame. rewrite bool_decide_false by lia. cbv zeta.
  rewrite !length_app, length_frame_prefix. done.
Qed.

Lemma store_u32_inj a b : in_u32 a -> in_u32 b -> store_u32 a = store_u32 b -> a = b.
Proof.
  intros Ha Hb Heq. rewrite <- (load_u32_store a []), <- (load_u32_store b []) by done.
  by rewrite Heq.
Qed.

(** The three segments of an encoded frame. *)
Lemma encode_segments f :
  bytes_ok (fr_payload f) -> bsize (fr_payload f) <= kMaxPayloadBytes ->
  let e := encode_frame f kProtocolVersion in
  bytes_ok (take 12 e ++ drop 16 e) /\
  take 4 (drop 12 e) = store_u32 (crc32 (take 12 e ++ drop 16 e)).
Proof.
  intros Hb Hs. cbv zeta. unfold encode_frame. rewrite bool_decide_false by lia. cbv zeta.
  set (head := frame_prefix _ _ _).
  change (take 12 (head ++ ?x)) with head. split; [|done].
  apply Forall_app. split; [apply frame_prefix_ok | done].
Qed.

(** ** Corruption *)

(** The checksummed part of a buffer, and its checksum field. *)
Definition frame_body (e : bytes) : bytes := take 12 e ++ drop 16 e.
Definition frame_checksum (e : bytes) : bytes := take 4 (drop 12 e).

Lemma frame_split e : e = take 12 e ++ frame_checksum e ++ drop 16 e.
Proof.
  unfold frame_checksum. rewrite <- (drop_drop e 4 12 : _ = drop 16 e).
  by rewrite (take_drop 4 (drop 12 e)), take_drop.
Qed.

(** The window lies in the prefix, in the checksum, or in the payload. *)
Definition in_one_segment (start n : nat) : Prop :=
  (start + n <= 12 \/ (12 <= start /\ start + n <= 16) \/ 16 <= start)%nat.

(** Replacing a window inside one segment changes the body by the same window, with
    the checksum kept, or leaves the body alone. *)
Lemma segment_cases pre u v post :
  length u = length v -> in_one_segment (length pre) (length u) ->
  (exists a b, frame_body (pre ++ u ++ post) = a ++ u ++ b /\
               frame_body (pre ++ v ++ post) = a ++ v ++ b /\
               frame_checksum (pre ++ u ++ post) = frame_checksum (pre ++ v ++ post)) \/
  frame_body (pre ++ u ++ post) = frame_body (pre ++ v ++ post) /\
  take 12 (pre ++ u ++ post) = take 12 (pre ++ v ++ post) /\
  drop 16 (pre ++ u ++ post) = drop 16 (pre ++ v ++ post).
Proof.
  intros Hlen [Hseg | [Hseg | Hseg]].
  - left. exists pre, (take (12 - length pre - length u) post ++ drop (16 - length pre - length u) post).
    unfold frame_body, frame_checksum.
    rewrite !(take_app_ge pre), !(take_app_ge u), !(take_app_ge v) by lia.
    rewrite !(drop_app_ge pre), !(drop_app_ge u), !(drop_app_ge v) by lia.
    rewrite <- Hlen, <- !app_assoc. done.
  - right. unfold frame_body. rewrite !(take_app_le pre) by lia.
    rewrite !(drop_app_ge pre), !(drop_app_ge u), !(drop_app_ge v) by lia. by rewrite Hlen.
  - left. exists (take 12 pre ++ drop 16 pre), post. unfold frame_body, frame_checksum.
    rewrite !(take_app_le pre), !(drop_app_le pre) by lia.
    rewrite <- !app_assoc. split_and!; try done.
    rewrite !(take_app_le (drop 12 pre)) by (rewrite length_drop; lia). done.
Qed.

(** C30. Corruption within four consecutive bytes never goes unnoticed. Take any valid
    frame, encode it, and replace up to four consecutive bytes by others, inside the
    header prefix, inside the checksum field or inside the payload: the decoder never
    reports OK on the result, whatever the corrupted fields (length included) then
    say. *)
Theorem frame_corruption_detected f pre u v post :
  frame_ok f -> encode_frame f kProtocolVersion = pre ++ u ++ post ->
  bytes_ok v -> length u = length v -> (length u <= 4)%nat -> u <> v ->
  in_one_segment (length pre) (length u) ->
  dr_status (decode_frame (pre ++ v ++ post)) <> DS_OK.
Proof.
  intros [_ Hb Hs] Henc Hv Hlen H4 Hne Hseg Hst.
  destruct (encode_segments f Hb Hs) as [Hok Hcrc]. rewrite Henc in Hok, Hcrc.
  assert (bytes_ok (pre ++ u ++ post)) as Hall.
  { rewrite <- Henc. unfold encode_frame. rewrite bool_decide_false by lia. cbv zeta.
    apply Forall_app. split; [apply frame_prefix_ok|]. apply Forall_app.
    split; [apply store_u32_ok | done]. }
  pose proof Hall as Hall0. unfold bytes_ok in Hall0. rewrite !Forall_app in Hall0.
  destruct Hall0 as (Hpre & Hu & Hpost).
  assert (bytes_ok (pre ++ v ++ post)) as Hall'.
  { do 2 (apply Forall_app; split; [done|]). done. }
  destruct (decode_frame (pre ++ v ++ post)) as [st fr n err] eqn:Hdec. simpl in Hst. subst st.
  apply decode_ok_canonical in Hdec as (Henc' & Hs' & _); [|done].
  assert (bytes_ok (fr_payload fr)) as Hb'.
  { rewrite Henc' in Hall'. unfold encode_frame in Hall'.
    rewrite bool_decide_false in Hall' by lia. cbv zeta in Hall'.
    by apply Forall_app in Hall' as [_ [_ ?]%Forall_app]. }
  destruct (encode_segments fr Hb' Hs') as [Hok' Hcrc']. rewrite <- Henc' in Hok', Hcrc'.
  fold (frame_body (pre ++ u ++ post)) (frame_checksum (pre ++ u ++ post)) in Hok, Hcrc.
  fold (frame_body (pre ++ v ++ post)) (frame_checksum (pre ++ v ++ post)) in Hok', Hcrc'.
  destruct (segment_cases pre u v post Hlen Hseg) as
    [(a & b & Ha & Ha' & Hc) | (Hbody & H12 & H16)].
  - rewrite Hcrc, Hcrc' in Hc. apply store_u32_inj in Hc; [|by apply crc32_word..].
    rewrite Ha, Ha' in Hc. unfold bytes_ok in Hok. rewrite Ha, !Forall_app in Hok.
    destruct Hok as (? & ? & ?). exact (Hne (crc32_burst a u v b ltac:(done) Hu Hv ltac:(done) Hlen H4 Hc)).
  - assert (pre ++ u ++ post = pre ++ v ++ post) as Heq.
    { rewrite (frame_split (pre ++ u ++ post)), (frame_split (pre ++ v ++ post)).
      by rewrite H12, H16, Hcrc, Hcrc', Hbody. }
    apply app_inv_head, app_inv_tail in Heq. done.
Qed.

Lemma frame_corruption_detected_witness :
  dr_status (decode_frame (encode_frame (mkFrame FT_RESERVE [1; 2; 3]) 1)) = DS_OK /\
  dr_status (decode_frame (take 16 (encode_frame (mkFrame FT_RESERVE [1; 2; 3]) 1) ++ [1; 7; 3]))
    <> DS_OK.
Proof.
  split; [by vm_compute|].
  apply (frame_corruption_detected (mkFrame FT_RESERVE [1; 2; 3])
           (take 16 (encode_frame (mkFrame FT_RESERVE [1; 2; 3]) 1) ++ [1]) [2] [7] [3]);
    try (split; apply (bool_decide_unpack _); by vm_compute); try (by vm_compute);
    try discriminate.
  - apply (bool_decide_unpack _). by vm_compute.
  - simpl. lia.
  - right. right. by vm_compute; lia.
Defined.

(** A payload over the bound is lost. [encode_frame] keeps the header of an
    oversized frame with a zero length and a zero checksum and drops the payload; what
    it emits is 16 bytes that the decoder rejects with BAD_CHECKSUM, for every frame
    type: the receiver sees a transport error, never a wrong frame. *)
Theorem oversized_frame_rejected t payload :
  t ∈ frame_types -> bsize payload > kMaxPayloadBytes ->
  length (encode_frame (mkFrame t payload) kProtocolVersion) = 16%nat /\
  dr_status (decode_frame (encode_frame (mkFrame t payload) kProtocolVersion)) = DS_BAD_CHECKSUM.
Proof.
  intros Ht Hs. unfold encode_frame. cbn [fr_payload fr_type].
  rewrite bool_decide_true by done. split; [done|]. unfold frame_types in Ht.
  repeat (apply elem_of_cons in Ht as [-> | Ht]; [by vm_compute|]). by apply not_elem_of_nil in Ht.
Qed.

Lemma oversized_frame_rejected_witness :
  dr_status (decode_frame (encode_frame
    (mkFrame FT_QUERY_STATE_RESULT (replicate (Z.to_nat 65537) 0)) kProtocolVersion)) = DS_BAD_CHECKSUM.
Proof.
  refine (proj2 (oversized_frame_rejected FT_QUERY_STATE_RESULT (replicate (Z.to_nat 65537) 0) _ _)).
  - apply (bool_decide_unpack _). by vm_compute.
  - unfold bsize, kMaxPayloadBytes. rewrite length_replicate, Z2Nat.id by lia. lia.
Defined.
