(* ===== verification/Readers.v ===== *)
(** * Readers: decoding a buffer field by field

    The payload codec of the control plane ([control/codec.hpp]) and the persisted format
    ([core/persistence.cpp]) read a buffer the same way: a position moves forward over
    big-endian words, strings and counted sequences, and every step may refuse. A
    [Reader] is such a step. It answers with a value and the next position, with a
    refusal that carries what the caller reports (nothing in the codec, a message in the
    persisted format), or with a fault: a read outside the buffer.

    [reads r b v] says that [r] reads the value [v] from the bytes [b] wherever they stand
    in a buffer. It composes along the sequence of fields, and each round trip is proved
    by composing it. *)
From S2P Require Import Prelude.
From S2P Require Import Enums.
From S2P Require Import Crc.
From S2P Require Import Protocol.

(** ** Strings as bytes *)

Definition string_bytes (s : string) : bytes :=
  (fun c => Z.of_N (Ascii.N_of_ascii c)) <$> String.list_ascii_of_string s.
Definition bytes_string (b : bytes) : string :=
  String.string_of_list_ascii ((fun x => Ascii.ascii_of_N (Z.to_N x)) <$> b).

Lemma length_string_bytes s : length (string_bytes s) = String.length s.
Proof. unfold string_bytes. rewrite length_fmap. induction s; simpl; congruence. Qed.

Lemma string_bytes_ok s : bytes_ok (string_bytes s).
Proof.
  unfold string_bytes. apply Forall_fmap, Forall_true. intros c. unfold byte_ok. simpl.
  pose proof (Ascii.N_ascii_bounded c). lia.
Qed.

Lemma bytes_string_bytes s : bytes_string (string_bytes s) = s.
Proof.
  unfold bytes_string, string_bytes. rewrite <- list_fmap_compose.
  rewrite (list_fmap_ext _ id), list_fmap_id; [apply String.string_of_list_ascii_of_string|].
  intros _ c _. unfold compose. rewrite N2Z.id. apply Ascii.ascii_N_embedding.
Qed.

Lemma string_bytes_string b : bytes_ok b -> string_bytes (bytes_string b) = b.
Proof.
  intros Hb. unfold bytes_string, string_bytes.
  rewrite String.list_ascii_of_string_of_list_ascii, <- list_fmap_compose.
  rewrite <- (list_fmap_id b) at 2. apply list_fmap_ext. intros i x Hx. unfold compose.
  pose proof (Forall_lookup_1 _ _ _ _ Hb Hx) as Hr. unfold byte_ok in Hr.
  rewrite Ascii.N_ascii_embedding by lia. by rewrite Z2N.id by lia.
Qed.

(** ** The monad *)

Inductive Outcome (E A : Type) : Type :=
  | Got (v : A) (pos : Z)
  | Refused (e : E)
  | Fault.
Arguments Got {E A} _ _.
Arguments Refused {E A} _.
Arguments Fault {E A}.

Definition Reader (E A : Type) : Type := bytes -> Z -> Outcome E A.

Definition rret {E A} (v : A) : Reader E A := fun _ pos => Got v pos.
Definition rbind {E A B} (r : Reader E A) (k : A -> Reader E B) : Reader E B :=
  fun data pos =>
    match r data pos with
    | Got v pos' => k v data pos'
    | Refused e => Refused e
    | Fault => Fault
    end.
Notation "'read' x <- r ; k" := (rbind r (fun x => k))
  (at level 10, x name, r at level 100, k at level 200,
   format "'read'  x  <-  r ;  '//' k").

(** One packing helper of the protocol; a [false] is the refusal [e]. *)
Definition field {E A} (get : bytes -> Z -> Read A) (e : E) : Reader E A :=
  fun data pos =>
    match get data pos with
    | ReadOk v pos' => Got v pos'
    | ReadFail => Refused e
    | ReadFault => Fault
    end.

(** A check in the middle of a sequence of reads. *)
Definition check {E} (ok : bool) (e : E) : Reader E unit :=
  fun _ pos => if ok then Got tt pos else Refused e.

(** [for (i = 0; i < n; ++i) { read; push_back; }] *)
Fixpoint repeat_read {E A} (n : nat) (r : Reader E A) : Reader E (list A) :=
  match n with
  | O => rret []
  | S n' => read v <- r; read vs <- repeat_read n' r; rret (v :: vs)
  end.

(** [pos != size]: the buffer must be used up. *)
Definition at_end {E} (e : E) : Reader E unit :=
  fun data pos => if pos =? bsize data then Got tt pos else Refused e.

Definition run_reader {E A} (r : Reader E A) (data : bytes) : Outcome E A := r data 0.

Lemma rbind_assoc {E A B C} (r : Reader E A) (k : A -> Reader E B) (k' : B -> Reader E C) d p :
  rbind (rbind r k) k' d p = rbind r (fun x => rbind (k x) k') d p.
Proof. unfold rbind. by destruct (r d p). Qed.

(** ** Reading back *)

Section Reads.
Context {E : Type}.

(** [r] reads [v] from [b], whatever stands before and after it. *)
Definition reads {A} (r : Reader E A) (b : bytes) (v : A) : Prop :=
  forall pre post, bytes_ok (b ++ post) -> bsize (pre ++ b ++ post) <= UINT64_MAX ->
    r (pre ++ b ++ post) (bsize pre) = Got v (bsize (pre ++ b)).

Lemma reads_ret {A} (v : A) : reads (rret v) (concat []) v.
Proof. intros pre post _ _. simpl. by rewrite app_nil_r. Qed.

(** The rule of composition: a layout is the list of its fields. *)
Lemma reads_bind {A B} (r : Reader E A) (k : A -> Reader E B) b bs v w :
  reads r b v -> reads (k v) (concat bs) w -> reads (rbind r k) (concat (b :: bs)) w.
Proof.
  intros Hr Hk pre post Hok Hsz. unfold rbind. cbn [concat] in *.
  rewrite <- app_assoc in Hok, Hsz |- *. rewrite Hr by done.
  apply Forall_app in Hok as [_ Hok]. rewrite (app_assoc pre b) in Hsz |- *.
  rewrite Hk by done. by rewrite app_assoc.
Qed.

Lemma reads_check {B} (ok : bool) e (k : unit -> Reader E B) b w :
  ok = true -> reads (k tt) b w -> reads (rbind (check ok e) k) b w.
Proof. intros -> Hk pre post Hok Hsz. exact (Hk pre post Hok Hsz). Qed.

Lemma reads_read_at {A} n (get : bytes -> A) b v e :
  bsize b = n -> (forall post, bytes_ok (b ++ post) -> get (b ++ post) = v) ->
  reads (field (read_at n get) e) b v.
Proof.
  intros Hn Hg pre post Hok Hsz. unfold field.
  rewrite read_at_app by (done || unfold bsize in *; lia). by rewrite Hg.
Qed.

Lemma reads_u64 v e : in_u64 v -> reads (field get_u64 e) (put_u64 v) v.
Proof.
  intros Hv. apply reads_read_at; [done|]. intros post [_ Hp]%Forall_app.
  by apply load_u64_store.
Qed.

Lemma reads_u32 v e : in_u32 v -> reads (field get_u32 e) (put_u32 v) v.
Proof. intros Hv. apply reads_read_at; [done|]. intros post _. by apply load_u32_store. Qed.

Lemma reads_repeat_map {A B} (r : Reader E B) (put : A -> bytes) (f : A -> B) l :
  Forall (fun x => reads r (put x) (f x)) l ->
  reads (repeat_read (length l) r) (concat (put <$> l)) (f <$> l).
Proof.
  induction 1 as [|x l Hx Hl IH]; [apply reads_ret|].
  change (reads (read v <- r; read vs <- repeat_read (length l) r; rret (v :: vs))
            (put x ++ concat (put <$> l)) (f x :: (f <$> l))).
  rewrite <- (app_nil_r (concat _)).
  apply (reads_bind r _ (put x) [concat (put <$> l)] (f x)); [exact Hx|].
  apply (reads_bind _ _ (concat (put <$> l)) [] (f <$> l)); [exact IH | apply reads_ret].
Qed.

Lemma reads_repeat {A} (r : Reader E A) (put : A -> bytes) l :
  Forall (fun x => reads r (put x) x) l ->
  reads (repeat_read (length l) r) (concat (put <$> l)) l.
Proof. intros Hl. rewrite <- (list_fmap_id l) at 3. by apply (reads_repeat_map r put id). Qed.

(** [r] refuses with [e] at [b], whatever stands before and after it. *)
Definition refuses {A} (r : Reader E A) (b : bytes) (e : E) : Prop :=
  forall pre post, bytes_ok (b ++ post) -> bsize (pre ++ b ++ post) <= UINT64_MAX ->
    r (pre ++ b ++ post) (bsize pre) = Refused e.

Lemma refuses_check {B} (ok : bool) e (k : unit -> Reader E B) b :
  ok = false -> refuses (rbind (check ok e) k) b e.
Proof. by intros -> pre post _ _. Qed.

Lemma refuses_first {A B} (r : Reader E A) (k : A -> Reader E B) b bs e :
  refuses r b e -> refuses (rbind r k) (concat (b :: bs)) e.
Proof.
  intros Hr pre post Hok Hsz. unfold rbind. cbn [concat] in *.
  rewrite <- app_assoc in Hok, Hsz |- *. by rewrite Hr.
Qed.

Lemma refuses_bind {A B} (r : Reader E A) (k : A -> Reader E B) b bs v e :
  reads r b v -> refuses (k v) (concat bs) e -> refuses (rbind r k) (concat (b :: bs)) e.
Proof.
  intros Hr Hk pre post Hok Hsz. unfold rbind. cbn [concat] in *.
  rewrite <- app_assoc in Hok, Hsz |- *. rewrite Hr by done.
  apply Forall_app in Hok as [_ Hok]. rewrite (app_assoc pre b) in Hsz |- *. by apply Hk.
Qed.

(** A sequence with an element that is refused, all others being readable. *)
Lemma refuses_repeat {A B} (r : Reader E B) (put : A -> bytes) (f : A -> B) e l :
  Forall (fun x => reads r (put x) (f x) \/ refuses r (put x) e) l ->
  Exists (fun x => refuses r (put x) e) l ->
  refuses (repeat_read (length l) r) (concat (put <$> l)) e.
Proof.
  intros Hall. induction Hall as [|x l Hx Hall IH]; [by rewrite Exists_nil|].
  intros Hex. change (refuses (read v <- r; read vs <- repeat_read (length l) r; rret (v :: vs))
                        (put x ++ concat (put <$> l)) e).
  rewrite <- (app_nil_r (concat _)).
  destruct Hx as [Hx | Hx]; [|by apply (refuses_first r _ (put x) [concat (put <$> l)])].
  apply Exists_cons in Hex as [Hex | Hex];
    [by apply (refuses_first r _ (put x) [concat (put <$> l)])|].
  apply (refuses_bind r _ (put x) [concat (put <$> l)] (f x)); [done|].
  by apply (refuses_first _ _ (concat (put <$> l)) []), IH.
Qed.

Lemma refuses_run {A} (r : Reader E A) b e e' :
  refuses r b e -> bytes_ok b -> bsize b <= UINT64_MAX ->
  run_reader (read x <- r; read _ <- at_end e'; rret x) b = Refused e.
Proof.
  intros Hr Hok Hsz. specialize (Hr [] []). rewrite app_nil_r in Hr. simpl in Hr.
  unfold run_reader, rbind. change 0 with (bsize []). by rewrite Hr.
Qed.

(** A whole buffer. *)
Lemma reads_run {A} (r : Reader E A) b v e :
  reads r b v -> bytes_ok b -> bsize b <= UINT64_MAX ->
  run_reader (read x <- r; read _ <- at_end e; rret x) b = Got v (bsize b).
Proof.
  intros Hr Hok Hsz. specialize (Hr [] []). rewrite app_nil_r in Hr. simpl in Hr.
  unfold run_reader, rbind. change 0 with (bsize []). rewrite Hr by done.
  unfold at_end. by rewrite Z.eqb_refl.
Qed.

End Reads.
