(* ===== verification/Codec.v ===== *)
(** * The payload codec of the control plane ([control/codec.hpp])

    The payloads of PUBLISH_DEVICE, RESERVE, PUBLISH_POOL and PUBLISH_REGION. An encoder
    gives the bytes it appends to an empty vector, written as the list of its fields; a
    decoder takes the payload and the object it assigns to, and answers with the object
    it leaves. On a refusal the callers drop the object, so it is not part of the
    answer. *)
From S2P Require Import Prelude.
From S2P Require Import Identity.
From S2P Require Import Enums.
From S2P Require Import Records.
From S2P Require Import Crc.
From S2P Require Import Protocol.
From S2P Require Import Readers.

(** ** Strings *)

Definition put_str (s : string) : bytes :=
  put_u32 (u32 (Z.of_nat (String.length s))) ++
  (if String.eqb s "" then [] else string_bytes s).

Definition get_str (data : bytes) (pos : Z) : Read string :=
  match get_u32 data pos with
  | ReadOk n pos' =>
      if bool_decide (n > 65536) then ReadFail
      else read_at n (fun b => bytes_string (take (Z.to_nat n) b)) data pos'
  | ReadFail => ReadFail
  | ReadFault => ReadFault
  end.

(** The strings [get_str] accepts. *)
Definition str_fits (s : string) : Prop := Z.of_nat (String.length s) <= 65536.
#[export] Instance str_fits_dec s : Decision (str_fits s).
Proof. unfold str_fits. apply _. Defined.
#[global] Typeclasses Opaque str_fits.

(** The readers of the codec, whose refusals carry nothing. *)
Definition cu64 : Reader unit Z := field get_u64 tt.
Definition cu32 : Reader unit Z := field get_u32 tt.
Definition cstr : Reader unit string := field get_str tt.
Definition bool_word (b : bool) : Z := if b then 1 else 0.
Definition word_bool (w : Z) : bool := negb (w =? 0).

(** ** Devices *)

Definition encode_device (d : CxlDevice) : bytes :=
  concat
    [put_u64 (gen_value (dev_generation d));
     put_u64 (dev_total_physical_bytes d);
     put_u64 (dev_online_bytes d);
     put_str (id_str (dev_id d));
     put_str (id_str (dev_host d));
     put_u32 (enum_to_u32 (dev_volatility d));
     put_u32 (enum_to_u32 (dev_state d));
     put_u32 (enum_to_u32 (dev_provenance d));
     put_u32 (enum_to_u32 (econ_locality (dev_economics d)));
     put_u32 (enum_to_u32 (dev_accelerator_access d));
     put_u32 (bool_word (dev_evidence_current d));
     put_u32 (bool_word (bool_decide (dev_state d = DeviceState_ONLINE)))].

Definition econ_set_locality (e : AccessEconomics) (l : LocalityClass) : AccessEconomics :=
  mkEconomics l (econ_tier e) (econ_evidence_class e) (econ_provenance e)
    (econ_estimated_latency_ns e) (econ_estimated_bandwidth_mbps e) (econ_hop_count e)
    (econ_access_penalty_vs_local e) (econ_migration_cost_bytes e) (econ_failsafe_valid e)
    (econ_notes e).

Definition read_device (d : CxlDevice) : Reader unit CxlDevice :=
  read g <- cu64;
  read nbytes <- cu64;
  read online <- cu64;
  read id <- cstr;
  read host <- cstr;
  read vol <- cu32;
  read st <- cu32;
  read prov <- cu32;
  read loc <- cu32;
  read accel <- cu32;
  read evc <- cu32;
  read onl <- cu32;
  rret (mkDevice (mkId id) (mkGen g) (mkId (id +:+ "-boot")) ("control:" +:+ id)
    "VEND:0001 DEVI:0001" "Type-3" "memory" (mkId host) (dev_ports d) (dev_switch_ancestry d)
    nbytes online (enum_of_u32 vol) (dev_sharing d) (dev_multi_host_capable d)
    (dev_interleave_capable d) (enum_of_u32 accel) HealthState_HEALTHY
    (if word_bool onl then DeviceState_ONLINE else enum_of_u32 st) (dev_capabilities d)
    (econ_set_locality (dev_economics d) (enum_of_u32 loc)) (enum_of_u32 prov)
    (dev_evidence_generation d) (word_bool evc) (dev_firmware_metadata d) "multiprocess").

Definition decode_device (p : bytes) (d : CxlDevice) : Outcome unit CxlDevice :=
  run_reader (read x <- read_device d; read _ <- at_end tt; rret x) p.

(** ** Reservation requests *)

Definition encode_reserve (nbytes : Z) (consumer : string) : bytes :=
  concat [put_u64 nbytes; put_str consumer].

Definition read_reserve : Reader unit (Z * string) :=
  read nbytes <- cu64;
  read consumer <- cstr;
  rret (nbytes, consumer).

Definition decode_reserve (p : bytes) : Outcome unit (Z * string) :=
  run_reader (read x <- read_reserve; read _ <- at_end tt; rret x) p.

(** ** Pools *)

Definition put_pool_member (m : PoolMember) : bytes :=
  concat
    [put_str (id_str (mem_device m)); put_u64 (gen_value (mem_device_generation m));
     put_u64 (mem_nominal_bytes m); put_u32 (bool_word (mem_online m));
     put_u32 (bool_word (mem_health_ok m)); put_str (mem_failure_domain m);
     put_u32 (enum_to_u32 (mem_locality m))].

Definition get_pool_member : Reader unit PoolMember :=
  read dev <- cstr;
  read gen <- cu64;
  read nominal <- cu64;
  read onl <- cu32;
  read hok <- cu32;
  read fd <- cstr;
  read loc <- cu32;
  rret (mkMember (mkId dev) (mkGen gen) nominal (word_bool onl) (word_bool hok) fd
          (enum_of_u32 loc)).

Definition encode_pool (pid : PoolId) (gen : PoolGeneration) (members : list PoolMember) : bytes :=
  concat
    [put_str (id_str pid); put_u64 (gen_value gen); put_u32 (u32 (Z.of_nat (length members)));
     concat (put_pool_member <$> members)].

(** [members] is appended to. *)
Definition read_pool (members : list PoolMember)
    : Reader unit (PoolId * PoolGeneration * list PoolMember) :=
  read id <- cstr;
  read g <- cu64;
  read n <- cu32;
  read _ <- check (negb (bool_decide (n > 100000))) tt;
  read ms <- repeat_read (Z.to_nat n) get_pool_member;
  rret (mkId id, mkGen g, members ++ ms).

Definition decode_pool (p : bytes) (members : list PoolMember)
    : Outcome unit (PoolId * PoolGeneration * list PoolMember) :=
  run_reader (read x <- read_pool members; read _ <- at_end tt; rret x) p.

(** ** Regions *)

Definition encode_region (rid : RegionId) (gen : RegionGeneration) (pid : PoolId)
    (members : list DeviceId) (nbytes : Z) (loc : LocalityClass) (tier : TierClass)
    (st : RegionState) : bytes :=
  concat
    [put_str (id_str rid); put_u64 (gen_value gen); put_str (id_str pid);
     put_u32 (u32 (Z.of_nat (length members)));
     concat ((fun m => put_str (id_str m)) <$> members);
     put_u64 nbytes; put_u32 (enum_to_u32 loc); put_u32 (enum_to_u32 tier);
     put_u32 (enum_to_u32 st)].

(** The members are appended to those of the object. *)
Definition read_region (r : CxlRegion) : Reader unit CxlRegion :=
  read rid <- cstr;
  read g <- cu64;
  read pid <- cstr;
  read n <- cu32;
  read _ <- check (negb (bool_decide (n > 100000))) tt;
  read ms <- repeat_read (Z.to_nat n) (read m <- cstr; rret (mkId m));
  read nbytes <- cu64;
  read loc <- cu32;
  read tier <- cu32;
  read st <- cu32;
  let members := reg_member_devices r ++ ms in
  rret (mkRegion (mkId rid) (mkGen g) (mkId pid) members (reg_interleave_set r) nbytes
    (bool_decide (1 < length members)%nat) (enum_of_u32 st) (reg_decoders r) (reg_windows r)
    (reg_access_mode r) (reg_consumer_scope r) (enum_of_u32 loc) (enum_of_u32 tier)
    HealthState_HEALTHY (reg_reserved_bytes r) (reg_committed_bytes r) Provenance_SYNTHETIC
    (mkGen 1) true (reg_device_local r)).

Definition decode_region (p : bytes) (r : CxlRegion) : Outcome unit CxlRegion :=
  run_reader (read x <- read_region r; read _ <- at_end tt; rret x) p.

(** ** Round trips *)

Lemma put_str_bytes s :
  put_str s = put_u32 (u32 (Z.of_nat (String.length s))) ++ string_bytes s.
Proof. unfold put_str. by destruct (String.eqb_spec s "") as [->|]. Qed.

Lemma bsize_app a b : bsize (a ++ b) = bsize a + bsize b.
Proof. unfold bsize. rewrite length_app. lia. Qed.
Lemma bsize_nonneg a : 0 <= bsize a.
Proof. unfold bsize. lia. Qed.
Lemma bsize_put_u64 v : bsize (put_u64 v) = 8.
Proof. done. Qed.
Lemma bsize_put_u32 v : bsize (put_u32 v) = 4.
Proof. done. Qed.
Lemma bsize_put_str s : bsize (put_str s) = 4 + Z.of_nat (String.length s).
Proof. rewrite put_str_bytes, bsize_app, bsize_put_u32. unfold bsize. by rewrite length_string_bytes. Qed.

Lemma put_u64_ok v : bytes_ok (put_u64 v).
Proof. rewrite put_u64_be. apply be_store_ok. Qed.
Lemma put_u32_ok v : bytes_ok (put_u32 v).
Proof. apply store_u32_ok. Qed.
Lemma put_str_ok s : bytes_ok (put_str s).
Proof. rewrite put_str_bytes. apply Forall_app. split; [apply put_u32_ok | apply string_bytes_ok]. Qed.
Lemma concat_ok bs : Forall bytes_ok bs -> bytes_ok (concat bs).
Proof. induction 1; simpl; [constructor | by apply Forall_app]. Qed.

Create HintDb wire.
#[export] Hint Resolve put_u64_ok put_u32_ok put_str_ok : wire.
#[export] Hint Extern 2 (bytes_ok (concat _)) => apply concat_ok : wire.
#[export] Hint Extern 1 (Forall bytes_ok (_ :: _)) => constructor : wire.
#[export] Hint Extern 1 (Forall bytes_ok []) => constructor : wire.

Lemma reads_str {E} s (e : E) :
  Z.of_nat (String.length s) <= 65536 -> reads (field get_str e) (put_str s) s.
Proof.
  intros Hs pre post Hok Hsz. rewrite put_str_bytes in *. rewrite <- app_assoc in Hok, Hsz |- *.
  set (n := Z.of_nat (String.length s)) in *. rewrite u32_small in * by (unfold in_u32; lia).
  pose proof (reads_u32 n tt ltac:(unfold in_u32; lia) pre _ Hok Hsz) as Hn.
  unfold field in Hn |- *. unfold get_str.
  destruct (get_u32 _ _) as [n' p'| |] eqn:Hget; try done. injection Hn as -> ->.
  rewrite bool_decide_false by lia. rewrite (app_assoc pre) in Hsz |- *.
  rewrite read_at_app; [| lia | unfold bsize; by rewrite length_string_bytes | done].
  rewrite take_app_length' by (rewrite length_string_bytes; lia).
  by rewrite bytes_string_bytes, app_assoc.
Qed.

Lemma reads_done {E A} (v w : A) : v = w -> reads (E := E) (rret v) (concat []) w.
Proof. intros ->. apply reads_ret. Qed.

Lemma bool_word_word b : in_u32 (bool_word b).
Proof. by destruct b. Qed.
Lemma word_bool_word b : word_bool (bool_word b) = b.
Proof. by destruct b. Qed.
Lemma enum_word `{CxxEnum A} (e : A) : in_u32 (enum_to_u32 e).
Proof. apply u32_range. Qed.

#[export] Hint Resolve bool_word_word enum_word reads_u64 reads_u32 reads_str : wire.
#[export] Hint Extern 1 (in_u64 (gen_value _)) => assumption : wire.
Create Rewrite HintDb wire.
#[export] Hint Rewrite word_bool_word : wire.

(** Follows a reader along the fields of a layout. *)
Ltac read_fields :=
  unfold cu64, cu32, cstr;
  repeat first
    [ apply reads_done
    | apply reads_check
    | eapply reads_bind; [solve [auto with wire]|] ].

(** What a counted sequence of an encoding that fits leaves for its elements. *)
Lemma bsize_concat_elem {A} (put : A -> bytes) l x :
  x ∈ l -> bsize (put x) <= bsize (concat (put <$> l)).
Proof.
  intros Hx. induction l as [|y l IH]; [by apply elem_of_nil in Hx|].
  cbn [fmap list_fmap concat]. rewrite bsize_app.
  pose proof (bsize_nonneg (put y)). pose proof (bsize_nonneg (concat (put <$> l))).
  apply elem_of_cons in Hx as [-> | Hx]; [lia|]. specialize (IH Hx). unfold fmap in *. lia.
Qed.

Lemma bsize_concat_length {A} (put : A -> bytes) l :
  (forall x, 0 < bsize (put x)) -> Z.of_nat (length l) <= bsize (concat (put <$> l)).
Proof.
  intros Hp. induction l as [|y l IH]; [done|].
  cbn [fmap list_fmap concat length]. rewrite bsize_app. specialize (Hp y). unfold fmap in *. lia.
Qed.

(** Unfolds the size of a layout into the sizes of its fields. *)
Ltac layout_size H :=
  cbn [concat] in H;
  rewrite ?bsize_app, ?bsize_put_u64, ?bsize_put_u32, ?bsize_put_str in H.

(** *** Reservation requests *)

Lemma reads_reserve n c :
  in_u64 n -> Z.of_nat (String.length c) <= 65536 ->
  reads read_reserve (encode_reserve n c) (n, c).
Proof. intros Hn Hc. unfold read_reserve, encode_reserve. by read_fields. Qed.

(** *** Devices *)

(** The fields of a device that travel hold values of their types. *)
Record device_wire (d : CxlDevice) : Prop := {
  dw_generation : in_u64 (gen_value (dev_generation d));
  dw_total : in_u64 (dev_total_physical_bytes d);
  dw_online : in_u64 (dev_online_bytes d);
  dw_volatility : enum_canonical (dev_volatility d);
  dw_state : enum_canonical (dev_state d);
  dw_provenance : enum_canonical (dev_provenance d);
  dw_locality : enum_canonical (econ_locality (dev_economics d));
  dw_accelerator : enum_canonical (dev_accelerator_access d);
}.

(** The device a coordinator holds after publication: what travels comes from [d], the
    descriptive fields are fixed, the rest is that of the object [d0] assigned to. *)
Definition published_device (d d0 : CxlDevice) : CxlDevice :=
  mkDevice (dev_id d) (dev_generation d) (mkId (id_str (dev_id d) +:+ "-boot"))
    ("control:" +:+ id_str (dev_id d)) "VEND:0001 DEVI:0001" "Type-3" "memory" (dev_host d)
    (dev_ports d0) (dev_switch_ancestry d0) (dev_total_physical_bytes d) (dev_online_bytes d)
    (dev_volatility d) (dev_sharing d0) (dev_multi_host_capable d0) (dev_interleave_capable d0)
    (dev_accelerator_access d) HealthState_HEALTHY (dev_state d) (dev_capabilities d0)
    (econ_set_locality (dev_economics d0) (econ_locality (dev_economics d))) (dev_provenance d)
    (dev_evidence_generation d0) (dev_evidence_current d) (dev_firmware_metadata d0)
    "multiprocess".

Lemma mkId_str {T} (i : Id T) : mkId (id_str i) = i.
Proof. by destruct i. Qed.
Lemma mkGen_value {T} (g : Generation T) : mkGen (gen_value g) = g.
Proof. by destruct g. Qed.
#[export] Hint Rewrite @mkId_str @mkGen_value : wire.

Lemma reads_device d d0 :
  device_wire d -> Z.of_nat (String.length (id_str (dev_id d))) <= 65536 ->
  Z.of_nat (String.length (id_str (dev_host d))) <= 65536 ->
  reads (read_device d0) (encode_device d) (published_device d d0).
Proof.
  intros [] Hid Hhost. unfold read_device, encode_device. read_fields.
  autorewrite with wire. rewrite !enum_u32_round_trip by done. unfold published_device.
  f_equal. case_bool_decide; by simpl.
Qed.

(** *** Pools *)

Record member_wire (m : PoolMember) : Prop := {
  mw_generation : in_u64 (gen_value (mem_device_generation m));
  mw_nominal : in_u64 (mem_nominal_bytes m);
  mw_locality : enum_canonical (mem_locality m);
}.

Lemma reads_pool_member m :
  member_wire m -> bsize (put_pool_member m) <= kMaxPayloadBytes ->
  reads get_pool_member (put_pool_member m) m.
Proof.
  intros [] Hsz. unfold put_pool_member in *. layout_size Hsz. unfold kMaxPayloadBytes, bsize in Hsz.
  unfold get_pool_member.
  assert (Z.of_nat (String.length (id_str (mem_device m))) <= 65536) by lia.
  assert (Z.of_nat (String.length (mem_failure_domain m)) <= 65536) by lia.
  read_fields. autorewrite with wire. rewrite enum_u32_round_trip by done. by destruct m.
Qed.

Lemma reads_pool pid gen ms ms0 :
  gen_wf gen -> Forall member_wire ms -> bsize (encode_pool pid gen ms) <= kMaxPayloadBytes ->
  reads (read_pool ms0) (encode_pool pid gen ms) (pid, gen, ms0 ++ ms).
Proof.
  intros Hg Hms Hsz. unfold encode_pool in *. unfold kMaxPayloadBytes in Hsz.
  assert (Z.of_nat (length ms) <= bsize (concat (put_pool_member <$> ms))) as Hlen.
  { apply bsize_concat_length. intros m. unfold put_pool_member. cbn [concat].
    rewrite ?bsize_app, ?bsize_put_u64. unfold bsize. lia. }
  assert (forall m, m ∈ ms -> bsize (put_pool_member m) <= bsize (concat (put_pool_member <$> ms)))
    as Helem by (intros; by apply bsize_concat_elem).
  layout_size Hsz. pose proof (bsize_nonneg []).
  assert (Z.of_nat (String.length (id_str pid)) <= 65536) by lia.
  rewrite u32_small by (unfold in_u32; lia). unfold read_pool.
  assert (in_u32 (Z.of_nat (length ms))) by (unfold in_u32; lia).
  unfold cu64, cu32, cstr. do 3 (eapply reads_bind; [auto with wire|]).
  apply reads_check; [rewrite bool_decide_false by lia; done|].
  rewrite Nat2Z.id. eapply reads_bind.
  { apply reads_repeat. apply Forall_forall. intros m Hm. apply reads_pool_member.
    - by apply (Forall_forall member_wire ms).
    - unfold kMaxPayloadBytes. specialize (Helem m Hm). lia. }
  apply reads_done. by autorewrite with wire.
Qed.

(** *** Regions *)

(** The region a coordinator holds after publication, assigned over [r0]. *)
Definition published_region (rid : RegionId) (gen : RegionGeneration) (pid : PoolId)
    (members : list DeviceId) (nbytes : Z) (loc : LocalityClass) (tier : TierClass)
    (st : RegionState) (r0 : CxlRegion) : CxlRegion :=
  let ms := reg_member_devices r0 ++ members in
  mkRegion rid gen pid ms (reg_interleave_set r0) nbytes (bool_decide (1 < length ms)%nat) st
    (reg_decoders r0) (reg_windows r0) (reg_access_mode r0) (reg_consumer_scope r0) loc tier
    HealthState_HEALTHY (reg_reserved_bytes r0) (reg_committed_bytes r0) Provenance_SYNTHETIC
    (mkGen 1) true (reg_device_local r0).

Lemma reads_region rid gen pid ms n loc tier st r0 :
  gen_wf gen -> in_u64 n -> enum_canonical loc -> enum_canonical tier -> enum_canonical st ->
  bsize (encode_region rid gen pid ms n loc tier st) <= kMaxPayloadBytes ->
  reads (read_region r0) (encode_region rid gen pid ms n loc tier st)
    (published_region rid gen pid ms n loc tier st r0).
Proof.
  intros Hg Hn Hloc Htier Hst Hsz. unfold encode_region in *. unfold kMaxPayloadBytes in Hsz.
  set (put := fun m : DeviceId => put_str (id_str m)) in *.
  assert (Z.of_nat (length ms) <= bsize (concat (put <$> ms))) as Hlen.
  { apply bsize_concat_length. intros m. unfold put. rewrite bsize_put_str. lia. }
  assert (forall m, m ∈ ms -> bsize (put m) <= bsize (concat (put <$> ms)))
    as Helem by (intros; by apply bsize_concat_elem).
  layout_size Hsz. pose proof (bsize_nonneg []).
  assert (Z.of_nat (String.length (id_str pid)) <= 65536) by lia.
  assert (Z.of_nat (String.length (id_str rid)) <= 65536) by lia.
  rewrite u32_small by (unfold in_u32; lia). unfold read_region.
  assert (in_u32 (Z.of_nat (length ms))) by (unfold in_u32; lia).
  unfold cu64, cu32, cstr. do 4 (eapply reads_bind; [auto with wire|]).
  apply reads_check; [rewrite bool_decide_false by lia; done|].
  rewrite Nat2Z.id. eapply reads_bind.
  { apply reads_repeat. apply Forall_forall. intros m Hm. specialize (Helem m Hm).
    unfold put in *. rewrite bsize_put_str in Helem. rewrite <- (app_nil_r (put_str _)).
    eapply (reads_bind _ _ _ []); [apply reads_str; lia|]. apply reads_done.
    by autorewrite with wire. }
  do 4 (eapply reads_bind; [auto with wire|]). apply reads_done.
  unfold published_region. autorewrite with wire. by rewrite !enum_u32_round_trip.
Qed.

(** ** The encodings are well formed *)

Lemma encode_device_ok d : bytes_ok (encode_device d).
Proof. unfold encode_device. auto 20 with wire. Qed.
Lemma encode_reserve_ok n c : bytes_ok (encode_reserve n c).
Proof. unfold encode_reserve. auto with wire. Qed.
Lemma concat_fmap_ok {A} (put : A -> bytes) l :
  (forall x, bytes_ok (put x)) -> bytes_ok (concat (put <$> l)).
Proof. intros Hp. apply concat_ok, Forall_fmap, Forall_true. exact Hp. Qed.
Lemma put_pool_member_ok m : bytes_ok (put_pool_member m).
Proof. unfold put_pool_member. auto 20 with wire. Qed.
#[export] Hint Resolve put_pool_member_ok : wire.
Lemma encode_pool_ok pid gen ms : bytes_ok (encode_pool pid gen ms).
Proof.
  unfold encode_pool. apply concat_ok. rewrite !Forall_cons, Forall_nil.
  assert (bytes_ok (concat (put_pool_member <$> ms))) by (apply concat_fmap_ok; auto with wire).
  auto 20 with wire.
Qed.
Lemma encode_region_ok rid gen pid ms n loc tier st :
  bytes_ok (encode_region rid gen pid ms n loc tier st).
Proof.
  unfold encode_region. apply concat_ok. rewrite !Forall_cons, Forall_nil.
  assert (bytes_ok (concat ((fun m : DeviceId => put_str (id_str m)) <$> ms))) by (apply concat_fmap_ok; auto with wire).
  auto 20 with wire.
Qed.

(** A payload decodes to a value, and refuses any bytes after it. *)
Definition payload_decodes {A} (dec : bytes -> Outcome unit A) (p : bytes) (v : A) : Prop :=
  dec p = Got v (bsize p) /\
  forall extra, bytes_ok extra -> extra <> [] -> bsize (p ++ extra) <= UINT64_MAX ->
    dec (p ++ extra) = Refused tt.

Lemma reads_payload {A} (r : Reader unit A) p v :
  reads r p v -> bytes_ok p -> bsize p <= kMaxPayloadBytes ->
  payload_decodes (run_reader (read x <- r; read _ <- at_end tt; rret x)) p v.
Proof.
  intros Hr Hok Hsz. unfold kMaxPayloadBytes in Hsz.
  split; [apply reads_run; (done || unfold UINT64_MAX; lia)|].
  intros extra He Hne Hs. specialize (Hr [] extra). simpl in Hr.
  unfold run_reader, rbind. change 0 with (bsize []). rewrite Hr by (done || by apply Forall_app).
  unfold at_end. rewrite bsize_app.
  destruct (Z.eqb_spec (bsize p) (bsize p + bsize extra)) as [Heq|]; [|done].
  destruct extra; [done|]. unfold bsize in Heq. simpl in Heq. lia.
Qed.

(** C33. Every control payload that fits in a frame survives the trip. A device, a
    reservation request, a pool with its members and a region, whose integers are in
    range and whose enumerations hold any value of their underlying type (the decoders
    do not check that it names an enumerator), are encoded to payloads that decode to
    the published object: every field that travels is that of the sender, string lengths
    and counts never exceed what the decoder accepts, and the same payload with any bytes
    appended is refused. *)
Theorem codec_round_trip :
  (forall d d0, device_wire d -> bsize (encode_device d) <= kMaxPayloadBytes ->
     payload_decodes (fun p => decode_device p d0) (encode_device d) (published_device d d0)) /\
  (forall n c, in_u64 n -> bsize (encode_reserve n c) <= kMaxPayloadBytes ->
     payload_decodes decode_reserve (encode_reserve n c) (n, c)) /\
  (forall pid gen ms ms0, gen_wf gen -> Forall member_wire ms ->
     bsize (encode_pool pid gen ms) <= kMaxPayloadBytes ->
     payload_decodes (fun p => decode_pool p ms0) (encode_pool pid gen ms) (pid, gen, ms0 ++ ms)) /\
  (forall rid gen pid ms n loc tier st r0, gen_wf gen -> in_u64 n ->
     enum_canonical loc -> enum_canonical tier -> enum_canonical st ->
     bsize (encode_region rid gen pid ms n loc tier st) <= kMaxPayloadBytes ->
     payload_decodes (fun p => decode_region p r0) (encode_region rid gen pid ms n loc tier st)
       (published_region rid gen pid ms n loc tier st r0)).
Proof.
  split_and!.
  - intros d d0 Hd Hsz. apply reads_payload; [|apply encode_device_ok | done].
    unfold encode_device, kMaxPayloadBytes in Hsz. layout_size Hsz. pose proof (bsize_nonneg []).
    apply reads_device; [done | lia..].
  - intros n c Hn Hsz. apply reads_payload; [|apply encode_reserve_ok | done].
    unfold encode_reserve, kMaxPayloadBytes in Hsz. layout_size Hsz. pose proof (bsize_nonneg []).
    apply reads_reserve; [done | lia].
  - intros. apply reads_payload; [by apply reads_pool | apply encode_pool_ok | done].
  - intros. apply reads_payload; [by apply reads_region | apply encode_region_ok | done].
Qed.

Lemma codec_round_trip_witness :
  decode_pool
    (encode_pool (mkId "p-1") (mkGen 1)
       [mkMember (mkId "cxl-0") (mkGen 1) 4096 true true "rack-0" LocalityClass_SAME_HOST]) []
  = Got (mkId "p-1", mkGen 1,
         [mkMember (mkId "cxl-0") (mkGen 1) 4096 true true "rack-0" LocalityClass_SAME_HOST]) 66.
Proof.
  destruct codec_round_trip as (_ & _ & Hpool & _).
  refine (proj1 (Hpool (mkId "p-1") (mkGen 1) [_] [] _ _ _));
    [by vm_compute | repeat constructor; by vm_compute | by vm_compute].
Defined.

(** ** Lengths the payload does not have *)

(** [get_str] at a position where its length word stands. *)
Lemma get_str_cases pre n rest :
  0 <= n <= 65536 -> bsize (pre ++ put_u32 n ++ rest) <= UINT64_MAX ->
  get_str (pre ++ put_u32 n ++ rest) (bsize pre) =
    if bool_decide (n <= bsize rest)
    then ReadOk (bytes_string (take (Z.to_nat n) rest)) (bsize pre + 4 + n)
    else if bool_decide (bsize (pre ++ put_u32 n ++ rest) < n) then ReadFault else ReadFail.
Proof.
  intros Hn Hsz. unfold get_str, get_u32. rewrite read_at_app by done.
  assert (load_u32 (put_u32 n ++ rest) = n) as -> by (apply load_u32_store; unfold in_u32; lia).
  rewrite bool_decide_false by lia.
  rewrite read_at_cases by (done || (unfold UINT64_MAX; lia) || apply bsize_nonneg).
  assert (bsize (pre ++ put_u32 n) = bsize pre + 4) as -> by by rewrite bsize_app.
  assert (bsize (pre ++ put_u32 n ++ rest) = bsize pre + 4 + bsize rest) as ->
    by (rewrite !bsize_app, bsize_put_u32; lia).
  pose proof (bsize_nonneg rest). pose proof (bsize_nonneg pre).
  rewrite (bool_decide_false (_ < bsize pre + 4)) by lia.
  rewrite (bool_decide_ext (bsize pre + 4 + n <= _) (n <= bsize rest)) by lia.
  case_bool_decide; [|done]. do 3 f_equal. unfold bsize.
  rewrite app_assoc. apply drop_app_length'. rewrite length_app. simpl. lia.
Qed.

(** The first string of a payload, when its length word exceeds what is left. *)
Lemma cstr_overrun {A} pre n rest (k : string -> Reader unit A) :
  bsize rest < n <= 65536 -> bsize pre <= 24 ->
  rbind cstr k (pre ++ put_u32 n ++ rest) (bsize pre) =
    if bool_decide (bsize pre + 4 + bsize rest < n) then Fault else Refused tt.
Proof.
  intros Hn Hpre. pose proof (bsize_nonneg rest).
  assert (bsize (pre ++ put_u32 n ++ rest) = bsize pre + 4 + bsize rest) as Hsz
    by (rewrite !bsize_app, bsize_put_u32; lia).
  unfold rbind, cstr, field. rewrite get_str_cases by (unfold UINT64_MAX; lia).
  rewrite Hsz, (bool_decide_false (n <= _)) by lia. by case_bool_decide.
Qed.

Lemma cu64_over {A} pre v rest (k : Z -> Reader unit A) o :
  bsize (pre ++ put_u64 v ++ rest) <= UINT64_MAX ->
  (forall x, k x ((pre ++ put_u64 v) ++ rest) (bsize (pre ++ put_u64 v)) = o) ->
  rbind cu64 k (pre ++ put_u64 v ++ rest) (bsize pre) = o.
Proof.
  intros Hsz Hk. unfold rbind, cu64, field, get_u64. rewrite read_at_app by done.
  by rewrite app_assoc.
Qed.

(** C34. A declared string length is not checked against short payloads. When the length
    word of the first string of a RESERVE, PUBLISH_POOL, PUBLISH_REGION or
    PUBLISH_DEVICE payload is at most 65536 but larger than the whole payload, the
    subtraction in the bounds check wraps around and the decoder copies that many bytes
    from past the end of the payload instead of refusing; when it exceeds only what is
    left of the payload, it refuses. *)
Theorem declared_length_overread n rest :
  bsize rest < n <= 65536 ->
  (forall nbytes, decode_reserve (put_u64 nbytes ++ put_u32 n ++ rest) =
     if bool_decide (12 + bsize rest < n) then Fault else Refused tt) /\
  (forall ms0, decode_pool (put_u32 n ++ rest) ms0 =
     if bool_decide (4 + bsize rest < n) then Fault else Refused tt) /\
  (forall r0, decode_region (put_u32 n ++ rest) r0 =
     if bool_decide (4 + bsize rest < n) then Fault else Refused tt) /\
  (forall g total online d0,
     decode_device ((put_u64 g ++ put_u64 total ++ put_u64 online) ++ put_u32 n ++ rest) d0 =
     if bool_decide (28 + bsize rest < n) then Fault else Refused tt).
Proof.
  intros Hn. pose proof (bsize_nonneg rest).
  assert (Hb : forall pre, bsize pre <= 24 -> bsize (pre ++ put_u32 n ++ rest) <= UINT64_MAX).
  { intros pre Hp. rewrite !bsize_app, bsize_put_u32. unfold UINT64_MAX. lia. }
  split_and!.
  - intros nbytes. unfold decode_reserve, run_reader, read_reserve. rewrite rbind_assoc.
    apply (cu64_over []); [by apply (Hb (put_u64 nbytes))|]. intros x.
    rewrite rbind_assoc. by apply (cstr_overrun (put_u64 nbytes)).
  - intros ms0. unfold decode_pool, run_reader, read_pool. rewrite rbind_assoc.
    by apply (cstr_overrun []).
  - intros r0. unfold decode_region, run_reader, read_region. rewrite rbind_assoc.
    by apply (cstr_overrun []).
  - intros g total online d0. unfold decode_device, run_reader, read_device.
    rewrite <- !app_assoc.
    specialize (Hb (put_u64 g ++ put_u64 total ++ put_u64 online)). rewrite rbind_assoc.
    apply (cu64_over []); [by apply Hb|]. intros x. rewrite rbind_assoc.
    apply (cu64_over (put_u64 g)); [by apply Hb|]. intros y. rewrite rbind_assoc.
    apply (cu64_over (put_u64 g ++ put_u64 total)); [by apply Hb|]. intros z. rewrite rbind_assoc.
    by apply (cstr_overrun ((put_u64 g ++ put_u64 total) ++ put_u64 online)).
Qed.

Lemma declared_length_overread_witness :
  decode_reserve (put_u64 4096 ++ put_u32 65536 ++ [99]) = Fault.
Proof. refine (proj1 (declared_length_overread 65536 [99] _) 4096). by vm_compute. Defined.
