(* ===== verification/Decoding.v ===== *)
(** * What the decoders of the control plane can produce

    A type discipline for readers: whatever bytes a peer sends, a decoder that accepts
    them yields integers of the width of their fields, strings within the bound and
    enumerations with a value of their underlying type. The engine relies on it. *)
From S2P Require Import Prelude.
From S2P Require Import Identity.
From S2P Require Import Enums.
From S2P Require Import Records.
From S2P Require Import Crc.
From S2P Require Import Protocol.
From S2P Require Import Readers.
From S2P Require Import Codec.

(** [r] yields only values that satisfy [P], on any bytes. *)
Definition yields {E A} (r : Reader E A) (P : A -> Prop) : Prop :=
  forall data pos v pos', bytes_ok data -> 0 <= pos -> r data pos = Got v pos' -> P v /\ 0 <= pos'.

Section Yields.
Context {E : Type}.

Lemma yields_ret {A} (v : A) (P : A -> Prop) : P v -> yields (E := E) (rret v) P.
Proof. intros Hv data pos w pos' _ Hpos [= <- <-]. done. Qed.

Lemma yields_bind {A B} (r : Reader E A) (k : A -> Reader E B) (P : A -> Prop) (Q : B -> Prop) :
  yields r P -> (forall v, P v -> yields (k v) Q) -> yields (rbind r k) Q.
Proof.
  intros Hr Hk data pos w pos' Hd Hpos. unfold rbind.
  destruct (r data pos) as [v pos1| |] eqn:Hv; try done.
  destruct (Hr _ _ _ _ Hd Hpos Hv) as [HP Hpos1]. by apply (Hk v HP).
Qed.

Lemma yields_check ok (e : E) : yields (check ok e) (fun _ => ok = true).
Proof. intros data pos v pos' _ Hpos. unfold check. destruct ok; [|done]. intros [= _ <-]. done. Qed.

Lemma yields_at_end (e : E) : yields (at_end e) (fun _ => True).
Proof. intros data pos v pos' _ Hpos. unfold at_end. case_match; [|done]. intros [= _ <-]. done. Qed.

Lemma yields_repeat {A} n (r : Reader E A) (P : A -> Prop) :
  yields r P -> yields (repeat_read n r) (fun l => length l = n /\ Forall P l).
Proof.
  intros Hr. induction n as [|n IH]; cbn [repeat_read]; [by apply yields_ret|].
  eapply yields_bind; [exact Hr|]. intros v Hv. eapply yields_bind; [exact IH|].
  intros vs [Hl Hvs]. apply yields_ret. simpl. split; [by rewrite Hl | by constructor].
Qed.

Lemma yields_read_at {A} n (get : bytes -> A) (e : E) (P : A -> Prop) :
  0 <= n ->
  (forall b, bytes_ok b -> n <= bsize b -> P (get b)) -> yields (field (read_at n get) e) P.
Proof.
  intros Hn Hget data pos v pos' Hd Hpos. unfold field, read_at.
  destruct (_ || _); [done|]. case_bool_decide as Hin; [done|]. intros [= <- <-]. split; [|lia].
  apply Hget; [by apply Forall_drop|]. unfold bsize in *. rewrite length_drop. lia.
Qed.

Lemma yields_u64 (e : E) : yields (field get_u64 e) in_u64.
Proof.
  apply yields_read_at; [done|]. intros b Hb Hl. unfold bsize in Hl. rewrite load_u64_be by (done || lia).
  assert (bytes_ok (take 8 b)) as Ht by (by apply Forall_take).
  pose proof (be_load_bound _ Ht) as Hub. pose proof (be_load_nonneg _ Ht).
  rewrite length_take_le in Hub by lia. unfold in_u64, UINT64_MAX.
  change (2 ^ (8 * Z.of_nat 8)) with (2 ^ 64) in Hub. lia.
Qed.

Lemma yields_u32 (e : E) : yields (field get_u32 e) in_u32.
Proof.
  apply yields_read_at; [done|]. intros b Hb Hl. unfold bsize in Hl.
  apply be_load_u32_range; [lia | done].
Qed.

Lemma length_bytes_string b : String.length (bytes_string b) = length b.
Proof. unfold bytes_string. induction b; simpl; [done | by f_equal]. Qed.

Lemma yields_str (e : E) :
  yields (field get_str e) str_fits.
Proof.
  intros data pos v pos' Hd Hpos. unfold field, get_str.
  destruct (get_u32 data pos) as [n pos1| |] eqn:Hn; try done.
  case_bool_decide as Hmax; [done|]. intros Hr.
  destruct (yields_u32 e data pos n pos1 Hd Hpos) as [Hu Hp1]; [unfold field; by rewrite Hn|].
  unfold in_u32 in Hu.
  refine (yields_read_at n (fun b => bytes_string (take (Z.to_nat n) b)) e str_fits _ _ data pos1
            v pos' Hd Hp1 Hr); [lia|].
  intros b _ _. unfold str_fits. rewrite length_bytes_string, length_take. lia.
Qed.
End Yields.

#[export] Hint Resolve yields_u64 yields_u32 yields_str yields_check yields_repeat : wire.

(** Follows a reader, keeping what each field yields. *)
Ltac yield_fields :=
  unfold cu64, cu32, cstr;
  repeat (eapply yields_bind; [solve [eauto with wire]|]; let H := fresh "Hf" in intros ? H);
  try apply yields_ret.

Lemma yields_run {A} (r : Reader unit A) (P : A -> Prop) data v n :
  yields r P -> bytes_ok data ->
  run_reader (read x <- r; read _ <- at_end tt; rret x) data = Got v n -> P v.
Proof.
  intros Hr Hd Hrun.
  assert (yields (read x <- r; read _ <- at_end tt; rret x) P) as Hall.
  { eapply yields_bind; [exact Hr|]. intros x Hx. eapply yields_bind; [apply yields_at_end|].
    intros _ _. by apply yields_ret. }
  by destruct (Hall data 0 v n Hd ltac:(done) Hrun).
Qed.

(** ** Control payloads *)

Lemma yields_device d0 :
  yields (read_device d0)
    (fun d => device_wire d /\ str_fits (id_str (dev_id d)) /\ str_fits (id_str (dev_host d))).
Proof.
  unfold read_device. yield_fields. split; [|done].
  split; try done; try exact (enum_of_u32_canonical _).
  cbn [dev_state]. destruct (word_bool v10); [by vm_compute | exact (enum_of_u32_canonical _)].
Qed.

(** What a decoded pool member carries. *)
Definition member_decoded (m : PoolMember) : Prop :=
  member_wire m /\ str_fits (id_str (mem_device m)) /\ str_fits (mem_failure_domain m).

Lemma yields_pool_member : yields get_pool_member member_decoded.
Proof.
  unfold get_pool_member. yield_fields. split; [|done].
  split; try done. exact (enum_of_u32_canonical _).
Qed.

(** A list that was lengthened by at most as many elements as the decoders accept. *)
Definition lengthened {A} (P : A -> Prop) (old new : list A) : Prop :=
  exists l, new = old ++ l /\ Forall P l /\ Z.of_nat (length l) <= 100000.

(** The members of a count that was checked. *)
Lemma yields_members {A B} (old : list A) n (r : Reader unit A) (k : list A -> Reader unit B) P Q :
  in_u32 n -> n <= 100000 -> yields r P ->
  (forall ms, lengthened P old (old ++ ms) -> yields (k ms) Q) ->
  yields (rbind (repeat_read (Z.to_nat n) r) k) Q.
Proof.
  intros Hu Hn Hr Hk. eapply yields_bind; [by apply yields_repeat|]. intros ms [Hl Hms].
  apply Hk. exists ms. split_and!; [done..|]. unfold in_u32 in Hu. lia.
Qed.

Lemma yields_pool ms0 :
  yields (read_pool ms0)
    (fun '(pid, gen, ms) => str_fits (id_str pid) /\ gen_wf gen /\ lengthened member_decoded ms0 ms).
Proof.
  unfold read_pool, cu64, cu32, cstr.
  do 3 (eapply yields_bind; [solve [eauto with wire]|]; intros ? ?).
  eapply yields_bind; [apply yields_check|]. intros _ Hn%negb_true_iff%bool_decide_eq_false.
  apply (yields_members ms0 _ _ _ member_decoded); [done | lia | apply yields_pool_member|].
  intros ms Hms. by apply yields_ret.
Qed.

(** What a decoded region carries. *)
Definition region_wire (r : CxlRegion) : Prop :=
  gen_wf (reg_generation r) /\ in_u64 (reg_region_capacity_bytes r) /\
  enum_canonical (reg_locality r) /\ enum_canonical (reg_tier r) /\
  enum_canonical (reg_state r) /\ str_fits (id_str (reg_id r)) /\
  str_fits (id_str (reg_pool r)).

Lemma yields_region r0 :
  yields (read_region r0) (fun r => region_wire r /\
    lengthened (fun m => str_fits (id_str m)) (reg_member_devices r0) (reg_member_devices r)).
Proof.
  unfold read_region, cu64, cu32, cstr.
  do 4 (eapply yields_bind; [solve [eauto with wire]|]; intros ? ?).
  eapply yields_bind; [apply yields_check|]. intros _ Hn%negb_true_iff%bool_decide_eq_false.
  apply (yields_members (reg_member_devices r0) _ _ _ (fun m : DeviceId => str_fits (id_str m)));
    [done | lia | |].
  { eapply yields_bind; [apply yields_str|]. intros s Hs. by apply yields_ret. }
  intros ms Hms.
  do 4 (eapply yields_bind; [solve [eauto with wire]|]; intros ? ?).
  apply yields_ret. split; [|done]. split_and!; try done; exact (enum_of_u32_canonical _).
Qed.

Lemma yields_reserve : yields read_reserve (fun x => in_u64 x.1 /\ str_fits x.2).
Proof. unfold read_reserve. yield_fields. done. Qed.

(** C31. The decoders are well typed on every payload. Whatever bytes a peer sends, a
    device, pool, region or reservation request that a decoder accepts has generations
    and byte counts in the range of 64 bits, enumerations with a value of their
    underlying type (named or not), and names of at most 64 KiB: of the device and its
    host, of the pool, of every member it has and of its failure domain, of the region, its
    pool and every member it names, and of the consumer. The members that were in the object
    before are kept and at most 100000 are added, each of which has its fields in range. *)
Theorem decoders_well_typed p n :
  bytes_ok p ->
  (forall d0 d, decode_device p d0 = Got d n ->
     device_wire d /\ str_fits (id_str (dev_id d)) /\ str_fits (id_str (dev_host d))) /\
  (forall ms0 pid gen ms, decode_pool p ms0 = Got (pid, gen, ms) n ->
     str_fits (id_str pid) /\ gen_wf gen /\
     exists l, ms = ms0 ++ l /\ Z.of_nat (length l) <= 100000 /\
       Forall (fun m => member_wire m /\ str_fits (id_str (mem_device m)) /\
                        str_fits (mem_failure_domain m)) l) /\
  (forall r0 r, decode_region p r0 = Got r n ->
     region_wire r /\
     exists l, reg_member_devices r = reg_member_devices r0 ++ l /\
       Z.of_nat (length l) <= 100000 /\ Forall (fun m => str_fits (id_str m)) l) /\
  (forall nbytes c, decode_reserve p = Got (nbytes, c) n -> in_u64 nbytes /\ str_fits c).
Proof.
  intros Hp. split_and!.
  - intros d0 d Hd. exact (yields_run _ _ p d n (yields_device d0) Hp Hd).
  - intros ms0 pid gen ms Hd.
    destruct (yields_run _ _ p _ n (yields_pool ms0) Hp Hd) as (? & ? & l & ? & ? & ?).
    split_and!; [done..|]. by exists l.
  - intros r0 r Hd.
    destruct (yields_run _ _ p r n (yields_region r0) Hp Hd) as (? & l & ? & ? & ?).
    split; [done|]. by exists l.
  - intros nbytes c Hd. exact (yields_run _ _ p _ n yields_reserve Hp Hd).
Qed.

(** A frame with two members, one of them with the largest size there is. *)
Definition two_members : bytes :=
  encode_pool (mkId "p") (mkGen 7)
    [mkMember (mkId "d-1") (mkGen 3) 4096 true true "fd-a" LocalityClass_SAME_HOST;
     mkMember (mkId "d-2") (mkGen 4) UINT64_MAX false true "fd-b" LocalityClass_UNKNOWN].

Lemma decoders_well_typed_witness :
  exists pid gen l n, decode_pool two_members [] = Got (pid, gen, l) n /\ length l = 2%nat /\
    Forall (fun m => member_wire m /\ str_fits (id_str (mem_device m)) /\
                     str_fits (mem_failure_domain m)) l.
Proof.
  destruct (decode_pool two_members []) as [[[pid gen] l] n| |] eqn:Hd;
    [|vm_compute in Hd; discriminate..].
  destruct (decoders_well_typed two_members n) as (_ & H & _ & _).
  - apply encode_pool_ok.
  - destruct (H [] pid gen l Hd) as (_ & _ & l' & Hl & _ & Hms). exists pid, gen, l, n.
    split; [reflexivity|]. split.
    + vm_compute in Hd. injection Hd as <- <- <- <-. reflexivity.
    + rewrite Hl. exact Hms.
Defined.
