(* ===== verification/Failover.v ===== *)
(** * Failover planning ([Fabric::plan_failover] of [core/fabric.cpp])

    What a plan promises, in terms of the records: the failure domain under which the failed
    device was entered in its pool, and the domain the engine knows of a candidate, which is
    what its device carries in the notes of its economics. *)
From S2P Require Import Prelude.
From S2P Require Import Identity.
From S2P Require Import Enums.
From S2P Require Import Records.
From S2P Require Import Selection.
From S2P Require Import Fabric.
From S2P Require Import Synthetic.
From S2P Require Import SelectionProps.
From S2P Require Import Invariants.
From S2P Require Import CapacitySafety.
From S2P Require Import Registry.
From S2P Require Import Crc.
From S2P Require Import Protocol.
From S2P Require Import Readers.
From S2P Require Import Codec.
From S2P Require Import Decoding.

(** ** Failure domains *)

(** The failure domain recorded for a device: that of the pool member that names it, or the
    empty one if it is in no pool. *)
Definition recorded_domain (s : StateSnapshot) (d : DeviceId) (dom : string) : Prop :=
  (exists k p m, st_pools s !! k = Some p /\ m ∈ pool_members p /\ mem_device m = d /\
     mem_failure_domain m = dom) \/
  (dom = "" /\ forall k p, st_pools s !! k = Some p -> d ∉ member_devices p).

(** A candidate is known to be in a domain if its device carries the domain's name. *)
Definition known_inside (dom : string) (c : Candidate) : Prop :=
  dom <> "" /\ exists d, cand_device_record c = Some d /\ econ_notes (dev_economics d) = dom.

Lemma same_domain_spec dom c : same_domain dom c = true <-> known_inside dom c.
Proof.
  unfold same_domain, known_inside. destruct (cand_device_record c) as [d|].
  - rewrite andb_true_iff, negb_true_iff, String.eqb_eq, String.eqb_neq. split.
    + intros [? ?]. split; [done|]. by exists d.
    + intros (? & d' & [= <-] & ?). done.
  - split; [done|]. by intros (_ & d & ? & _).
Qed.

(** What the loop over the members keeps: the last domain seen. *)
Lemma domain_of_members d ms acc :
  let dom := foldl (fun acc m => if bool_decide (mem_device m = d) then mem_failure_domain m else acc)
               acc ms in
  (exists m, m ∈ ms /\ mem_device m = d /\ mem_failure_domain m = dom) \/
  (dom = acc /\ d ∉ (mem_device <$> ms)).
Proof.
  revert acc. induction ms as [|m ms IH]; intros acc; cbn [foldl].
  { right. split; [done | apply not_elem_of_nil]. }
  destruct (IH (if bool_decide (mem_device m = d) then mem_failure_domain m else acc))
    as [(m' & Hm' & ? & ?) | [Heq Hno]].
  { left. exists m'. split; [by right | done]. }
  cbv zeta in *. rewrite Heq. case_bool_decide as Hd.
  - left. exists m. split; [by left | done].
  - right. split; [done|]. rewrite fmap_cons, not_elem_of_cons. split; [congruence | done].
Qed.

Lemma failed_domain_recorded s d : recorded_domain s d (failed_domain_of s d).
Proof.
  unfold failed_domain_of.
  assert (forall l acc,
    let dom := foldl (fun acc (kv : PoolId * CxlPool) =>
      foldl (fun acc m => if bool_decide (mem_device m = d) then mem_failure_domain m else acc)
        acc (pool_members kv.2)) acc l in
    (exists kv m, kv ∈ l /\ m ∈ pool_members kv.2 /\ mem_device m = d /\ mem_failure_domain m = dom) \/
    (dom = acc /\ forall kv, kv ∈ l -> d ∉ member_devices kv.2)) as Hl.
  { intros l. induction l as [|kv l IH]; intros acc; cbn [foldl].
    { right. split; [done|]. intros kv Hkv. by apply not_elem_of_nil in Hkv. }
    set (acc' := foldl _ acc (pool_members kv.2)). destruct (IH acc') as [(kv' & m & ? & ?) | [Heq Hno]].
    { left. exists kv', m. split; [by right | done]. }
    cbv zeta in *. rewrite Heq.
    destruct (domain_of_members d (pool_members kv.2) acc) as [(m & Hm & ? & ?) | [Ha Hn]].
    - left. exists kv, m. split_and!; [by left | done..].
    - right. split; [exact Ha|]. intros kv' [->|Hkv']%elem_of_cons; [exact Hn | by apply Hno]. }
  destruct (Hl (map_iter (st_pools s)) "") as [([k p] & m & Hkv & Hm & ? & ?) | [-> Hno]].
  - left. exists k, p, m. split; [by apply elem_of_map_iter | done].
  - right. split; [done|]. intros k p Hk. apply (Hno (k, p)). by apply elem_of_map_iter.
Qed.

(** Where a device is in one pool at most, and once, the domain is determined. *)
Lemma recorded_domain_unique f d dom dom' :
  members_exclusive f -> recorded_domain (state_ f) d dom -> recorded_domain (state_ f) d dom' -> dom = dom'.
Proof.
  intros [_ Hnd Hone].
  assert (forall k p, st_pools (state_ f) !! k = Some p -> members_at f k = Some (member_devices p)) as Hat
    by (intros k p Hk; unfold members_at; by rewrite Hk).
  assert (forall m p, m ∈ pool_members p -> mem_device m = d -> d ∈ member_devices p) as Hin
    by (intros m p Hm <-; apply list_elem_of_fmap; by exists m).
  intros [(k & p & m & Hk & Hm & Hd & <-) | [-> Hno]] [(k' & p' & m' & Hk' & Hm' & Hd' & <-) | [-> Hno']];
    [| destruct (Hno' k p Hk); eauto | destruct (Hno k' p' Hk'); eauto | done].
  assert (k = k') as <- by (eapply Hone; eauto). simplify_eq. f_equal.
  pose proof (Hnd k _ (Hat k p Hk)) as Hp. unfold member_devices in Hp.
  apply list_elem_of_lookup in Hm as [i Hi], Hm' as [j Hj].
  assert (i = j) as <-; [|congruence].
  apply (NoDup_lookup _ i j (mem_device m) Hp); rewrite list_lookup_fmap; [by rewrite Hi | rewrite Hj; simpl; by rewrite Hd'].
Qed.

(** ** The plan *)

Section Plan.
Context (f : Fabric) (pid : PoolId) (failed : DeviceId) (req : AdmissionRequest).
Let usable := replacement (state_ f) pid failed req.
Let dom := failed_domain_of (state_ f) failed.
Let passed := List.filter (fun c => sel_selected (evaluate_in_pool req c))
                (failover_candidates (state_ f) pid failed).

Lemma passed_usable c : c ∈ passed <-> usable c.
Proof. unfold passed. rewrite elem_of_list_filter. apply replacement_iff. Qed.

(** The three outcomes, by what the candidates are. *)
Lemma plan_cases :
  (exists c, usable c /\ ~ known_inside dom c /\
     plan_failover f pid failed req = mkPlan FailoverOutcome_FAILOVER (Some c) "cross-domain replacement found") \/
  (exists c, usable c /\ (forall c', usable c' -> known_inside dom c') /\
     plan_failover f pid failed req = mkPlan FailoverOutcome_DEGRADED (Some c)
       "only same-failure-domain replacement available -> degraded fallback") \/
  ((forall c, ~ usable c) /\
     plan_failover f pid failed req =
       mkPlan FailoverOutcome_REJECT None "no replacement candidate satisfies the request").
Proof.
  unfold plan_failover. fold dom. fold passed.
  destruct (List.filter (fun c => negb (same_domain dom c)) passed) as [|c1 cs1] eqn:Hx.
  - assert (forall c, usable c -> known_inside dom c) as Hall.
    { intros c Hc. apply same_domain_spec. destruct (same_domain dom c) eqn:E; [done|]. exfalso.
      apply (not_elem_of_nil c). rewrite <- Hx. apply elem_of_list_filter. by rewrite E, passed_usable. }
    destruct (List.filter (same_domain dom) passed) as [|c2 cs2] eqn:Hs.
    + right; right. split; [|done]. intros c Hc. apply (not_elem_of_nil c). rewrite <- Hs.
      apply elem_of_list_filter. rewrite passed_usable. split; [done|]. by apply same_domain_spec, Hall.
    + right; left. exists c2. split_and!; [|exact Hall | done].
      assert (c2 ∈ c2 :: cs2) as H by apply list_elem_of_here.
      rewrite <- Hs in H. apply elem_of_list_filter in H as [H _]. by apply passed_usable.
  - left. exists c1. assert (c1 ∈ c1 :: cs1) as H by apply list_elem_of_here.
    rewrite <- Hx in H. apply elem_of_list_filter in H as [Hc1 Hd1%negb_true_iff].
    split_and!; [by apply passed_usable | | done]. rewrite <- same_domain_spec. congruence.
Qed.
End Plan.

(** C28. Failover planning prefers another failure domain and says so. In every reachable
    state let [dom] be the failure domain under which the failed device is a member of its
    pool (empty if it is in none). A candidate counts as inside [dom] exactly if [dom] is
    not empty and the notes of its device's economics are that name. Then the plan is FAILOVER
    with a replacement that is not inside [dom] exactly when there is one; DEGRADED, with a
    replacement inside [dom], exactly when there are replacements and all lie inside it;
    and REJECT, with none, exactly when there is none. Every replacement is an admissible
    placement on a device other than the failed one (and in the named pool). *)
Theorem plan_failover_correct f pid failed req dom :
  reachable op_exclusive f -> recorded_domain (state_ f) failed dom ->
  let plan := plan_failover f pid failed req in
  let usable := replacement (state_ f) pid failed req in
  (plan_outcome plan = FailoverOutcome_FAILOVER <-> exists c, usable c /\ ~ known_inside dom c) /\
  (plan_outcome plan = FailoverOutcome_DEGRADED <->
     (exists c, usable c) /\ forall c, usable c -> known_inside dom c) /\
  (plan_outcome plan = FailoverOutcome_REJECT <-> forall c, ~ usable c) /\
  (forall c, plan_replacement plan = Some c ->
     usable c /\ cand_device c <> failed /\
     (~ known_inside dom c <-> plan_outcome plan = FailoverOutcome_FAILOVER)) /\
  (plan_replacement plan = None <-> plan_outcome plan = FailoverOutcome_REJECT).
Proof.
  intros Hf Hdom. cbv zeta.
  assert (dom = failed_domain_of (state_ f) failed) as ->.
  { eapply recorded_domain_unique; [by apply reachable_exclusive | done | apply failed_domain_recorded]. }
  assert (forall c, replacement (state_ f) pid failed req c -> cand_device c <> failed) as Hdev.
  { intros c (?&?&?&?&?&?&?&?&?&?&?&?&?&?& ->). done. }
  destruct (plan_cases f pid failed req) as
    [(c & Hc & Hout & ->) | [(c & Hc & Hall & ->) | [Hno ->]]]; cbn [plan_outcome plan_replacement].
  - split_and!; [split; [by exists c | done] | split; [done|] | split; [done|] | | done].
    + intros [_ Hall]. by destruct (Hout (Hall c Hc)).
    + intros Hnone. by destruct (Hnone c).
    + intros c' [= <-]. split_and!; [done | by apply Hdev | done].
  - split_and!; [split; [done|] | split; [|done] | split; [done|] | | done].
    + intros (c' & Hc' & Hout). by destruct (Hout (Hall c' Hc')).
    + intros _. split; [by exists c | done].
    + intros Hnone. by destruct (Hnone c).
    + intros c' [= <-]. split_and!; [done | by apply Hdev |]. split; [|done].
      intros Hout. by destruct (Hout (Hall c Hc)).
  - split_and!; [split; [done|] | split; [done|] | done | done | done].
    + intros (c & Hc & _). by destruct (Hno c).
    + intros [[c Hc] _]. by destruct (Hno c).
Qed.

(** dev-1 fails; dev-3 carries the name of its domain, dev-2 that of another. *)
Lemma plan_failover_correct_witness :
  exists c, replacement (state_ demo) (mkId "p-1") (mkId "dev-1") (request_for GiB (mkId "svc")) c /\
    ~ known_inside "fd-root-a" c.
Proof.
  apply (plan_failover_correct demo (mkId "p-1") (mkId "dev-1") (request_for GiB (mkId "svc")) "fd-root-a").
  - exact demo_reachable_exclusive.
  - replace "fd-root-a" with (failed_domain_of (state_ demo) (mkId "dev-1")) by (vm_compute; reflexivity).
    apply failed_domain_recorded.
  - vm_compute. reflexivity.
Defined.

(** ** Devices that were published *)

(** The notes do not travel: a published device has none. *)
Lemma yields_notes d0 :
  yields (read_device d0) (fun d => econ_notes (dev_economics d) = econ_notes (dev_economics d0)).
Proof. unfold read_device. yield_fields. reflexivity. Qed.

(** In an engine whose devices were published to the coordinator no failure domain is ever
    recognised: the codec does not send the notes that the plan compares, so that every
    candidate counts as outside, and no plan is DEGRADED, even if all members of all pools
    are in one domain. *)
Theorem published_never_degraded f pid failed req :
  (forall k d, st_devices (state_ f) !! k = Some d ->
     exists p n, bytes_ok p /\ decode_device p device_default = Got d n) ->
  plan_outcome (plan_failover f pid failed req) <> FailoverOutcome_DEGRADED.
Proof.
  intros Hpub. destruct (plan_cases f pid failed req) as
    [(c & _ & _ & ->) | [(c & Hc & Hall & ->) | [_ ->]]]; try done. exfalso.
  destruct (Hall c Hc) as (Hne & d & Hd & Hn).
  destruct Hc as (kp & p & kr & r & did & d' & _ & _ & _ & _ & _ & _ & Hdev & _ & ->).
  cbn [cand_device_record] in Hd. injection Hd as <-. destruct (Hpub did d' Hdev) as (bs & n & Hb & Hdec).
  pose proof (yields_run _ _ bs d' n (yields_notes device_default) Hb Hdec) as Hnotes.
  cbn in Hnotes, Hn. rewrite Hnotes in Hn. by rewrite <- Hn in Hne.
Qed.
