(* ===== verification/Net.v ===== *)
(** * The transport ([control/net.hpp])

    The loops over [::send] and [::recv] and the framing on top of them. A connection
    delivers a stream of bytes in portions of any size; a portion is what one [recv] finds
    waiting, and a [recv] takes at most what it asks for and leaves the rest. An empty
    portion stands for a close or an error, after which the loop gives up, and so does
    the end of the list. On the sending side the answers of the kernel are the numbers of
    bytes it accepts. Opening and closing sockets is modelled in [Sockets].

    The loops need not be structural in the source; here they take a bound on the number
    of system calls, and running out of it is an outcome of its own, so that termination
    is a theorem. *)
From S2P Require Import Prelude.
From S2P Require Import Crc.
From S2P Require Import Protocol.
From S2P Require Import Codec.

(** ** System calls *)

Definition Incoming : Type := list bytes.

(** [::recv(s, data, len, 0)] for [len > 0]: [None] is an answer of zero or less. *)
Definition sys_recv (len : nat) (inp : Incoming) : option bytes * Incoming :=
  match inp with
  | [] => (None, [])
  | [] :: inp' => (None, inp')
  | c :: inp' =>
      if bool_decide (length c <= len)%nat then (Some c, inp')
      else (Some (take len c), drop len c :: inp')
  end.

(** [::send(s, data, len, 0)] for [len > 0], with the kernel's answers to come. *)
Definition sys_send (data : bytes) (kernel : list Z) : option nat * list Z :=
  match kernel with
  | [] => (None, [])
  | n :: kernel' =>
      if bool_decide (n <= 0) then (None, kernel')
      else (Some (Nat.min (Z.to_nat n) (length data)), kernel')
  end.

(** ** Loops *)

Inductive Loop (A : Type) : Type :=
  | Finished (r : A)
  | Unfinished.
Arguments Finished {A} _.
Arguments Unfinished {A}.

(** [recv_exact]: the bytes received so far, if all of them came. *)
Fixpoint recv_exact (calls : nat) (len : nat) (acc : bytes) (inp : Incoming)
    : Loop (option bytes * Incoming) :=
  if bool_decide (len <= length acc)%nat then Finished (Some acc, inp)
  else match calls with
  | O => Unfinished
  | S calls' =>
      match sys_recv (len - length acc) inp with
      | (None, inp') => Finished (None, inp')
      | (Some c, inp') => recv_exact calls' len (acc ++ c) inp'
      end
  end.

(** [send_all]: whether everything was sent, and what went out. *)
Fixpoint send_all (calls : nat) (data wire : bytes) (kernel : list Z)
    : Loop (bool * bytes * list Z) :=
  match data with
  | [] => Finished (true, wire, kernel)
  | _ =>
      match calls with
      | O => Unfinished
      | S calls' =>
          match sys_send data kernel with
          | (None, kernel') => Finished (false, wire, kernel')
          | (Some n, kernel') => send_all calls' (drop n data) (wire ++ take n data) kernel'
          end
      end
  end.

(** ** Frames *)

Definition send_frame (calls : nat) (f : Frame) (kernel : list Z) : Loop (bool * bytes * list Z) :=
  send_all calls (encode_frame f kProtocolVersion) [] kernel.

Definition recv_frame (calls : nat) (inp : Incoming) : Loop (DecodeResult * Incoming) :=
  match recv_exact calls (Z.to_nat kFrameHeaderSize) [] inp with
  | Unfinished => Unfinished
  | Finished (None, inp') =>
      Finished (decode_error DS_TRUNCATED "peer closed or header truncated", inp')
  | Finished (Some hdr, inp') =>
      let len := load_u32 (drop 8 hdr) in
      if bool_decide (len > kMaxPayloadBytes)
      then Finished (decode_error DS_OVERSIZED "oversized frame", inp')
      else
        match recv_exact calls (Z.to_nat len) [] inp' with
        | Unfinished => Unfinished
        | Finished (None, inp'') =>
            Finished (decode_error DS_TRUNCATED "payload truncated", inp'')
        | Finished (Some payload, inp'') => Finished (decode_frame (hdr ++ payload), inp'')
        end
  end.

(** System calls that are enough for any frame: one per byte. *)
Definition frame_calls : nat := Z.to_nat (kFrameHeaderSize + kMaxPayloadBytes).

(** ** The loops end, and do what the stream says *)

(** What a stream delivers: everything up to the first close. *)
Fixpoint delivered (inp : Incoming) : bytes :=
  match inp with
  | [] | [] :: _ => []
  | c :: inp' => c ++ delivered inp'
  end.

Lemma sys_recv_spec len inp :
  (0 < len)%nat ->
  match sys_recv len inp with
  | (None, _) => delivered inp = []
  | (Some c, inp') => delivered inp = c ++ delivered inp' /\ (0 < length c <= len)%nat
  end.
Proof.
  intros Hlen. destruct inp as [|[|b c] inp]; [done|done|].
  unfold sys_recv. case_bool_decide as Hc.
  - split; [done|]. simpl in *. lia.
  - cbn [delivered]. split; [|rewrite length_take; simpl in *; lia].
    destruct (drop len (b :: c)) as [|x l] eqn:Hd.
    + exfalso. apply (f_equal length) in Hd. rewrite length_drop in Hd. simpl in *. lia.
    + cbn [delivered]. rewrite <- Hd, app_assoc, take_drop. done.
Qed.

(** Receiving is reading a prefix of what the stream delivers, however it is cut. *)
Lemma recv_exact_spec calls len acc inp :
  (len - length acc <= calls)%nat -> (length acc <= len)%nat ->
  exists inp',
    recv_exact calls len acc inp =
      Finished (if bool_decide (len - length acc <= length (delivered inp))%nat
                then Some (acc ++ take (len - length acc) (delivered inp)) else None, inp') /\
    ((len - length acc <= length (delivered inp))%nat ->
     delivered inp' = drop (len - length acc) (delivered inp)).
Proof.
  revert acc inp. induction calls as [|calls IH]; intros acc inp Hcalls Hacc.
  - assert (length acc = len) as Heq by lia. simpl. rewrite bool_decide_true by lia.
    exists inp. rewrite Heq, Nat.sub_diag, bool_decide_true by lia. simpl.
    by rewrite take_0, app_nil_r, drop_0.
  - cbn [recv_exact]. case_bool_decide as Hdone.
    { exists inp. replace (len - length acc)%nat with 0%nat by lia.
      rewrite bool_decide_true by lia. simpl. by rewrite take_0, app_nil_r, drop_0. }
    pose proof (sys_recv_spec (len - length acc) inp ltac:(lia)) as Hr.
    destruct (sys_recv (len - length acc) inp) as [[c|] inp1].
    + destruct Hr as [Hd Hc]. rewrite Hd.
      destruct (IH (acc ++ c) inp1) as (inp' & -> & Hrest); [rewrite length_app; lia..|].
      exists inp'. rewrite length_app in *. rewrite (length_app c).
      replace (len - (length acc + length c))%nat with (len - length acc - length c)%nat in * by lia.
      rewrite (bool_decide_ext (len - length acc - length c <= length (delivered inp1))%nat
                 (len - length acc <= length c + length (delivered inp1))%nat) by lia.
      split.
      * rewrite <- app_assoc. rewrite (take_app_ge c) by lia. done.
      * intros Hl. rewrite Hrest by lia. by rewrite (drop_app_ge c) by lia.
    + exists inp1. rewrite Hr. rewrite bool_decide_false by (simpl; lia). split; [done|].
      simpl. lia.
Qed.

(** The reference: one frame off the front of a stream of bytes. *)
Definition frame_off_stream (s : bytes) : DecodeResult * bytes :=
  if bool_decide (length s < 16)%nat
  then (decode_error DS_TRUNCATED "peer closed or header truncated", [])
  else
    let len := load_u32 (drop 8 (take 16 s)) in
    if bool_decide (len > kMaxPayloadBytes)
    then (decode_error DS_OVERSIZED "oversized frame", drop 16 s)
    else if bool_decide (length s < 16 + Z.to_nat len)%nat
    then (decode_error DS_TRUNCATED "payload truncated", [])
    else (decode_frame (take (16 + Z.to_nat len) s), drop (16 + Z.to_nat len) s).

Lemma recv_frame_reference calls inp :
  (frame_calls <= calls)%nat -> bytes_ok (delivered inp) ->
  exists inp',
    recv_frame calls inp = Finished ((frame_off_stream (delivered inp)).1, inp') /\
    (dr_status (frame_off_stream (delivered inp)).1 <> DS_TRUNCATED ->
     delivered inp' = (frame_off_stream (delivered inp)).2).
Proof.
  intros Hcalls Hok. unfold recv_frame, frame_off_stream.
  change (Z.to_nat kFrameHeaderSize) with 16%nat.
  assert (16 + Z.to_nat kMaxPayloadBytes <= calls)%nat as Hc.
  { transitivity frame_calls; [|done]. unfold frame_calls, kFrameHeaderSize, kMaxPayloadBytes. lia. }
  destruct (recv_exact_spec calls 16 [] inp) as (inp1 & -> & Hr1); [simpl; lia..|].
  simpl (16 - length [])%nat in *. set (s := delivered inp) in *.
  destruct (decide (length s < 16)%nat) as [Hs|Hs].
  { rewrite (bool_decide_false (16 <= _)%nat), (bool_decide_true (_ < 16)%nat) by lia.
    exists inp1. done. }
  rewrite (bool_decide_true (16 <= _)%nat), (bool_decide_false (_ < 16)%nat) by lia.
  cbn [app]. specialize (Hr1 ltac:(lia)).
  set (len := load_u32 (drop 8 (take 16 s))).
  assert (in_u32 len) as Hlen.
  { apply be_load_u32_range; [rewrite length_drop, length_take; lia|].
    by apply Forall_drop, Forall_take. }
  case_bool_decide as Hmax; [by exists inp1|].
  destruct (recv_exact_spec calls (Z.to_nat len) [] inp1) as (inp2 & -> & Hr2);
    [simpl; lia..|]. rewrite Nat.sub_0_r in *. rewrite Hr1 in *.
  rewrite length_drop in *. unfold in_u32 in Hlen.
  destruct (decide (length s < 16 + Z.to_nat len)%nat) as [Hp|Hp].
  - rewrite (bool_decide_false (Z.to_nat len <= _)%nat), (bool_decide_true (_ < _ + _)%nat) by lia.
    by exists inp2.
  - rewrite (bool_decide_true (Z.to_nat len <= _)%nat), (bool_decide_false (_ < _ + _)%nat) by lia.
    exists inp2. cbn [app]. rewrite take_take_drop. split; [done|].
    intros _. rewrite Hr2 by lia. rewrite drop_drop. f_equal. 
Qed.

(** ** Frames arrive as they were sent *)

Lemma encode_frame_ok f ver : bytes_ok (fr_payload f) -> bytes_ok (encode_frame f ver).
Proof.
  intros Hp. unfold encode_frame. case_bool_decide.
  - apply Forall_app. split; [apply frame_prefix_ok | apply store_u32_ok].
  - apply Forall_app. split; [apply frame_prefix_ok|].
    apply Forall_app. split; [apply store_u32_ok | done].
Qed.

Lemma encoded_length_word f rest :
  frame_ok f -> bytes_ok rest ->
  load_u32 (drop 8 (take 16 (encode_frame f kProtocolVersion ++ rest))) = bsize (fr_payload f).
Proof.
  intros [Ht Hb Hs] Hr. unfold encode_frame. rewrite bool_decide_false by lia. cbv zeta.
  set (head := frame_prefix _ _ _). rewrite <- !app_assoc.
  destruct (frame_type_range _ Ht) as [_ Htr]. unfold kMaxPayloadBytes in Hs.
  pose proof (bsize_nonneg (fr_payload f)).
  change (take 16 (head ++ ?x)) with (head ++ take 4 x).
  rewrite (take_app_le (store_u32 _)), take_ge by done.
  apply (header_fields kProtocolVersion (fr_type f) (bsize (fr_payload f)) _);
    [by vm_compute | done | unfold in_u32; lia | apply store_u32_ok].
Qed.

Lemma frame_off_encoded f rest :
  frame_ok f -> bytes_ok rest ->
  frame_off_stream (encode_frame f kProtocolVersion ++ rest) =
    (mkDecode DS_OK f (kFrameHeaderSize + bsize (fr_payload f)) "", rest).
Proof.
  intros Hf Hr. pose proof Hf as [Ht Hb Hs].
  pose proof (length_encode_frame f Hs) as Hl. unfold frame_off_stream.
  rewrite encoded_length_word by done. rewrite length_app, Hl.
  pose proof (bsize_nonneg (fr_payload f)).
  rewrite !bool_decide_false by (unfold bsize in *; lia).
  assert (16 + Z.to_nat (bsize (fr_payload f)) = length (encode_frame f kProtocolVersion))%nat
    as -> by (unfold bsize; lia).
  rewrite take_app_length, drop_app_length.
  pose proof (decode_encode f [] Hf (Forall_nil_2 _)) as Hd.
  rewrite app_nil_r, bool_decide_true in Hd by done. by rewrite Hd.
Qed.

(** [n] frames in a row, as the loop of a connection receives them. *)
Fixpoint recv_frames (n calls : nat) (inp : Incoming) : Loop (list DecodeResult * Incoming) :=
  match n with
  | O => Finished ([], inp)
  | S n' =>
      match recv_frame calls inp with
      | Unfinished => Unfinished
      | Finished (r, inp') =>
          match recv_frames n' calls inp' with
          | Unfinished => Unfinished
          | Finished (rs, inp'') => Finished (r :: rs, inp'')
          end
      end
  end.

Definition received (f : Frame) : DecodeResult :=
  mkDecode DS_OK f (kFrameHeaderSize + bsize (fr_payload f)) "".

Lemma recv_frames_stream fs calls inp rest :
  (frame_calls <= calls)%nat -> Forall frame_ok fs -> bytes_ok rest ->
  delivered inp = concat ((fun f => encode_frame f kProtocolVersion) <$> fs) ++ rest ->
  exists inp', recv_frames (length fs) calls inp = Finished (received <$> fs, inp') /\
    delivered inp' = rest.
Proof.
  intros Hc Hfs Hrest. revert inp. induction Hfs as [|f fs Hf Hfs IH]; intros inp Hd.
  { by exists inp. }
  cbn [fmap list_fmap concat] in Hd. rewrite <- app_assoc in Hd.
  assert (bytes_ok (concat ((fun f => encode_frame f kProtocolVersion) <$> fs) ++ rest)) as Htail.
  { apply Forall_app. split; [|done]. apply concat_ok, Forall_fmap.
    eapply Forall_impl; [exact Hfs|]. intros g [_ Hb _]. by apply encode_frame_ok. }
  destruct (recv_frame_reference calls inp Hc) as (inp1 & Hr & Hd1).
  { rewrite Hd. apply Forall_app. split; [|exact Htail]. apply encode_frame_ok. by destruct Hf. }
  rewrite Hd, frame_off_encoded in Hr, Hd1 by done. cbn [fst snd] in *.
  destruct (IH inp1) as (inp2 & Hrs & Hd2); [by apply Hd1|].
  exists inp2. split; [|done]. cbn [length recv_frames fmap list_fmap]. rewrite Hr.
  cbn [fst]. unfold fmap in Hrs. by rewrite Hrs.
Qed.

(** The sending loop: everything goes out, in order, or the loop reports a failure. *)
Lemma send_all_spec calls data wire kernel :
  (length data <= calls)%nat ->
  exists ok wire' kernel',
    send_all calls data wire kernel = Finished (ok, wire', kernel') /\
    (exists sent unsent, data = sent ++ unsent /\ wire' = wire ++ sent /\
       (ok = true <-> unsent = [])) /\
    (Forall (fun n => 0 < n) kernel -> (length data <= length kernel)%nat -> ok = true).
Proof.
  revert data wire kernel. induction calls as [|calls IH]; intros data wire kernel Hc.
  { destruct data; [|simpl in Hc; lia]. exists true, wire, kernel. split; [done|].
    split; [|done]. exists [], []. rewrite !app_nil_r. by repeat split. }
  destruct data as [|b data].
  { exists true, wire, kernel. split; [done|]. split; [|done]. exists [], []. rewrite !app_nil_r. by repeat split. }
  cbn [send_all]. destruct kernel as [|n kernel]; simpl sys_send.
  { exists false, wire, []. split; [done|]. split; [|simpl; lia].
    exists [], (b :: data). rewrite app_nil_r. by repeat split. }
  unfold sys_send. case_bool_decide as Hn.
  { exists false, wire, kernel. split; [done|]. split.
    - exists [], (b :: data). rewrite app_nil_r. by repeat split.
    - intros [? _]%Forall_cons. lia. }
  set (k := Nat.min _ _). assert (0 < k <= length (b :: data))%nat as Hk by (simpl in *; lia).
  destruct (IH (drop k (b :: data)) (wire ++ take k (b :: data)) kernel)
    as (ok & wire' & kernel' & Hs & (sent & unsent & Hd & Hw & Hiff) & Hgood);
    [rewrite length_drop; simpl in *; lia|].
  exists ok, wire', kernel'. split; [exact Hs|]. split.
  - exists (take k (b :: data) ++ sent), unsent. rewrite <- app_assoc, <- Hd, take_drop.
    split; [done|]. by rewrite Hw, <- app_assoc.
  - intros [_ Hp]%Forall_cons Hl. apply Hgood; [done|]. rewrite length_drop. simpl in *. lia.
Qed.

(** The two loops never run out of calls, and more calls change nothing. *)
Lemma recv_exact_calls calls calls' len acc inp :
  (len - length acc <= calls)%nat -> (calls <= calls')%nat -> (length acc <= len)%nat ->
  recv_exact calls' len acc inp = recv_exact calls len acc inp.
Proof.
  revert calls' acc inp. induction calls as [|calls IH]; intros calls' acc inp Hc Hcc Hacc.
  - simpl. destruct calls'; simpl; by rewrite bool_decide_true by lia.
  - destruct calls' as [|calls']; [lia|]. cbn [recv_exact].
    case_bool_decide as Hd; [done|].
    pose proof (sys_recv_spec (len - length acc) inp ltac:(lia)) as Hr.
    destruct (sys_recv _ inp) as [[c|] inp1]; [|done]. destruct Hr as [_ Hlc].
    apply IH; rewrite ?length_app; lia.
Qed.

Lemma send_all_calls calls calls' data wire kernel :
  (length data <= calls)%nat -> (calls <= calls')%nat ->
  send_all calls' data wire kernel = send_all calls data wire kernel.
Proof.
  revert calls' data wire kernel. induction calls as [|calls IH]; intros calls' data wire kernel Hc Hcc.
  - destruct data; [by destruct calls' | simpl in Hc; lia].
  - destruct calls' as [|calls']; [lia|]. destruct data as [|b data]; [done|]. cbn [send_all].
    destruct kernel as [|n kernel]; [done|]. unfold sys_send. case_bool_decide; [done|].
    apply IH; [|lia]. rewrite length_drop. simpl in *. lia.
Qed.

(** C32. The transport loops terminate. Whatever the kernel answers, receiving a frame
    makes at most one system call per byte of the largest frame, and sending one at most
    one per byte of its encoding: with that many calls both loops come to an end, and
    with more the outcome is the same. *)
Theorem transport_loops_terminate :
  (forall inp, bytes_ok (delivered inp) ->
     recv_frame frame_calls inp <> Unfinished /\
     forall calls, (frame_calls <= calls)%nat -> recv_frame calls inp = recv_frame frame_calls inp) /\
  (forall f kernel, let n := length (encode_frame f kProtocolVersion) in
     send_frame n f kernel <> Unfinished /\
     forall calls, (n <= calls)%nat -> send_frame calls f kernel = send_frame n f kernel).
Proof.
  split.
  - intros inp Hok. destruct (recv_frame_reference frame_calls inp ltac:(done) Hok) as (inp' & Hr & _).
    split; [by rewrite Hr|]. intros calls Hc. unfold recv_frame.
    assert (16 + Z.to_nat kMaxPayloadBytes <= frame_calls)%nat as Hfc
      by (unfold frame_calls, kFrameHeaderSize, kMaxPayloadBytes; lia).
    rewrite (recv_exact_calls frame_calls calls) by
      (done || (change (Z.to_nat kFrameHeaderSize) with 16%nat; simpl; lia)).
    destruct (recv_exact frame_calls _ [] inp) as [[[hdr|] inp1]|]; try done.
    case_bool_decide as Hmax; [done|].
    rewrite (recv_exact_calls frame_calls calls) by (done || (simpl; lia)). done.
  - intros f kernel n. unfold send_frame. split.
    + destruct (send_all_spec n (encode_frame f kProtocolVersion) [] kernel)
        as (? & ? & ? & -> & _); [done|]. done.
    + intros calls Hc. by apply send_all_calls.
Qed.

Lemma transport_loops_terminate_witness :
  recv_frame frame_calls [[67; 88]; []] <> Unfinished /\
  send_frame 16 (mkFrame FT_SHUTDOWN []) [3; 0] <> Unfinished.
Proof.
  destruct transport_loops_terminate as [Hr Hs]. split.
  - apply Hr. repeat constructor; discriminate.
  - apply (Hs (mkFrame FT_SHUTDOWN []) [3; 0]).
Defined.

(** C27. Frames arrive as they were sent, whatever the network does with their bytes. A
    send succeeds exactly when all its bytes went out, in order. When the bytes of valid
    frames arrive in portions cut anywhere, the receiving loop delivers exactly these
    frames in order and leaves what follows untouched; and what it answers on any stream
    of bytes is what the reference decoder takes off the front of that stream, however
    the stream was cut. *)
Theorem transport_preserves_frames :
  (forall f kernel, frame_ok f ->
     exists ok wire kernel',
       send_frame (length (encode_frame f kProtocolVersion)) f kernel = Finished (ok, wire, kernel') /\
       (ok = true -> wire = encode_frame f kProtocolVersion) /\
       (ok = false -> exists unsent, unsent <> [] /\ wire ++ unsent = encode_frame f kProtocolVersion)) /\
  (forall fs inp rest, Forall frame_ok fs -> bytes_ok rest ->
     delivered inp = concat ((fun f => encode_frame f kProtocolVersion) <$> fs) ++ rest ->
     exists inp', recv_frames (length fs) frame_calls inp = Finished (received <$> fs, inp') /\
       delivered inp' = rest) /\
  (forall inp, bytes_ok (delivered inp) ->
     exists inp', recv_frame frame_calls inp = Finished ((frame_off_stream (delivered inp)).1, inp')).
Proof.
  split_and!.
  - intros f kernel Hf.
    destruct (send_all_spec (length (encode_frame f kProtocolVersion))
      (encode_frame f kProtocolVersion) [] kernel)
      as (ok & wire & kernel' & Hs & (sent & unsent & Hd & -> & Hiff) & _); [done|].
    exists ok, sent, kernel'. split; [exact Hs|]. split.
    + intros Hok. apply Hiff in Hok. by rewrite Hd, Hok, app_nil_r.
    + intros ->. exists unsent. split; [|done]. intros He. apply Hiff in He. done.
  - intros fs inp rest Hfs Hr Hd. by apply recv_frames_stream.
  - intros inp Hok. destruct (recv_frame_reference frame_calls inp ltac:(done) Hok)
      as (inp' & Hr & _). by exists inp'.
Qed.

Lemma transport_preserves_frames_witness :
  exists inp',
    recv_frames 2 frame_calls
      ((fun b => [b]) <$> (encode_frame (mkFrame FT_ACK [1; 2]) kProtocolVersion
                           ++ encode_frame (mkFrame FT_SHUTDOWN []) kProtocolVersion ++ [7]))
    = Finished ([received (mkFrame FT_ACK [1; 2]); received (mkFrame FT_SHUTDOWN [])], inp') /\
    delivered inp' = [7].
Proof.
  destruct transport_preserves_frames as (_ & H & _).
  apply (H [mkFrame FT_ACK [1; 2]; mkFrame FT_SHUTDOWN []] _ [7]).
  - repeat constructor; try (by vm_compute); simpl; unfold byte_ok; lia.
  - repeat constructor; simpl; unfold byte_ok; lia.
  - vm_compute. reflexivity.
Defined.
