(* ===== verification/Sockets.v ===== *)
(** * Sockets ([control/net.hpp])

    Opening, accepting, connecting and closing, with the descriptors of the process as
    state and the answers of the kernel as parameters (the POSIX branch). What matters here
    is that no path loses a descriptor. *)
From S2P Require Import Prelude.

(** ** The kernel *)

(** The answers to the calls one operation makes. A negative number is a failure. *)
Record KernelAnswers : Set := mkAnswers {
  k_socket : Z;                       (** a new descriptor *)
  k_bind : Z -> Z;                    (** by port *)
  k_listen : Z;
  k_accept : Z;                       (** a new descriptor *)
  k_inet_pton : string -> option Z;   (** the address of a dotted string *)
  k_connect : Z -> Z -> Z;            (** by address and port *)
}.

(** A descriptor the kernel hands out was not open. *)
Definition answers_fresh (k : KernelAnswers) (fds : gset Z) : Prop :=
  (0 <= k_socket k -> k_socket k ∉ fds) /\ (0 <= k_accept k -> k_accept k ∉ fds).

Definition sys_open (fd : Z) (fds : gset Z) : gset Z := if bool_decide (0 <= fd) then {[fd]} ∪ fds else fds.
Definition sys_close (fd : Z) (fds : gset Z) : gset Z := fds ∖ {[fd]}.

(** ** [struct Socket] *)

Record Socket : Set := mkSocket { sock_s : Z }.

Definition socket_default : Socket := mkSocket (-1).
Definition socket_valid (s : Socket) : bool := bool_decide (0 <= sock_s s).

Definition socket_close (s : Socket) (fds : gset Z) : Socket * gset Z :=
  if socket_valid s then (mkSocket (-1), sys_close (sock_s s) fds) else (s, fds).

(** ** Operations: the result, the socket passed by reference, the descriptors *)

Definition listen_on (k : KernelAnswers) (port : Z) (out : Socket) (fds : gset Z)
    : bool * Socket * gset Z :=
  let ls := k_socket k in
  let fds1 := sys_open ls fds in
  if bool_decide (ls < 0) then (false, out, fds1)
  else if bool_decide (k_bind k port < 0) then (false, out, sys_close ls fds1)
  else if bool_decide (k_listen k < 0) then (false, out, sys_close ls fds1)
  else (true, mkSocket ls, fds1).

Definition accept_socket (k : KernelAnswers) (listener out : Socket) (fds : gset Z)
    : bool * Socket * gset Z :=
  let a := k_accept k in
  let fds1 := sys_open a fds in
  if bool_decide (a < 0) then (false, out, fds1) else (true, mkSocket a, fds1).

(** [inet_pton] leaves the zero address when the string is not one; its result is not
    looked at. *)
Definition connect_to (k : KernelAnswers) (host : string) (port : Z) (out : Socket) (fds : gset Z)
    : bool * Socket * gset Z :=
  let s := k_socket k in
  let fds1 := sys_open s fds in
  if bool_decide (s < 0) then (false, out, fds1)
  else
    let addr := default 0 (k_inet_pton k host) in
    if bool_decide (k_connect k addr port < 0) then (false, out, sys_close s fds1)
    else (true, mkSocket s, fds1).

(** ** No descriptor is lost *)

(** Either nothing happened, or one new descriptor is open and is the socket. *)
Definition opens_one (out : Socket) (fds : gset Z) (r : bool * Socket * gset Z) : Prop :=
  let '(ok, s, fds') := r in
  if ok then socket_valid s = true /\ sock_s s ∉ fds /\ fds' = {[sock_s s]} ∪ fds
  else s = out /\ fds' = fds.

Lemma sys_close_open fd fds : 0 <= fd -> fd ∉ fds -> sys_close fd (sys_open fd fds) = fds.
Proof. intros Hfd Hnew. unfold sys_close, sys_open. rewrite bool_decide_true by done. set_solver. Qed.

Lemma sys_open_failed fd fds : fd < 0 -> sys_open fd fds = fds.
Proof. intros. unfold sys_open. by rewrite bool_decide_false by lia. Qed.

Lemma opened_one out fd fds : 0 <= fd -> fd ∉ fds -> opens_one out fds (true, mkSocket fd, sys_open fd fds).
Proof.
  intros Hfd Hnew. unfold opens_one, socket_valid, sys_open. simpl.
  rewrite !bool_decide_true by done. done.
Qed.

(** Whatever the kernel answers, listening, accepting and connecting either fail, with the
    socket and the set of open descriptors as they were, or succeed with exactly one new
    descriptor, which is the socket; closing a socket closes exactly its descriptor, and
    closing it again does nothing. *)
Theorem sockets_not_leaked k fds port host listener out :
  answers_fresh k fds ->
  opens_one out fds (listen_on k port out fds) /\
  opens_one out fds (accept_socket k listener out fds) /\
  opens_one out fds (connect_to k host port out fds) /\
  (forall s fds', opens_one out fds (true, s, fds') -> socket_close s fds' = (socket_default, fds)) /\
  (forall s fds0, let '(s', fds1) := socket_close s fds0 in
     socket_close s' fds1 = (s', fds1) /\ fds1 ⊆ fds0).
Proof.
  intros [Hs Ha]. split_and!.
  - unfold listen_on. repeat case_bool_decide.
    + by rewrite sys_open_failed.
    + by rewrite sys_close_open by (lia || apply Hs; lia).
    + by rewrite sys_close_open by (lia || apply Hs; lia).
    + apply opened_one; [lia|]. apply Hs. lia.
  - unfold accept_socket. case_bool_decide; [by rewrite sys_open_failed|].
    apply opened_one; [lia|]. apply Ha. lia.
  - unfold connect_to. repeat case_bool_decide.
    + by rewrite sys_open_failed.
    + by rewrite sys_close_open by (lia || apply Hs; lia).
    + apply opened_one; [lia|]. apply Hs. lia.
  - intros s fds' (Hv & Hnew & ->). unfold socket_close. rewrite Hv. unfold socket_default.
    f_equal. unfold sys_close. set_solver.
  - intros s fds0. unfold socket_close. destruct (socket_valid s) eqn:Hv.
    + split; [done|]. unfold sys_close. set_solver.
    + rewrite Hv. done.
Qed.
