(* ===== verification/Persistence.v ===== *)
(** * The persisted format ([persistence/persistence.hpp], [core/persistence.cpp])

    The serialisation of the durable state: a layout of big-endian words, strings and
    counted sequences, closed by a CRC-32 of everything before it. A serialiser is the
    list of the fields it appends; a deserialiser is a [Reader] whose refusals carry the
    message the source reports. The reader of the source walks the payload without its
    last four bytes; here it walks that body as a buffer of its own, so a read past the
    body is a fault even where it would still fall into the footer. *)
From S2P Require Import Prelude.
From S2P Require Import Identity.
From S2P Require Import Enums.
From S2P Require Import Records.
From S2P Require Import Fabric.
From S2P Require Import Crc.
From S2P Require Import Protocol.
From S2P Require Import Readers.
From S2P Require Import Codec.

(** ** Writing *)

Definition w_str (s : string) : bytes :=
  put_u32 (u32 (Z.of_nat (String.length s))) ++ string_bytes s.
(** [put_u32(out, c.size()); for (x : c) ...] *)
Definition put_counted {A} (put : A -> bytes) (l : list A) : bytes :=
  concat [put_u32 (u32 (Z.of_nat (length l))); concat (put <$> l)].
Definition w_vec_str (v : list string) : bytes := put_counted w_str v.

Definition serialize_capability (cap : Capability) : bytes :=
  concat
    [put_u32 (enum_to_u32 (cap_klass cap)); put_u32 (enum_to_u32 (cap_state cap));
     put_u64 (cap_version cap); put_u32 (enum_to_u32 (cap_provenance cap));
     put_u64 (gen_value (cap_evidence_generation cap));
     put_u32 (bool_word (cap_evidence_current cap)); w_str (cap_constraints cap)].

Definition serialize_device (d : CxlDevice) : bytes :=
  let e := dev_economics d in
  concat
    [w_str (id_str (dev_id d)); put_u64 (gen_value (dev_generation d));
     w_str (id_str (dev_boot_id d)); w_str (dev_raw_identity d); w_str (dev_vendor_device_id d);
     w_str (dev_cxl_device_class d); w_str (dev_device_type d); w_str (id_str (dev_host d));
     w_vec_str []; w_vec_str [];
     put_u64 (dev_total_physical_bytes d); put_u64 (dev_online_bytes d);
     put_u32 (enum_to_u32 (dev_volatility d)); put_u32 (enum_to_u32 (dev_sharing d));
     put_u32 (bool_word (dev_multi_host_capable d));
     put_u32 (bool_word (dev_interleave_capable d));
     put_u32 (enum_to_u32 (dev_accelerator_access d)); put_u32 (enum_to_u32 (dev_provenance d));
     put_u64 (gen_value (dev_evidence_generation d));
     w_str (dev_firmware_metadata d); w_str (dev_lifecycle_note d);
     put_counted serialize_capability (map_iter (dev_capabilities d)).*2;
     put_u32 (enum_to_u32 (econ_locality e)); put_u32 (enum_to_u32 (econ_tier e));
     put_u32 (enum_to_u32 (econ_evidence_class e)); put_u32 (enum_to_u32 (econ_provenance e));
     put_u64 (econ_estimated_latency_ns e); put_u64 (econ_estimated_bandwidth_mbps e);
     put_u32 (econ_hop_count e); put_u64 (econ_migration_cost_bytes e);
     put_u32 (bool_word (econ_failsafe_valid e)); w_str (econ_notes e)].

Definition serialize_region (r : CxlRegion) : bytes :=
  concat
    [w_str (id_str (reg_id r)); put_u64 (gen_value (reg_generation r));
     w_str (id_str (reg_pool r));
     put_counted (fun m => w_str (id_str m)) (reg_member_devices r);
     w_str (reg_interleave_set r); put_u64 (reg_region_capacity_bytes r);
     put_u32 (bool_word (reg_interleaved r)); put_u32 (enum_to_u32 (reg_provenance r));
     put_u64 (gen_value (reg_evidence_generation r)); put_u32 (bool_word (reg_device_local r))].

Definition serialize_member (m : PoolMember) : bytes :=
  concat
    [w_str (id_str (mem_device m)); put_u64 (gen_value (mem_device_generation m));
     put_u64 (mem_nominal_bytes m); put_u32 (bool_word (mem_online m));
     put_u32 (bool_word (mem_health_ok m)); w_str (mem_failure_domain m);
     put_u32 (enum_to_u32 (mem_locality m))].

Definition serialize_pool (p : CxlPool) : bytes :=
  concat
    [w_str (id_str (pool_id p)); put_u64 (gen_value (pool_generation p));
     put_counted serialize_member (pool_members p);
     put_u64 (pool_total_governed_bytes p); put_u64 (pool_committed_bytes p);
     put_u64 (pool_reserved_bytes p); put_u64 (pool_draining_bytes p);
     put_u64 (pool_unavailable_bytes p); w_str (pool_admission_policy p);
     w_vec_str (pool_failure_domains p); put_u32 (enum_to_u32 (pool_locality_distribution p));
     put_u32 (enum_to_u32 (pool_health_summary p)); put_u32 (enum_to_u32 (pool_provenance p));
     put_u64 (gen_value (pool_evidence_generation p));
     put_u32 (bool_word (pool_evidence_current p)); w_str (pool_lifecycle_note p)].

(** Everything but the footer. *)
Definition serialize_body (st : PersistedState) : bytes :=
  concat
    [put_u64 (gen_value (ps_policy_generation st));
     put_counted serialize_device (map_iter (ps_devices st)).*2;
     put_counted serialize_region (map_iter (ps_regions st)).*2;
     put_counted serialize_pool (map_iter (ps_pools st)).*2].

Definition serialize_state (st : PersistedState) : string + bytes :=
  if bool_decide (Z.of_nat (size (ps_devices st)) > 100000)
     || bool_decide (Z.of_nat (size (ps_regions st)) > 100000)
     || bool_decide (Z.of_nat (size (ps_pools st)) > 100000)
  then inl "state exceeds persistence bounds"
  else let out := serialize_body st in inr (out ++ put_u32 (crc32 out)).

(** ** Reading *)

Definition r64 (err : string) : Reader string Z := field get_u64 err.
Definition r32 (err : string) : Reader string Z := field get_u32 err.

(** [Reader::str] *)
Definition rstr (err : string) : Reader string string :=
  read n <- r32 err;
  read _ <- check (negb (bool_decide (n > 65536))) err;
  field (read_at n (fun b => bytes_string (take (Z.to_nat n) b))) err.

(** [if (!r.u32(n) || n > bound) { err; return false; } for (i = 0; i < n; ++i) ...] *)
Definition read_counted {A} (err : string) (bound : Z) (r : Reader string A)
    : Reader string (list A) :=
  read n <- r32 err;
  read _ <- check (negb (bool_decide (n > bound))) err;
  repeat_read (Z.to_nat n) r.

(** [Reader::vec_str] *)
Definition rvec_str (err : string) : Reader string (list string) :=
  read_counted err 4096 (rstr err).

Definition deserialize_capability : Reader string Capability :=
  read k <- r32 "cap klass";
  read st <- r32 "cap state";
  read version <- r64 "cap version";
  read prov <- r32 "cap prov";
  read eg <- r64 "cap ev gen";
  read cur <- r32 "cap current";
  read constraints <- rstr "cap constraints";
  rret (mkCapability (enum_of_u32 k) (enum_of_u32 st) version (enum_of_u32 prov) (mkGen eg)
          (word_bool cur) constraints).

Definition deserialize_economics : Reader string AccessEconomics :=
  read el <- r32 "econ enum";
  read et <- r32 "econ enum";
  read ee <- r32 "econ enum";
  read ep <- r32 "econ enum";
  read latency <- r64 "econ";
  read bandwidth <- r64 "econ";
  read hops <- r32 "econ2";
  read migration <- r64 "econ2";
  read failsafe <- r32 "econ failsafe";
  read notes <- rstr "econ notes";
  rret (mkEconomics (enum_of_u32 el) (enum_of_u32 et) (enum_of_u32 ee) (enum_of_u32 ep)
          latency bandwidth hops (econ_access_penalty_vs_local economics_default) migration
          (word_bool failsafe) notes).

Definition deserialize_device : Reader string CxlDevice :=
  read sid <- rstr "device id";
  read g <- r64 "device gen";
  read boot <- rstr "device boot";
  read raw <- rstr "device strings";
  read vendor <- rstr "device strings";
  read class <- rstr "device strings";
  read type <- rstr "device strings";
  read host <- rstr "device host";
  read _ <- rvec_str "device ports";
  read _ <- rvec_str "device switch";
  read total <- r64 "total";
  read online <- r64 "online";
  read vol <- r32 "vol";
  read sharing <- r32 "sharing";
  read multi <- r32 "multi";
  read inter <- r32 "interleave";
  read accel <- r32 "accel";
  read prov <- r32 "prov";
  read eg <- r64 "evidence gen";
  read firmware <- rstr "device notes";
  read note <- rstr "device notes";
  read caps <- read_counted "cap count" 256 deserialize_capability;
  read econ <- deserialize_economics;
  rret (mkDevice (mkId sid) (mkGen g) (mkId boot) raw vendor class type (mkId host)
          (dev_ports device_default) (dev_switch_ancestry device_default) total online
          (enum_of_u32 vol) (enum_of_u32 sharing) (word_bool multi) (word_bool inter)
          (enum_of_u32 accel) (dev_health device_default) (dev_state device_default)
          (foldl caps_set ∅ caps) econ (enum_of_u32 prov) (mkGen eg)
          (dev_evidence_current device_default) firmware note).

Definition deserialize_region : Reader string CxlRegion :=
  read sid <- rstr "region id";
  read g <- r64 "region gen";
  read pool <- rstr "region pool";
  read ms <- read_counted "region members" 100000
    (read m <- rstr "region member"; rret (mkId m));
  read inter <- rstr "region interleave";
  read cap <- r64 "region cap";
  read interleaved <- r32 "region interleaved";
  read prov <- r32 "region prov";
  read eg <- r64 "region ev gen";
  read local <- r32 "region device_local";
  let r := region_default in
  rret (mkRegion (mkId sid) (mkGen g) (mkId pool) ms inter cap (word_bool interleaved)
          (reg_state r) (reg_decoders r) (reg_windows r) (reg_access_mode r)
          (reg_consumer_scope r) (reg_locality r) (reg_tier r) (reg_health r)
          (reg_reserved_bytes r) (reg_committed_bytes r) (enum_of_u32 prov) (mkGen eg)
          (reg_evidence_current r) (word_bool local)).

Definition deserialize_member : Reader string PoolMember :=
  read dev <- rstr "pool member device";
  read dg <- r64 "pool member gen";
  read nominal <- r64 "pool member nominal";
  read onl <- r32 "pool member online";
  read hok <- r32 "pool member health";
  read fd <- rstr "pool member fd";
  read loc <- r32 "pool member locality";
  rret (mkMember (mkId dev) (mkGen dg) nominal (word_bool onl) (word_bool hok) fd
          (enum_of_u32 loc)).

Definition deserialize_pool : Reader string CxlPool :=
  read sid <- rstr "pool id";
  read g <- r64 "pool gen";
  read ms <- read_counted "pool members" 100000 deserialize_member;
  read total <- r64 "pool accounting";
  read committed <- r64 "pool accounting";
  read reserved <- r64 "pool accounting";
  read draining <- r64 "pool accounting";
  read unavailable <- r64 "pool accounting";
  read policy <- rstr "pool policy";
  read domains <- rvec_str "pool domains";
  read dist <- r32 "pool locality dist";
  read health <- r32 "pool health";
  read prov <- r32 "pool prov";
  read eg <- r64 "pool ev gen";
  read cur <- r32 "pool evidence";
  read note <- rstr "pool note";
  rret (mkPool (mkId sid) (mkGen g) ms total committed reserved draining unavailable policy
          domains (enum_of_u32 dist) (enum_of_u32 health) (pool_state pool_default)
          (enum_of_u32 prov) (mkGen eg) (word_bool cur) note).

Definition deserialize_body : Reader string PersistedState :=
  read polgen <- r64 "missing policy generation";
  read ds <- read_counted "device count invalid" 100000 deserialize_device;
  read rs <- read_counted "region count" 100000 deserialize_region;
  read ps <- read_counted "pool count" 100000 deserialize_pool;
  rret (mkPersisted (mkGen polgen) (foldl (fun m d => <[dev_id d := d]> m) ∅ ds)
          (foldl (fun m r => <[reg_id r := r]> m) ∅ rs)
          (foldl (fun m p => <[pool_id p := p]> m) ∅ ps)).

Definition deserialize_state (payload : bytes) : Outcome string PersistedState :=
  if bool_decide (bsize payload < 4) then Refused "payload too small" else
  let body_len := Z.to_nat (bsize payload - 4) in
  let body := take body_len payload in
  if negb (crc32 body =? load_u32 (drop body_len payload))
  then Refused "payload checksum mismatch"
  else run_reader (read st <- deserialize_body; read _ <- at_end "trailing garbage"; rret st) body.

(** ** What a snapshot can hold

    The limits of the reader: strings of 64 KiB, 4096 failure domains, 100000 members,
    256 capabilities. The serialiser checks the number of devices, regions and pools
    only. *)

#[export] Instance enum_canonical_dec `{CxxEnum A} `{!EqDecision A} (e : A) :
  Decision (enum_canonical e).
Proof. unfold enum_canonical. apply _. Defined.

Definition capability_fits (c : Capability) : Prop :=
  str_fits (cap_constraints c) /\ in_u64 (cap_version c) /\
  in_u64 (gen_value (cap_evidence_generation c)) /\ enum_canonical (cap_klass c) /\
  enum_canonical (cap_state c) /\ enum_canonical (cap_provenance c).

Definition economics_fits (e : AccessEconomics) : Prop :=
  str_fits (econ_notes e) /\ in_u64 (econ_estimated_latency_ns e) /\
  in_u64 (econ_estimated_bandwidth_mbps e) /\ in_u32 (econ_hop_count e) /\
  in_u64 (econ_migration_cost_bytes e) /\ enum_canonical (econ_locality e) /\
  enum_canonical (econ_tier e) /\ enum_canonical (econ_evidence_class e) /\
  enum_canonical (econ_provenance e).

Definition device_fits (d : CxlDevice) : Prop :=
  Forall str_fits [id_str (dev_id d); id_str (dev_boot_id d); dev_raw_identity d;
    dev_vendor_device_id d; dev_cxl_device_class d; dev_device_type d; id_str (dev_host d);
    dev_firmware_metadata d; dev_lifecycle_note d] /\
  Forall in_u64 [gen_value (dev_generation d); dev_total_physical_bytes d; dev_online_bytes d;
    gen_value (dev_evidence_generation d)] /\
  (enum_canonical (dev_volatility d) /\ enum_canonical (dev_sharing d) /\
   enum_canonical (dev_accelerator_access d) /\ enum_canonical (dev_provenance d)) /\
  Z.of_nat (size (dev_capabilities d)) <= 256 /\
  map_Forall (fun k c => enum_to_int (cap_klass c) = k /\ capability_fits c) (dev_capabilities d) /\
  economics_fits (dev_economics d).

Definition region_fits (r : CxlRegion) : Prop :=
  Forall str_fits [id_str (reg_id r); id_str (reg_pool r); reg_interleave_set r] /\
  Forall in_u64 [gen_value (reg_generation r); reg_region_capacity_bytes r;
    gen_value (reg_evidence_generation r)] /\
  Z.of_nat (length (reg_member_devices r)) <= 100000 /\
  Forall (fun m => str_fits (id_str m)) (reg_member_devices r) /\
  enum_canonical (reg_provenance r).

Definition member_fits (m : PoolMember) : Prop :=
  Forall str_fits [id_str (mem_device m); mem_failure_domain m] /\
  Forall in_u64 [gen_value (mem_device_generation m); mem_nominal_bytes m] /\
  enum_canonical (mem_locality m).

(** Everything of a pool but its list of failure domains. *)
Definition pool_core_fits (p : CxlPool) : Prop :=
  Forall str_fits [id_str (pool_id p); pool_admission_policy p; pool_lifecycle_note p] /\
  Forall in_u64 [gen_value (pool_generation p); pool_total_governed_bytes p;
    pool_committed_bytes p; pool_reserved_bytes p; pool_draining_bytes p;
    pool_unavailable_bytes p; gen_value (pool_evidence_generation p)] /\
  Z.of_nat (length (pool_members p)) <= 100000 /\ Forall member_fits (pool_members p) /\
  (enum_canonical (pool_locality_distribution p) /\ enum_canonical (pool_health_summary p) /\
   enum_canonical (pool_provenance p)).

Definition pool_fits (p : CxlPool) : Prop :=
  pool_core_fits p /\ Z.of_nat (length (pool_failure_domains p)) <= 4096 /\
  Forall str_fits (pool_failure_domains p).

#[export] Instance capability_fits_dec c : Decision (capability_fits c).
Proof. unfold capability_fits. apply _. Defined.
#[export] Instance economics_fits_dec e : Decision (economics_fits e).
Proof. unfold economics_fits. apply _. Defined.
#[export] Instance device_fits_dec d : Decision (device_fits d).
Proof. unfold device_fits. apply _. Defined.
#[export] Instance region_fits_dec r : Decision (region_fits r).
Proof. unfold region_fits. apply _. Defined.
#[export] Instance member_fits_dec m : Decision (member_fits m).
Proof. unfold member_fits. apply _. Defined.
#[export] Instance pool_fits_dec p : Decision (pool_fits p).
Proof. unfold pool_fits, pool_core_fits. apply _. Defined.

Record state_fits (st : PersistedState) : Prop := {
  sf_policy : gen_wf (ps_policy_generation st);
  sf_devices_size : Z.of_nat (size (ps_devices st)) <= 100000;
  sf_regions_size : Z.of_nat (size (ps_regions st)) <= 100000;
  sf_pools_size : Z.of_nat (size (ps_pools st)) <= 100000;
  sf_devices : map_Forall (fun k d => dev_id d = k /\ device_fits d) (ps_devices st);
  sf_regions : map_Forall (fun k r => reg_id r = k /\ region_fits r) (ps_regions st);
  sf_pools : map_Forall (fun k p => pool_id p = k /\ pool_fits p) (ps_pools st);
}.

(** ** What a snapshot keeps

    The structural part: identities, generations, sizes, members, accounts, capabilities.
    Health, lifecycle state and the evidence flag of devices and regions are not written
    and come back as the default, and neither are ports and switches, decoders and
    windows, the account of a region, its placement and the access penalty. *)

Definition kept_economics (e : AccessEconomics) : AccessEconomics :=
  mkEconomics (econ_locality e) (econ_tier e) (econ_evidence_class e) (econ_provenance e)
    (econ_estimated_latency_ns e) (econ_estimated_bandwidth_mbps e) (econ_hop_count e)
    (econ_access_penalty_vs_local economics_default) (econ_migration_cost_bytes e)
    (econ_failsafe_valid e) (econ_notes e).

Definition kept_device (d : CxlDevice) : CxlDevice :=
  mkDevice (dev_id d) (dev_generation d) (dev_boot_id d) (dev_raw_identity d)
    (dev_vendor_device_id d) (dev_cxl_device_class d) (dev_device_type d) (dev_host d)
    [] [] (dev_total_physical_bytes d) (dev_online_bytes d)
    (dev_volatility d) (dev_sharing d) (dev_multi_host_capable d) (dev_interleave_capable d)
    (dev_accelerator_access d) HealthState_UNKNOWN DeviceState_DISCOVERED (dev_capabilities d)
    (kept_economics (dev_economics d)) (dev_provenance d) (dev_evidence_generation d) false
    (dev_firmware_metadata d) (dev_lifecycle_note d).

Definition kept_region (r : CxlRegion) : CxlRegion :=
  mkRegion (reg_id r) (reg_generation r) (reg_pool r) (reg_member_devices r)
    (reg_interleave_set r) (reg_region_capacity_bytes r) (reg_interleaved r)
    RegionState_DEFINED [] [] "" id_default LocalityClass_UNKNOWN TierClass_CXL_UNKNOWN
    HealthState_UNKNOWN 0 0 (reg_provenance r) (reg_evidence_generation r) false
    (reg_device_local r).

Definition kept_pool (p : CxlPool) : CxlPool :=
  pool_set_state p PoolState_DEFINED (pool_evidence_current p) (pool_health_summary p).

Definition kept_state (st : PersistedState) : PersistedState :=
  mkPersisted (ps_policy_generation st) (kept_device <$> ps_devices st)
    (kept_region <$> ps_regions st) (kept_pool <$> ps_pools st).

(** ** Reading back what was written *)

Lemma w_str_put s : w_str s = put_str s.
Proof. by rewrite put_str_bytes. Qed.

Lemma reads_rstr s err : str_fits s -> reads (rstr err) (w_str s) s.
Proof.
  intros Hs pre post Hok Hsz. rewrite w_str_put in *.
  rewrite <- (reads_str s err Hs pre post Hok Hsz).
  unfold rstr, r32, rbind, field, check, get_str.
  destruct (get_u32 _ _) as [n p| |]; try done. by case_bool_decide.
Qed.

Lemma reads_counted {A B} err bound (r : Reader string B) (put : A -> bytes) (f : A -> B) l :
  Z.of_nat (length l) <= bound -> bound < 2 ^ 32 -> Forall (fun x => reads r (put x) (f x)) l ->
  reads (read_counted err bound r) (put_counted put l) (f <$> l).
Proof.
  intros Hlen Hb Hl. unfold read_counted, put_counted, r32.
  rewrite u32_small by (unfold in_u32; lia).
  eapply reads_bind; [apply reads_u32; unfold in_u32; lia|].
  apply reads_check; [rewrite bool_decide_false by lia; done|].
  rewrite Nat2Z.id. cbn [concat]. rewrite app_nil_r. by apply reads_repeat_map.
Qed.

Lemma reads_counted_id {A} err bound (r : Reader string A) (put : A -> bytes) l :
  Z.of_nat (length l) <= bound -> bound < 2 ^ 32 -> Forall (fun x => reads r (put x) x) l ->
  reads (read_counted err bound r) (put_counted put l) l.
Proof. intros. rewrite <- (list_fmap_id l) at 2. by apply (reads_counted _ _ _ _ id). Qed.

Lemma reads_rvec_str v err :
  Z.of_nat (length v) <= 4096 -> Forall str_fits v -> reads (rvec_str err) (w_vec_str v) v.
Proof.
  intros Hlen Hv. apply reads_counted_id; [done..|].
  apply (Forall_impl _ _ _ Hv). intros s Hs. by apply reads_rstr.
Qed.

Lemma reads_rvec_none err : reads (rvec_str err) (w_vec_str []) [].
Proof. by apply reads_rvec_str. Qed.

#[export] Hint Resolve reads_rstr reads_rvec_str reads_rvec_none : wire.
#[export] Hint Extern 1 (str_fits _) => assumption : wire.

(** Opens the limits of a record, follows its fields and compares the result. *)
Ltac open_limits :=
  rewrite ?Forall_cons, ?Forall_nil in *; destruct_and?.
Ltac same_record := autorewrite with wire; rewrite ?enum_u32_round_trip by done.
Ltac persisted_fields := unfold r64, r32; read_fields.

Lemma reads_capability c :
  capability_fits c -> reads deserialize_capability (serialize_capability c) c.
Proof.
  unfold capability_fits. intros Hf. open_limits.
  unfold deserialize_capability, serialize_capability. persisted_fields.
  same_record. by destruct c.
Qed.

Lemma reads_member m : member_fits m -> reads deserialize_member (serialize_member m) m.
Proof.
  unfold member_fits. intros Hf. open_limits.
  unfold deserialize_member, serialize_member. persisted_fields. same_record. by destruct m.
Qed.

Lemma reads_region_members (ms : list DeviceId) :
  Z.of_nat (length ms) <= 100000 -> Forall (fun m => str_fits (id_str m)) ms ->
  reads (read_counted "region members" 100000 (read m <- rstr "region member"; rret (mkId m)))
    (put_counted (fun m => w_str (id_str m)) ms) ms.
Proof.
  intros Hlen Hms. apply reads_counted_id; [done..|]. eapply Forall_impl; [eassumption|].
  simpl. intros m Hm. rewrite <- (app_nil_r (w_str _)).
  eapply (reads_bind _ _ _ []); [by apply reads_rstr|]. apply reads_done. by same_record.
Qed.

#[export] Hint Resolve reads_region_members : wire.

Lemma reads_region_record r :
  region_fits r -> reads deserialize_region (serialize_region r) (kept_region r).
Proof.
  unfold region_fits. intros Hf. open_limits.
  unfold deserialize_region, serialize_region. persisted_fields. by same_record.
Qed.

Lemma reads_members p :
  Z.of_nat (length (pool_members p)) <= 100000 -> Forall member_fits (pool_members p) ->
  reads (read_counted "pool members" 100000 deserialize_member)
    (put_counted serialize_member (pool_members p)) (pool_members p).
Proof.
  intros Hlen Hm. apply reads_counted_id; [done..|].
  eapply Forall_impl; [eassumption|]. exact reads_member.
Qed.

#[export] Hint Resolve reads_members : wire.

Lemma reads_pool_record p :
  pool_fits p -> reads deserialize_pool (serialize_pool p) (kept_pool p).
Proof.
  unfold pool_fits, pool_core_fits. intros Hf. open_limits.
  unfold deserialize_pool, serialize_pool. persisted_fields. same_record. by destruct p.
Qed.

(** The economics are the tail of the device layout. *)
Lemma reads_economics {C} e (k : AccessEconomics -> Reader string C) bs w :
  economics_fits e -> reads (k (kept_economics e)) (concat bs) w ->
  reads (read x <- deserialize_economics; k x)
    (concat ([put_u32 (enum_to_u32 (econ_locality e)); put_u32 (enum_to_u32 (econ_tier e));
       put_u32 (enum_to_u32 (econ_evidence_class e)); put_u32 (enum_to_u32 (econ_provenance e));
       put_u64 (econ_estimated_latency_ns e); put_u64 (econ_estimated_bandwidth_mbps e);
       put_u32 (econ_hop_count e); put_u64 (econ_migration_cost_bytes e);
       put_u32 (bool_word (econ_failsafe_valid e)); w_str (econ_notes e)] ++ bs)) w.
Proof.
  unfold economics_fits. intros Hf Hk. open_limits. rewrite concat_app.
  set (layout := concat [_; _; _; _; _; _; _; _; _; _]).
  change (layout ++ concat bs) with (concat (layout :: bs)).
  eapply reads_bind; [|exact Hk]. unfold layout, deserialize_economics. persisted_fields.
  same_record. done.
Qed.

Lemma foldl_caps_set m :
  map_Forall (fun k c => enum_to_int (cap_klass c) = k) m ->
  foldl caps_set ∅ (map_iter m).*2 = m.
Proof.
  intros Hk. pose proof (foldl_rebuild id (fun c => enum_to_int (cap_klass c)) m Hk) as H.
  by rewrite list_fmap_id, map_fmap_id in H.
Qed.

(** The values of a map satisfy what the map promises of its bindings. *)
Lemma map_iter_values {K V} `{Countable K, !KeyOrder K} (m : gmap K V) (P : K -> V -> Prop)
    (Q : V -> Prop) :
  map_Forall P m -> (forall k v, P k v -> Q v) -> Forall Q (map_iter m).*2.
Proof.
  intros HP HQ. apply Forall_fmap, Forall_forall. intros [k v] Hin%elem_of_map_iter.
  by apply (HQ k), HP.
Qed.

Lemma size_values {K V} `{Countable K, !KeyOrder K} (m : gmap K V) :
  size m = length (map_iter m).*2.
Proof. by rewrite length_fmap, length_map_iter. Qed.

Lemma reads_caps (m : Capabilities) :
  Z.of_nat (length (map_iter m).*2) <= 256 ->
  map_Forall (fun k c => enum_to_int (cap_klass c) = k /\ capability_fits c) m ->
  reads (read_counted "cap count" 256 deserialize_capability)
    (put_counted serialize_capability (map_iter m).*2) (map_iter m).*2.
Proof.
  intros Hsize Hcaps. apply reads_counted_id; [done..|]. apply (map_iter_values _ _ _ Hcaps).
  intros k c [_ Hc]. by apply reads_capability.
Qed.

#[export] Hint Resolve reads_caps : wire.

Lemma reads_device_record d :
  device_fits d -> reads deserialize_device (serialize_device d) (kept_device d).
Proof.
  unfold device_fits. intros (Hstr & Hnum & Henum & Hsize & Hcaps & Hecon).
  open_limits. rewrite size_values in Hsize.
  unfold deserialize_device, serialize_device, r64, r32.
  do 22 (eapply reads_bind; [solve [auto with wire]|]).
  rewrite <- (app_nil_r [_; _; _; _; _; _; _; _; _; _]).
  apply reads_economics; [done|]. apply reads_done. same_record.
  rewrite foldl_caps_set; [done|]. eapply map_Forall_impl; [exact Hcaps|]. by intros k c [? _].
Qed.

Lemma reads_devices st :
  state_fits st ->
  reads (read_counted "device count invalid" 100000 deserialize_device)
    (put_counted serialize_device (map_iter (ps_devices st)).*2)
    (kept_device <$> (map_iter (ps_devices st)).*2).
Proof.
  intros Hst. apply reads_counted; [rewrite <- size_values; by destruct Hst | done |].
  apply (map_iter_values _ _ _ (sf_devices _ Hst)). intros k d [_ ?]. by apply reads_device_record.
Qed.

Lemma reads_regions st :
  state_fits st ->
  reads (read_counted "region count" 100000 deserialize_region)
    (put_counted serialize_region (map_iter (ps_regions st)).*2)
    (kept_region <$> (map_iter (ps_regions st)).*2).
Proof.
  intros Hst. apply reads_counted; [rewrite <- size_values; by destruct Hst | done |].
  apply (map_iter_values _ _ _ (sf_regions _ Hst)). intros k r [_ ?]. by apply reads_region_record.
Qed.

Lemma reads_pools st :
  state_fits st ->
  reads (read_counted "pool count" 100000 deserialize_pool)
    (put_counted serialize_pool (map_iter (ps_pools st)).*2)
    (kept_pool <$> (map_iter (ps_pools st)).*2).
Proof.
  intros Hst. apply reads_counted; [rewrite <- size_values; by destruct Hst | done |].
  apply (map_iter_values _ _ _ (sf_pools _ Hst)). intros k p [_ ?]. by apply reads_pool_record.
Qed.

#[export] Hint Resolve reads_devices reads_regions reads_pools : wire.

Lemma reads_body st :
  state_fits st -> reads deserialize_body (serialize_body st) (kept_state st).
Proof.
  intros Hst. pose proof (sf_policy _ Hst). unfold deserialize_body, serialize_body.
  persisted_fields. same_record. destruct Hst as [_ _ _ _ Hds Hrs Hps].
  unfold kept_state. f_equal; apply foldl_rebuild;
    (eapply map_Forall_impl; [eassumption|]); by intros k v [<- _].
Qed.

(** ** Well-formed bytes *)

Lemma w_str_ok s : bytes_ok (w_str s).
Proof. rewrite w_str_put. auto with wire. Qed.
#[export] Hint Resolve w_str_ok concat_fmap_ok : wire.
Lemma put_counted_ok {A} (put : A -> bytes) l :
  (forall x, bytes_ok (put x)) -> bytes_ok (put_counted put l).
Proof. intros. unfold put_counted. auto with wire. Qed.
#[export] Hint Resolve put_counted_ok : wire.
Lemma w_vec_str_ok v : bytes_ok (w_vec_str v).
Proof. unfold w_vec_str. auto with wire. Qed.
#[export] Hint Resolve w_vec_str_ok : wire.

Lemma serialize_capability_ok c : bytes_ok (serialize_capability c).
Proof. unfold serialize_capability. auto 20 with wire. Qed.
Lemma serialize_member_ok m : bytes_ok (serialize_member m).
Proof. unfold serialize_member. auto 20 with wire. Qed.
#[export] Hint Resolve serialize_capability_ok serialize_member_ok : wire.
Lemma serialize_device_ok d : bytes_ok (serialize_device d).
Proof. unfold serialize_device. auto 50 with wire. Qed.
Lemma serialize_region_ok r : bytes_ok (serialize_region r).
Proof. unfold serialize_region. auto 30 with wire. Qed.
Lemma serialize_pool_ok p : bytes_ok (serialize_pool p).
Proof. unfold serialize_pool. auto 30 with wire. Qed.
#[export] Hint Resolve serialize_device_ok serialize_region_ok serialize_pool_ok : wire.
Lemma serialize_body_ok st : bytes_ok (serialize_body st).
Proof. unfold serialize_body. auto 20 with wire. Qed.
#[export] Hint Resolve serialize_body_ok : wire.

(** ** The footer *)

Definition sealed (body : bytes) : bytes := body ++ put_u32 (crc32 body).

(** A payload as a body and a footer. *)
Lemma deserialize_split body footer :
  length footer = 4%nat ->
  deserialize_state (body ++ footer) =
    if crc32 body =? load_u32 footer
    then run_reader (read st <- deserialize_body; read _ <- at_end "trailing garbage"; rret st) body
    else Refused "payload checksum mismatch".
Proof.
  intros Hf. unfold deserialize_state. pose proof (bsize_nonneg body).
  assert (bsize footer = 4) as Hb by (unfold bsize; lia).
  rewrite bsize_app, Hb, bool_decide_false by lia.
  replace (Z.to_nat (bsize body + 4 - 4)) with (length body) by (unfold bsize; lia).
  rewrite take_app_length, drop_app_length. by destruct (_ =? _).
Qed.

Lemma load_footer body : bytes_ok body -> load_u32 (put_u32 (crc32 body)) = crc32 body.
Proof.
  intros Hok. rewrite <- (app_nil_r (put_u32 _)). apply load_u32_store. by apply crc32_word.
Qed.

Lemma deserialize_sealed body :
  bytes_ok body ->
  deserialize_state (sealed body) =
    run_reader (read st <- deserialize_body; read _ <- at_end "trailing garbage"; rret st) body.
Proof.
  intros Hok. unfold sealed. rewrite deserialize_split by done.
  by rewrite load_footer, Z.eqb_refl.
Qed.

Lemma deserialize_mismatch body footer :
  length footer = 4%nat -> crc32 body <> load_u32 footer ->
  deserialize_state (body ++ footer) = Refused "payload checksum mismatch".
Proof. intros Hf Hne. rewrite deserialize_split by done. by destruct (Z.eqb_spec (crc32 body) (load_u32 footer)). Qed.

(** A window that lies in the body or in the footer. *)
Definition in_body_or_footer (body start n : nat) : Prop :=
  (start + n <= body \/ body <= start)%nat.

(** Where the window of a concatenation lies. *)
Lemma app_window_left {A} (a b pre u post : list A) :
  a ++ b = pre ++ u ++ post -> (length pre + length u <= length a)%nat ->
  exists mid, a = pre ++ u ++ mid /\ post = mid ++ b.
Proof.
  intros Heq Hin. rewrite app_assoc in Heq. exists (drop (length (pre ++ u)) a).
  assert (take (length (pre ++ u)) a = pre ++ u) as Ht.
  { rewrite <- (take_app_length (pre ++ u) post) at 2. rewrite <- Heq.
    symmetry. apply take_app_le. rewrite length_app. lia. }
  split; [rewrite app_assoc; by rewrite <- Ht at 1; rewrite take_drop|].
  apply (f_equal (drop (length (pre ++ u)))) in Heq. rewrite drop_app_length in Heq.
  rewrite drop_app_le in Heq by (rewrite length_app; lia). done.
Qed.

Lemma app_window_right {A} (a b pre rest : list A) :
  a ++ b = pre ++ rest -> (length a <= length pre)%nat ->
  exists mid, pre = a ++ mid /\ b = mid ++ rest.
Proof.
  intros Heq Hin. exists (drop (length a) pre).
  assert (take (length a) pre = a) as Ht.
  { rewrite <- (take_app_length a b) at 2. rewrite Heq. symmetry. by apply take_app_le. }
  split; [by rewrite <- Ht at 1; rewrite take_drop|].
  apply (f_equal (drop (length a))) in Heq. rewrite drop_app_length in Heq.
  by rewrite drop_app_le in Heq by done.
Qed.

Lemma sealed_corrupted body pre u v post :
  bytes_ok body -> sealed body = pre ++ u ++ post -> bytes_ok v -> length u = length v ->
  (length u <= 4)%nat -> u <> v -> in_body_or_footer (length body) (length pre) (length u) ->
  deserialize_state (pre ++ v ++ post) = Refused "payload checksum mismatch".
Proof.
  intros Hok Heq Hv Hlen H4 Hne [Hin | Hin]; unfold sealed in Heq.
  - destruct (app_window_left _ _ _ _ _ Heq Hin) as (mid & Hbody & ->).
    rewrite (app_assoc v), (app_assoc pre).
    pose proof Hok as Hok'. rewrite Hbody in Hok'. unfold bytes_ok in Hok'.
    rewrite !Forall_app in Hok'. destruct_and!.
    apply deserialize_mismatch; [done|]. rewrite load_footer by done.
    intros Hcrc. apply Hne. symmetry. rewrite Hbody in Hcrc.
    apply (crc32_burst pre v u mid); first [done | lia].
  - destruct (app_window_right _ _ _ _ Heq Hin) as (mid & -> & Hfoot). rewrite <- app_assoc.
    assert (Hl : length (mid ++ u ++ post) = 4%nat) by by rewrite <- Hfoot.
    pose proof (put_u32_ok (crc32 body)) as Hp. rewrite Hfoot in Hp. unfold bytes_ok in Hp.
    rewrite !Forall_app in Hp. destruct_and!.
    assert (bytes_ok (mid ++ v ++ post)) as Hmid by (do 2 (apply Forall_app; split; [done|]); done).
    assert (length (mid ++ v ++ post) = 4%nat) as Hl' by (rewrite !length_app in *; lia).
    apply deserialize_mismatch; [done|]. intros Hcrc.
    rewrite Hcrc in Hfoot. change (put_u32 ?x) with (store_u32 x) in Hfoot.
    rewrite store_load_u32, take_ge in Hfoot by (done || lia).
    apply Hne. apply app_inv_head in Hfoot. symmetry.
    apply (app_inj_1 v u post post); [lia | done].
Qed.

(** ** Snapshots *)

Lemma serialize_state_fits st :
  state_fits st -> serialize_state st = inr (sealed (serialize_body st)).
Proof.
  intros [_ Hd Hr Hp _ _ _]. unfold serialize_state.
  by rewrite !bool_decide_false by lia.
Qed.

Lemma serialize_state_sealed st payload :
  serialize_state st = inr payload -> payload = sealed (serialize_body st).
Proof. unfold serialize_state. case_match; [done|]. intros Hp. by apply (inj inr) in Hp. Qed.

(** A reader that stops early refuses the rest, whatever it is. *)
Lemma run_stops_early {A} (r : Reader string A) b v extra e :
  reads r b v -> bytes_ok (b ++ extra) -> bsize (b ++ extra) <= UINT64_MAX -> extra <> [] ->
  run_reader (read x <- r; read _ <- at_end e; rret x) (b ++ extra) = Refused e.
Proof.
  intros Hr Hok Hsz Hne. specialize (Hr [] extra Hok Hsz). simpl in Hr.
  unfold run_reader, rbind. change 0 with (bsize []). rewrite Hr. unfold at_end. rewrite bsize_app.
  destruct (Z.eqb_spec (bsize b) (bsize b + bsize extra)) as [Heq|]; [|done].
  destruct extra; [done|]. unfold bsize in Heq. simpl in Heq. lia.
Qed.

(** C26. A snapshot restores the durable state. Every state within the limits of the
    reader is serialised, and deserialising the result gives back exactly its durable
    part: every device, region and pool under its identity, with generations, sizes,
    members, accounts, capabilities and economics. Lifecycle states come back as the initial
    ones, and the health and evidence flags of devices and regions as unobserved; those of
    pools, capabilities and members come back as they were. The same snapshot followed by any bytes is
    refused, even if the appended bytes make the checksum match. *)
Theorem snapshot_round_trip st :
  state_fits st -> bsize (serialize_body st) + 4 <= UINT64_MAX ->
  exists payload, serialize_state st = inr payload /\
    deserialize_state payload = Got (kept_state st) (bsize payload - 4) /\
    forall extra, bytes_ok extra -> extra <> [] -> bsize (payload ++ extra) <= UINT64_MAX ->
      exists e, deserialize_state (payload ++ extra) = Refused e.
Proof.
  intros Hst Hsz. exists (sealed (serialize_body st)).
  pose proof (serialize_body_ok st) as Hok. pose proof (reads_body st Hst) as Hreads.
  split; [by apply serialize_state_fits|]. split.
  - rewrite deserialize_sealed by done. rewrite (reads_run _ _ (kept_state st)); [|done..|lia].
    unfold sealed. rewrite bsize_app, bsize_put_u32. f_equal. lia.
  - intros extra He Hne Hs. unfold sealed in *. set (b := serialize_body st) in *.
    set (tail := put_u32 (crc32 b) ++ extra).
    set (x := take (length extra) tail). set (y := drop (length extra) tail).
    assert (bytes_ok tail) as Ht by (apply Forall_app; split; [apply put_u32_ok | done]).
    assert (length tail = 4 + length extra)%nat as Hl by (unfold tail; by rewrite length_app).
    assert ((b ++ put_u32 (crc32 b)) ++ extra = (b ++ x) ++ y) as Heq
      by (rewrite <- !app_assoc; unfold x, y; by rewrite take_drop).
    rewrite Heq in *. rewrite deserialize_split by (unfold y; rewrite length_drop; lia).
    destruct (_ =? _); [|by eexists]. eexists. apply (run_stops_early _ _ (kept_state st)); try done.
    + apply Forall_app. split; [done | by apply Forall_take].
    + rewrite bsize_app in Hs. pose proof (bsize_nonneg y). lia.
    + intros Hx. apply (f_equal length) in Hx. unfold x in Hx. rewrite length_take, Hl in Hx.
      destruct extra; [done | simpl in Hx; lia].
Qed.

(** The demonstration state of the next witnesses: one pool of one member. *)
Definition one_pool (domains : list string) : PersistedState :=
  mkPersisted (mkGen 1) ∅ ∅
    {[ mkId "p-1" := mkPool (mkId "p-1") (mkGen 7)
         [mkMember (mkId "cxl-0") (mkGen 1) 4096 true true "rack-0" LocalityClass_SAME_HOST]
         4096 0 64 0 0 "default" domains LocalityClass_SAME_HOST HealthState_HEALTHY
         PoolState_AVAILABLE Provenance_SYNTHETIC (mkGen 1) true "" ]}.

Ltac fits_by_computation :=
  split; [by vm_compute.. | | |]; refine (bool_decide_unpack _ _); vm_compute; exact I.

Lemma one_pool_fits : state_fits (one_pool ["rack-0"]).
Proof. fits_by_computation. Qed.

Lemma snapshot_round_trip_witness :
  exists payload, serialize_state (one_pool ["rack-0"]) = inr payload /\
    deserialize_state payload = Got (kept_state (one_pool ["rack-0"])) (bsize payload - 4).
Proof.
  destruct (snapshot_round_trip (one_pool ["rack-0"])) as (payload & Hs & Hd & _);
    [apply one_pool_fits | by vm_compute | exists payload; exact (conj Hs Hd)].
Defined.

(** A damaged snapshot is refused. Take the snapshot of any state and replace up to
    four consecutive bytes by others, in the body or in the footer: deserialisation
    answers with a checksum mismatch, whatever the damaged counts and lengths say, and
    no field of it is looked at. *)
Theorem snapshot_corruption_detected st payload pre u v post :
  serialize_state st = inr payload -> payload = pre ++ u ++ post -> bytes_ok v ->
  length u = length v -> (length u <= 4)%nat -> u <> v ->
  in_body_or_footer (length payload - 4) (length pre) (length u) ->
  deserialize_state (pre ++ v ++ post) = Refused "payload checksum mismatch".
Proof.
  intros ->%serialize_state_sealed Heq Hv Hlen H4 Hne Hin.
  apply (sealed_corrupted (serialize_body st) pre u v post); try done; [auto with wire|].
  unfold sealed in Hin. rewrite length_app in Hin. simpl length in Hin.
  by rewrite Nat.add_sub in Hin.
Qed.

Lemma snapshot_corruption_detected_witness :
  exists payload, serialize_state (one_pool ["rack-0"]) = inr payload /\
    deserialize_state (take 10 payload ++ [255] ++ drop 11 payload)
    = Refused "payload checksum mismatch".
Proof.
  eexists. split; [vm_compute; reflexivity|].
  eapply (snapshot_corruption_detected (one_pool ["rack-0"]) _ _ [0]);
    [vm_compute; reflexivity | vm_compute; reflexivity | apply (bool_decide_unpack _); by vm_compute
    | done | simpl; lia | done | left; vm_compute; lia].
Defined.

(** ** Snapshots that cannot be read back *)

(** Sizes a 32-bit count can hold. *)
Definition str_counts (s : string) : Prop := Z.of_nat (String.length s) < 2 ^ 32.
Definition domains_fit (p : CxlPool) : Prop :=
  Z.of_nat (length (pool_failure_domains p)) <= 4096 /\ Forall str_fits (pool_failure_domains p).
#[export] Instance domains_fit_dec p : Decision (domains_fit p).
Proof. unfold domains_fit. apply _. Defined.

Lemma refuses_counted {A B} err bound (r : Reader string B) (put : A -> bytes) (f : A -> B) e l :
  Z.of_nat (length l) <= bound -> bound < 2 ^ 32 ->
  Forall (fun x => reads r (put x) (f x) \/ refuses r (put x) e) l ->
  Exists (fun x => refuses r (put x) e) l ->
  refuses (read_counted err bound r) (put_counted put l) e.
Proof.
  intros Hlen Hb Hall Hex. unfold read_counted, put_counted, r32.
  rewrite u32_small by (unfold in_u32; lia).
  eapply refuses_bind; [apply reads_u32; unfold in_u32; lia|].
  rewrite bool_decide_false by lia. cbn [concat]. rewrite app_nil_r, Nat2Z.id.
  by apply (refuses_repeat _ _ f).
Qed.

(** One element of a list that can be refused is. *)
Lemma Exists_dichotomy {A} (P Q R : A -> Prop) `{!forall x, Decision (P x)} l :
  Forall R l -> (forall x, R x -> ~ P x -> Q x) -> ~ Forall P l -> Exists Q l.
Proof.
  intros HR HQ Hn. assert (Exists (fun x => ~ P x) l) as Hex
    by (by apply not_Forall_Exists; [apply _|]).
  clear Hn. induction Hex as [x l Hx|x l _ IH]; apply Forall_cons in HR as [? ?];
    [left; auto | right; auto].
Qed.

Lemma refuses_rstr s err : ~ str_fits s -> str_counts s -> refuses (rstr err) (w_str s) err.
Proof.
  unfold str_fits, str_counts. intros Hs Hc.
  unfold rstr, w_str, r32. rewrite u32_small by (unfold in_u32; lia).
  rewrite <- (app_nil_r (string_bytes s)).
  apply (refuses_bind _ _ (put_u32 _) [string_bytes s] (Z.of_nat (String.length s)));
    [apply reads_u32; unfold in_u32; lia|].
  apply refuses_check. by rewrite bool_decide_true by lia.
Qed.

Lemma refuses_domains p err :
  ~ domains_fit p -> Z.of_nat (length (pool_failure_domains p)) < 2 ^ 32 ->
  Forall str_counts (pool_failure_domains p) ->
  refuses (rvec_str err) (w_vec_str (pool_failure_domains p)) err.
Proof.
  unfold domains_fit. set (v := pool_failure_domains p). intros Hn Hlen Hc.
  unfold rvec_str, w_vec_str. destruct (decide (Z.of_nat (length v) <= 4096)) as [Hle|Hgt].
  - apply (refuses_counted _ _ _ _ id); [done..| |].
    + eapply Forall_impl; [exact Hc|]. intros s Hs.
      destruct (decide (str_fits s)); [left; by apply reads_rstr | right; by apply refuses_rstr].
    + apply (Exists_dichotomy str_fits _ _ _ Hc); [|tauto].
      intros s Hs Hns. by apply refuses_rstr.
  - unfold read_counted, put_counted, r32. rewrite u32_small by (unfold in_u32; lia).
    eapply refuses_bind; [apply reads_u32; unfold in_u32; lia|].
    apply refuses_check. by rewrite bool_decide_true by lia.
Qed.

Lemma refuses_pool p :
  pool_core_fits p -> ~ domains_fit p -> Z.of_nat (length (pool_failure_domains p)) < 2 ^ 32 ->
  Forall str_counts (pool_failure_domains p) ->
  refuses deserialize_pool (serialize_pool p) "pool domains".
Proof.
  unfold pool_core_fits. intros Hf Hn Hlen Hc.
  pose proof (refuses_domains p "pool domains" Hn Hlen Hc) as Href. clear Hc. open_limits.
  unfold deserialize_pool, serialize_pool, r64.
  do 9 (eapply refuses_bind; [solve [auto with wire]|]).
  by apply refuses_first.
Qed.

(** A state with the failure domains of its pools left out. *)
Definition without_domains (st : PersistedState) : PersistedState :=
  mkPersisted (ps_policy_generation st) (ps_devices st) (ps_regions st)
    ((fun p => pool_set_totals p (pool_total_governed_bytes p) (pool_unavailable_bytes p) [])
       <$> ps_pools st).

Lemma without_domains_pools st k p :
  state_fits (without_domains st) -> ps_pools st !! k = Some p -> pool_id p = k /\ pool_core_fits p.
Proof.
  intros Hst Hp. pose proof (sf_pools _ Hst) as Hps. simpl in Hps.
  destruct (Hps k (pool_set_totals p (pool_total_governed_bytes p) (pool_unavailable_bytes p) []))
    as [Hk [Hc _]]; [by rewrite lookup_fmap, Hp | done].
Qed.

Lemma without_domains_fits st :
  state_fits (without_domains st) ->
  map_Forall (fun _ p => domains_fit p) (ps_pools st) -> state_fits st.
Proof.
  intros Hst Hd. pose proof Hst as [Hpol Hds Hrs Hps Hdev Hreg _]. simpl in *.
  rewrite map_size_fmap in Hps. split; try done. intros k p Hp.
  destruct (without_domains_pools st k p Hst Hp) as [Hk Hc]. split; [done|].
  split; [done | exact (Hd k p Hp)].
Qed.

(** The pool section, when some pool is beyond the limit. *)
Lemma refuses_pools st :
  state_fits (without_domains st) ->
  map_Forall (fun _ p => Z.of_nat (length (pool_failure_domains p)) < 2 ^ 32 /\
                         Forall str_counts (pool_failure_domains p)) (ps_pools st) ->
  ~ map_Forall (fun _ p => domains_fit p) (ps_pools st) ->
  refuses (read_counted "pool count" 100000 deserialize_pool)
    (put_counted serialize_pool (map_iter (ps_pools st)).*2) "pool domains".
Proof.
  intros Hst Hc Hn. set (ps := (map_iter (ps_pools st)).*2).
  assert (Forall (fun p => pool_core_fits p /\
            Z.of_nat (length (pool_failure_domains p)) < 2 ^ 32 /\
            Forall str_counts (pool_failure_domains p)) ps) as Hps.
  { apply Forall_fmap, Forall_forall. intros [k p] Hin%elem_of_map_iter. simpl.
    split; [by eapply without_domains_pools | exact (Hc k p Hin)]. }
  apply (refuses_counted _ _ _ _ kept_pool).
  - unfold ps. rewrite <- size_values. pose proof (sf_pools_size _ Hst) as Hz. simpl in Hz.
    by rewrite map_size_fmap in Hz.
  - done.
  - eapply Forall_impl; [exact Hps|]. intros p (Hcore & Hlen & Hs).
    destruct (decide (domains_fit p)); [left; by apply reads_pool_record | right].
    by apply refuses_pool.
  - apply (Exists_dichotomy domains_fit _ _ _ Hps).
    + intros p (Hcore & Hlen & Hs) Hp. by apply refuses_pool.
    + intros Hall. apply Hn. intros k p Hp. unfold ps in Hall.
      rewrite Forall_fmap, Forall_forall in Hall. by apply (Hall (k, p)), elem_of_map_iter.
Qed.

(** What limits a snapshot. The serialiser bounds the number of devices, regions and
    pools, the reader also the failure domains of a pool: 4096 of them, of at most 64 KiB
    each. For a state that is otherwise within the limits, serialisation always succeeds
    and the result can be read back exactly when every pool is within this one; with one
    pool beyond it the whole snapshot, just written with success, is refused as
    "pool domains". *)
Theorem snapshot_domain_limit st :
  state_fits (without_domains st) -> bsize (serialize_body st) + 4 <= UINT64_MAX ->
  map_Forall (fun _ p => Z.of_nat (length (pool_failure_domains p)) < 2 ^ 32 /\
                         Forall str_counts (pool_failure_domains p)) (ps_pools st) ->
  exists payload, serialize_state st = inr payload /\
    deserialize_state payload =
      if decide (map_Forall (fun _ p => domains_fit p) (ps_pools st))
      then Got (kept_state st) (bsize payload - 4) else Refused "pool domains".
Proof.
  intros Hst Hsz Hc. exists (sealed (serialize_body st)).
  pose proof (serialize_body_ok st) as Hok. split.
  { destruct Hst as [_ Hd Hr Hp _ _ _]. simpl in *. rewrite map_size_fmap in Hp.
    unfold serialize_state. by rewrite !bool_decide_false by lia. }
  rewrite deserialize_sealed by done. case_decide as Hfit.
  - rewrite (reads_run _ _ (kept_state st)); [|by apply reads_body, without_domains_fits | done | lia].
    unfold sealed. rewrite bsize_app, bsize_put_u32. f_equal. lia.
  - apply refuses_run; [|done|lia]. unfold deserialize_body, serialize_body, r64.
    eapply refuses_bind; [apply reads_u64; by apply (sf_policy _ Hst)|].
    eapply refuses_bind; [by apply (reads_devices (without_domains st))|].
    eapply refuses_bind; [by apply (reads_regions (without_domains st))|].
    apply refuses_first. by apply refuses_pools.
Qed.

(** One pool with 4097 failure domains. *)
Lemma one_pool_bare : state_fits (without_domains (one_pool (replicate 4097 "d"))).
Proof.
  assert (without_domains (one_pool (replicate 4097 "d")) = one_pool []) as ->.
  { unfold without_domains, one_pool. simpl ps_pools. rewrite map_fmap_singleton. reflexivity. }
  fits_by_computation.
Qed.

Lemma one_pool_counts :
  map_Forall (fun _ p => Z.of_nat (length (pool_failure_domains p)) < 2 ^ 32 /\
                         Forall str_counts (pool_failure_domains p))
    (ps_pools (one_pool (replicate 4097 "d"))).
Proof.
  apply map_Forall_singleton. cbn [pool_failure_domains].
  split; [rewrite length_replicate; by vm_compute | by apply Forall_replicate].
Qed.

Lemma one_pool_beyond :
  ~ map_Forall (fun _ p => domains_fit p) (ps_pools (one_pool (replicate 4097 "d"))).
Proof.
  unfold one_pool. cbn [ps_pools]. intros [Hlen _]%map_Forall_singleton. cbn [pool_failure_domains] in Hlen.
  rewrite length_replicate in Hlen. lia.
Qed.

Lemma snapshot_domain_limit_witness :
  exists payload, serialize_state (one_pool (replicate 4097 "d")) = inr payload /\
    deserialize_state payload = Refused "pool domains".
Proof.
  destruct (snapshot_domain_limit (one_pool (replicate 4097 "d"))) as (payload & Hs & Hd).
  - exact one_pool_bare.
  - by vm_compute.
  - exact one_pool_counts.
  - exists payload. split; [exact Hs|]. rewrite Hd. rewrite decide_False; [reflexivity|].
    exact one_pool_beyond.
Defined.
