(* ===== verification/Storage.v ===== *)
(** * Snapshot files ([core/persistence.cpp]: [write_persisted], [read_persisted])

    The envelope of a snapshot and its atomic replacement. A file system is modelled by
    its names and the contents they lead to, so that a file that is open keeps its
    identity when it is renamed. A write is a sequence of steps between which the process
    may stop and other processes may look: opening and truncating the temporary file,
    bytes reaching it in any portions, and the rename; each may fail. What a power
    failure does to bytes the kernel has not stored is not modelled: the code flushes its
    stream and does not ask for more. *)
From S2P Require Import Prelude.
From S2P Require Import Crc.
From S2P Require Import Protocol.
From S2P Require Import Readers.
From S2P Require Import Codec.
From S2P Require Import Persistence.

Definition kPersistMagic : Z := 0x43584C50.
Definition kPersistVersion : Z := 1.
Definition kPersistEnvelopeSize : Z := 20.
Definition kMaxPersistPayload : Z := 2 ^ 24.

(** ** Files *)

Record FileSystem : Set := mkFS {
  fs_names : gmap string nat;
  fs_data : gmap nat bytes;
}.

Definition fs_read (fs : FileSystem) (path : string) : option bytes :=
  i ← fs_names fs !! path; fs_data fs !! i.

(** [std::ofstream(path, binary | trunc)] *)
Definition fs_open_trunc (fs : FileSystem) (path : string) : nat * FileSystem :=
  match fs_names fs !! path with
  | Some i => (i, mkFS (fs_names fs) (<[i := []]> (fs_data fs)))
  | None => let i := fresh (dom (fs_data fs)) in
            (i, mkFS (<[path := i]> (fs_names fs)) (<[i := []]> (fs_data fs)))
  end.

(** Bytes written at an offset of an open file; a gap is filled with zeros. *)
Definition write_at (off : nat) (chunk content : bytes) : bytes :=
  take off content ++ replicate (off - length content) 0 ++ chunk
    ++ drop (off + length chunk) content.
Definition fs_write (fs : FileSystem) (i off : nat) (chunk : bytes) : FileSystem :=
  mkFS (fs_names fs) (alter (write_at off chunk) i (fs_data fs)).

(** [rename(a, b)]; it fails when [a] does not exist. *)
Definition fs_rename (fs : FileSystem) (a b : string) : option FileSystem :=
  i ← fs_names fs !! a; Some (mkFS (<[b := i]> (delete a (fs_names fs))) (fs_data fs)).

(** ** Writing *)

(** The sixteen checked bytes of the header, then the checksum, then the payload. *)
Definition persist_header (hi : bytes) (n : Z) : bytes :=
  store_u32 kPersistMagic ++ store_u32 kPersistVersion ++ store_u32 n ++ hi.
Definition persist_file (payload : bytes) : bytes :=
  let hdr := persist_header [0; 0; 0; 0] (u32 (bsize payload)) in
  hdr ++ store_u32 (crc32 (hdr ++ payload)) ++ payload.

Inductive WriteResult : Set :=
  | WrOk
  | WrErr (err : string)
  | WrThrow.

(** Where a call of [write_persisted] stands. *)
Inductive WritePhase : Set :=
  | WStart
  | WWriting (i : nat) (written : nat)
  | WClosed
  | WDone (r : WriteResult).

Definition tmp_of (path : string) : string := path +:+ ".tmp".

Inductive write_step (path : string) (payload : bytes)
    : WritePhase * FileSystem -> WritePhase * FileSystem -> Prop :=
  | ws_too_large fs :
      bsize payload > kMaxPersistPayload ->
      write_step path payload (WStart, fs) (WDone (WrErr "payload too large"), fs)
  | ws_no_open fs :
      bsize payload <= kMaxPersistPayload ->
      write_step path payload (WStart, fs) (WDone (WrErr "cannot open temp"), fs)
  | ws_open fs i fs' :
      bsize payload <= kMaxPersistPayload -> fs_open_trunc fs (tmp_of path) = (i, fs') ->
      write_step path payload (WStart, fs) (WWriting i 0, fs')
  | ws_write fs i n m :
      (n + m <= length (persist_file payload))%nat ->
      write_step path payload (WWriting i n, fs)
        (WWriting i (n + m), fs_write fs i n (take m (drop n (persist_file payload))))
  | ws_no_flush fs i n :
      write_step path payload (WWriting i n, fs) (WDone (WrErr "flush failed"), fs)
  | ws_close fs i :
      write_step path payload (WWriting i (length (persist_file payload)), fs) (WClosed, fs)
  | ws_rename fs fs' :
      fs_rename fs (tmp_of path) path = Some fs' ->
      write_step path payload (WClosed, fs) (WDone WrOk, fs')
  | ws_no_rename fs :
      write_step path payload (WClosed, fs) (WDone WrThrow, fs).

(** What the environment lets a call do: open the file, how many bytes reach it before
    the stream fails (all of them if [None]), and rename it. *)
Record IoOutcome : Set := mkIo { io_open : bool; io_short : option nat; io_rename : bool }.
Definition io_good : IoOutcome := mkIo true None true.

(** A whole call. *)
Definition write_persisted (io : IoOutcome) (path : string) (payload : bytes) (fs : FileSystem)
    : WriteResult * FileSystem :=
  if bool_decide (bsize payload > kMaxPersistPayload) then (WrErr "payload too large", fs) else
  if negb (io_open io) then (WrErr "cannot open temp", fs) else
  let '(i, fs1) := fs_open_trunc fs (tmp_of path) in
  match io_short io with
  | Some n => (WrErr "flush failed", fs_write fs1 i 0 (take n (persist_file payload)))
  | None =>
      let fs2 := fs_write fs1 i 0 (persist_file payload) in
      if io_rename io then
        match fs_rename fs2 (tmp_of path) path with
        | Some fs3 => (WrOk, fs3)
        | None => (WrThrow, fs2)
        end
      else (WrThrow, fs2)
  end.

(** ** Reading *)

Definition read_persisted (fs : FileSystem) (path : string) : string + bytes :=
  match fs_read fs path with
  | None => inl "cannot open"
  | Some file =>
      if bool_decide (bsize file < kPersistEnvelopeSize) then inl "truncated header" else
      let magic := load_u32 file in
      let ver := load_u32 (drop 4 file) in
      let len32 := load_u32 (drop 8 file) in
      if negb (magic =? kPersistMagic) then inl "bad magic"
      else if negb (ver =? kPersistVersion) then inl "bad version"
      else if bool_decide (len32 > kMaxPersistPayload) then inl "oversized payload"
      else
        let rest := drop 20 file in
        if bool_decide (bsize rest < len32) then inl "truncated payload"
        else if bool_decide (bsize rest > len32) then inl "trailing garbage"
        else
          let payload := take (Z.to_nat len32) rest in
          if negb (crc32 (take 16 file ++ payload) =? load_u32 (drop 16 file))
          then inl "checksum mismatch"
          else inr payload
  end.

(** ** One writer *)

Lemma length_string_app a b : String.length (a +:+ b) = (String.length a + String.length b)%nat.
Proof. induction a as [|c a IH]; simpl; [done | by rewrite IH]. Qed.

Lemma tmp_of_ne path : path <> tmp_of path.
Proof.
  intros H. apply (f_equal String.length) in H. unfold tmp_of in H.
  rewrite length_string_app in H. simpl in H. lia.
Qed.

(** No two names lead to one content, and every name leads to one. *)
Record fs_ok (fs : FileSystem) : Prop := {
  fo_inj : forall p q i, fs_names fs !! p = Some i -> fs_names fs !! q = Some i -> p = q;
  fo_data : forall p i, fs_names fs !! p = Some i -> is_Some (fs_data fs !! i);
}.

(** The temporary file is open with this content; all other files are as before. *)
Record holding (fs0 : FileSystem) (tmp : string) (i : nat) (content : bytes)
    (fs : FileSystem) : Prop := {
  ho_name : fs_names fs !! tmp = Some i;
  ho_data : fs_data fs !! i = Some content;
  ho_other : forall q, q <> tmp -> fs_names fs !! q <> Some i;
  ho_read : forall q, q <> tmp -> fs_read fs q = fs_read fs0 q;
}.

Lemma open_holding fs tmp i fs' :
  fs_ok fs -> fs_open_trunc fs tmp = (i, fs') -> holding fs tmp i [] fs'.
Proof.
  intros [Hinj Hdat]. unfold fs_open_trunc. destruct (fs_names fs !! tmp) as [j|] eqn:Hn.
  - intros [= <- <-]. split; simpl; [done | by rewrite lookup_insert_eq | naive_solver |].
    intros q Hq. unfold fs_read. simpl. destruct (fs_names fs !! q) as [k|] eqn:Hk; [|done].
    simpl. rewrite lookup_insert_ne; [done|]. intros ->. apply Hq. by eapply Hinj.
  - set (n := fresh _). assert (fs_data fs !! n = None) as Hfresh
      by (apply not_elem_of_dom, is_fresh).
    assert (forall q, fs_names fs !! q <> Some n) as Hno.
    { intros q Hq. apply Hdat in Hq as [? ?]. congruence. }
    intros [= <- <-]. split; simpl; [by rewrite lookup_insert_eq | by rewrite lookup_insert_eq | |].
    + intros q Hq. by rewrite lookup_insert_ne.
    + intros q Hq. unfold fs_read. simpl. rewrite lookup_insert_ne by done.
      destruct (fs_names fs !! q) as [k|] eqn:Hk; [|done]. simpl.
      rewrite lookup_insert_ne; [done|]. intros ->. by apply (Hno q).
Qed.

Lemma write_at_prefix n m (file : bytes) :
  (n <= length file)%nat -> write_at n (take m (drop n file)) (take n file) = take (n + m) file.
Proof.
  intros Hn. unfold write_at. rewrite length_take_le, Nat.sub_diag by done. simpl.
  rewrite take_take, Nat.min_id. rewrite (drop_ge (take n file)) by (rewrite length_take; lia).
  by rewrite app_nil_r, take_take_drop.
Qed.

Lemma write_holding fs0 tmp i n m file fs :
  (n <= length file)%nat -> holding fs0 tmp i (take n file) fs ->
  holding fs0 tmp i (take (n + m) file) (fs_write fs i n (take m (drop n file))).
Proof.
  intros Hn [Hname Hdata Hother Hread]. split; simpl; [done | | done |].
  - rewrite lookup_alter_eq, Hdata. simpl. by rewrite write_at_prefix.
  - intros q Hq. rewrite <- (Hread q Hq). unfold fs_read. simpl.
    destruct (fs_names fs !! q) as [k|] eqn:Hk; [|done]. simpl.
    rewrite lookup_alter_ne; [done|]. intros ->. by apply (Hother q).
Qed.

Lemma rename_holding fs0 tmp i content fs path fs' :
  path <> tmp -> holding fs0 tmp i content fs -> fs_rename fs tmp path = Some fs' ->
  fs_read fs' path = Some content /\ fs_read fs' tmp = None /\
  forall q, q <> path -> q <> tmp -> fs_read fs' q = fs_read fs0 q.
Proof.
  intros Hne [Hname Hdata _ Hread]. unfold fs_rename. rewrite Hname. simpl. intros [= <-].
  unfold fs_read. simpl. split_and!.
  - by rewrite lookup_insert_eq.
  - by rewrite lookup_insert_ne, lookup_delete_eq by done.
  - intros q Hq Hqt. rewrite lookup_insert_ne, lookup_delete_ne by done. exact (Hread q Hqt).
Qed.

(** What holds at every point of a call that started in [fs0]. *)
Definition write_inv (path : string) (payload : bytes) (fs0 : FileSystem)
    (s : WritePhase * FileSystem) : Prop :=
  let tmp := tmp_of path in
  let file := persist_file payload in
  match s with
  | (WStart, fs) => fs = fs0
  | (WWriting i n, fs) => (n <= length file)%nat /\ bsize payload <= kMaxPersistPayload /\
                          holding fs0 tmp i (take n file) fs
  | (WClosed, fs) => bsize payload <= kMaxPersistPayload /\ exists i, holding fs0 tmp i file fs
  | (WDone WrOk, fs) => bsize payload <= kMaxPersistPayload /\ fs_read fs path = Some file /\
      fs_read fs tmp = None /\
      forall q, q <> path -> q <> tmp -> fs_read fs q = fs_read fs0 q
  | (WDone _, fs) => forall q, q <> tmp -> fs_read fs q = fs_read fs0 q
  end.

Lemma write_inv_step path payload fs0 s s' :
  fs_ok fs0 -> write_inv path payload fs0 s -> write_step path payload s s' ->
  write_inv path payload fs0 s'.
Proof.
  intros Hok Hinv Hstep. destruct Hstep; simpl in *; subst; try done.
  - split_and!; [lia | done | by apply open_holding].
  - destruct Hinv as (Hn & Hp & Hh). split_and!; [lia | done | by apply write_holding].
  - by destruct Hinv as (_ & _ & []).
  - destruct Hinv as (Hn & Hp & Hh). split; [done|]. exists i. by rewrite take_ge in Hh.
  - destruct Hinv as (Hp & i & Hh). split; [done|].
    eapply rename_holding; [apply tmp_of_ne | done..].
  - by destruct Hinv as (_ & i & []).
Qed.

Lemma write_inv_steps path payload fs0 s :
  fs_ok fs0 -> rtc (write_step path payload) (WStart, fs0) s -> write_inv path payload fs0 s.
Proof.
  intros Hok Hr. cut (forall s0, rtc (write_step path payload) s0 s ->
    write_inv path payload fs0 s0 -> write_inv path payload fs0 s); [intros H; by eapply H|].
  clear Hr. intros s0 H. induction H as [|a b c Hab _ IH]; [done|]. intros Ha. apply IH.
  by eapply write_inv_step.
Qed.

(** ** Envelopes *)

(** A file with its fields in place; [hi] are the four unread high bytes of the length. *)
Definition envelope (hi payload : bytes) : bytes :=
  let hdr := persist_header hi (bsize payload) in
  hdr ++ store_u32 (crc32 (hdr ++ payload)) ++ payload.

Lemma persist_file_envelope payload :
  bsize payload <= kMaxPersistPayload -> persist_file payload = envelope [0; 0; 0; 0] payload.
Proof.
  intros Hp. pose proof (bsize_nonneg payload). unfold persist_file, envelope.
  rewrite u32_small; [done|]. unfold in_u32, kMaxPersistPayload in *. lia.
Qed.

Lemma persist_header_ok hi n : bytes_ok hi -> bytes_ok (persist_header hi n).
Proof.
  intros. unfold persist_header. do 3 (apply Forall_app; split; [apply store_u32_ok|]). done.
Qed.

(** What [read_persisted] looks at, for any contents after a header. *)
Lemma header_words hi n rest :
  in_u32 n -> length hi = 4%nat ->
  let file := persist_header hi n ++ rest in
  load_u32 file = kPersistMagic /\ load_u32 (drop 4 file) = kPersistVersion /\
  load_u32 (drop 8 file) = n /\ take 16 file = persist_header hi n /\ drop 16 file = rest.
Proof.
  intros Hn Hhi. cbv zeta.
  assert (length (persist_header hi n) = 16%nat) as Hl
    by (unfold persist_header; rewrite !length_app; simpl; lia).
  split_and!.
  - unfold persist_header. rewrite <- !app_assoc. apply load_u32_store. by vm_compute.
  - change (drop 4 _) with (store_u32 kPersistVersion ++ (store_u32 n ++ hi) ++ rest).
    apply load_u32_store. by vm_compute.
  - change (drop 8 _) with ((store_u32 n ++ hi) ++ rest). rewrite <- app_assoc.
    by apply load_u32_store.
  - by apply take_app_length'.
  - by apply drop_app_length'.
Qed.

Lemma read_envelope fs path hi payload :
  bytes_ok hi -> length hi = 4%nat -> bytes_ok payload -> bsize payload <= kMaxPersistPayload ->
  fs_read fs path = Some (envelope hi payload) -> read_persisted fs path = inr payload.
Proof.
  intros Hhi Hl Hp Hsz Hf. pose proof (bsize_nonneg payload). unfold read_persisted.
  rewrite Hf. unfold envelope. set (hdr := persist_header hi (bsize payload)).
  set (c := crc32 (hdr ++ payload)).
  assert (in_u32 (bsize payload)) as Hn by (unfold in_u32, kMaxPersistPayload in *; lia).
  destruct (header_words hi (bsize payload) (store_u32 c ++ payload) Hn Hl)
    as (Hm & Hv & Hlen & Ht & Hd). fold hdr in Hm, Hv, Hlen, Ht, Hd.
  assert (bytes_ok (hdr ++ payload)) as Hok
    by (apply Forall_app; split; [by apply persist_header_ok | done]).
  rewrite Hm, Hv, Hlen, Ht, Hd.
  rewrite <- (drop_drop _ 4 16 : _ = drop 20 _), Hd. change (drop 4 _) with payload.
  rewrite load_u32_store by (by apply crc32_word).
  assert (bsize (hdr ++ store_u32 c ++ payload) = 20 + bsize payload) as ->.
  { rewrite !bsize_app. unfold hdr, persist_header. rewrite !bsize_app. unfold bsize. simpl. lia. }
  unfold kPersistEnvelopeSize. rewrite !bool_decide_false by lia. rewrite !Z.eqb_refl. simpl.
  rewrite take_ge by (unfold bsize; lia). fold c. by rewrite Z.eqb_refl.
Qed.

Lemma read_accepts fs path file payload :
  fs_read fs path = Some file -> bytes_ok file -> read_persisted fs path = inr payload ->
  exists hi, length hi = 4%nat /\ bsize payload <= kMaxPersistPayload /\ file = envelope hi payload.
Proof.
  intros Hf Hok. unfold read_persisted. rewrite Hf. case_bool_decide as Hlen; [done|].
  unfold kPersistEnvelopeSize, bsize in Hlen. assert (20 <= length file)%nat as Hl by lia.
  destruct (Z.eqb_spec (load_u32 file) kPersistMagic) as [Hm|]; simpl; [|done].
  destruct (Z.eqb_spec (load_u32 (drop 4 file)) kPersistVersion) as [Hv|]; simpl; [|done].
  case_bool_decide as Hmax; [done|]. case_bool_decide as Hs1; [done|].
  case_bool_decide as Hs2; [done|].
  set (n := load_u32 (drop 8 file)) in *.
  assert (bsize (drop 20 file) = n) as Hn by lia.
  rewrite (take_ge (drop 20 file)) by (unfold bsize in Hn; lia).
  destruct (Z.eqb_spec (crc32 (take 16 file ++ drop 20 file)) (load_u32 (drop 16 file)))
    as [Hc|]; simpl; [|done].
  intros Heq. apply (inj inr) in Heq. subst payload. exists (take 4 (drop 12 file)).
  assert (forall k, bytes_ok (drop k file)) as Hd by (intros; by apply Forall_drop).
  split; [rewrite length_take, length_drop; lia|]. split; [lia|].
  assert (take 16 file = persist_header (take 4 (drop 12 file)) n) as Hh.
  { unfold persist_header. rewrite <- Hm, <- Hv. unfold n.
    rewrite !store_load_u32 by (done || rewrite ?length_drop; lia).
    rewrite <- (drop_drop file 4 8 : _ = drop 12 file), take_take_drop.
    rewrite <- (drop_drop file 4 4 : _ = drop 8 file), take_take_drop.
    by rewrite take_take_drop. }
  unfold envelope. rewrite Hn, <- Hh, Hc.
  rewrite store_load_u32 by (done || rewrite ?length_drop; lia).
  rewrite <- (drop_drop file 4 16 : _ = drop 20 file), take_drop. by rewrite take_drop.
Qed.

(** ** What a snapshot file promises *)

#[export] Instance WriteResult_eq_dec : EqDecision WriteResult.
Proof. solve_decision. Defined.
#[export] Instance WritePhase_eq_dec : EqDecision WritePhase.
Proof. solve_decision. Defined.

Lemma zeros_ok : bytes_ok [0; 0; 0; 0].
Proof. apply (bool_decide_unpack _). by vm_compute. Qed.

Lemma read_persisted_same fs fs' path :
  fs_read fs' path = fs_read fs path -> read_persisted fs' path = read_persisted fs path.
Proof. intros H. unfold read_persisted. by rewrite H. Qed.

Lemma snapshot_replaced path payload fs ph fs' :
  fs_ok fs -> bytes_ok payload -> rtc (write_step path payload) (WStart, fs) (ph, fs') ->
  read_persisted fs' path =
    (if decide (ph = WDone WrOk) then inr payload else read_persisted fs path) /\
  forall q, q <> path -> q <> tmp_of path -> fs_read fs' q = fs_read fs q.
Proof.
  intros Hok Hp Hr. pose proof (tmp_of_ne path) as Hne.
  pose proof (write_inv_steps path payload fs (ph, fs') Hok Hr) as Hinv.
  destruct ph as [|i n| |[|err|]]; simpl in Hinv.
  - by subst fs'.
  - destruct Hinv as (_ & _ & []). split; [|naive_solver]. by apply read_persisted_same; auto.
  - destruct Hinv as (_ & i & []). split; [|naive_solver]. by apply read_persisted_same; auto.
  - destruct Hinv as (Hsz & Hf & _ & Ho). split; [|done]. rewrite decide_True by done.
    rewrite persist_file_envelope in Hf by done.
    apply (read_envelope fs' path [0; 0; 0; 0]); try done. apply zeros_ok.
  - split; [|naive_solver]. rewrite decide_False by done. by apply read_persisted_same; auto.
  - split; [|naive_solver]. rewrite decide_False by done. by apply read_persisted_same; auto.
Qed.

(** A snapshot is replaced atomically. Stop a writer at any point, between any two
    portions of bytes that reach the temporary file, with any of its system calls
    failing: a reader of the path still gets exactly what it would have got before the
    call, unless the call has returned success, and then it gets the new payload. No
    other file but the temporary one ever changes. *)
Theorem snapshot_replaced_atomically path payload fs ph fs' :
  fs_ok fs -> bytes_ok payload -> rtc (write_step path payload) (WStart, fs) (ph, fs') ->
  read_persisted fs' path =
    (if decide (ph = WDone WrOk) then inr payload else read_persisted fs path) /\
  forall q, q <> path -> q <> tmp_of path -> fs_read fs' q = fs_read fs q.
Proof. apply snapshot_replaced. Qed.

(** A call is a run of steps. *)
Lemma write_persisted_steps io path payload fs :
  rtc (write_step path payload) (WStart, fs)
    (WDone (write_persisted io path payload fs).1, (write_persisted io path payload fs).2).
Proof.
  unfold write_persisted. set (file := persist_file payload).
  case_bool_decide as Hsz; [by apply rtc_once, ws_too_large|].
  destruct (io_open io); simpl; [|apply rtc_once, ws_no_open; lia].
  destruct (fs_open_trunc fs (tmp_of path)) as [i fs1] eqn:Hopen.
  assert (Hw : forall m, (m <= length file)%nat -> rtc (write_step path payload) (WStart, fs)
                 (WWriting i m, fs_write fs1 i 0 (take m file))).
  { intros m Hm. eapply rtc_l; [apply ws_open; [lia | exact Hopen]|]. apply rtc_once.
    exact (ws_write path payload fs1 i 0 m Hm). }
  destruct (io_short io) as [n|].
  - specialize (Hw (n `min` length file)%nat ltac:(lia)).
    assert (take (n `min` length file) file = take n file) as Ht.
    { destruct (decide (n <= length file)%nat); [by rewrite Nat.min_l|].
      by rewrite Nat.min_r, !take_ge by lia. }
    rewrite Ht in Hw. eapply rtc_r; [exact Hw | apply ws_no_flush].
  - specialize (Hw (length file) ltac:(lia)). rewrite (take_ge file) in Hw by lia.
    assert (rtc (write_step path payload) (WStart, fs) (WClosed, fs_write fs1 i 0 file)) as Hc
      by (eapply rtc_r; [exact Hw | apply ws_close]).
    destruct (io_rename io); [|eapply rtc_r; [exact Hc | apply ws_no_rename]].
    destruct (fs_rename _ _ _) as [fs3|] eqn:Hren;
      (eapply rtc_r; [exact Hc|]); [by apply ws_rename | apply ws_no_rename].
Qed.

Lemma snapshot_replaced_atomically_witness :
  read_persisted (write_persisted (mkIo true (Some 7%nat) true) "s" [1; 2; 3]
                    (mkFS {["s" := 0%nat]} {[0%nat := persist_file [9]]})).2 "s" = inr [9].
Proof.
  set (fs := mkFS _ _).
  assert (fs_ok fs) as Hok.
  { split; unfold fs; simpl.
    - intros p q i [<- _]%lookup_singleton_Some [<- _]%lookup_singleton_Some. reflexivity.
    - intros p i [_ <-]%lookup_singleton_Some. rewrite lookup_singleton_eq. by eexists. }
  destruct (snapshot_replaced_atomically "s" [1; 2; 3] fs (WDone (WrErr "flush failed"))
    (write_persisted (mkIo true (Some 7%nat) true) "s" [1; 2; 3] fs).2) as [H _].
  - exact Hok.
  - apply (bool_decide_unpack _). by vm_compute.
  - exact (write_persisted_steps (mkIo true (Some 7%nat) true) "s" [1; 2; 3] fs).
  - rewrite H. vm_compute. reflexivity.
Defined.

(** ** Repeated writes *)

Lemma fs_ok_open fs path : fs_ok fs -> fs_ok (fs_open_trunc fs path).2.
Proof.
  intros [Hinj Hdat]. unfold fs_open_trunc. destruct (fs_names fs !! path) as [i|] eqn:Hn.
  - split; simpl; [done|]. intros p j Hj. rewrite lookup_insert_is_Some.
    destruct (decide (i = j)); [by left | right; split; [done | by eapply Hdat]].
  - set (n := fresh _). assert (fs_data fs !! n = None) as Hfresh
      by (apply not_elem_of_dom, is_fresh).
    split; simpl.
    + intros p q j [[<- <-] | [? Hp]]%lookup_insert_Some [[<- Hq] | [? Hq]]%lookup_insert_Some;
        try done; [apply Hdat in Hq as [? ?] | subst; apply Hdat in Hp as [? ?] |]; try congruence.
      by eapply Hinj.
    + intros p j [[<- <-] | [? Hp]]%lookup_insert_Some; [by rewrite lookup_insert_eq|].
      apply Hdat in Hp as [? Hp]. rewrite lookup_insert_ne by congruence. by rewrite Hp.
Qed.

Lemma fs_ok_write fs i off chunk : fs_ok fs -> fs_ok (fs_write fs i off chunk).
Proof.
  intros [Hinj Hdat]. split; simpl; [done|]. intros p j Hj. apply lookup_alter_is_Some.
  by eapply Hdat.
Qed.

Lemma fs_ok_rename fs a b fs' : a <> b -> fs_ok fs -> fs_rename fs a b = Some fs' -> fs_ok fs'.
Proof.
  intros Hne [Hinj Hdat]. unfold fs_rename. destruct (fs_names fs !! a) as [i|] eqn:Ha; [|done].
  simpl. intros [= <-]. split; simpl.
  - intros p q j. rewrite !lookup_insert_Some, !lookup_delete_Some.
    intros [[<- <-] | (? & ? & Hp)] [[<- Hq] | (? & ? & Hq)]; try done.
    + by destruct (Hinj a q i Ha Hq).
    + subst j. by destruct (Hinj a p i Ha Hp).
    + by eapply Hinj.
  - intros p j. rewrite lookup_insert_Some, lookup_delete_Some.
    intros [[<- <-] | (? & ? & Hp)]; by eapply Hdat.
Qed.

Lemma fs_ok_step path payload s s' : write_step path payload s s' -> fs_ok s.2 -> fs_ok s'.2.
Proof.
  intros Hstep Hok. destruct Hstep as [| |? ? ? ? Ho| | | |? ? Hr|]; simpl in *; try done.
  - replace fs' with (fs_open_trunc fs (tmp_of path)).2 by by rewrite Ho. by apply fs_ok_open.
  - by apply fs_ok_write.
  - eapply fs_ok_rename; [|done..]. apply not_eq_sym, tmp_of_ne.
Qed.

Lemma fs_ok_steps path payload s s' :
  rtc (write_step path payload) s s' -> fs_ok s.2 -> fs_ok s'.2.
Proof. induction 1 as [|? ? ? Hs _ IH]; [done|]. intros Hok. by eapply IH, fs_ok_step. Qed.

Lemma write_persisted_good path payload fs :
  fs_ok fs -> bsize payload <= kMaxPersistPayload ->
  (write_persisted io_good path payload fs).1 = WrOk.
Proof.
  intros Hok Hsz. unfold write_persisted. rewrite bool_decide_false by lia. simpl.
  destruct (fs_open_trunc fs (tmp_of path)) as [i fs1] eqn:Ho.
  destruct (open_holding _ _ _ _ Hok Ho) as [Hname _ _ _].
  unfold fs_rename. simpl. by rewrite Hname.
Qed.

(** Snapshot files round-trip, and nothing else is accepted. On any well-formed file
    system a payload of at most 16 MiB is written with success when the system calls
    succeed, is read back, and the file system is ready for the next write; a larger one
    is refused and nothing is touched. Whatever file stands at a path, a reader accepts it
    exactly when it is an envelope of the payload it returns: magic, version, length,
    checksum of header and payload, and no byte more (the four high bytes of the length
    are covered by the checksum and otherwise free). *)
Theorem snapshot_file_round_trip path payload fs :
  fs_ok fs -> bytes_ok payload ->
  (bsize payload <= kMaxPersistPayload ->
     exists fs', write_persisted io_good path payload fs = (WrOk, fs') /\
       read_persisted fs' path = inr payload /\ fs_ok fs') /\
  (bsize payload > kMaxPersistPayload -> forall io,
     write_persisted io path payload fs = (WrErr "payload too large", fs)) /\
  (forall file p, fs_read fs path = Some file -> bytes_ok file ->
     read_persisted fs path = inr p <->
     exists hi, length hi = 4%nat /\ bsize p <= kMaxPersistPayload /\ file = envelope hi p).
Proof.
  intros Hok Hp. split_and!.
  - intros Hsz. exists (write_persisted io_good path payload fs).2.
    pose proof (write_persisted_good path payload fs Hok Hsz) as Hgood.
    pose proof (write_persisted_steps io_good path payload fs) as Hrun. rewrite Hgood in Hrun.
    split_and!.
    + rewrite <- Hgood. by destruct (write_persisted _ _ _ _).
    + destruct (snapshot_replaced path payload fs _ _ Hok Hp Hrun) as [Hread _].
      by rewrite decide_True in Hread.
    + by apply (fs_ok_steps _ _ _ _ Hrun).
  - intros Hsz io. unfold write_persisted. by rewrite bool_decide_true.
  - intros file p Hf Hfok. split; [by apply read_accepts|].
    intros (hi & Hl & Hsz & ->). unfold envelope, persist_header in Hfok.
    unfold bytes_ok in Hfok. rewrite !Forall_app in Hfok. destruct_and!.
    apply (read_envelope fs path hi p); try done.
Qed.

(** ** Two writers

    The coordinator serves each client in a thread of its own, and every request that
    changes the state ends in [persist_now], without a lock: two calls may interleave,
    and both use the same temporary file. *)

Inductive writers_step (path : string) (p1 p2 : bytes)
    : WritePhase * WritePhase * FileSystem -> WritePhase * WritePhase * FileSystem -> Prop :=
  | wr_first a b a' fs fs' :
      write_step path p1 (a, fs) (a', fs') -> writers_step path p1 p2 (a, b, fs) (a', b, fs')
  | wr_second a b b' fs fs' :
      write_step path p2 (b, fs) (b', fs') -> writers_step path p1 p2 (a, b, fs) (a, b', fs').

Lemma first_steps path p1 p2 a a' b fs fs' :
  rtc (write_step path p1) (a, fs) (a', fs') ->
  rtc (writers_step path p1 p2) (a, b, fs) (a', b, fs').
Proof.
  intros H. apply (rtc_congruence (fun s : WritePhase * FileSystem => (s.1, b, s.2))
                     (writers_step path p1 p2)) in H; [done|].
  intros [x fx] [y fy] Hs. by apply wr_first.
Qed.

Lemma second_steps path p1 p2 a b b' fs fs' :
  rtc (write_step path p2) (b, fs) (b', fs') ->
  rtc (writers_step path p1 p2) (a, b, fs) (a, b', fs').
Proof.
  intros H. apply (rtc_congruence (fun s : WritePhase * FileSystem => (a, s.1, s.2))
                     (writers_step path p1 p2)) in H; [done|].
  intros [x fx] [y fy] Hs. by apply wr_second.
Qed.

(** The first writer, up to the point where it has closed the temporary file. *)
Lemma writer_closes path payload fs :
  fs_ok fs -> bsize payload <= kMaxPersistPayload ->
  exists i fs1, rtc (write_step path payload) (WStart, fs) (WClosed, fs1) /\
    holding fs (tmp_of path) i (persist_file payload) fs1.
Proof.
  intros Hok Hsz. destruct (fs_open_trunc fs (tmp_of path)) as [i fs1] eqn:Ho.
  set (file := persist_file payload). exists i, (fs_write fs1 i 0 file).
  pose proof (write_holding fs (tmp_of path) i 0 (length file) file fs1 (Nat.le_0_l _)
                (open_holding _ _ _ _ Hok Ho)) as Hh.
  assert (take (length file) file = file) as Hall by (apply take_ge; done).
  change (take (0 + length file) file) with (take (length file) file) in Hh.
  rewrite drop_0, Hall in Hh. split; [|done].
  eapply rtc_l; [by apply ws_open|]. eapply rtc_l; [|apply rtc_once, ws_close].
  pose proof (ws_write path payload fs1 i 0 (length file) (Nat.le_refl _)) as Hw.
  fold file in Hw. rewrite drop_0, Hall in Hw. exact Hw.
Qed.

(** Two clients at once can lose the snapshot. From any well-formed file system two
    unlocked calls have an interleaving after which the first has reported success while
    the file at the path is empty, so that a recovery at this point refuses it and the
    previous snapshot is gone; and when the second call goes on, it writes into the
    published file itself, and its own rename can only fail, which is an exception that
    nobody catches. *)
Theorem unlocked_writers_lose_snapshot path p1 p2 fs :
  fs_ok fs -> bsize p1 <= kMaxPersistPayload -> bsize p2 <= kMaxPersistPayload ->
  exists i fs1 fs2,
    rtc (writers_step path p1 p2) (WStart, WStart, fs) (WDone WrOk, WWriting i 0, fs1) /\
    read_persisted fs1 path = inl "truncated header" /\
    rtc (writers_step path p1 p2) (WDone WrOk, WWriting i 0, fs1) (WDone WrOk, WClosed, fs2) /\
    fs_read fs2 path = Some (persist_file p2) /\ fs_rename fs2 (tmp_of path) path = None.
Proof.
  intros Hok H1 H2. destruct (writer_closes path p1 fs Hok H1) as (i & fsa & Hrun & Hh).
  destruct Hh as [Hname Hdata _ _]. pose proof (tmp_of_ne path) as Hne.
  set (fsb := mkFS (fs_names fsa) (<[i := []]> (fs_data fsa))).
  set (fsc := mkFS (<[path := i]> (delete (tmp_of path) (fs_names fsa))) (fs_data fsb)).
  set (file := persist_file p2). exists i, fsc, (fs_write fsc i 0 file).
  assert (fs_open_trunc fsa (tmp_of path) = (i, fsb)) as Hopen
    by (unfold fs_open_trunc; by rewrite Hname).
  assert (fs_read fsc path = Some []) as Hread
    by (unfold fs_read; simpl; rewrite lookup_insert_eq; simpl; by rewrite lookup_insert_eq).
  split_and!.
  - etransitivity; [by apply (first_steps _ _ _ _ _ _ _ _ Hrun)|].
    eapply rtc_l; [apply wr_second, (ws_open _ _ _ i fsb); done|].
    apply rtc_once, wr_first, ws_rename. unfold fs_rename. simpl. by rewrite Hname.
  - unfold read_persisted. rewrite Hread. done.
  - apply second_steps. eapply rtc_l; [|apply rtc_once, ws_close].
    pose proof (ws_write path p2 fsc i 0 (length file) (Nat.le_refl _)) as Hw.
    fold file in Hw. rewrite drop_0, (take_ge file) in Hw by lia. exact Hw.
  - unfold fs_read. simpl. rewrite lookup_insert_eq. simpl.
    rewrite lookup_alter_eq, lookup_insert_eq.
    change (Some (write_at 0 file []) = Some file). unfold write_at.
    rewrite take_nil, drop_nil, app_nil_r. done.
  - unfold fs_rename. simpl. by rewrite lookup_insert_ne, lookup_delete_eq by done.
Qed.

Lemma fs_ok_empty : fs_ok (mkFS ∅ ∅).
Proof. split; simpl; intros p; [intros q i|intros i]; by rewrite lookup_empty. Qed.

Lemma unlocked_writers_lose_snapshot_witness :
  exists i fs1,
    rtc (writers_step "s" [1] [2; 3]) (WStart, WStart, mkFS ∅ ∅) (WDone WrOk, WWriting i 0, fs1) /\
    read_persisted fs1 "s" = inl "truncated header".
Proof.
  destruct (unlocked_writers_lose_snapshot "s" [1] [2; 3] (mkFS ∅ ∅)) as (i & fs1 & _ & H1 & H2 & _);
    [exact fs_ok_empty | by vm_compute | by vm_compute |].
  exists i, fs1. exact (conj H1 H2).
Defined.

Lemma snapshot_file_round_trip_witness :
  exists fs', write_persisted io_good "s" [1; 2; 3] (mkFS ∅ ∅) = (WrOk, fs') /\
    read_persisted fs' "s" = inr [1; 2; 3].
Proof.
  destruct (snapshot_file_round_trip "s" [1; 2; 3] (mkFS ∅ ∅)) as [H _];
    [exact fs_ok_empty | apply (bool_decide_unpack _); by vm_compute |].
  destruct H as (fs' & Hw & Hr & _); [by vm_compute|]. exists fs'. exact (conj Hw Hr).
Defined.
