(* ===== verification/Recovery.v ===== *)
(** * Saving and recovering the coordinator's state

    [Coordinator::persist_now] and the constructor of [Coordinator]
    ([multiprocess/coordinator_main.cpp]), which put the engine, the serialiser and the
    snapshot file together: what a coordinator saves, and what a new process makes of
    it. *)
From S2P Require Import Prelude.
From S2P Require Import Identity.
From S2P Require Import Enums.
From S2P Require Import Records.
From S2P Require Import Fabric.
From S2P Require Import Synthetic.
From S2P Require Import Ledger.
From S2P Require Import LedgerRefinement.
From S2P Require Import Invariants.
From S2P Require Import CapacitySafety.
From S2P Require Import Crc.
From S2P Require Import Protocol.
From S2P Require Import Readers.
From S2P Require Import Codec.
From S2P Require Import Persistence.
From S2P Require Import Storage.

(** [persist_now]: the result of the write, if the state could be serialised. *)
Definition persist_now (io : IoOutcome) (path : string) (f : Fabric) (fs : FileSystem)
    : option WriteResult * FileSystem :=
  match serialize_state (export_persisted f) with
  | inl _ => (None, fs)
  | inr payload => let '(r, fs') := write_persisted io path payload fs in (Some r, fs')
  end.

(** The constructor: a new engine, and the persisted state imported into it when there is
    one that reads back. [None] stands for a read outside the payload. *)
Definition coordinator_boot (epoch : Z) (path : string) (fs : FileSystem) : option Fabric :=
  let fresh_fabric := fabric_init (mkGen epoch) (mkGen 1) in
  if String.eqb path "" || negb (bool_decide (is_Some (fs_read fs path))) then Some fresh_fabric
  else
    match read_persisted fs path with
    | inl _ => Some fresh_fabric
    | inr payload =>
        match deserialize_state payload with
        | Got st _ => Some (import_persisted fresh_fabric st)
        | Refused _ => Some fresh_fabric
        | Fault => None
        end
    end.

(** ** What comes back *)

Lemma exported_ok f : fabric_inv f -> persisted_ok (export_persisted f).
Proof.
  intros Hinv. pose proof Hinv as [[Hd Hr Hp _] Hm Hl _ _]. split; simpl; [done..|].
  intros k p Hk. destruct (Hm k p Hk) as [Hmem Htot].
  assert (account_ok (account_of p)) as Ha.
  { apply (lok_accounts _ Hl k). unfold ledger_of. simpl. by rewrite lookup_fmap, Hk. }
  unfold account_ok in Ha. simpl in Ha. split_and!; [exact (Hp k p Hk) | | done].
  unfold pool_input_ok. split_and!; (done || lia).
Qed.

Lemma kept_ok ps : persisted_ok ps -> persisted_ok (kept_state ps).
Proof.
  intros [Hd Hr Hp]. split; simpl; intros k x (y & <- & Hk)%lookup_fmap_Some.
  - exact (Hd k y Hk).
  - exact (Hr k y Hk).
  - exact (Hp k y Hk).
Qed.

(** The payload a save writes. *)
Lemma persist_now_fits io path f fs :
  state_fits (export_persisted f) ->
  persist_now io path f fs =
    (Some (write_persisted io path (sealed (serialize_body (export_persisted f))) fs).1,
     (write_persisted io path (sealed (serialize_body (export_persisted f))) fs).2).
Proof.
  intros Hfit. unfold persist_now. rewrite serialize_state_fits by done.
  by destruct (write_persisted _ _ _ _).
Qed.

Lemma sealed_ok body : bytes_ok body -> bytes_ok (sealed body).
Proof. intros. apply Forall_app. split; [done | apply put_u32_ok]. Qed.

Lemma boot_same epoch path fs fs' :
  fs_read fs' path = fs_read fs path -> coordinator_boot epoch path fs' = coordinator_boot epoch path fs.
Proof. intros H. unfold coordinator_boot. by rewrite (read_persisted_same fs fs' path H), H. Qed.

Lemma boot_saved epoch path fs st :
  path <> "" -> state_fits st -> bsize (serialize_body st) + 4 <= UINT64_MAX ->
  read_persisted fs path = inr (sealed (serialize_body st)) ->
  coordinator_boot epoch path fs =
    Some (import_persisted (fabric_init (mkGen epoch) (mkGen 1)) (kept_state st)).
Proof.
  intros Hp Hfit Hsz Hread. unfold coordinator_boot.
  destruct (String.eqb_spec path "") as [|_]; [done|]. simpl.
  assert (is_Some (fs_read fs path)) as Hex.
  { unfold read_persisted in Hread. destruct (fs_read fs path); [by eexists | done]. }
  rewrite bool_decide_true by done. simpl. rewrite Hread.
  pose proof (serialize_body_ok st) as Hok. rewrite deserialize_sealed by done.
  by rewrite (reads_run _ _ (kept_state st)) by (apply reads_body, Hfit || done || lia).
Qed.

(** What a device, a region and a pool are recovered with. *)
Definition device_structure (d : CxlDevice) :=
  (dev_id d, dev_generation d, dev_boot_id d, dev_total_physical_bytes d, dev_online_bytes d,
   dev_capabilities d).
Definition region_structure (r : CxlRegion) :=
  (reg_id r, reg_generation r, reg_pool r, reg_member_devices r, reg_region_capacity_bytes r).
Definition pool_structure (p : CxlPool) :=
  (pool_id p, pool_generation p, pool_members p, pool_failure_domains p, account_of p).

Lemma recovered_structure f0 st :
  let s := state_ (import_persisted f0 (kept_state st)) in
  (device_structure <$> st_devices s = device_structure <$> ps_devices st) /\
  (region_structure <$> st_regions s = region_structure <$> ps_regions st) /\
  (pool_structure <$> st_pools s = pool_structure <$> ps_pools st) /\
  map_Forall (fun _ r => reg_tier r = TierClass_CXL_UNKNOWN) (st_regions s).
Proof.
  simpl. rewrite <- !map_fmap_compose. split_and!; try by apply map_fmap_ext.
  by intros k r (r0 & <- & _)%lookup_fmap_Some.
Qed.

(** C20. A restart recovers what was saved. When a coordinator in any reachable state,
    within the limits of the format, saves its state and the system calls succeed, a new
    process that boots from the file gets an engine in a reachable state again, so that
    every guarantee of the engine holds of it: all devices, regions and pools with their
    identities, generations, members, sizes and accounts (but every region has lost its
    tier, so no request that requires one is placed on it). When the save fails at any
    point, a new process boots exactly as it would have before the save. *)
Theorem restart_recovers epoch path f fs :
  reachable op_wf f -> state_fits (export_persisted f) ->
  bsize (serialize_body (export_persisted f)) + 4 <= kMaxPersistPayload ->
  fs_ok fs -> path <> "" ->
  (exists fs' f',
     persist_now io_good path f fs = (Some WrOk, fs') /\
     coordinator_boot epoch path fs' = Some f' /\ reachable op_wf f' /\
     device_structure <$> st_devices (state_ f') = device_structure <$> st_devices (state_ f) /\
     region_structure <$> st_regions (state_ f') = region_structure <$> st_regions (state_ f) /\
     pool_structure <$> st_pools (state_ f') = pool_structure <$> st_pools (state_ f) /\
     map_Forall (fun _ r => reg_tier r = TierClass_CXL_UNKNOWN) (st_regions (state_ f'))) /\
  (forall io r fs', persist_now io path f fs = (Some r, fs') -> r <> WrOk ->
     coordinator_boot epoch path fs' = coordinator_boot epoch path fs).
Proof.
  intros Hf Hfit Hsz Hfs Hpath. set (st := export_persisted f) in *.
  pose proof (sealed_ok _ (serialize_body_ok st)) as Hok.
  assert (bsize (sealed (serialize_body st)) <= kMaxPersistPayload) as Hsz'
    by (unfold sealed; rewrite bsize_app, bsize_put_u32; lia).
  split.
  - set (fs' := (write_persisted io_good path (sealed (serialize_body st)) fs).2).
    exists fs', (import_persisted (fabric_init (mkGen epoch) (mkGen 1)) (kept_state st)).
    pose proof (write_persisted_good path _ fs Hfs Hsz') as Hgood.
    pose proof (write_persisted_steps io_good path (sealed (serialize_body st)) fs) as Hrun.
    rewrite Hgood in Hrun. fold fs' in Hrun.
    destruct (snapshot_replaced path _ fs _ _ Hfs Hok Hrun) as [Hread _].
    rewrite decide_True in Hread by done.
    pose proof (recovered_structure (fabric_init (mkGen epoch) (mkGen 1)) st) as (? & ? & ? & ?).
    split_and!; try done.
    + rewrite persist_now_fits by done. fold st. by rewrite Hgood.
    + apply boot_saved; try done. unfold kMaxPersistPayload, UINT64_MAX in *. lia.
    + apply (reach_step op_wf _ (OpImport (kept_state st))); [constructor|].
      apply kept_ok, exported_ok. by apply reachable_inv.
  - intros io r fs' Hp Hr. rewrite persist_now_fits in Hp by done. fold st in Hp.
    pose proof (write_persisted_steps io path (sealed (serialize_body st)) fs) as Hrun.
    destruct (write_persisted io path (sealed (serialize_body st)) fs) as [r0 fs0].
    cbn [fst snd] in *. injection Hp as -> ->. apply boot_same.
    pose proof (write_inv_steps _ _ _ _ Hfs Hrun) as Hinv. unfold write_inv in Hinv.
    pose proof (tmp_of_ne path). destruct r; [done | by apply Hinv | by apply Hinv].
Qed.

(** The demonstration engine with its outstanding reservation is within the limits. *)
Lemma demo_reserved_fits : state_fits (export_persisted demo_reserved).
Proof. fits_by_computation. Qed.

Lemma restart_recovers_witness :
  exists fs' f',
    persist_now io_good "state.bin" demo_reserved (mkFS ∅ ∅) = (Some WrOk, fs') /\
    coordinator_boot 2 "state.bin" fs' = Some f' /\
    pool_structure <$> st_pools (state_ f') = pool_structure <$> st_pools (state_ demo_reserved).
Proof.
  destruct (restart_recovers 2 "state.bin" demo_reserved (mkFS ∅ ∅)) as [H _].
  - eapply reachable_mono; [|exact demo_reserved_reachable]. by intros f op [[? _] _].
  - exact demo_reserved_fits.
  - vm_compute. discriminate.
  - exact fs_ok_empty.
  - discriminate.
  - destruct H as (fs' & f' & H1 & H2 & _ & _ & _ & H3 & _). exists fs', f'.
    exact (conj H1 (conj H2 H3)).
Defined.
