(* ===== verification/Args.v ===== *)
(** * Command lines

    How the three programs read their arguments: the loop over [argv] they share, the
    conversion of numbers ([std::stoul] and [std::stoull], both of 64 bits on the
    platforms where [unsigned long] is), and the options of the coordinator
    ([multiprocess/coordinator_main.cpp], [main]). *)
From S2P Require Import Prelude.
From S2P Require Import Identity.
From S2P Require Import Selection.

Definition nl : string := String (Ascii.ascii_of_nat 10) "".

(** ** Numbers *)

Definition is_space (c : Ascii.ascii) : bool :=
  let n := Ascii.N_of_ascii c in bool_decide (n = 32%N) || bool_decide (9 <= n <= 13)%N.

Definition digit_of (c : Ascii.ascii) : option Z :=
  let n := Z.of_N (Ascii.N_of_ascii c) in
  if bool_decide (48 <= n <= 57) then Some (n - 48) else None.

Fixpoint skip_spaces (s : string) : string :=
  match s with
  | String c s' => if is_space c then skip_spaces s' else s
  | EmptyString => s
  end.

(** The value of the digits at the front, after [acc]. *)
Fixpoint digits (acc : Z) (s : string) : Z :=
  match s with
  | String c s' => match digit_of c with Some d => digits (10 * acc + d) s' | None => acc end
  | EmptyString => acc
  end.

Definition starts_with_digit (s : string) : bool :=
  match s with String c _ => bool_decide (is_Some (digit_of c)) | EmptyString => false end.

(** An optional sign: whether it is a minus, and the rest. *)
Definition sign_of (s : string) : bool * string :=
  match s with
  | String c s' =>
      if bool_decide (Ascii.N_of_ascii c = 45%N) then (true, s')
      else if bool_decide (Ascii.N_of_ascii c = 43%N) then (false, s') else (false, s)
  | EmptyString => (false, s)
  end.

(** [std::stoull]: [None] is an exception, for a string without a number and for a number
    that does not fit. What follows the number is ignored; a minus negates modulo 2^64. *)
Definition stoull (s : string) : option Z :=
  let '(neg, t) := sign_of (skip_spaces s) in
  if negb (starts_with_digit t) then None
  else
    let v := digits 0 t in
    if bool_decide (v > UINT64_MAX) then None
    else Some (if neg then (- v) mod 2 ^ 64 else v).

(** [std::uint16_t(std::stoul(s))]. *)
Definition stoul_u16 (s : string) : option Z := (fun v => v mod 2 ^ 16) <$> stoull s.

(** ** The loop over the arguments *)

(** [value x v] is the effect of the option [x] with the argument [v], if [x] is an option
    that takes one ([Some None]: the conversion throws); [flag x] that of any other word.
    A value option at the end of the line is not recognised. *)
Fixpoint parse_options {A} (value : string -> string -> A -> option (option A))
    (flag : string -> A -> A) (argv : list string) (a : A) : option A :=
  match argv with
  | [] => Some a
  | x :: rest =>
      match rest with
      | v :: rest' =>
          match value x v a with
          | Some None => None
          | Some (Some a') => parse_options value flag rest' a'
          | None => parse_options value flag rest (flag x a)
          end
      | [] => Some (flag x a)
      end
  end.

(** ** The coordinator's options *)

Record CoordArgs : Set := mkCoordArgs {
  ca_port : Z;
  ca_epoch : Z;
  ca_persist : string;
  ca_statefile : string;
}.

Definition coord_args_default : CoordArgs := mkCoordArgs 17777 1 "" "".

Definition coord_value (x v : string) (a : CoordArgs) : option (option CoordArgs) :=
  if String.eqb x "--port" then
    Some ((fun p => mkCoordArgs p (ca_epoch a) (ca_persist a) (ca_statefile a)) <$> stoul_u16 v)
  else if String.eqb x "--epoch" then
    Some ((fun e => mkCoordArgs (ca_port a) e (ca_persist a) (ca_statefile a)) <$> stoull v)
  else if String.eqb x "--persist" then
    Some (Some (mkCoordArgs (ca_port a) (ca_epoch a) v (ca_statefile a)))
  else if String.eqb x "--statefile" then
    Some (Some (mkCoordArgs (ca_port a) (ca_epoch a) (ca_persist a) v))
  else None.

Definition coord_args (argv : list string) : option CoordArgs :=
  parse_options coord_value (fun _ a => a) argv coord_args_default.

(** ** Reading back what is written *)

Lemma digit_of_in c d : digit_of c = Some d -> 0 <= d < 10.
Proof. unfold digit_of. case_bool_decide; [|done]. intros [= <-]. lia. Qed.

Lemma digits_nonneg acc s : 0 <= acc -> acc <= digits acc s.
Proof.
  revert acc. induction s as [|c s IH]; intros acc Hacc; simpl; [lia|].
  destruct (digit_of c) as [d|] eqn:Hd; [|lia]. apply digit_of_in in Hd.
  specialize (IH (10 * acc + d)). lia.
Qed.

(** The conversions answer with a value of their type. *)
Lemma stoull_range s v : stoull s = Some v -> in_u64 v.
Proof.
  unfold stoull. destruct (sign_of _) as [neg t]. case_match; [done|].
  case_bool_decide; [done|]. pose proof (digits_nonneg 0 t).
  intros [= <-]. unfold in_u64, UINT64_MAX in *. destruct neg; [|lia].
  pose proof (Z.mod_pos_bound (- digits 0 t) (2 ^ 64)). lia.
Qed.

(** What every option preserves, a command line preserves. *)
Lemma parse_options_inv {A} (P : A -> Prop) value flag argv (a a' : A) :
  (forall x v b b', value x v b = Some (Some b') -> P b -> P b') ->
  (forall x b, P b -> P (flag x b)) ->
  parse_options value flag argv a = Some a' -> P a -> P a'.
Proof.
  intros Hv Hf. remember (length argv) as n eqn:Hn. revert argv Hn a.
  induction n as [n IH] using lt_wf_ind. intros [|x [|v rest]] Hn a Hrun Ha; cbn in Hrun.
  - by simplify_eq.
  - simplify_eq. by apply Hf.
  - destruct (value x v a) as [[b|]|] eqn:Hval; [| done |].
    + apply (IH (length rest)) with (argv := rest) (a := b); try done; [simpl in Hn; lia|].
      by eapply Hv.
    + apply (IH (length (v :: rest))) with (argv := v :: rest) (a := flag x a); try done.
      * simpl in *. lia.
      * by apply Hf.
Qed.
