(* ===== verification/Coordinator.v ===== *)
(** * The coordinator process ([multiprocess/coordinator_main.cpp])

    A thread per connection reads frames and dispatches them to the engine; the threads
    share the engine, whose every call is one critical section, and the table of workers,
    guarded by a lock of its own. What a thread does between two frames is a [Prog]: a
    sequence of calls of the engine and of effects, in the order of the source, with what
    follows depending on what a call returned. Running one thread alone gives the
    behaviour of a request; interleaving the programs of all connections, call by call,
    gives the behaviour of the process.

    Each connection owns a [WorkerState]; the table maps a boot identity to the
    connection whose state it points to, as the shared pointer of the source does, so two
    connections that announce the same identity share one entry. *)
From S2P Require Import Prelude.
From S2P Require Import Identity.
From S2P Require Import Enums.
From S2P Require Import Records.
From S2P Require Import Selection.
From S2P Require Import Fabric.
From S2P Require Import Crc.
From S2P Require Import Protocol.
From S2P Require Import Readers.
From S2P Require Import Codec.
From S2P Require Import Args.

(** ** Calls of the engine *)

(** The calls the coordinator makes, with the type of their answers. *)
Inductive FabricCall : Type -> Type :=
  | CEpoch : FabricCall CoordinatorEpoch
  | CPolicyGeneration : FabricCall PolicyGeneration
  | CRegisterDevice (d : CxlDevice) (ctx : AuthorityContext) : FabricCall DecisionReason
  | CReserve (req : AdmissionRequest) (ctx : AuthorityContext) : FabricCall ReserveOutcome
  | CCommit (rid : ReservationId) (ctx : AuthorityContext) : FabricCall ReserveOutcome
  | CRelease (rid : ReservationId) (ctx : AuthorityContext) : FabricCall ReserveOutcome
  | CCreatePool (p : CxlPool) (ctx : AuthorityContext) : FabricCall DecisionReason
  | CRevalidatePool (id : PoolId) (ctx : AuthorityContext) : FabricCall DecisionReason
  | CCreateRegion (r : CxlRegion) (ctx : AuthorityContext) : FabricCall DecisionReason
  | CRevalidateRegion (id : RegionId) (ctx : AuthorityContext) : FabricCall DecisionReason
  | CMarkDeviceRevalidation (d : DeviceId) (ctx : AuthorityContext) : FabricCall DecisionReason
  | CSnapshot : FabricCall StateSnapshot
  | CExport : FabricCall PersistedState.

Definition call_fabric {X} (c : FabricCall X) (f : Fabric) : X * Fabric :=
  match c with
  | CEpoch => (epoch f, f)
  | CPolicyGeneration => (policy_generation f, f)
  | CRegisterDevice d ctx => register_device f d ctx
  | CReserve req ctx => reserve f req ctx
  | CCommit rid ctx => commit f rid ctx
  | CRelease rid ctx => release f rid ctx
  | CCreatePool p ctx => create_pool f p ctx
  | CRevalidatePool id ctx => revalidate_pool f id ctx
  | CCreateRegion r ctx => create_region f r ctx
  | CRevalidateRegion id ctx => revalidate_region f id ctx
  | CMarkDeviceRevalidation d ctx => mark_device_revalidation f d ctx
  | CSnapshot => (snapshot f, f)
  | CExport => (export_persisted f, f)
  end.

(** ** Programs *)

Inductive Prog : Type :=
  | PDone
  | PFault                                              (** a read outside a payload *)
  | PCall {X : Type} (c : FabricCall X) (k : X -> Prog)
  | PSend (f : Frame) (k : Prog)                        (** [net::send_frame] *)
  | PPushDevice (d : DeviceId) (k : Prog)               (** [ws->devices.push_back] *)
  | PPushReservation (r : ReservationId) (k : Prog)     (** [ws->reservations.push_back] *)
  | PStop (k : Prog)                                    (** [g_running = false] *)
  | PPersist (ps : PersistedState) (k : Prog)           (** serialise and [write_persisted] *)
  | PStateFile (text : string) (k : Prog).              (** [write_statefile] *)

Notation "'call' x <- c ; k" := (PCall c (fun x => k))
  (at level 10, x name, c at level 100, k at level 200, format "'call'  x  <-  c ;  '//' k").

(** ** Worker state and configuration *)

Record WorkerState : Set := mkWorker {
  wk_boot : WorkerBootId;
  wk_devices : list DeviceId;
  wk_reservations : list ReservationId;
  wk_dead : bool;
}.

Definition worker_default : WorkerState := mkWorker id_default [] [] false.

(** The paths given on the command line; an empty one is not used. *)
Record CoordConfig : Set := mkConfig { cfg_persist : string; cfg_statefile : string }.

(** ** Replies *)

Definition ack_frame (r : DecisionReason) : Frame := mkFrame FT_ACK (put_u32 (enum_to_u32 r)).
Definition send_ack (r : DecisionReason) (k : Prog) : Prog := PSend (ack_frame r) k.

Definition error_frame (msg : string) : Frame := mkFrame FT_ERROR_REPORT (string_bytes msg).
Definition send_error (msg : string) (k : Prog) : Prog := PSend (error_frame msg) k.

(** The payload of RESERVE_RESULT and COMMIT_RESULT. *)
Definition reserve_result (ro : ReserveOutcome) : bytes :=
  put_str (id_str (res_id (ro_reservation ro))) ++ put_u32 (enum_to_u32 (ro_reason ro)) ++
  [bool_word (ro_ok ro)].
Definition send_reserve_result (ro : ReserveOutcome) (k : Prog) : Prog :=
  PSend (mkFrame FT_COMMIT_RESULT (reserve_result ro)) k.

(** ** The state in text form *)

Definition device_line (kv : DeviceId * CxlDevice) : string :=
  "device " +:+ id_str kv.1 +:+ " state=" +:+ enum_to_string (dev_state kv.2) +:+
  " evidence_current=" +:+ (if dev_evidence_current kv.2 then "1" else "0") +:+ nl.
Definition reservation_line (kv : ReservationId * Reservation) : string :=
  "reservation " +:+ id_str kv.1 +:+ " state=" +:+ enum_to_string (res_state kv.2) +:+ nl.

Definition fabric_state_text (snap : StateSnapshot) : string :=
  "epoch=" +:+ to_string_u64 (gen_value (st_coordinator_epoch snap)) +:+ nl +:+
  "devices=" +:+ to_string_u64 (Z.of_nat (size (st_devices snap))) +:+ nl +:+
  "reservations=" +:+ to_string_u64 (Z.of_nat (size (st_reservations snap))) +:+ nl +:+
  String.concat "" (device_line <$> map_iter (st_devices snap)) +:+
  String.concat "" (reservation_line <$> map_iter (st_reservations snap)).

(** ** Saving *)

Definition write_statefile (cfg : CoordConfig) (k : Prog) : Prog :=
  if String.eqb (cfg_statefile cfg) "" then k
  else call snap <- CSnapshot; PStateFile (fabric_state_text snap) k.

Definition maybe_persist (cfg : CoordConfig) (k : Prog) : Prog :=
  let statefile := if String.eqb (cfg_statefile cfg) "" then k else write_statefile cfg k in
  if String.eqb (cfg_persist cfg) "" then statefile
  else call ps <- CExport; PPersist ps statefile.

(** ** Dispatch *)

(** The pool record built from a PUBLISH_POOL payload. *)
Definition published_pool (pid : PoolId) (gen : PoolGeneration) (members : list PoolMember)
    : CxlPool :=
  mkPool pid gen members 0 0 0 0 0 "default" [] LocalityClass_UNKNOWN HealthState_HEALTHY
    PoolState_AVAILABLE Provenance_SYNTHETIC (mkGen 1) true "".

(** The [switch] of [dispatch], under the context built before it. *)
Definition dispatch_switch (ctx : AuthorityContext) (f : Frame) (k : Prog) : Prog :=
  match fr_type f with
  | FT_PUBLISH_DEVICE =>
      match decode_device (fr_payload f) device_default with
      | Fault => PFault
      | Refused _ => send_error "decode_device" k
      | Got d _ =>
          call dr <- CRegisterDevice d ctx;
          if bool_decide (dr = DecisionReason_OK) then PPushDevice (dev_id d) (send_ack dr k)
          else send_ack dr k
      end
  | FT_RESERVE =>
      match decode_reserve (fr_payload f) with
      | Fault => PFault
      | Refused _ => send_error "decode_reserve" k
      | Got (nbytes, consumer) _ =>
          call ro <- CReserve (request_for nbytes (mkId consumer)) ctx;
          PSend (mkFrame FT_RESERVE_RESULT (reserve_result ro))
            (if ro_ok ro then PPushReservation (res_id (ro_reservation ro)) k else k)
      end
  | FT_COMMIT =>
      call ro <- CCommit (mkId (bytes_string (fr_payload f))) ctx; send_reserve_result ro k
  | FT_RELEASE =>
      call ro <- CRelease (mkId (bytes_string (fr_payload f))) ctx; send_reserve_result ro k
  | FT_QUERY_STATE =>
      call snap <- CSnapshot;
      PSend (mkFrame FT_QUERY_STATE_RESULT (string_bytes (fabric_state_text snap))) k
  | FT_PUBLISH_POOL =>
      match decode_pool (fr_payload f) [] with
      | Fault => PFault
      | Refused _ => send_error "decode_pool" k
      | Got (pid, gen, members) _ =>
          call drp <- CCreatePool (published_pool pid gen members) ctx;
          if bool_decide (drp = DecisionReason_DUPLICATE_IDENTITY)
          then call drp' <- CRevalidatePool pid ctx; send_ack drp' k
          else send_ack drp k
      end
  | FT_PUBLISH_REGION =>
      match decode_region (fr_payload f) region_default with
      | Fault => PFault
      | Refused _ => send_error "decode_region" k
      | Got reg _ =>
          call drr <- CCreateRegion reg ctx;
          if bool_decide (drr = DecisionReason_DUPLICATE_IDENTITY)
          then call drr' <- CRevalidateRegion (reg_id reg) ctx; send_ack drr' k
          else send_ack drr k
      end
  | FT_SHUTDOWN => PStop k
  | _ => send_error "unsupported frame type" k
  end.

(** The frames after which the state is saved. *)
Definition persists_after (t : FrameType) : bool :=
  bool_decide (t ∈ [FT_PUBLISH_DEVICE; FT_RESERVE; FT_COMMIT; FT_RELEASE; FT_REVALIDATE]).

Definition dispatch (cfg : CoordConfig) (boot : WorkerBootId) (f : Frame) : Prog :=
  call ep <- CEpoch;
  call pol <- CPolicyGeneration;
  dispatch_switch (mkContext ep pol boot (mkGen 1)) f
    (if persists_after (fr_type f) then maybe_persist cfg PDone else PDone).

(** [appl_worker_death], after the entry was found alive and marked dead. *)
Fixpoint mark_all (devs : list DeviceId) (ctx : AuthorityContext) (k : Prog) : Prog :=
  match devs with
  | [] => k
  | d :: devs' => call _ <- CMarkDeviceRevalidation d ctx; mark_all devs' ctx k
  end.

Definition fence_prog (cfg : CoordConfig) (devs : list DeviceId) : Prog :=
  call ep <- CEpoch;
  call pol <- CPolicyGeneration;
  mark_all devs (mkContext ep pol id_default gen_default)
    (if String.eqb (cfg_statefile cfg) "" then PDone else write_statefile cfg PDone).

(** ** One thread *)

Inductive Output : Set :=
  | OSend (f : Frame)
  | OPersist (ps : PersistedState)
  | OStateFile (text : string).

(** What the thread of a connection works on: the engine, its worker state, the flag. *)
Record ThreadState : Set := mkThread {
  th_fabric : Fabric;
  th_worker : WorkerState;
  th_running : bool;
}.

Definition push_device (ws : WorkerState) (d : DeviceId) : WorkerState :=
  mkWorker (wk_boot ws) (wk_devices ws ++ [d]) (wk_reservations ws) (wk_dead ws).
Definition push_reservation (ws : WorkerState) (r : ReservationId) : WorkerState :=
  mkWorker (wk_boot ws) (wk_devices ws) (wk_reservations ws ++ [r]) (wk_dead ws).

(** One step of a program, with what it puts out; [None] when it is over. *)
Definition prog_next (p : Prog) (t : ThreadState) : option (Prog * ThreadState * option Output) :=
  match p with
  | PDone | PFault => None
  | PCall c k =>
      let '(x, f') := call_fabric c (th_fabric t) in
      Some (k x, mkThread f' (th_worker t) (th_running t), None)
  | PSend fr k => Some (k, t, Some (OSend fr))
  | PPushDevice d k =>
      Some (k, mkThread (th_fabric t) (push_device (th_worker t) d) (th_running t), None)
  | PPushReservation r k =>
      Some (k, mkThread (th_fabric t) (push_reservation (th_worker t) r) (th_running t), None)
  | PStop k => Some (k, mkThread (th_fabric t) (th_worker t) false, None)
  | PPersist ps k => Some (k, t, Some (OPersist ps))
  | PStateFile s k => Some (k, t, Some (OStateFile s))
  end.

(** A program run to its end with nobody in between; [None] is a fault. *)
Fixpoint run_prog (p : Prog) (t : ThreadState) : option (ThreadState * list Output) :=
  match p with
  | PDone => Some (t, [])
  | PFault => None
  | PCall c k =>
      let '(x, f') := call_fabric c (th_fabric t) in
      run_prog (k x) (mkThread f' (th_worker t) (th_running t))
  | PSend fr k => prod_map id (cons (OSend fr)) <$> run_prog k t
  | PPushDevice d k =>
      run_prog k (mkThread (th_fabric t) (push_device (th_worker t) d) (th_running t))
  | PPushReservation r k =>
      run_prog k (mkThread (th_fabric t) (push_reservation (th_worker t) r) (th_running t))
  | PStop k => run_prog k (mkThread (th_fabric t) (th_worker t) false)
  | PPersist ps k => prod_map id (cons (OPersist ps)) <$> run_prog k t
  | PStateFile s k => prod_map id (cons (OStateFile s)) <$> run_prog k t
  end.

(** ** All threads *)

(** Where the thread of a connection stands: waiting for the first frame, at the head of
    its loop, in [recv_frame], in [dispatch], in [appl_worker_death] (holding the lock of
    the table), after the loop, and gone. *)
Inductive ConnPhase : Type :=
  | PhBoot
  | PhServing (key : string)
  | PhReading (key : string)
  | PhBusy (key : string) (p : Prog)
  | PhFencing (key : string) (p : Prog)
  | PhClosing (key : string)
  | PhClosed.

Record Conn : Type := mkConn { cn_worker : WorkerState; cn_phase : ConnPhase }.

(** The thread that accepts connections: at the head of its loop, in [accept_socket],
    gone. *)
Inductive AcceptPhase : Set := AcTest | AcWaiting | AcDone.

Record Coordinator : Type := mkCoord {
  co_fabric : Fabric;
  co_running : bool;                  (** [g_running] *)
  co_workers : gmap string nat;       (** [workers_] *)
  co_conns : gmap nat Conn;           (** the threads, with the worker state of each *)
  co_mutex : option nat;              (** who holds [workers_mu_] *)
  co_accept : AcceptPhase;
  co_main : bool;                     (** the main thread is in [run] *)
}.

Definition coord_init (f : Fabric) : Coordinator := mkCoord f true ∅ ∅ None AcTest true.

(** What happens next, and in which thread. *)
Inductive CoordEvent : Set :=
  | EvSignal                           (** SIGINT or SIGTERM *)
  | EvMain                             (** [run] ends and [stop] runs *)
  | EvAcceptTest                       (** the accept loop tests [g_running] *)
  | EvAccept (n : nat)                 (** [accept_socket] returns a connection *)
  | EvAcceptFail                       (** [accept_socket] fails *)
  | EvBoot (n : nat) (f : Frame)       (** the first frame is read *)
  | EvNoBoot (n : nat)                 (** the first frame does not arrive intact *)
  | EvLoop (n : nat)                   (** the loop of a connection tests [g_running] *)
  | EvRecv (n : nat) (f : Frame)       (** [recv_frame] returns a frame *)
  | EvLost (n : nat)                   (** [recv_frame] returns anything else *)
  | EvRun (n : nat)                    (** one step of what the thread is doing *)
  | EvClose (n : nat).                 (** the entry is erased *)

Definition set_conn (c : Coordinator) (n : nat) (ws : WorkerState) (ph : ConnPhase) : Coordinator :=
  mkCoord (co_fabric c) (co_running c) (co_workers c) (<[n := mkConn ws ph]> (co_conns c))
    (co_mutex c) (co_accept c) (co_main c).
Definition set_workers (c : Coordinator) (w : gmap string nat) : Coordinator :=
  mkCoord (co_fabric c) (co_running c) w (co_conns c) (co_mutex c) (co_accept c) (co_main c).
Definition set_mutex (c : Coordinator) (m : option nat) : Coordinator :=
  mkCoord (co_fabric c) (co_running c) (co_workers c) (co_conns c) m (co_accept c) (co_main c).
Definition set_accept (c : Coordinator) (a : AcceptPhase) : Coordinator :=
  mkCoord (co_fabric c) (co_running c) (co_workers c) (co_conns c) (co_mutex c) a (co_main c).
(** What a step of a thread leaves behind. *)
Definition set_thread (c : Coordinator) (n : nat) (t : ThreadState) (ph : ConnPhase) : Coordinator :=
  mkCoord (th_fabric t) (th_running t) (co_workers c) (<[n := mkConn (th_worker t) ph]> (co_conns c))
    (co_mutex c) (co_accept c) (co_main c).

(** The lock of the table is free. *)
Definition unlocked (c : Coordinator) : bool := bool_decide (co_mutex c = None).

Definition set_boot (ws : WorkerState) (boot : WorkerBootId) : WorkerState :=
  mkWorker boot (wk_devices ws) (wk_reservations ws) (wk_dead ws).
Definition mark_dead (ws : WorkerState) : WorkerState :=
  mkWorker (wk_boot ws) (wk_devices ws) (wk_reservations ws) true.

(** [appl_worker_death(key)] in the thread of connection [n], up to the loop over the
    devices of the entry. *)
Definition begin_death (cfg : CoordConfig) (c : Coordinator) (n : nat) (ws : WorkerState)
    (key : string) : Coordinator :=
  match m ← co_workers c !! key; cm ← co_conns c !! m; Some (m, cm) with
  | None => set_conn c n ws (PhClosing key)
  | Some (m, cm) =>
      if wk_dead (cn_worker cm) then set_conn c n ws (PhClosing key)
      else
        let c1 := set_conn c m (mark_dead (cn_worker cm)) (cn_phase cm) in
        let own := if bool_decide (m = n) then mark_dead ws else ws in
        set_mutex (set_conn c1 n own (PhFencing key (fence_prog cfg (wk_devices (cn_worker cm)))))
          (Some n)
  end.

(** [Coordinator::stop]. *)
Definition stop_output (cfg : CoordConfig) (c : Coordinator) : option Output :=
  if String.eqb (cfg_persist cfg) "" then None
  else Some (OPersist (export_persisted (co_fabric c))).

Definition coord_exec (cfg : CoordConfig) (ev : CoordEvent) (c : Coordinator)
    : option (Coordinator * option Output) :=
  match ev with
  | EvSignal =>
      Some (mkCoord (co_fabric c) false (co_workers c) (co_conns c) (co_mutex c) (co_accept c)
              (co_main c), None)
  | EvMain =>
      if co_main c && negb (co_running c) then
        Some (mkCoord (co_fabric c) false (co_workers c) (co_conns c) (co_mutex c) (co_accept c)
                false, stop_output cfg c)
      else None
  | EvAcceptTest =>
      match co_accept c with
      | AcTest => Some (set_accept c (if co_running c then AcWaiting else AcDone), None)
      | _ => None
      end
  | EvAccept n =>
      match co_accept c, co_conns c !! n with
      | AcWaiting, None => Some (set_accept (set_conn c n worker_default PhBoot) AcTest, None)
      | _, _ => None
      end
  | EvAcceptFail =>
      match co_accept c with
      | AcWaiting => Some (set_accept c (if co_running c then AcTest else AcDone), None)
      | _ => None
      end
  | EvBoot n f =>
      match co_conns c !! n with
      | Some (mkConn ws PhBoot) =>
          if bool_decide (fr_type f = FT_WORKER_BOOT) then
            if unlocked c then
              let key := bytes_string (fr_payload f) in
              Some (set_workers (set_conn c n (set_boot ws (mkId key)) (PhServing key))
                      (<[key := n]> (co_workers c)), None)
            else None
          else Some (set_conn c n ws PhClosed, None)
      | _ => None
      end
  | EvNoBoot n =>
      match co_conns c !! n with
      | Some (mkConn ws PhBoot) => Some (set_conn c n ws PhClosed, None)
      | _ => None
      end
  | EvLoop n =>
      match co_conns c !! n with
      | Some (mkConn ws (PhServing key)) =>
          Some (set_conn c n ws (if co_running c then PhReading key else PhClosing key), None)
      | _ => None
      end
  | EvRecv n f =>
      match co_conns c !! n with
      | Some (mkConn ws (PhReading key)) =>
          Some (set_conn c n ws (PhBusy key (dispatch cfg (wk_boot ws) f)), None)
      | _ => None
      end
  | EvLost n =>
      match co_conns c !! n with
      | Some (mkConn ws (PhReading key)) =>
          if unlocked c then Some (begin_death cfg c n ws key, None) else None
      | _ => None
      end
  | EvRun n =>
      match co_conns c !! n with
      | Some (mkConn ws (PhBusy key PDone)) => Some (set_conn c n ws (PhServing key), None)
      | Some (mkConn ws (PhFencing key PDone)) =>
          Some (set_mutex (set_conn c n ws (PhClosing key)) None, None)
      | Some (mkConn ws (PhBusy key p)) =>
          match prog_next p (mkThread (co_fabric c) ws (co_running c)) with
          | Some (p', t, o) => Some (set_thread c n t (PhBusy key p'), o)
          | None => None
          end
      | Some (mkConn ws (PhFencing key p)) =>
          match prog_next p (mkThread (co_fabric c) ws (co_running c)) with
          | Some (p', t, o) => Some (set_thread c n t (PhFencing key p'), o)
          | None => None
          end
      | _ => None
      end
  | EvClose n =>
      match co_conns c !! n with
      | Some (mkConn ws (PhClosing key)) =>
          if unlocked c then
            Some (set_workers (set_conn c n ws PhClosed) (delete key (co_workers c)), None)
          else None
      | _ => None
      end
  end.

(** A run of the process: the events in their order, and what it puts out. *)
Fixpoint coord_run (cfg : CoordConfig) (evs : list CoordEvent) (c : Coordinator)
    : option (Coordinator * list Output) :=
  match evs with
  | [] => Some (c, [])
  | ev :: evs' =>
      '(c1, o) ← coord_exec cfg ev c;
      '(c2, os) ← coord_run cfg evs' c1;
      Some (c2, option_list o ++ os)
  end.
