(* ===== verification/Worker.v ===== *)
(** * The worker process ([multiprocess/worker_main.cpp])

    A worker connects, announces its boot identity, publishes one synthetic device with a
    pool and a region, and makes the requests its command line asks for, one after the
    other: each is a frame sent and a frame awaited. What it does is a [WProg], whose
    continuations receive what the transport answered. *)
From S2P Require Import Prelude.
From S2P Require Import Identity.
From S2P Require Import Enums.
From S2P Require Import Records.
From S2P Require Import Selection.
From S2P Require Import Synthetic.
From S2P Require Import Crc.
From S2P Require Import Protocol.
From S2P Require Import Readers.
From S2P Require Import Codec.
From S2P Require Import Args.

(** ** Command line *)

Record WorkerArgs : Set := mkWorkerArgs {
  wa_host : string;
  wa_port : Z;
  wa_boot : string;
  wa_publish : bool;
  wa_reserve_bytes : Z;
  wa_consumer : string;
  wa_stay : bool;
  wa_query : bool;
  wa_commit : string;
  wa_release : string;
  wa_reserve_commit : bool;
  wa_out : string;
}.

Definition worker_args_default : WorkerArgs :=
  mkWorkerArgs "127.0.0.1" 17777 "worker-boot" false 0 "c0" false false "" "" false "".

Definition worker_value (x v : string) (a : WorkerArgs) : option (option WorkerArgs) :=
  let 'mkWorkerArgs host port boot publish reserve_bytes consumer stay query commit release
         reserve_commit out := a in
  let args host port boot reserve_bytes consumer commit release out :=
    mkWorkerArgs host port boot publish reserve_bytes consumer stay query commit release
      reserve_commit out in
  if String.eqb x "--host" then
    Some (Some (args v port boot reserve_bytes consumer commit release out))
  else if String.eqb x "--port" then
    Some ((fun p => args host p boot reserve_bytes consumer commit release out) <$> stoul_u16 v)
  else if String.eqb x "--boot" then
    Some (Some (args host port v reserve_bytes consumer commit release out))
  else if String.eqb x "--reserve-bytes" then
    Some ((fun n => args host port boot n consumer commit release out) <$> stoull v)
  else if String.eqb x "--consumer" then
    Some (Some (args host port boot reserve_bytes v commit release out))
  else if String.eqb x "--commit" then
    Some (Some (args host port boot reserve_bytes consumer v release out))
  else if String.eqb x "--release" then
    Some (Some (args host port boot reserve_bytes consumer commit v out))
  else if String.eqb x "--out" then
    Some (Some (args host port boot reserve_bytes consumer commit release v))
  else None.

Definition worker_flag (x : string) (a : WorkerArgs) : WorkerArgs :=
  let 'mkWorkerArgs host port boot publish reserve_bytes consumer stay query commit release
         reserve_commit out := a in
  let args publish stay query reserve_commit :=
    mkWorkerArgs host port boot publish reserve_bytes consumer stay query commit release
      reserve_commit out in
  if String.eqb x "--publish" then args true stay query reserve_commit
  else if String.eqb x "--stay" then args publish true query reserve_commit
  else if String.eqb x "--query" then args publish stay true reserve_commit
  else if String.eqb x "--reserve-commit" then args publish stay query true
  else a.

Definition worker_args (argv : list string) : option WorkerArgs :=
  parse_options worker_value worker_flag argv worker_args_default.

(** ** Programs *)

Inductive WProg : Type :=
  | WReturn (code : Z)                         (** [sock.close(); return code] *)
  | WFault                                     (** a read outside a payload *)
  | WStay                                      (** the endless sleep of [--stay] *)
  | WSend (f : Frame) (k : bool -> WProg)      (** [net::send_frame] *)
  | WRecv (k : DecodeResult -> WProg)          (** [net::recv_frame] *)
  | WEmit (s : string) (k : WProg).            (** [emit] *)

Definition received_ok (dr : DecodeResult) : bool := bool_decide (dr_status dr = DS_OK).
Definition received_type (dr : DecodeResult) (t : FrameType) : bool :=
  bool_decide (fr_type (dr_frame dr) = t).

Definition send_and_await (f : Frame) (expect : FrameType) (k : bool -> WProg) : WProg :=
  WSend f (fun sent =>
    if negb sent then k false
    else WRecv (fun dr => if negb (received_ok dr) then k false else k (received_type dr expect))).

(** ** What it publishes *)

Definition worker_host : HostId := mkId "host-control".

Definition worker_device (boot : string) : CxlDevice :=
  make_device (mkId "dev-1") (mkGen 1) (mkId (boot +:+ "-boot-1")) worker_host (16 * GiB)
    VolatilityKind_VOLATILE SharingMode_DEDICATED LocalityClass_SAME_HOST 180 32000 1 "fd-root-a".

Definition worker_member (base : CxlDevice) : PoolMember :=
  mkMember (dev_id base) (dev_generation base) (dev_total_physical_bytes base) true true
    "fd-control" (econ_locality (dev_economics base)).

Definition boot_frame (boot : string) : Frame := mkFrame FT_WORKER_BOOT (string_bytes boot).
Definition device_frame (base : CxlDevice) : Frame := mkFrame FT_PUBLISH_DEVICE (encode_device base).
Definition pool_frame (base : CxlDevice) : Frame :=
  mkFrame FT_PUBLISH_POOL (encode_pool (mkId "p-1") (mkGen 1) [worker_member base]).
Definition region_frame (base : CxlDevice) : Frame :=
  mkFrame FT_PUBLISH_REGION
    (encode_region (mkId "r-1") (mkGen 1) (mkId "p-1") [dev_id base] (dev_total_physical_bytes base)
       (econ_locality (dev_economics base)) TierClass_CXL_NEAR RegionState_ONLINE).

(** ** Results *)

(** [std::to_string(int(v))] for a 32-bit word. *)
Definition to_string_int (v : Z) : string :=
  let i := if bool_decide (v < 2 ^ 31) then v else v - 2 ^ 32 in
  if bool_decide (i < 0) then "-" +:+ to_string_u64 (- i) else to_string_u64 i.

(** The byte at the position, which the source reads without moving on. *)
Definition peek_byte : Reader unit Z :=
  fun data pos =>
    if bool_decide (pos < bsize data) then Got (nth (Z.to_nat pos) data 0) pos else Refused tt.

Definition read_result : Reader unit (string * Z * Z) :=
  read rid <- cstr;
  read reason <- cu32;
  read ok <- peek_byte;
  rret (rid, reason, ok).

Definition result_line (what : string) (r : string * Z * Z) : string :=
  let '(rid, reason, ok) := r in
  what +:+ " " +:+ rid +:+ " reason=" +:+ to_string_int reason +:+ " ok=" +:+ to_string_int ok +:+ nl.

(** Prints the result in a payload, if it parses. *)
Definition emit_result (what : string) (payload : bytes) (k : WProg) : WProg :=
  match run_reader read_result payload with
  | Got r _ => WEmit (result_line what r) k
  | Refused _ => k
  | Fault => WFault
  end.

(** ** The parts of [main] *)

Definition publish_part (base : CxlDevice) (k : WProg) : WProg :=
  send_and_await (device_frame base) FT_ACK (fun ok =>
    if negb ok then WReturn 1
    else
      WSend (pool_frame base) (fun _ => WRecv (fun _ =>
      WSend (region_frame base) (fun _ => WRecv (fun _ => k))))).

Definition reserve_part (a : WorkerArgs) (k : WProg) : WProg :=
  WSend (mkFrame FT_RESERVE (encode_reserve (wa_reserve_bytes a) (wa_consumer a))) (fun _ =>
  WRecv (fun dr =>
    if negb (received_ok dr) then WReturn 1
    else if received_type dr FT_RESERVE_RESULT
    then emit_result "RESERVED" (fr_payload (dr_frame dr)) k else k)).

(** COMMIT and RELEASE, both answered with COMMIT_RESULT. *)
Definition settle_part (t : FrameType) (what rid : string) (k : WProg) : WProg :=
  WSend (mkFrame t (string_bytes rid)) (fun _ =>
  WRecv (fun dr =>
    if received_ok dr && received_type dr FT_COMMIT_RESULT
    then emit_result what (fr_payload (dr_frame dr)) k else k)).

Definition query_part (k : WProg) : WProg :=
  WSend (mkFrame FT_QUERY_STATE []) (fun _ =>
  WRecv (fun dr =>
    if received_ok dr && received_type dr FT_QUERY_STATE_RESULT
    then WEmit (bytes_string (fr_payload (dr_frame dr))) k else k)).

Definition worker_main (connected : bool) (a : WorkerArgs) : WProg :=
  let base := worker_device (wa_boot a) in
  let reserving := bool_decide (wa_reserve_bytes a > 0) || wa_reserve_commit a in
  let finish := if wa_stay a then WStay else WReturn 0 in
  let query := if wa_query a then query_part finish else finish in
  let release := if String.eqb (wa_release a) "" then query
                 else settle_part FT_RELEASE "RELEASE_RESULT" (wa_release a) query in
  let commit := if String.eqb (wa_commit a) "" then release
                else settle_part FT_COMMIT "COMMIT_RESULT" (wa_commit a) release in
  let reserve := if reserving then reserve_part a commit else commit in
  let publish := if wa_publish a || reserving then publish_part base reserve else reserve in
  if negb connected then WReturn 1
  else WSend (boot_frame (wa_boot a)) (fun sent => if negb sent then WReturn 1 else publish).
