(* ===== verification/Interleaving.v ===== *)
(** * The coordinator under every interleaving

    The threads of the coordinator share the engine without a lock of their own: a
    request reads the epoch and the policy in two critical sections and makes its call in
    a third. The theorem of this file is that nothing is lost by it: whatever the order of
    the threads' steps, the engine goes through a sequence of operations, each under the
    current epoch and policy and within the conditions of the engine's guarantees, so that
    these hold of every state of the process. *)
From S2P Require Import Prelude.
From S2P Require Import Identity.
From S2P Require Import Enums.
From S2P Require Import Accounting.
From S2P Require Import Records.
From S2P Require Import Selection.
From S2P Require Import Fabric.
From S2P Require Import Synthetic.
From S2P Require Import SelectionProps.
From S2P Require Import Ledger.
From S2P Require Import LedgerRefinement.
From S2P Require Import Reservations.
From S2P Require Import Invariants.
From S2P Require Import CapacitySafety.
From S2P Require Import Crc.
From S2P Require Import Protocol.
From S2P Require Import Readers.
From S2P Require Import Codec.
From S2P Require Import Decoding.
From S2P Require Import Coordinator.
From S2P Require Import Worker.

(** ** A call as an operation of the engine *)

Definition call_op {X} (c : FabricCall X) : option FabricOp :=
  match c with
  | CEpoch | CPolicyGeneration | CSnapshot | CExport => None
  | CRegisterDevice d ctx => Some (OpRegisterDevice d ctx)
  | CReserve req ctx => Some (OpReserve req ctx)
  | CCommit rid ctx => Some (OpCommit rid ctx)
  | CRelease rid ctx => Some (OpRelease rid ctx)
  | CCreatePool p ctx => Some (OpCreatePool p ctx)
  | CRevalidatePool id ctx => Some (OpRevalidatePool id ctx)
  | CCreateRegion r ctx => Some (OpCreateRegion r ctx)
  | CRevalidateRegion id ctx => Some (OpRevalidateRegion id ctx)
  | CMarkDeviceRevalidation d ctx => Some (OpMarkDeviceRevalidation d ctx)
  end.

Definition call_ops {X} (c : FabricCall X) : list FabricOp := option_list (call_op c).

Lemma call_fabric_step {X} (c : FabricCall X) f :
  (call_fabric c f).2 = run_ops f (call_ops c).
Proof.
  destruct c; try done; cbn; by repeat (destruct (_ f _ _)).
Qed.

(** What no call of the coordinator changes, and how far it moves the sequence. *)
Definition authority (f : Fabric) : CoordinatorEpoch * PolicyGeneration :=
  (epoch f, st_policy_generation (state_ f)).

Lemma call_authority {X} (c : FabricCall X) f :
  fabric_inv f -> (forall op, call_op c = Some op -> op_wf f op) ->
  authority (call_fabric c f).2 = authority f /\
  sequence_ (call_fabric c f).2 <= sequence_ f + 1.
Proof.
  intros Hinv Hwf.
  destruct c; cbn [call_fabric fst snd call_op] in *; try (split; [done|lia]);
    try (unfold register_device, create_pool, revalidate_pool, create_region, revalidate_region,
           mark_device_revalidation; open_op; (split; [done | simpl; lia])).
  - destruct (Hwf _ eq_refl) as [_ Hseq].
    destruct (reserve_cases f req ctx (inv_keys f Hinv)) as
      [(why & _ & -> & _) | (p & r & d & _ & _ & _ & _ & ->)]; (split; [done|]); simpl; [lia|].
    rewrite (next_sequence f Hinv Hseq). lia.
  - destruct (commit_cases f rid ctx) as [(why & _ & -> & _) | (? & ? & ? & ? & _ & ->)];
      (split; [done | simpl; lia]).
  - destruct (release_cases f rid ctx Hinv) as [[-> _] | (? & ? & _ & _ & _ & _ & _ & ->)];
      (split; [done | simpl; lia]).
Qed.

(** ** What a program may do *)

Section Disciplined.
Context (au : CoordinatorEpoch * PolicyGeneration).

(** An operation under the given authority that meets the engine's conditions in any
    state in which a reservation can still be numbered. *)
Definition op_disciplined (op : FabricOp) : Prop :=
  (exists ctx, op_context op = Some ctx /\
     (ctx_coordinator_epoch ctx, ctx_policy_generation ctx) = au) /\
  forall f, sequence_ f < UINT64_MAX -> op_plain f op.

(** The answers a call can have while the authority is the given one. *)
Definition answers {X} (c : FabricCall X) : X -> Prop :=
  match c in FabricCall X return X -> Prop with
  | CEpoch => fun e => e = au.1
  | CPolicyGeneration => fun p => p = au.2
  | _ => fun _ => True
  end.

Fixpoint disciplined (p : Prog) : Prop :=
  match p with
  | PDone | PFault => True
  | PCall c k => Forall op_disciplined (call_ops c) /\ forall x, answers c x -> disciplined (k x)
  | PSend _ k | PPushDevice _ k | PPushReservation _ k | PStop k | PPersist _ k
  | PStateFile _ k => disciplined k
  end.

Lemma answers_current {X} (c : FabricCall X) f :
  authority f = au -> answers c (call_fabric c f).1.
Proof. intros H. destruct c; simpl; rewrite <- ?H; done. Qed.

(** One step of a disciplined program: the engine makes at most one operation. *)
Lemma prog_next_disciplined p t p' t' o :
  disciplined p -> authority (th_fabric t) = au -> prog_next p t = Some (p', t', o) ->
  disciplined p' /\
  exists ops, th_fabric t' = run_ops (th_fabric t) ops /\ Forall op_disciplined ops /\
              (length ops <= 1)%nat /\
              (fabric_inv (th_fabric t) -> sequence_ (th_fabric t) < UINT64_MAX ->
               authority (th_fabric t') = au /\
               sequence_ (th_fabric t') <= sequence_ (th_fabric t) + 1).
Proof.
  intros Hp Hau Hnext. destruct p; simpl in Hnext; try done.
  { destruct Hp as [Hops Hk]. pose proof (answers_current c _ Hau) as Hans.
    pose proof (call_fabric_step c (th_fabric t)) as Hstep.
    pose proof (call_authority c (th_fabric t)) as Hca.
    destruct (call_fabric c (th_fabric t)) as [x f'] eqn:Hc. simplify_eq. simpl in *.
    split; [by apply Hk|]. exists (call_ops c). split_and!; try done.
    - unfold call_ops. destruct (call_op c); simpl; lia.
    - intros Hinv Hseq. rewrite <- Hau. apply Hca; [done|]. intros op Hop. unfold call_ops in Hops.
      rewrite Hop in Hops. apply Forall_singleton in Hops as [_ Hplain].
      apply Hplain in Hseq as [[Hwf _] _]. exact Hwf. }
  all: simplify_eq; simpl; (split; [done|]); exists []; split_and!; try done; try (simpl; lia);
    intros _ _; split; [done | lia].
Qed.

(** ** The programs of the coordinator *)

(** A frame whose payload is made of bytes and whose pool, if it publishes one, has less
    than 2^63 bytes: the engine does not check the sum of what the members declare. *)
Definition frame_sane (f : Frame) : Prop :=
  bytes_ok (fr_payload f) /\
  forall pid gen ms n, fr_type f = FT_PUBLISH_POOL ->
    decode_pool (fr_payload f) [] = Got (pid, gen, ms) n -> members_nominal ms <= CAPACITY_BOUND.

Lemma published_pool_plain f pid gen ms ctx :
  Forall member_wire ms -> members_nominal ms <= CAPACITY_BOUND ->
  op_plain f (OpCreatePool (published_pool pid gen ms) ctx).
Proof.
  intros Hms Hcap.
  assert (pool_input_ok (published_pool pid gen ms)) as Hin.
  { split; [|by vm_compute]. split; [|done]. eapply Forall_impl; [exact Hms|].
    intros m [_ [? _] _]. done. }
  destruct (created_pool_ok _ Hin) as ([_ Hr Hc Hd] & _ & _ & Ha).
  split; (split; [exact Hin|]); [|done].
  unfold account_ok, account_covered, ac_used in *. cbn [account_of ac_reserved ac_committed
    ac_draining ac_total ac_unavailable] in *.
  rewrite Hr, Hc, Hd in *. cbn [published_pool pool_reserved_bytes pool_committed_bytes
    pool_draining_bytes] in *. lia.
Qed.

Lemma disciplined_call op ctx :
  op_context op = Some ctx -> (ctx_coordinator_epoch ctx, ctx_policy_generation ctx) = au ->
  (forall f, sequence_ f < UINT64_MAX -> op_plain f op) -> op_disciplined op.
Proof. intros. split; [by exists ctx | done]. Qed.

(** Operations on which the engine puts no condition. *)
Lemma op_plain_free f op :
  match op with
  | OpRegisterDevice _ _ | OpCreateRegion _ _ | OpCommit _ _ | OpRelease _ _
  | OpRevalidatePool _ _ | OpRevalidateRegion _ _ | OpMarkDeviceRevalidation _ _ => True
  | _ => False
  end -> op_plain f op.
Proof. by destruct op. Qed.

Lemma disciplined_write_statefile cfg k : disciplined k -> disciplined (write_statefile cfg k).
Proof. intros Hk. unfold write_statefile. case_match; [done|]. simpl. by split; [constructor|]. Qed.

Lemma disciplined_maybe_persist cfg k : disciplined k -> disciplined (maybe_persist cfg k).
Proof.
  intros Hk. pose proof (disciplined_write_statefile cfg k Hk). unfold maybe_persist.
  repeat case_match; try done; simpl; (split; [by constructor|]); intros _ _; done.
Qed.

Lemma disciplined_switch ctx f k :
  (ctx_coordinator_epoch ctx, ctx_policy_generation ctx) = au -> frame_sane f ->
  disciplined k -> disciplined (dispatch_switch ctx f k).
Proof.
  intros Hctx [Hb Hpool] Hk.
  assert (forall op, op_context op = Some ctx -> (forall g, sequence_ g < UINT64_MAX -> op_plain g op) ->
            Forall op_disciplined [op]) as Hop.
  { intros op Hc Hpl. apply Forall_singleton. by apply (disciplined_call op ctx). }
  unfold dispatch_switch. destruct (fr_type f) eqn:Ht; try done.
  - (* PUBLISH_DEVICE *)
    destruct (decode_device _ _) as [d n| |]; try done. split.
    + apply Hop; [done|]. intros; by apply op_plain_free.
    + intros x _. by case_bool_decide.
  - (* PUBLISH_REGION *)
    destruct (decode_region _ _) as [r n| |]; try done. split.
    + apply Hop; [done|]. intros; by apply op_plain_free.
    + intros x _. case_bool_decide; [|done]. split; [|done].
      apply Hop; [done|]. intros; by apply op_plain_free.
  - (* PUBLISH_POOL *)
    destruct (decode_pool _ _) as [[[pid gen] ms] n| |] eqn:Hd; try done. split.
    + apply Hop; [done|]. intros g _. apply published_pool_plain; [|by eapply Hpool].
      destruct (yields_run _ _ _ _ n (yields_pool []) Hb Hd) as (_ & _ & l & -> & Hl & _).
      eapply Forall_impl; [exact Hl|]. by intros m [? _].
    + intros x _. case_bool_decide; [|done]. split; [|done].
      apply Hop; [done|]. intros; by apply op_plain_free.
  - (* RESERVE *)
    destruct (decode_reserve _) as [[nbytes consumer] n| |] eqn:Hd; try done. split.
    + apply Hop; [done|]. intros g Hseq.
      destruct (yields_run _ _ _ _ n yields_reserve Hb Hd) as [[Hn _] _]. simpl in Hn.
      by repeat split.
    + intros x _. simpl. by destruct (ro_ok x).
  - split; [|done]. apply Hop; [done|]. intros; by apply op_plain_free.
  - split; [|done]. apply Hop; [done|]. intros; by apply op_plain_free.
Qed.

Lemma disciplined_dispatch cfg boot f : frame_sane f -> disciplined (dispatch cfg boot f).
Proof.
  intros Hf. split; [constructor|]. intros ep Hep. split; [constructor|]. intros pol Hpol.
  simpl in *. apply disciplined_switch; [|done|].
  - simpl. rewrite Hep, Hpol. by destruct au.
  - case_match; [by apply disciplined_maybe_persist | done].
Qed.

Lemma disciplined_mark_all devs ctx k :
  (ctx_coordinator_epoch ctx, ctx_policy_generation ctx) = au ->
  disciplined k -> disciplined (mark_all devs ctx k).
Proof.
  intros Hctx Hk. induction devs as [|d devs IH]; [done|]. split; [|done].
  apply Forall_singleton, (disciplined_call _ ctx); [done..|]. intros; by apply op_plain_free.
Qed.

Lemma disciplined_fence cfg devs : disciplined (fence_prog cfg devs).
Proof.
  split; [constructor|]. intros ep Hep. split; [constructor|]. intros pol Hpol.
  simpl in *. apply disciplined_mark_all.
  - simpl. rewrite Hep, Hpol. by destruct au.
  - case_match; [done | by apply disciplined_write_statefile].
Qed.

(** ** The process *)

Definition phase_disciplined (ph : ConnPhase) : Prop :=
  match ph with PhBusy _ p | PhFencing _ p => disciplined p | _ => True end.

Definition threads_disciplined (c : Coordinator) : Prop :=
  map_Forall (fun _ cn => phase_disciplined (cn_phase cn)) (co_conns c).

Definition event_sane (ev : CoordEvent) : Prop :=
  match ev with EvRecv _ f => frame_sane f | _ => True end.

Lemma threads_insert c n ws ph :
  threads_disciplined c -> phase_disciplined ph ->
  map_Forall (fun _ cn => phase_disciplined (cn_phase cn)) (<[n := mkConn ws ph]> (co_conns c)).
Proof. intros. by apply map_Forall_insert_2. Qed.

Lemma threads_lookup c n ws ph :
  threads_disciplined c -> co_conns c !! n = Some (mkConn ws ph) -> phase_disciplined ph.
Proof. intros H Hn. exact (H n _ Hn). Qed.

(** One event: at most one operation of the engine, by a disciplined program. *)
Definition one_op (c c' : Coordinator) : Prop :=
  exists ops, co_fabric c' = run_ops (co_fabric c) ops /\ Forall op_disciplined ops /\
              (length ops <= 1)%nat /\
              (fabric_inv (co_fabric c) -> sequence_ (co_fabric c) < UINT64_MAX ->
               authority (co_fabric c') = au /\
               sequence_ (co_fabric c') <= sequence_ (co_fabric c) + 1).

Lemma one_op_none c c' :
  authority (co_fabric c) = au -> co_fabric c' = co_fabric c -> one_op c c'.
Proof.
  intros Hau H. exists []. rewrite H. split_and!; try done; [simpl; lia|].
  intros _ _. split; [done|lia].
Qed.

Lemma begin_death_disciplined cfg c n ws key :
  threads_disciplined c -> threads_disciplined (begin_death cfg c n ws key).
Proof.
  intros Hc. unfold begin_death.
  destruct (co_workers c !! key) as [m|]; simpl; [|by apply threads_insert].
  destruct (co_conns c !! m) as [[wm pm]|] eqn:Hm; simpl; [|by apply threads_insert].
  destruct (wk_dead wm); [by apply threads_insert|].
  apply (threads_insert (set_conn c m _ _)); [|apply disciplined_fence].
  apply threads_insert; [done|]. by eapply threads_lookup.
Qed.

Lemma begin_death_fabric cfg c n ws key : co_fabric (begin_death cfg c n ws key) = co_fabric c.
Proof. unfold begin_death. by repeat case_match. Qed.

Lemma run_step_disciplined c n ws p (ph : Prog -> ConnPhase) p' t o :
  threads_disciplined c -> authority (co_fabric c) = au -> disciplined p ->
  (forall q, disciplined q -> phase_disciplined (ph q)) ->
  prog_next p (mkThread (co_fabric c) ws (co_running c)) = Some (p', t, o) ->
  threads_disciplined (set_thread c n t (ph p')) /\ one_op c (set_thread c n t (ph p')).
Proof.
  intros Hc Hau Hp Hph Hn.
  destruct (prog_next_disciplined p (mkThread (co_fabric c) ws (co_running c)) p' t o Hp Hau Hn)
    as (Hp' & ops & H).
  split; [apply threads_insert; auto | by exists ops].
Qed.

Lemma quiet_event c c' :
  authority (co_fabric c) = au -> co_fabric c' = co_fabric c -> threads_disciplined c' ->
  threads_disciplined c' /\ one_op c c'.
Proof. intros. split; [done | by apply one_op_none]. Qed.

Lemma coord_exec_disciplined cfg ev c c' o :
  threads_disciplined c -> authority (co_fabric c) = au -> event_sane ev ->
  coord_exec cfg ev c = Some (c', o) -> threads_disciplined c' /\ one_op c c'.
Proof.
  intros Hc Hau Hev Hex.
  destruct ev; cbn [coord_exec] in Hex; repeat case_match; simplify_eq;
    try (apply quiet_event; [done | done |]; (exact Hc || by apply threads_insert)).
  all: match goal with H : co_conns _ !! _ = Some _ |- _ =>
         pose proof (threads_lookup _ _ _ _ Hc H) as Hph end.
  all: try by (eapply (run_step_disciplined _ _ _ _ (PhBusy _)) ||
               eapply (run_step_disciplined _ _ _ _ (PhFencing _))).
  - apply quiet_event; [done..|]. apply threads_insert; [done|]. by apply disciplined_dispatch.
  - apply quiet_event; [done | apply begin_death_fabric |]. by apply begin_death_disciplined.
Qed.

Lemma coord_run_disciplined cfg evs c c' os :
  threads_disciplined c -> authority (co_fabric c) = au -> Forall event_sane evs ->
  fabric_inv (co_fabric c) -> sequence_ (co_fabric c) + Z.of_nat (length evs) <= UINT64_MAX ->
  coord_run cfg evs c = Some (c', os) ->
  exists ops, co_fabric c' = run_ops (co_fabric c) ops /\ all_ok op_plain (co_fabric c) ops /\
              Forall op_disciplined ops /\ (length ops <= length evs)%nat /\
              authority (co_fabric c') = au.
Proof.
  revert c os. induction evs as [|ev evs IH]; intros c os Hc Hau Hevs Hinv Hseq Hrun; simpl in *.
  { simplify_eq. exists []. split_and!; done || (simpl; lia). }
  apply Forall_cons in Hevs as [Hev Hevs].
  destruct (coord_exec cfg ev c) as [[c1 o]|] eqn:Hex; simpl in Hrun; [|done].
  destruct (coord_run cfg evs c1) as [[c2 os2]|] eqn:Hrest; simpl in Hrun; [|done].
  simplify_eq. destruct (coord_exec_disciplined cfg ev c c1 o) as (Hc1 & ops1 & Hf1 & Hd1 & Hl1 & Hk); try done.
  destruct (Hk Hinv) as [Hau1 Hseq1]; [lia|].
  assert (all_ok op_plain (co_fabric c) ops1) as Hok1.
  { destruct ops1 as [|op1 [|]]; [done| |simpl in *; lia]. split; [|done].
    apply Forall_singleton in Hd1 as [_ Hpl]. apply Hpl. lia. }
  assert (fabric_inv (co_fabric c1)) as Hinv1.
  { rewrite Hf1. destruct ops1 as [|op1 [|]]; [done| |simpl in *; lia]. simpl.
    apply step_inv; [done|]. destruct Hok1 as [[[Hwf _] _] _]. exact Hwf. }
  destruct (IH c1 os2) as (ops2 & Hf2 & Hok2 & Hd2 & Hl2 & Hau2); try done; [lia|].
  exists (ops1 ++ ops2). split_and!; try done.
  - rewrite Hf2, Hf1. unfold run_ops. by rewrite foldl_app.
  - rewrite Hf1 in Hok2. clear -Hok1 Hok2. revert Hok1 Hok2. generalize (co_fabric c).
    induction ops1 as [|op ops1 IH]; intros f; [done|]. intros [? ?] ?. split; [done|]. by apply IH.
  - by apply Forall_app.
  - rewrite length_app. simpl. lia.
Qed.
End Disciplined.

(** C11. The coordinator process refines the engine's guarantees under every
    interleaving. Take any run of the process from its start on any engine: any number of
    connections, their threads interleaved step by step, connections lost at any point, and
    frames of any content but one: the members of a published pool have less than 2^63
    bytes together ([frame_sane]; nothing in the code checks it, and without it the
    guarantees can fail, see [oversized_pool_accepted]). The engine then went
    through a sequence of operations, one after the other, each under its current epoch and
    policy although these are read before and apart, and each within the conditions of the
    engine's theorems. Hence if the engine was in a state reachable under any conditions at
    least as wide, it still is: capacity is never oversubscribed, and so on for all
    guarantees on reachable states. *)
Theorem coordinator_refines_engine cfg f0 evs c outs (ok : Fabric -> FabricOp -> Prop) :
  coord_run cfg evs (coord_init f0) = Some (c, outs) -> Forall event_sane evs ->
  sequence_ f0 + Z.of_nat (length evs) <= UINT64_MAX ->
  (forall f op, op_plain f op -> ok f op) -> (forall f op, ok f op -> op_wf f op) ->
  reachable ok f0 ->
  reachable ok (co_fabric c) /\
  exists ops, co_fabric c = run_ops f0 ops /\ (length ops <= length evs)%nat /\
    Forall (fun op => exists ctx, op_context op = Some ctx /\
              ctx_coordinator_epoch ctx = epoch f0 /\
              ctx_policy_generation ctx = st_policy_generation (state_ f0)) ops /\
    epoch (co_fabric c) = epoch f0.
Proof.
  intros Hrun Hevs Hseq Hpl Hwf Hf0.
  destruct (coord_run_disciplined (authority f0) cfg evs (coord_init f0) c outs)
    as (ops & Hf & Hok & Hd & Hl & Hau); try done.
  { apply reachable_inv. by eapply reachable_mono. }
  simpl in *. injection Hau as Hep Hpol. split.
  - rewrite Hf. apply reachable_run; [done|]. clear -Hok Hpl. revert Hok. generalize f0.
    induction ops as [|op ops IH]; intros f; [done|]. intros [? ?]. split; auto.
  - exists ops. split_and!; try done. eapply Forall_impl; [exact Hd|].
    intros op [(ctx & Hctx & Hau) _]. injection Hau as ? ?. by exists ctx.
Qed.

(** ** What a frame can do that is not sane *)

Lemma oversized_pool_totals pid gen m1 m2 :
  mem_online m1 = true -> mem_online m2 = true -> mem_health_ok m1 = true -> mem_health_ok m2 = false ->
  in_u64 (mem_nominal_bytes m1) -> in_u64 (mem_nominal_bytes m2) ->
  UINT64_MAX < mem_nominal_bytes m1 + mem_nominal_bytes m2 ->
  let q := created_pool (published_pool pid gen [m1; m2]) in
  pool_total_governed_bytes q = mem_nominal_bytes m1 /\ pool_used64 q = mem_nominal_bytes m2.
Proof.
  intros Ho1 Ho2 Hh1 Hh2 H1 H2 Hsum.
  assert (forall x, in_u64 x -> add_checked 0 x = Some x) as Hadd.
  { intros x Hx. rewrite add_checked_spec by (done || by vm_compute). unfold in_u64 in Hx.
    by rewrite bool_decide_true by lia. }
  assert (add_checked (mem_nominal_bytes m1) (mem_nominal_bytes m2) = None) as Hno.
  { rewrite add_checked_spec by done. by rewrite bool_decide_false by lia. }
  assert (exists ds, foldl pool_add_member (0, 0, []) [m1; m2] =
            (mem_nominal_bytes m1, mem_nominal_bytes m2, ds)) as [ds Hds].
  { eexists. cbn [foldl]. unfold pool_add_member. rewrite Ho1, Ho2, Hh1, Hh2. cbn [negb].
    rewrite !Hadd by done. cbn [from_option id]. rewrite Hno. reflexivity. }
  unfold created_pool, recompute_pool. cbn [published_pool pool_members]. rewrite Hds.
  unfold pool_used64. cbn [pool_set_state pool_set_totals pool_total_governed_bytes pool_unavailable_bytes
    pool_reserved_bytes pool_committed_bytes pool_draining_bytes published_pool].
  assert (forall x, in_u64 x -> add64 x 0 = x) as Hz.
  { intros x Hx. unfold in_u64 in Hx. rewrite add64_small by lia. lia. }
  by rewrite !(Hz _ H2).
Qed.

(** A pool frame with a healthy member and a larger one that is not healthy, whose sum does
    not fit in 64 bits, is accepted: the sum of the governed bytes leaves the second member
    out, that of the unavailable bytes does not. The worker is told OK, more is unavailable
    than governed, and the audit fails from then on. *)
Theorem oversized_pool_accepted ctx f ws run fr pid gen m1 m2 n :
  fr_type fr = FT_PUBLISH_POOL -> decode_pool (fr_payload fr) [] = Got (pid, gen, [m1; m2]) n ->
  mem_online m1 = true -> mem_online m2 = true -> mem_health_ok m1 = true -> mem_health_ok m2 = false ->
  in_u64 (mem_nominal_bytes m1) -> in_u64 (mem_nominal_bytes m2) ->
  UINT64_MAX < mem_nominal_bytes m1 + mem_nominal_bytes m2 ->
  mem_nominal_bytes m1 < mem_nominal_bytes m2 ->
  (create_pool f (published_pool pid gen [m1; m2]) ctx).1 = DecisionReason_OK ->
  exists t', run_prog (dispatch_switch ctx fr PDone) (mkThread f ws run) =
      Some (t', [OSend (ack_frame DecisionReason_OK)]) /\
    rep_ok (audit (th_fabric t')) = false.
Proof.
  intros Ht Hd Ho1 Ho2 Hh1 Hh2 H1 H2 Hsum Hlt Hok.
  destruct (oversized_pool_totals pid gen m1 m2) as [Htot Hused]; try done.
  pose proof (create_pool_accepted f _ ctx Hok) as Hk.
  exists (mkThread (create_pool f (published_pool pid gen [m1; m2]) ctx).2 ws run). split.
  - unfold dispatch_switch. rewrite Ht, Hd. cbn [run_prog call_fabric th_fabric].
    destruct (create_pool f _ ctx) as [why f']. cbn [fst snd] in *. subst why. reflexivity.
  - apply (audit_fails_used _ _ _ Hk); [discriminate|]. rewrite Htot, Hused. exact Hlt.
Qed.

Lemma oversized_pool_accepted_witness :
  let f := foldl (fun f d => (register_device f d demo_ctx).2) (fabric_init (mkGen 1) (mkGen 1))
             (baseline_devices (mkId "host")) in
  let ms := [mk_member "dev-1" 1 "";
             mkMember (mkId "dev-2") (mkGen 1) UINT64_MAX true false "" LocalityClass_SAME_HOST] in
  exists t', run_prog (dispatch_switch demo_ctx
      (mkFrame FT_PUBLISH_POOL (encode_pool (mkId "p-1") (mkGen 1) ms)) PDone)
      (mkThread f worker_default true) = Some (t', [OSend (ack_frame DecisionReason_OK)]) /\
    rep_ok (audit (th_fabric t')) = false.
Proof.
  eapply oversized_pool_accepted; try (vm_compute; reflexivity); split; vm_compute; discriminate.
Defined.

(** ** A run with two workers *)

(** A connection is accepted and announces itself. *)
Definition connect (n : nat) (boot : string) : list CoordEvent :=
  [EvAcceptTest; EvAccept n; EvBoot n (boot_frame boot); EvLoop n].

Definition no_files : CoordConfig := mkConfig "" "".

(** Two workers publish the device, the pool and the region, their calls in turns. *)
Definition in_turns (n : nat) : list CoordEvent := mjoin (replicate n [EvRun 0; EvRun 1]).
Definition two_workers : list CoordEvent :=
  connect 0 "w-0" ++ connect 1 "w-1" ++
  [EvRecv 0 (device_frame (worker_device "w-0")); EvRecv 1 (device_frame (worker_device "w-1"))] ++
  in_turns 6 ++ [EvLoop 0; EvLoop 1] ++
  [EvRecv 0 (pool_frame (worker_device "w-0")); EvRecv 1 (region_frame (worker_device "w-1"))] ++
  in_turns 5 ++ [EvLoop 0; EvLoop 1].

Lemma two_workers_run :
  is_Some (coord_run no_files two_workers (coord_init (fabric_init (mkGen 1) (mkGen 1)))).
Proof. refine (bool_decide_unpack _ _). vm_compute. exact I. Qed.

Lemma frame_sane_other f : fr_type f <> FT_PUBLISH_POOL -> bytes_ok (fr_payload f) -> frame_sane f.
Proof. intros Ht Hb. split; [done|]. intros ???? H. done. Qed.

Lemma worker_pool_sane boot : frame_sane (pool_frame (worker_device boot)).
Proof.
  assert (pool_frame (worker_device boot) = pool_frame (worker_device "")) as -> by done.
  split; [apply encode_pool_ok|]. intros pid gen ms n _ H.
  vm_compute in H. injection H as _ _ <- _. by vm_compute.
Qed.

Lemma two_workers_sane : Forall event_sane two_workers.
Proof.
  repeat (apply Forall_cons; split); try exact I; [..|by constructor];
    try (apply frame_sane_other; [done|]).
  - apply encode_device_ok.
  - apply encode_device_ok.
  - apply worker_pool_sane.
  - apply encode_region_ok.
Qed.

Lemma coordinator_refines_engine_witness :
  exists c outs,
    coord_run no_files two_workers (coord_init (fabric_init (mkGen 1) (mkGen 1))) = Some (c, outs) /\
    reachable op_plain (co_fabric c).
Proof.
  destruct two_workers_run as [[c outs] Hrun]. exists c, outs. split; [exact Hrun|].
  apply (coordinator_refines_engine no_files (fabric_init (mkGen 1) (mkGen 1)) two_workers c outs
           op_plain Hrun two_workers_sane).
  - by vm_compute.
  - intros f op H. exact H.
  - intros f op [[H _] _]. exact H.
  - constructor.
Defined.
