(* ===== verification/WorkerDeath.v ===== *)
(** * What the death of a worker does

    [appl_worker_death] ([multiprocess/coordinator_main.cpp]) runs in the thread of the
    connection that was lost, under the lock of the table, and withdraws the evidence of
    the devices recorded in the table under the boot identity. *)
From S2P Require Import Prelude.
From S2P Require Import Identity.
From S2P Require Import Enums.
From S2P Require Import Lifecycle.
From S2P Require Import Records.
From S2P Require Import Selection.
From S2P Require Import Fabric.
From S2P Require Import Synthetic.
From S2P Require Import SelectionProps.
From S2P Require Import LedgerRefinement.
From S2P Require Import Crc.
From S2P Require Import Protocol.
From S2P Require Import Readers.
From S2P Require Import Codec.
From S2P Require Import Coordinator.
From S2P Require Import Worker.
From S2P Require Import Interleaving.

(** ** A thread that is not interrupted *)

(** The two phases in which a thread runs a program. *)
Definition runs_in (ph : Prog -> ConnPhase) : Prop :=
  exists key, ph = PhBusy key \/ ph = PhFencing key.

Lemma set_thread_twice c n t ph t' ph' :
  set_thread (set_thread c n t ph) n t' ph' = set_thread c n t' ph'.
Proof. unfold set_thread. simpl. by rewrite insert_insert_eq. Qed.

Lemma exec_run cfg c n t p ph p' t' o :
  runs_in ph -> prog_next p t = Some (p', t', o) ->
  coord_exec cfg (EvRun n) (set_thread c n t (ph p)) = Some (set_thread c n t' (ph p'), o).
Proof.
  intros (key & Hph) Hn. rewrite <- (set_thread_twice c n t (ph p) t').
  destruct t as [f ws run].
  destruct Hph as [-> | ->]; cbn [coord_exec set_thread co_conns th_worker];
    rewrite lookup_insert_eq; destruct p; try discriminate Hn;
    cbn [set_thread co_fabric co_running th_fabric th_running]; by rewrite Hn.
Qed.

Lemma coord_run_cons cfg ev evs c c1 o c2 os :
  coord_exec cfg ev c = Some (c1, o) -> coord_run cfg evs c1 = Some (c2, os) ->
  coord_run cfg (ev :: evs) c = Some (c2, option_list o ++ os).
Proof. intros H1 H2. simpl. rewrite H1. simpl. by rewrite H2. Qed.

Lemma coord_run_app cfg evs evs' c c1 os1 c2 os2 :
  coord_run cfg evs c = Some (c1, os1) -> coord_run cfg evs' c1 = Some (c2, os2) ->
  coord_run cfg (evs ++ evs') c = Some (c2, os1 ++ os2).
Proof.
  revert c os1. induction evs as [|ev evs IH]; intros c os1 H1 H2; simpl in *; [by simplify_eq|].
  destruct (coord_exec cfg ev c) as [[c' o]|]; simpl in *; [|done].
  destruct (coord_run cfg evs c') as [[c'' os]|] eqn:Hr; simpl in *; [|done]. simplify_eq.
  rewrite (IH c' os Hr H2). simpl. by rewrite app_assoc.
Qed.

(** Left alone, a thread does to the process what its program does on its own. *)
Lemma run_uninterrupted cfg c n ph p t t' os :
  runs_in ph -> run_prog p t = Some (t', os) ->
  exists k, coord_run cfg (replicate k (EvRun n)) (set_thread c n t (ph p)) =
              Some (set_thread c n t' (ph PDone), os).
Proof.
  intros Hph. revert t os.
  induction p as [| |X fc k IH|fr p IH|d p IH|r p IH|p IH|ps p IH|s p IH]; intros t os Hrun;
    cbn [run_prog] in Hrun.
  3: destruct (call_fabric fc (th_fabric t)) as [x f'] eqn:Hc;
     destruct (IH x _ _ Hrun) as [m Hm]; exists (S m);
     eapply (coord_run_cons _ _ _ _ _ None); [|exact Hm]; apply exec_run; [done|]; simpl;
     by rewrite Hc.
  1: simplify_eq; by exists O.
  1: done.
  all: try (destruct (IH _ _ Hrun) as [m Hm]; exists (S m);
            eapply (coord_run_cons _ _ _ _ _ None); [|exact Hm]; by apply exec_run).
  all: destruct (run_prog p t) as [[t1 os1]|] eqn:Hp; [|done]; cbn in Hrun; simplify_eq;
    destruct (IH _ _ Hp) as [m Hm]; exists (S m);
    eapply (coord_run_cons _ _ _ _ _ (Some _)); [|exact Hm]; by apply exec_run.
Qed.

(** ** Withdrawing the evidence *)

(** No decision may be based on the device. *)
Definition fenced (f : Fabric) (d : DeviceId) : Prop :=
  forall dev, st_devices (state_ f) !! d = Some dev ->
    ~ (dev_state dev = DeviceState_ONLINE /\ dev_evidence_current dev = true).

(** Everything but the devices of the list is as it was. *)
Record only_devices (devs : list DeviceId) (f f' : Fabric) : Prop := {
  od_authority : authority f' = authority f;
  od_pools : st_pools (state_ f') = st_pools (state_ f);
  od_regions : st_regions (state_ f') = st_regions (state_ f);
  od_reservations : st_reservations (state_ f') = st_reservations (state_ f);
  od_sequence : sequence_ f' = sequence_ f;
  od_devices : forall d, d ∉ devs -> st_devices (state_ f') !! d = st_devices (state_ f) !! d;
}.

Lemma fenced_no_placement f d req p r dev :
  fenced f d -> st_devices (state_ f) !! d = Some dev -> ~ placement (state_ f) req p r dev.
Proof.
  intros Hf Hd (_ & _ & _ & _ & Hadm). apply (Hf dev Hd).
  by destruct (adm_online _ _ _ _ _ _ Hadm), (adm_evidence _ _ _ _ _ _ Hadm).
Qed.

Lemma mark_fences f d ctx :
  ctx_coordinator_epoch ctx = epoch f ->
  let f' := (mark_device_revalidation f d ctx).2 in
  only_devices [d] f f' /\ fenced f' d /\ forall d', fenced f d' -> fenced f' d'.
Proof.
  intros He. unfold mark_device_revalidation, stale_epoch. fold (epoch f).
  rewrite bool_decide_true by done. simpl.
  destruct (st_devices (state_ f) !! d) as [dev|] eqn:Hd; simpl.
  2:{ split_and!; try done. intros dev. by rewrite Hd. }
  destruct (valid_transition_device _ _) eqn:Hv; simpl.
  - split_and!.
    + split; try done. intros d' Hd'. simpl. apply lookup_insert_ne. set_solver.
    + intros dev'. simpl. rewrite lookup_insert_eq. intros [= <-] [? _]. done.
    + intros d' Hf dev'. simpl. destruct (decide (d = d')) as [<-|].
      * rewrite lookup_insert_eq. intros [= <-] [? _]. done.
      * rewrite lookup_insert_ne by done. apply Hf.
  - split_and!; try done. intros dev'. rewrite Hd. intros [= <-] [Hon _].
    rewrite Hon in Hv. by vm_compute in Hv.
Qed.

Lemma only_devices_trans l1 l2 f1 f2 f3 :
  only_devices l1 f1 f2 -> only_devices l2 f2 f3 -> only_devices (l1 ++ l2) f1 f3.
Proof.
  intros [A1 B1 C1 D1 E1 F1] [A2 B2 C2 D2 E2 F2]. split; try congruence.
  intros d Hd. rewrite F2, F1; [done | set_solver..].
Qed.

Lemma mark_all_fences devs ctx k t :
  ctx_coordinator_epoch ctx = epoch (th_fabric t) ->
  exists t', run_prog (mark_all devs ctx k) t = run_prog k t' /\
    th_worker t' = th_worker t /\ th_running t' = th_running t /\
    only_devices devs (th_fabric t) (th_fabric t') /\
    (forall d, d ∈ devs \/ fenced (th_fabric t) d -> fenced (th_fabric t') d).
Proof.
  revert t. induction devs as [|d devs IH]; intros t He; simpl.
  { exists t. split_and!; try done. intros d [Hd|]; [by apply not_elem_of_nil in Hd | done]. }
  destruct (mark_fences (th_fabric t) d ctx He) as (Ho & Hf & Hk).
  destruct (mark_device_revalidation (th_fabric t) d ctx) as [dr f1]. simpl in *.
  destruct (IH (mkThread f1 (th_worker t) (th_running t))) as (t' & Hrun & Hw & Hr & Ho' & Hk').
  { simpl. pose proof (od_authority _ _ _ Ho) as Ha. unfold authority in Ha. congruence. }
  exists t'. split_and!; try done; simpl in *.
  - by apply (only_devices_trans [d] devs _ f1).
  - intros d' [[->|Hd']%elem_of_cons|]; apply Hk'; auto.
Qed.

Lemma fence_prog_spec cfg devs t :
  exists t' os, run_prog (fence_prog cfg devs) t = Some (t', os) /\
    th_worker t' = th_worker t /\ th_running t' = th_running t /\
    only_devices devs (th_fabric t) (th_fabric t') /\
    forall d, d ∈ devs -> fenced (th_fabric t') d.
Proof.
  destruct t as [f ws run].
  destruct (mark_all_fences devs (mkContext (epoch f) (policy_generation f) id_default gen_default)
    (if String.eqb (cfg_statefile cfg) "" then PDone else write_statefile cfg PDone) (mkThread f ws run))
    as (t' & Hrun & Hw & Hr & Ho & Hk); [done|].
  assert (exists os, run_prog (fence_prog cfg devs) (mkThread f ws run) = Some (t', os)) as [os Hos].
  { unfold fence_prog. cbn [run_prog call_fabric th_fabric th_worker th_running]. rewrite Hrun.
    unfold write_statefile. destruct (String.eqb _ _); [by eexists|]. cbn. destruct t'. by eexists. }
  exists t', os. split_and!; try done. intros d Hd. apply Hk. by left.
Qed.

(** ** The thread of a lost connection *)

(** The connection [n] is waiting for a frame, the lock is free, and the table leads from
    its boot identity to the state [wm] of a connection [m] that was not declared dead. *)
Record losing (c : Coordinator) (n : nat) (ws : WorkerState) (key : string) (m : nat)
    (wm : WorkerState) (pm : ConnPhase) : Prop := {
  lo_reading : co_conns c !! n = Some (mkConn ws (PhReading key));
  lo_mutex : co_mutex c = None;
  lo_entry : co_workers c !! key = Some m;
  lo_owner : co_conns c !! m = Some (mkConn wm pm);
  lo_alive : wk_dead wm = false;
}.

(** The events of the thread from the loss to its end. *)
Definition death_events (n k : nat) : list CoordEvent :=
  EvLost n :: replicate k (EvRun n) ++ [EvRun n; EvClose n].

Lemma begin_death_thread cfg c n ws key m wm pm :
  losing c n ws key m wm pm ->
  coord_exec cfg (EvLost n) c =
    Some (set_thread (set_mutex (set_conn c m (mark_dead wm) pm) (Some n)) n
            (mkThread (co_fabric c) (if bool_decide (m = n) then mark_dead ws else ws) (co_running c))
            (PhFencing key (fence_prog cfg (wk_devices wm))), None).
Proof.
  intros [Hn Hmu He Hm Hd]. cbn [coord_exec]. rewrite Hn. unfold unlocked.
  rewrite bool_decide_true by done. unfold begin_death. rewrite He. cbn [mbind option_bind].
  rewrite Hm. cbn [mbind option_bind cn_worker]. rewrite Hd. reflexivity.
Qed.

Lemma end_death cfg c n t key :
  coord_run cfg [EvRun n; EvClose n] (set_thread c n t (PhFencing key PDone)) =
    Some (set_workers (set_mutex (set_thread c n t PhClosed) None) (delete key (co_workers c)), []).
Proof.
  destruct t as [f ws run].
  cbn [coord_run coord_exec set_thread co_conns th_worker mbind option_bind].
  rewrite lookup_insert_eq. cbn [mbind option_bind set_conn set_mutex co_conns].
  rewrite lookup_insert_eq.
  unfold set_workers, set_conn, set_mutex, set_thread, unlocked. simpl.
  by rewrite !insert_insert_eq.
Qed.

Lemma death_run cfg c n ws key m wm pm :
  losing c n ws key m wm pm ->
  exists k c' os, coord_run cfg (death_events n k) c = Some (c', os) /\
    only_devices (wk_devices wm) (co_fabric c) (co_fabric c') /\
    (forall d, d ∈ wk_devices wm -> fenced (co_fabric c') d) /\
    co_workers c' = delete key (co_workers c) /\ co_mutex c' = None /\
    (exists own, co_conns c' !! n = Some (mkConn own PhClosed)) /\
    (m <> n -> co_conns c' !! m = Some (mkConn (mark_dead wm) pm)).
Proof.
  intros Hl. pose proof (begin_death_thread cfg _ _ _ _ _ _ _ Hl) as Hbegin.
  set (c1 := set_mutex _ _) in Hbegin. set (t := mkThread _ _ _) in Hbegin.
  destruct (fence_prog_spec cfg (wk_devices wm) t) as (t' & os & Hrun & _ & _ & Ho & Hk).
  destruct (run_uninterrupted cfg c1 n (PhFencing key) (fence_prog cfg (wk_devices wm)) t t' os)
    as [k Hk']; [by exists key; right | exact Hrun |].
  pose proof (coord_run_app _ _ _ _ _ _ _ _ Hk' (end_death cfg c1 n t' key)) as Hend.
  eexists k, _, _. split; [exact (coord_run_cons _ _ _ _ _ _ _ _ Hbegin Hend)|].
  split_and!; try done.
  - eexists. simpl. apply lookup_insert_eq.
  - intros Hne. simpl. rewrite lookup_insert_ne by done. apply lookup_insert_eq.
Qed.

(** ** Whatever the other threads do *)

(** What a call of the engine makes of the devices. *)
Lemma call_devices {X} (c : FabricCall X) f :
  authority (call_fabric c f).2 = authority f /\
  match c with
  | CRegisterDevice d _ => forall d', d' <> dev_id d ->
      st_devices (state_ (call_fabric c f).2) !! d' = st_devices (state_ f) !! d'
  | CMarkDeviceRevalidation _ _ => True
  | _ => st_devices (state_ (call_fabric c f).2) = st_devices (state_ f)
  end.
Proof.
  destruct c; cbn [call_fabric]; try done.
  - unfold register_device. open_op; (split; [done|]); intros d' Hd'; try done;
      by apply lookup_insert_ne.
  - unfold reserve. cbv zeta. open_op; done.
  - unfold commit. cbv zeta. open_op; done.
  - unfold release. cbv zeta. open_op; try done;
      repeat case_match; simplify_eq; try done;
      repeat match goal with H : context [account_release ?a ?b ?c] |- _ =>
        destruct (account_release a b c) as [[? ?] ?] end; simplify_eq; done.
  - unfold create_pool. open_op; done.
  - unfold revalidate_pool. open_op; done.
  - unfold create_region. open_op; done.
  - unfold revalidate_region. open_op; done.
  - unfold mark_device_revalidation. open_op; done.
Qed.

(** The event is a step of a thread that registers the device. *)
Definition registers (c : Coordinator) (ev : CoordEvent) (d : DeviceId) : Prop :=
  exists n ws (ph : Prog -> ConnPhase) dev ctx k, ev = EvRun n /\ runs_in ph /\ dev_id dev = d /\
    co_conns c !! n = Some (mkConn ws (ph (PCall (CRegisterDevice dev ctx) k))).

(** So does one of the events of a run. *)
Fixpoint registered_in (cfg : CoordConfig) (evs : list CoordEvent) (c : Coordinator) (d : DeviceId)
    : Prop :=
  match evs with
  | [] => False
  | ev :: evs' => registers c ev d \/
      match coord_exec cfg ev c with Some (c1, _) => registered_in cfg evs' c1 d | None => False end
  end.

Lemma fenced_same f f' d :
  st_devices (state_ f') !! d = st_devices (state_ f) !! d -> fenced f d -> fenced f' d.
Proof. intros H Hf dev. rewrite H. apply Hf. Qed.

(** A step of a thread. *)
Lemma exec_run_inv cfg n c c' o :
  coord_exec cfg (EvRun n) c = Some (c', o) ->
  exists ws (ph : Prog -> ConnPhase) p, runs_in ph /\ co_conns c !! n = Some (mkConn ws (ph p)) /\
    ((p = PDone /\ co_fabric c' = co_fabric c /\
      exists key, ph PDone = PhBusy key PDone /\ c' = set_conn c n ws (PhServing key) \/
                  ph PDone = PhFencing key PDone /\ c' = set_mutex (set_conn c n ws (PhClosing key)) None) \/
     exists p' t, prog_next p (mkThread (co_fabric c) ws (co_running c)) = Some (p', t, o) /\
       c' = set_thread c n t (ph p')).
Proof.
  cbn [coord_exec]. destruct (co_conns c !! n) as [[ws ph]|] eqn:Hn; [|done].
  destruct ph as [|key|key|key p|key p|key|]; try done; intros Hex.
  - exists ws, (PhBusy key), p. split; [by exists key; left|]. split; [done|].
    destruct p; [left; simplify_eq; by eauto 10|right..];
      destruct (prog_next _ _) as [[[p' t] o']|]; simplify_eq; eauto.
  - exists ws, (PhFencing key), p. split; [by exists key; right|]. split; [done|].
    destruct p; [left; simplify_eq; by eauto 10|right..];
      destruct (prog_next _ _) as [[[p' t] o']|]; simplify_eq; eauto.
Qed.

(** The other events leave the engine alone. *)
Lemma other_exec_fabric cfg ev c c' o :
  coord_exec cfg ev c = Some (c', o) -> (forall n, ev <> EvRun n) -> co_fabric c' = co_fabric c.
Proof.
  intros Hex Hev. destruct ev; try (by destruct (Hev n)); cbn [coord_exec] in Hex;
    repeat case_match; simplify_eq; try done; apply begin_death_fabric.
Qed.

Lemma prog_next_fenced p t p' t' o d :
  prog_next p t = Some (p', t', o) ->
  authority (th_fabric t') = authority (th_fabric t) /\
  (fenced (th_fabric t) d -> fenced (th_fabric t') d \/
     exists dev ctx k, p = PCall (CRegisterDevice dev ctx) k /\ dev_id dev = d).
Proof.
  intros Hn. destruct p as [| |X fc k|fr k|d' k|r k|k|st k|text k]; simpl in Hn; simplify_eq;
    try (split; [done | by left]).
  pose proof (call_devices fc (th_fabric t)) as [Ha Hd].
  destruct fc; simpl in *; try (simplify_eq; split; [done | by left]).
  all: match type of Hn with (let '(_, _) := ?x in _) = _ => destruct x as [y f'] eqn:Hc end;
    try rewrite Hc in Hn; try rewrite Hc in Ha; try rewrite Hc in Hd; simplify_eq; simpl in *; (split; [unfold authority; congruence|]); intros Hf.
  2-8: left; eapply fenced_same; [|exact Hf]; by rewrite Hd.
  - destruct (decide (d = dev_id d0)) as [->|Hne]; [right; by eauto|left].
    eapply fenced_same; [|exact Hf]. by apply Hd.
  - left. destruct (decide (ctx_coordinator_epoch ctx = epoch (th_fabric t))) as [He|He].
    + pose proof (mark_fences (th_fabric t) d0 ctx He) as (_ & _ & Hk). rewrite Hc in Hk. by apply Hk.
    + revert Hc. unfold mark_device_revalidation, stale_epoch. fold (epoch (th_fabric t)).
      rewrite bool_decide_false by done. by intros [= _ <-].
Qed.

(** A device whose evidence was withdrawn stays so until it is registered again. *)
Lemma exec_fenced cfg ev c c' o d :
  coord_exec cfg ev c = Some (c', o) ->
  authority (co_fabric c') = authority (co_fabric c) /\
  (fenced (co_fabric c) d -> fenced (co_fabric c') d \/ registers c ev d).
Proof.
  intros Hex. assert (Hsame : co_fabric c' = co_fabric c ->
    authority (co_fabric c') = authority (co_fabric c) /\
    (fenced (co_fabric c) d -> fenced (co_fabric c') d \/ registers c ev d)).
  { intros ->. split; [done | by left]. }
  destruct ev; try (by apply Hsame; eapply other_exec_fabric).
  destruct (exec_run_inv cfg n c c' o Hex) as (ws & ph & p & Hph & Hn & [(-> & Hf & _)|(p' & t & Hp & ->)]).
  - by apply Hsame.
  - destruct (prog_next_fenced _ _ _ _ _ d Hp) as [Ha Hf]. split; [done|]. intros Hd.
    destruct (Hf Hd) as [?|(dev & ctx & k & -> & Hdev)]; [by left|right].
    eexists n, ws, ph, dev, ctx, k. done.
Qed.

Lemma run_fenced cfg evs c c' os d :
  coord_run cfg evs c = Some (c', os) -> fenced (co_fabric c) d ->
  fenced (co_fabric c') d \/ registered_in cfg evs c d.
Proof.
  revert c os. induction evs as [|ev evs IH]; intros c os Hrun Hd; simpl in *; [simplify_eq; by left|].
  destruct (coord_exec cfg ev c) as [[c1 o]|] eqn:Hex; simpl in Hrun; [|done].
  destruct (coord_run cfg evs c1) as [[c2 os2]|] eqn:Hr; simpl in Hrun; [|done]. simplify_eq.
  destruct (exec_fenced _ _ _ _ _ d Hex) as [_ Hf].
  destruct (Hf Hd) as [Hd1|]; [|right; by left].
  destruct (IH c1 os2 Hr Hd1); [by left | right; by right].
Qed.

(** What is left of [fence_prog] while the evidence of the devices [todo] is not withdrawn;
    [e] is the engine's epoch. *)
Inductive fencing_left (cfg : CoordConfig) (e : CoordinatorEpoch) : list DeviceId -> Prog -> Prop :=
  | left_epoch todo : fencing_left cfg e todo (fence_prog cfg todo)
  | left_policy todo k :
      (forall pol, fencing_left cfg e todo (k pol)) ->
      fencing_left cfg e todo (PCall CPolicyGeneration k)
  | left_mark todo ctx k :
      ctx_coordinator_epoch ctx = e -> fencing_left cfg e todo (mark_all todo ctx k)
  | left_rest p : fencing_left cfg e [] p.

Lemma fencing_left_next cfg e todo p t p' t' o :
  fencing_left cfg e todo p -> epoch (th_fabric t) = e -> prog_next p t = Some (p', t', o) ->
  exists todo', fencing_left cfg e todo' p' /\
    (todo' = todo \/ exists d, todo = d :: todo' /\ fenced (th_fabric t') d).
Proof.
  intros Hl He Hn. destruct Hl as [todo|todo k Hk|todo ctx k Hctx|p].
  - simpl in Hn. simplify_eq. exists todo. split; [|by left]. constructor. intros pol. by constructor.
  - simpl in Hn. simplify_eq. exists todo. split; [done | by left].
  - destruct todo as [|d todo]; [exists []; split; [constructor | by left]|]. simpl in Hn.
    destruct (mark_fences (th_fabric t) d ctx) as (_ & Hf & _); [congruence|].
    destruct (mark_device_revalidation _ _ _) as [x f'] eqn:Hm. simplify_eq. simpl in *.
    exists todo. split; [by constructor|]. right. by exists d.
  - exists []. split; [constructor | by left].
Qed.

Lemma fencing_left_done cfg e todo : fencing_left cfg e todo PDone -> todo = [].
Proof.
  intros Hl. remember PDone as p eqn:Hp. destruct Hl as [todo|todo k _|todo ctx k _|p]; try done.
  by destruct todo.
Qed.

(** The thread [n] has still to withdraw the evidence of the devices [todo]. *)
Definition to_fence (cfg : CoordConfig) (c : Coordinator) (n : nat) (todo : list DeviceId) : Prop :=
  exists ws ph, co_conns c !! n = Some (mkConn ws ph) /\
    match ph with
    | PhFencing _ p => fencing_left cfg (epoch (co_fabric c)) todo p
    | PhClosing _ | PhClosed => todo = []
    | _ => False
    end.

Definition past_requests (ph : ConnPhase) : Prop :=
  match ph with PhFencing _ _ | PhClosing _ | PhClosed => True | _ => False end.

Lemma begin_death_conn cfg c n ws key m cm :
  m <> n -> co_conns c !! m = Some cm ->
  exists ws', co_conns (begin_death cfg c n ws key) !! m = Some (mkConn ws' (cn_phase cm)).
Proof.
  intros Hne Hm. unfold begin_death. destruct cm as [wm pm].
  destruct (co_workers c !! key) as [l|]; simpl; [|rewrite lookup_insert_ne by done; eauto].
  destruct (co_conns c !! l) as [[wl pl]|] eqn:Hl; simpl; [|rewrite lookup_insert_ne by done; eauto].
  destruct (wk_dead wl); simpl; rewrite lookup_insert_ne by done; [eauto|].
  destruct (decide (l = m)) as [->|].
  - rewrite lookup_insert_eq. simplify_eq. eauto.
  - rewrite lookup_insert_ne by done. eauto.
Qed.

(** A thread that is past its requests is moved by its own steps only. *)
Lemma other_exec_conn cfg ev c c' o n ws ph :
  coord_exec cfg ev c = Some (c', o) -> ev <> EvRun n ->
  co_conns c !! n = Some (mkConn ws ph) -> past_requests ph ->
  exists ws' ph', co_conns c' !! n = Some (mkConn ws' ph') /\
    (ph' = ph \/ exists key, ph = PhClosing key /\ ph' = PhClosed).
Proof.
  intros Hex Hev Hn Hph.
  assert (Hother : forall m ws' ph', m <> n ->
    exists ws1 ph1, <[m := mkConn ws' ph']> (co_conns c) !! n = Some (mkConn ws1 ph1) /\
      (ph1 = ph \/ exists key, ph = PhClosing key /\ ph1 = PhClosed)).
  { intros m ws' ph' Hne. rewrite lookup_insert_ne by done. eauto. }
  destruct ev as [| | |m| |m f|m|m|m f|m|m|m]; cbn [coord_exec] in Hex;
    try (repeat case_match; simplify_eq; by eauto).
  all: destruct (decide (m = n)) as [->|Hne];
    [rewrite ?Hn in Hex; destruct ph; simpl in Hph; try done; repeat case_match; simplify_eq;
       simpl; rewrite ?lookup_insert_eq; by eauto 10|].
  7: { clear Hother. destruct (exec_run_inv cfg m c c' o Hex) as
         (wm & phm & p & _ & _ & [(_ & _ & key & [[_ ->]|[_ ->]])|(p' & t & _ & ->)]); simpl;
       rewrite lookup_insert_ne by done; eauto. }
  all: repeat case_match; simplify_eq; simpl; try by apply Hother.
  match goal with |- context [begin_death cfg c m ?w ?k] =>
    destruct (begin_death_conn cfg c m w k n _ (not_eq_sym Hne) Hn) as [ws' Hws'] end.
  eauto.
Qed.

Lemma exec_to_fence cfg ev c c' o n todo :
  coord_exec cfg ev c = Some (c', o) -> to_fence cfg c n todo ->
  exists todo', to_fence cfg c' n todo' /\
    (todo' = todo \/ exists d, todo = d :: todo' /\ fenced (co_fabric c') d).
Proof.
  intros Hex (ws & ph & Hn & Hph).
  assert (epoch (co_fabric c') = epoch (co_fabric c)) as Hep.
  { destruct (exec_fenced _ _ _ _ _ id_default Hex) as [Ha _]. unfold authority in Ha. congruence. }
  assert (ev = EvRun n \/ ev <> EvRun n) as [->|Hev].
  { destruct ev as [| | | | | | | | | |m|]; auto. destruct (decide (m = n)); naive_solver. }
  - destruct (exec_run_inv cfg n c c' o Hex) as (ws' & ph' & p & Hrun & Hn' & Hstep). simplify_eq.
    destruct Hrun as [key [-> | ->]]; [done|].
    destruct Hstep as [(-> & _ & key' & [[? _]|[_ ->]])|(p' & t & Hp & ->)]; [done| |].
    + rewrite (fencing_left_done _ _ _ Hph). exists []. split; [|by left].
      eexists _, _. split; [apply lookup_insert_eq | done].
    + destruct (fencing_left_next cfg _ todo p (mkThread (co_fabric c) ws (co_running c)) p' t o Hph
        eq_refl Hp) as (todo' & Hl & Hd).
      exists todo'. split; [|done]. eexists _, _. split; [apply lookup_insert_eq|]. simpl in *.
      by rewrite Hep.
  - destruct (other_exec_conn cfg ev c c' o n ws ph Hex Hev Hn) as (ws' & ph' & Hn' & Hp); [by destruct ph|].
    exists todo. split; [|by left]. exists ws', ph'. split; [done|].
    destruct Hp as [->|(key & -> & ->)]; [|done]. by rewrite Hep.
Qed.

Lemma run_to_fence cfg evs c c' os n todo :
  coord_run cfg evs c = Some (c', os) -> to_fence cfg c n todo ->
  exists todo', to_fence cfg c' n todo' /\
    forall d, d ∈ todo -> d ∈ todo' \/
      exists evs1 evs2 c1 os1, evs = evs1 ++ evs2 /\ coord_run cfg evs1 c = Some (c1, os1) /\
        fenced (co_fabric c1) d /\ (fenced (co_fabric c') d \/ registered_in cfg evs2 c1 d).
Proof.
  revert c os todo. induction evs as [|ev evs IH]; intros c os todo Hrun Ht; simpl in Hrun.
  { simplify_eq. exists todo. split; [done|]. by left. }
  destruct (coord_exec cfg ev c) as [[c1 o]|] eqn:Hex; simpl in Hrun; [|done].
  destruct (coord_run cfg evs c1) as [[c2 os2]|] eqn:Hr; simpl in Hrun; [|done]. simplify_eq.
  destruct (exec_to_fence _ _ _ _ _ _ _ Hex Ht) as (todo1 & Ht1 & Hstep).
  destruct (IH c1 os2 todo1 Hr Ht1) as (todo2 & Ht2 & Hd). exists todo2. split; [done|].
  intros d Hin.
  assert (d ∈ todo1 \/ fenced (co_fabric c1) d) as [Hin1|Hf].
  { destruct Hstep as [->|(d' & -> & Hf)]; [by left|].
    apply elem_of_cons in Hin as [->|?]; [by right | by left]. }
  - destruct (Hd d Hin1) as [?|(evs1 & evs2 & c3 & os1 & -> & Hr1 & H)]; [by left|right].
    exists (ev :: evs1), evs2, c3, (option_list o ++ os1). split; [done|]. split; [|done].
    by apply (coord_run_cons _ _ _ _ c1).
  - right. exists [ev], evs, c1, (option_list o ++ []). split; [done|]. split; [|split; [done|]].
    + by apply (coord_run_cons _ _ _ _ c1).
    + by eapply run_fenced.
Qed.

(** The thread of a lost connection withdraws the evidence. *)
Definition fencing (c : Coordinator) (n : nat) : Prop :=
  exists ws key p, co_conns c !! n = Some (mkConn ws (PhFencing key p)).

Lemma death_any_run cfg c n ws key m wm pm evs c' os d :
  losing c n ws key m wm pm -> coord_run cfg (EvLost n :: evs) c = Some (c', os) ->
  ~ fencing c' n -> d ∈ wk_devices wm ->
  exists evs1 evs2 c1 os1, evs = evs1 ++ evs2 /\
    coord_run cfg (EvLost n :: evs1) c = Some (c1, os1) /\
    fenced (co_fabric c1) d /\ (fenced (co_fabric c') d \/ registered_in cfg evs2 c1 d).
Proof.
  intros Hl Hrun Hnot Hd. pose proof (begin_death_thread cfg _ _ _ _ _ _ _ Hl) as Hbegin.
  set (c0 := set_thread _ _ _ _) in Hbegin. cbn [coord_run] in Hrun. rewrite Hbegin in Hrun.
  cbn [mbind option_bind] in Hrun.
  destruct (coord_run cfg evs c0) as [[c2 os2]|] eqn:Hr; simpl in Hrun; [|done]. simplify_eq.
  destruct (run_to_fence cfg evs c0 c' _ n (wk_devices wm) Hr) as (todo & (own & ph & Hn & Hph) & Hall).
  { eexists _, _. split; [apply lookup_insert_eq | constructor]. }
  destruct (Hall d Hd) as [Hin|(evs1 & evs2 & c1 & os1 & Hevs & Hr1 & H)].
  - destruct ph as [|k|k|k p|k p|k|]; try done; [destruct Hnot; by eexists _, _, _ | |];
      subst; by apply elem_of_nil in Hin.
  - exists evs1, evs2, c1, os1. split; [done|]. split; [|done].
    exact (coord_run_cons _ _ _ _ _ None _ _ Hbegin Hr1).
Qed.

(** The evidence of the device is withdrawn, and nothing is placed on it. *)
Definition unusable (f : Fabric) (d : DeviceId) : Prop :=
  forall dev, st_devices (state_ f) !! d = Some dev ->
    ~ (dev_state dev = DeviceState_ONLINE /\ dev_evidence_current dev = true) /\
    forall req p r, ~ placement (state_ f) req p r dev.

Lemma fenced_unusable f d : fenced f d -> unusable f d.
Proof. intros Hf dev Hdev. split; [by apply Hf|]. intros req p r. by eapply fenced_no_placement. Qed.

(** C12. The death of a worker fences its evidence. Let a connection be lost whose boot
    identity still leads the table to its own state (if another connection announced the
    same identity since, see [duplicate_boot_misfences]), when its thread gets the lock of
    the table (it does: [lock_always_released]). Whatever all threads do from there, in
    whatever order, once its thread has gone through the devices: every device the worker
    had published has been taken out of use at some moment since the loss, and has stayed
    so to the end of the run, unless a thread registered it again. And the thread, left to
    run, ends after finitely many steps, and then: none of these devices can be used; the
    other devices, the pools, the regions, the reservations and the epoch are untouched;
    the lock is free again and the table no longer has the entry. *)
Theorem worker_death_fences cfg c n ws key :
  losing c n ws key n ws (PhReading key) ->
  (forall evs c' os d,
     coord_run cfg (EvLost n :: evs) c = Some (c', os) -> ~ fencing c' n -> d ∈ wk_devices ws ->
     exists evs1 evs2 c1 os1, evs = evs1 ++ evs2 /\
       coord_run cfg (EvLost n :: evs1) c = Some (c1, os1) /\ unusable (co_fabric c1) d /\
       (unusable (co_fabric c') d \/ registered_in cfg evs2 c1 d)) /\
  exists k c' os, coord_run cfg (death_events n k) c = Some (c', os) /\
    only_devices (wk_devices ws) (co_fabric c) (co_fabric c') /\
    (forall d, d ∈ wk_devices ws -> unusable (co_fabric c') d) /\
    co_workers c' !! key = None /\ co_mutex c' = None.
Proof.
  intros Hl. split.
  - intros evs c' os d Hrun Hnot Hd.
    destruct (death_any_run _ _ _ _ _ _ _ _ _ _ _ d Hl Hrun Hnot Hd)
      as (evs1 & evs2 & c1 & os1 & Hevs & Hrun1 & Hf & Hend).
    exists evs1, evs2, c1, os1. split_and!; [done..|by apply fenced_unusable|].
    destruct Hend; [left; by apply fenced_unusable | by right].
  - destruct (death_run cfg _ _ _ _ _ _ _ Hl) as (k & c' & os & Hrun & Ho & Hf & Hw & Hm & _ & _).
    exists k, c', os. split_and!; try done.
    + intros d Hd. by apply fenced_unusable, Hf.
    + rewrite Hw. apply lookup_delete_eq.
Qed.

(** C39. Two connections with one boot identity. The table keeps the last connection that
    announced it. If the earlier one, [n], is then lost, the devices of the other one, [m],
    are fenced although [m] is connected, and those of [n] alone are left as they were,
    online and current if they were so, with nobody behind them. The entry is gone
    afterwards and [m] counts as dead: in any later state without the entry, losing [m]
    changes nothing in the engine. *)
Theorem duplicate_boot_misfences cfg c n ws key m wm pm :
  losing c n ws key m wm pm -> m <> n ->
  exists k c' os, coord_run cfg (death_events n k) c = Some (c', os) /\
    (forall d, d ∈ wk_devices wm -> fenced (co_fabric c') d) /\
    (forall d, d ∈ wk_devices ws -> d ∉ wk_devices wm ->
       st_devices (state_ (co_fabric c')) !! d = st_devices (state_ (co_fabric c)) !! d) /\
    co_conns c' !! m = Some (mkConn (mark_dead wm) pm) /\ co_workers c' !! key = None /\
    (forall c2 w2 c3 o, co_conns c2 !! m = Some (mkConn w2 (PhReading key)) ->
       co_workers c2 !! key = None -> coord_exec cfg (EvLost m) c2 = Some (c3, o) ->
       co_fabric c3 = co_fabric c2 /\ co_conns c3 !! m = Some (mkConn w2 (PhClosing key))).
Proof.
  intros Hl Hne. destruct (death_run cfg _ _ _ _ _ _ _ Hl) as (k & c' & os & Hrun & Ho & Hf & Hw & _ & _ & Hm).
  exists k, c', os. split_and!; try done.
  - intros d _ Hd. by apply (od_devices _ _ _ Ho).
  - by apply Hm.
  - rewrite Hw. apply lookup_delete_eq.
  - intros c2 w2 c3 o H2 Hno. cbn [coord_exec]. rewrite H2. case_match; [|done].
    unfold begin_death. rewrite Hno. cbn. intros [= <- <-]. split; [done|]. simpl.
    apply lookup_insert_eq.
Qed.

(** ** Runs with a loss *)

Definition state_after (evs : list CoordEvent) : Coordinator :=
  match coord_run no_files evs (coord_init (fabric_init (mkGen 1) (mkGen 1))) with
  | Some (c, _) => c
  | None => coord_init (fabric_init (mkGen 1) (mkGen 1))
  end.

Definition one_device (boot : string) (d : string) : WorkerState :=
  mkWorker (mkId boot) [mkId d] [] false.

Lemma two_workers_losing :
  losing (state_after two_workers) 1 (one_device "w-1" "dev-1") "w-1" 1 (one_device "w-1" "dev-1")
    (PhReading "w-1").
Proof. split; vm_compute; reflexivity. Qed.

(** The first worker asks for the state while the devices of the other are withdrawn. *)
Definition asked_meanwhile : list CoordEvent :=
  EvRun 1 :: EvRun 1 :: EvRecv 0 (mkFrame FT_QUERY_STATE []) :: EvRun 0 :: EvRun 1 :: EvRun 0 :: [EvRun 1].

Lemma worker_death_fences_witness :
  (exists c' os, coord_run no_files (EvLost 1 :: asked_meanwhile) (state_after two_workers) =
      Some (c', os) /\
    exists evs1 evs2 c1 os1, asked_meanwhile = evs1 ++ evs2 /\
      coord_run no_files (EvLost 1 :: evs1) (state_after two_workers) = Some (c1, os1) /\
      unusable (co_fabric c1) (mkId "dev-1")) /\
  exists k c' os,
    coord_run no_files (death_events 1 k) (state_after two_workers) = Some (c', os) /\
    only_devices [mkId "dev-1"] (co_fabric (state_after two_workers)) (co_fabric c').
Proof.
  destruct (worker_death_fences no_files _ _ _ _ two_workers_losing)
    as (Hany & k & c' & os & H & Ho & _).
  split; [|exists k, c', os; exact (conj H Ho)].
  assert (exists ws ph os1, (prod_map (fun c => co_conns c !! 1%nat) id <$>
    coord_run no_files (EvLost 1 :: asked_meanwhile) (state_after two_workers)) =
      Some (Some (mkConn ws ph), os1) /\ match ph with PhFencing _ _ => false | _ => true end = true)
    as (ws & ph & os1 & Hc & Hph)
    by (eexists _, _, _; split; vm_compute; reflexivity).
  destruct (coord_run no_files (EvLost 1 :: asked_meanwhile) (state_after two_workers))
    as [[c1 os2]|] eqn:Hrun; [|discriminate Hc].
  exists c1, os2. split; [reflexivity|].
  destruct (Hany asked_meanwhile c1 os2 (mkId "dev-1") Hrun) as (e1 & e2 & c2 & o2 & He & Hr & Hu & _).
  - intros (ws' & key & p & Hn). simpl in Hc. rewrite Hn in Hc. injection Hc as <- <- <-. discriminate Hph.
  - constructor.
  - exists e1, e2, c2, o2. exact (conj He (conj Hr Hu)).
Defined.

(** Two workers started with the same boot identity, each with a device of its own. *)
Definition other_device : CxlDevice :=
  make_device (mkId "dev-2") (mkGen 1) (mkId "b") worker_host (16 * GiB) VolatilityKind_VOLATILE
    SharingMode_DEDICATED LocalityClass_SAME_HOST 180 32000 1 "fd-root-b".
Definition same_boot : list CoordEvent :=
  connect 0 "w" ++ connect 1 "w" ++
  [EvRecv 0 (device_frame (worker_device "w")); EvRecv 1 (device_frame other_device)] ++
  in_turns 6 ++ [EvLoop 0; EvLoop 1].

Lemma same_boot_losing :
  losing (state_after same_boot) 0 (one_device "w" "dev-1") "w" 1 (one_device "w" "dev-2")
    (PhReading "w").
Proof. split; vm_compute; reflexivity. Qed.

(** The first device is online and current before the loss of its worker, and after. *)
Lemma duplicate_boot_misfences_witness :
  exists k c' os,
    coord_run no_files (death_events 0 k) (state_after same_boot) = Some (c', os) /\
    fenced (co_fabric c') (mkId "dev-2") /\
    exists dev, st_devices (state_ (co_fabric c')) !! mkId "dev-1" = Some dev /\
      dev_state dev = DeviceState_ONLINE /\ dev_evidence_current dev = true.
Proof.
  destruct (duplicate_boot_misfences no_files _ _ _ _ _ _ _ same_boot_losing)
    as (k & c' & os & H & Hf & Hk & _); [discriminate|].
  exists k, c', os. split; [exact H|]. split; [apply Hf; constructor|].
  rewrite (Hk (mkId "dev-1")).
  - eexists. split; [vm_compute; reflexivity|]. split; reflexivity.
  - constructor.
  - intros Hin. apply list_elem_of_singleton in Hin. discriminate.
Defined.
