(* ===== verification/Locks.v ===== *)
(** * The lock of the worker table ([multiprocess/coordinator_main.cpp]: [workers_mu_])

    Threads take the lock to enter a worker in the table, to withdraw the evidence of a
    dead one and to erase an entry. The first and the last are one step; the middle one
    holds the lock over a loop of calls of the engine. Here: who holds the lock and for
    how long, what the table leads to, and that no thread waits for the lock forever. *)
From S2P Require Import Prelude.
From S2P Require Import Identity.
From S2P Require Import Records.
From S2P Require Import Fabric.
From S2P Require Import Protocol.
From S2P Require Import Codec.
From S2P Require Import Coordinator.
From S2P Require Import Worker.
From S2P Require Import Interleaving.
From S2P Require Import WorkerDeath.

(** A program whose calls can answer anything without leading it to a fault. *)
Fixpoint never_faults (p : Prog) : Prop :=
  match p with
  | PDone => True
  | PFault => False
  | PCall c k => forall x, never_faults (k x)
  | PSend _ k | PPushDevice _ k | PPushReservation _ k | PStop k | PPersist _ k
  | PStateFile _ k => never_faults k
  end.

Lemma never_faults_runs p t : never_faults p -> exists t' os, run_prog p t = Some (t', os).
Proof.
  revert t. induction p as [| |X c k IH|fr p IH|d p IH|r p IH|p IH|ps p IH|s p IH]; intros t Hp;
    simpl in *; try done; [by eexists _, _ | | | | | | |].
  { destruct (call_fabric c (th_fabric t)) as [x f']. apply IH, Hp. }
  all: match goal with |- exists _ _, prod_map _ _ <$> run_prog _ ?t = _ =>
         destruct (IH t Hp) as (t' & os & ->); by eexists _, _
       | |- exists _ _, run_prog _ ?t = _ => by apply IH end.
Qed.

Lemma prog_next_never_faults p t p' t' o :
  never_faults p -> prog_next p t = Some (p', t', o) -> never_faults p'.
Proof.
  intros Hp Hn. destruct p as [| |X c k|fr k|d k|r k|k|st k|text k]; simpl in *; simplify_eq; try done.
  destruct (call_fabric c (th_fabric t)). simplify_eq. apply Hp.
Qed.

Lemma never_faults_fence cfg devs : never_faults (fence_prog cfg devs).
Proof.
  intros ep pol. set (ctx := mkContext _ _ _ _). clearbody ctx.
  induction devs as [|d devs IH]; simpl; [|done]. unfold write_statefile.
  by repeat destruct (String.eqb _ _).
Qed.

Lemma prog_next_boot p t p' t' o :
  prog_next p t = Some (p', t', o) -> wk_boot (th_worker t') = wk_boot (th_worker t).
Proof.
  destruct p as [| |X c k|fr k|d k|r k|k|st k|text k]; simpl; intros; simplify_eq; try done.
  destruct (call_fabric c (th_fabric t)). by simplify_eq.
Qed.

(** ** The invariant *)

(** The table leads from an identity to a connection that announced it. *)
Definition entered (c : Coordinator) (key : string) (m : nat) : Prop :=
  exists cn, co_conns c !! m = Some cn /\ wk_boot (cn_worker cn) = mkId key /\ cn_phase cn <> PhBoot.

Record lock_inv (c : Coordinator) : Prop := {
  li_holder : forall n, co_mutex c = Some n <-> fencing c n;
  li_fence : forall n ws key p, co_conns c !! n = Some (mkConn ws (PhFencing key p)) -> never_faults p;
  li_table : forall key m, co_workers c !! key = Some m -> entered c key m;
}.

Lemma lock_inv_init f : lock_inv (coord_init f).
Proof.
  split; unfold fencing; simpl.
  - intros n. split; [done|]. intros (ws & key & p & H). by rewrite lookup_empty in H.
  - intros n ws key p H. by rewrite lookup_empty in H.
  - intros key m H. by rewrite lookup_empty in H.
Qed.

Definition is_fencing (ph : ConnPhase) : bool := match ph with PhFencing _ _ => true | _ => false end.

Lemma lock_inv_same c c' :
  lock_inv c -> co_conns c' = co_conns c -> co_mutex c' = co_mutex c ->
  co_workers c' = co_workers c -> lock_inv c'.
Proof.
  intros [Hh Hf Ht] Hc Hm Hw. split; unfold fencing, entered in *.
  - intros n. by rewrite Hm, Hc.
  - intros n. rewrite Hc. apply Hf.
  - intros key m. rewrite Hw, Hc. apply Ht.
Qed.

(** What a step of a connection does, given who holds the lock after it. *)
Lemma lock_inv_conn c c' n cn ws ph :
  lock_inv c -> co_conns c !! n = Some cn -> co_conns c' = <[n := mkConn ws ph]> (co_conns c) ->
  (forall m, co_mutex c' = Some m <-> if decide (n = m) then is_fencing ph = true else co_mutex c = Some m) ->
  co_workers c' = co_workers c -> wk_boot ws = wk_boot (cn_worker cn) ->
  (cn_phase cn <> PhBoot -> ph <> PhBoot) ->
  (forall key p, ph = PhFencing key p -> never_faults p) -> lock_inv c'.
Proof.
  intros [Hh Hf Ht] Hn Hc Hm Hw Hb Hp Hnf. split.
  - intros m. rewrite Hm. unfold fencing. rewrite Hc. destruct (decide (n = m)) as [<-|].
    + rewrite lookup_insert_eq. split.
      * destruct ph; try done. intros _. by eexists _, _, _.
      * by intros (? & ? & ? & [= -> ->]).
    + rewrite lookup_insert_ne by done. apply Hh.
  - intros m ws' key p. rewrite Hc. intros [[<- [= <- ->]]|[_ H]]%lookup_insert_Some; eauto.
  - intros key m. unfold entered. rewrite Hw, Hc. intros (cm & Hcm & Hbm & Hpm)%Ht.
    destruct (decide (n = m)) as [<-|].
    + rewrite lookup_insert_eq. simplify_eq. eexists. split; [done|]. simpl. split; [congruence | auto].
    + rewrite lookup_insert_ne by done. eauto.
Qed.

(** A step that keeps the lock where it is. *)
Lemma lock_inv_step c c' n cn ws ph :
  lock_inv c -> co_conns c !! n = Some cn -> co_conns c' = <[n := mkConn ws ph]> (co_conns c) ->
  co_mutex c' = co_mutex c -> co_workers c' = co_workers c -> wk_boot ws = wk_boot (cn_worker cn) ->
  (cn_phase cn <> PhBoot -> ph <> PhBoot) -> is_fencing ph = is_fencing (cn_phase cn) ->
  (forall key p, ph = PhFencing key p -> never_faults p) -> lock_inv c'.
Proof.
  intros Hinv Hn Hc Hm Hw Hb Hpb Hp Hnf. eapply lock_inv_conn; try done. intros m. rewrite Hm, Hp.
  destruct (decide (n = m)) as [<-|]; [|done]. rewrite (li_holder _ Hinv). unfold fencing.
  rewrite Hn. destruct cn as [ws0 ph0]. simpl. split.
  - by intros (? & ? & ? & [= -> ->]).
  - destruct ph0; try done. by eexists _, _, _.
Qed.

Lemma lock_inv_accept c n a :
  lock_inv c -> co_conns c !! n = None ->
  lock_inv (set_accept (set_conn c n worker_default PhBoot) a).
Proof.
  intros [Hh Hf Ht] Hn. split; unfold fencing, entered in *; simpl.
  - intros m. rewrite Hh. destruct (decide (n = m)) as [<-|].
    + rewrite lookup_insert_eq, Hn. split; [by intros (? & ? & ? & ?) | by intros (? & ? & ? & [=])].
    + by rewrite lookup_insert_ne.
  - intros m ws' key p [[<- [=]]|[_ H]]%lookup_insert_Some; eauto.
  - intros key m (cm & Hcm & Hbm)%Ht. exists cm. split; [|done]. rewrite lookup_insert_ne; [done|].
    congruence.
Qed.

(** The first frame: the identity is announced and entered in the table. *)
Lemma lock_inv_boot c n ws key :
  lock_inv c -> co_conns c !! n = Some (mkConn ws PhBoot) ->
  lock_inv (set_workers (set_conn c n (set_boot ws (mkId key)) (PhServing key))
              (<[key := n]> (co_workers c))).
Proof.
  intros [Hh Hf Ht] Hn. split; unfold fencing, entered in *; simpl.
  - intros m. rewrite Hh. destruct (decide (n = m)) as [<-|].
    + rewrite lookup_insert_eq, Hn. split; by intros (? & ? & ? & [=]).
    + by rewrite lookup_insert_ne.
  - intros m ws' key' p [[<- [=]]|[_ H]]%lookup_insert_Some; eauto.
  - intros key' m [[<- <-]|[_ Hm]]%lookup_insert_Some.
    + rewrite lookup_insert_eq. by eexists.
    + destruct (Ht key' m Hm) as (cm & Hcm & Hbm & Hpm). exists cm. split; [|done].
      rewrite lookup_insert_ne; [done|]. intros ->. simplify_eq.
Qed.

Lemma lock_inv_erase c key : lock_inv c -> lock_inv (set_workers c (delete key (co_workers c))).
Proof.
  intros [Hh Hf Ht]. split; [done..|]. simpl. intros key' m [_ Hm]%lookup_delete_Some. by apply Ht.
Qed.

Lemma lock_inv_begin_death cfg c n ws key :
  lock_inv c -> co_conns c !! n = Some (mkConn ws (PhReading key)) -> co_mutex c = None ->
  lock_inv (begin_death cfg c n ws key).
Proof.
  intros Hinv Hn Hm. unfold begin_death.
  assert (lock_inv (set_conn c n ws (PhClosing key))) as Hclose by by eapply lock_inv_step.
  destruct (co_workers c !! key) as [m|]; simpl; [|done].
  destruct (co_conns c !! m) as [[wm pm]|] eqn:Hcm; simpl; [|done].
  destruct (wk_dead wm); [done|].
  set (c1 := set_conn c m (mark_dead wm) pm).
  assert (lock_inv c1) as Hinv1.
  { eapply (lock_inv_step c c1 m _ (mark_dead wm) pm); try done. intros key' p ->.
    by eapply (li_fence c Hinv). }
  assert (exists cn, co_conns c1 !! n = Some cn /\ wk_boot (cn_worker cn) = wk_boot ws)
    as (cn & Hcn & Hb).
  { unfold c1. simpl. destruct (decide (m = n)) as [->|].
    - rewrite lookup_insert_eq. simplify_eq. by eexists.
    - rewrite lookup_insert_ne by done. by eexists. }
  eapply (lock_inv_conn c1); [done | exact Hcn | done | | done | | done |].
  - intros m'. simpl. rewrite Hm. destruct (decide (n = m')); simplify_eq; naive_solver.
  - case_bool_decide; by rewrite Hb.
  - intros key' p [= <- <-]. apply never_faults_fence.
Qed.

Lemma coord_exec_lock cfg ev c c' o : lock_inv c -> coord_exec cfg ev c = Some (c', o) -> lock_inv c'.
Proof.
  intros Hinv Hex.
  destruct ev as [| | |n| |n f|n|n|n f|n|n|n]; cbn [coord_exec] in Hex.
  1-3,5: by repeat case_match; simplify_eq; eapply lock_inv_same.
  all: destruct (co_conns c !! n) as [[ws ph]|] eqn:Hn; try done.
  { by destruct (co_accept c). }
  { destruct (co_accept c); simplify_eq. by apply lock_inv_accept. }
  all: destruct ph as [|key|key|key p|key p|key|]; try done; unfold unlocked in Hex;
    try case_bool_decide; simplify_eq; try (by eapply lock_inv_step).
  - case_bool_decide; simplify_eq. by apply lock_inv_boot.
  - destruct (co_running c); by eapply lock_inv_step.
  - by apply lock_inv_begin_death.
  - (* a step of a request *)
    assert (p = PDone \/ exists p' t, prog_next p (mkThread (co_fabric c) ws (co_running c)) =
              Some (p', t, o) /\ c' = set_thread c n t (PhBusy key p')) as [->|(p' & t & Hp & ->)].
    { destruct p; auto; right; destruct (prog_next _ _) as [[[p' t] o']|]; simplify_eq; eauto. }
    + simplify_eq. by eapply lock_inv_step.
    + eapply lock_inv_step; try done. by apply prog_next_boot in Hp.
  - (* a step with the lock held *)
    assert (p = PDone \/ exists p' t, prog_next p (mkThread (co_fabric c) ws (co_running c)) =
              Some (p', t, o) /\ c' = set_thread c n t (PhFencing key p')) as [->|(p' & t & Hp & ->)].
    { destruct p; auto; right; destruct (prog_next _ _) as [[[p' t] o']|]; simplify_eq; eauto. }
    + simplify_eq. eapply (lock_inv_conn c); [done | exact Hn | done | | done..].
      assert (co_mutex c = Some n) as Hm by (apply (li_holder c Hinv); by eexists _, _, _).
      intros m. simpl. rewrite Hm. destruct (decide (n = m)); naive_solver.
    + eapply lock_inv_step; try done.
      * by apply prog_next_boot in Hp.
      * intros key' q [= <- <-]. eapply prog_next_never_faults; [|exact Hp].
        by eapply (li_fence c Hinv).
  - (* the entry is erased *)
    apply (lock_inv_erase (set_conn c n ws PhClosed)). by eapply lock_inv_step.
Qed.

Lemma coord_run_lock cfg evs c c' os : lock_inv c -> coord_run cfg evs c = Some (c', os) -> lock_inv c'.
Proof.
  revert c os. induction evs as [|ev evs IH]; intros c os Hinv Hrun; simpl in *; [by simplify_eq|].
  destruct (coord_exec cfg ev c) as [[c1 o]|] eqn:Hex; simpl in Hrun; [|done].
  destruct (coord_run cfg evs c1) as [[c2 os2]|] eqn:Hr; simpl in Hrun; [|done]. simplify_eq.
  eapply IH; [|exact Hr]. by eapply coord_exec_lock.
Qed.

(** ** The lock comes back *)

Lemma exec_release cfg c n t key :
  coord_run cfg [EvRun n] (set_thread c n t (PhFencing key PDone)) =
    Some (set_mutex (set_conn (set_thread c n t (PhFencing key PDone)) n (th_worker t) (PhClosing key)) None, []).
Proof.
  destruct t as [f ws run]. cbn [coord_run coord_exec set_thread co_conns th_worker].
  by rewrite lookup_insert_eq.
Qed.

(** The holder, left to run, gives the lock back after finitely many steps, and does
    nothing to the other connections. *)
Lemma holder_releases cfg c n :
  lock_inv c -> co_mutex c = Some n ->
  exists k c' os, coord_run cfg (replicate k (EvRun n)) c = Some (c', os) /\ co_mutex c' = None /\
    co_workers c' = co_workers c /\ forall m, m <> n -> co_conns c' !! m = co_conns c !! m.
Proof.
  intros Hinv Hm. apply (li_holder c Hinv) in Hm as (ws & key & p & Hn).
  pose proof (li_fence c Hinv n ws key p Hn) as Hp. set (t := mkThread (co_fabric c) ws (co_running c)).
  destruct (never_faults_runs p t Hp) as (t' & os & Hrun).
  destruct (run_uninterrupted cfg c n (PhFencing key) p t t' os) as [k Hk]; [by exists key; right | done |].
  assert (set_thread c n t (PhFencing key p) = c) as Hc.
  { destruct c as [f r w cs mu ac ma]. unfold set_thread, t. simpl in *. by rewrite insert_id. }
  rewrite Hc in Hk. pose proof (exec_release cfg c n t' key) as Hend.
  exists (k + 1)%nat, (set_mutex (set_conn (set_thread c n t' (PhFencing key PDone)) n (th_worker t')
    (PhClosing key)) None), (os ++ []).
  split; [rewrite replicate_add; by eapply coord_run_app|]. split_and!; try done.
  intros m Hne. simpl. by rewrite !lookup_insert_ne.
Qed.

(** The next step of the thread of a connection takes the lock. *)
Definition wants_lock (c : Coordinator) (ev : CoordEvent) : Prop :=
  match ev with
  | EvBoot n f => (exists ws, co_conns c !! n = Some (mkConn ws PhBoot)) /\ fr_type f = FT_WORKER_BOOT
  | EvLost n => exists ws key, co_conns c !! n = Some (mkConn ws (PhReading key))
  | EvClose n => exists ws key, co_conns c !! n = Some (mkConn ws (PhClosing key))
  | _ => False
  end.

Lemma wants_lock_gets cfg c ev :
  wants_lock c ev -> co_mutex c = None -> is_Some (coord_exec cfg ev c).
Proof.
  intros Hw Hm. destruct ev as [| | |n| |n f|n|n|n f|n|n|n]; try done; cbn [coord_exec]; unfold unlocked.
  - destruct Hw as [[ws ->] Ht]. by rewrite !bool_decide_true.
  - destruct Hw as (ws & key & ->). by rewrite bool_decide_true.
  - destruct Hw as (ws & key & ->). by rewrite bool_decide_true.
Qed.

Lemma wants_lock_same c c' ev n :
  (forall m, m <> n -> co_conns c' !! m = co_conns c !! m) -> fencing c n ->
  wants_lock c ev -> wants_lock c' ev.
Proof.
  intros Hc (ws & key & p & Hn).
  assert (forall m, (forall ws' key' p', co_conns c !! m <> Some (mkConn ws' (PhFencing key' p'))) ->
            co_conns c' !! m = co_conns c !! m) as Hsame by (intros m H; apply Hc; naive_solver).
  destruct ev as [| | |m| |m f|m|m|m f|m|m|m]; simpl; try done.
  - intros [[ws' H] Ht]. split; [|done]. exists ws'. rewrite Hsame by congruence. done.
  - intros (ws' & key' & H). exists ws', key'. rewrite Hsame by congruence. done.
  - intros (ws' & key' & H). exists ws', key'. rewrite Hsame by congruence. done.
Qed.

(** C13. The lock of the worker table is always given back. In every state a run of the
    coordinator can reach, the lock is held exactly by the one thread that is withdrawing
    the evidence of a dead worker, if there is one; every entry of the table leads to a
    connection that announced the entry's identity. No thread waits for the lock forever:
    whichever thread's next step needs it, the holder, left to run, releases it after
    finitely many steps that touch neither the table nor another connection, whatever the
    engine answers, and then the step can be made. *)
Theorem lock_always_released cfg f evs c outs :
  coord_run cfg evs (coord_init f) = Some (c, outs) ->
  (forall n, co_mutex c = Some n <-> fencing c n) /\
  (forall key m, co_workers c !! key = Some m -> entered c key m) /\
  forall ev, wants_lock c ev ->
    exists n k c' os, coord_run cfg (replicate k (EvRun n)) c = Some (c', os) /\
      co_workers c' = co_workers c /\ (forall m, m <> n -> co_conns c' !! m = co_conns c !! m) /\
      is_Some (coord_exec cfg ev c').
Proof.
  intros Hrun. pose proof (coord_run_lock cfg evs _ c outs (lock_inv_init f) Hrun) as Hinv.
  split_and!; [apply Hinv..|]. intros ev Hw. destruct (co_mutex c) as [n|] eqn:Hm.
  - destruct (holder_releases cfg c n Hinv Hm) as (k & c' & os & Hk & Hm' & Hwk & Hc).
    exists n, k, c', os. split_and!; try done. apply wants_lock_gets; [|done].
    eapply wants_lock_same; [done | by apply Hinv | done].
  - exists O, O, c, []. split_and!; try done. by apply wants_lock_gets.
Qed.

(** One of two connections with one identity is lost, and, with the lock held, the other. *)
Definition both_lost : list CoordEvent := same_boot ++ [EvLost 0].

Lemma lock_always_released_witness :
  co_mutex (state_after both_lost) = Some 0%nat /\
  coord_exec no_files (EvLost 1) (state_after both_lost) = None /\
  exists n k c' os,
    coord_run no_files (replicate k (EvRun n)) (state_after both_lost) = Some (c', os) /\
    is_Some (coord_exec no_files (EvLost 1) c').
Proof.
  assert (bool_decide (is_Some (coord_run no_files both_lost
            (coord_init (fabric_init (mkGen 1) (mkGen 1))))) = true) as Hrun by (vm_compute; reflexivity).
  split; [vm_compute; reflexivity|]. split; [vm_compute; reflexivity|].
  apply bool_decide_eq_true in Hrun as [[c outs] Hrun].
  assert (state_after both_lost = c) as -> by (unfold state_after; rewrite Hrun; reflexivity).
  destruct (lock_always_released no_files _ _ _ _ Hrun) as (_ & _ & Hlive).
  destruct (Hlive (EvLost 1)) as (n & k & c' & os & Hk & _ & _ & Hs).
  - assert (c = state_after both_lost) as -> by (unfold state_after; rewrite Hrun; reflexivity).
    eexists _, _. vm_compute. reflexivity.
  - exists n, k, c', os. exact (conj Hk Hs).
Defined.
