(* ===== verification/Process.v ===== *)
(** * The coordinator process and its files ([multiprocess/coordinator_main.cpp])

    The threads of [Coordinator], together with the calls that put the state on disk:
    [persist_now], in the thread that handled a request or in the main thread at the end,
    and [write_statefile]. Neither takes a lock, so that the system calls of one thread's
    save interleave with everything else, the saves of other threads included. A run is a
    list of events, one system call or one step of a thread each; a crash is the end of
    the list, at any point. [main] is what comes before: the command line, the
    constructor, which boots from the snapshot, and the listening socket. *)
From S2P Require Import Prelude.
From S2P Require Import Identity.
From S2P Require Import Records.
From S2P Require Import Fabric.
From S2P Require Import Crc.
From S2P Require Import Protocol.
From S2P Require Import Readers.
From S2P Require Import Codec.
From S2P Require Import Persistence.
From S2P Require Import Storage.
From S2P Require Import Recovery.
From S2P Require Import Args.
From S2P Require Import Coordinator.

(** ** One system call *)

(** What a thread that writes a file does next, and how it goes: the file is opened or
    not, some more bytes reach it, the stream fails, is closed, the file is renamed or
    not. *)
Inductive IoChoice : Set :=
  | IoOpen
  | IoNoOpen
  | IoWrite (m : nat)
  | IoFail
  | IoClose
  | IoRename
  | IoNoRename.

(** One step of [write_persisted]. *)
Definition write_exec (path : string) (payload : bytes) (ch : IoChoice)
    (s : WritePhase * FileSystem) : option (WritePhase * FileSystem) :=
  let '(ph, fs) := s in
  let file := persist_file payload in
  match ph, ch with
  | WStart, IoOpen =>
      if bool_decide (bsize payload > kMaxPersistPayload)
      then Some (WDone (WrErr "payload too large"), fs)
      else let '(i, fs') := fs_open_trunc fs (tmp_of path) in Some (WWriting i 0, fs')
  | WStart, IoNoOpen =>
      if bool_decide (bsize payload > kMaxPersistPayload)
      then Some (WDone (WrErr "payload too large"), fs)
      else Some (WDone (WrErr "cannot open temp"), fs)
  | WWriting i n, IoWrite m =>
      if bool_decide (n + m <= length file)%nat
      then Some (WWriting i (n + m), fs_write fs i n (take m (drop n file))) else None
  | WWriting i n, IoFail => Some (WDone (WrErr "flush failed"), fs)
  | WWriting i n, IoClose => if bool_decide (n = length file) then Some (WClosed, fs) else None
  | WClosed, IoRename =>
      match fs_rename fs (tmp_of path) path with
      | Some fs' => Some (WDone WrOk, fs')
      | None => Some (WDone WrThrow, fs)
      end
  | WClosed, IoNoRename => Some (WDone WrThrow, fs)
  | _, _ => None
  end.

(** [write_statefile], whose errors nobody looks at. The source takes the text from the
    engine once the file is open; here it has been taken just before. *)
Inductive TextPhase : Set :=
  | XStart
  | XWriting (i n : nat).

(** One step; [None] in the phase when the call is over. *)
Definition text_exec (path : string) (text : bytes) (ch : IoChoice) (ph : TextPhase)
    (fs : FileSystem) : option (option TextPhase * FileSystem) :=
  match ph, ch with
  | XStart, IoOpen => let '(i, fs') := fs_open_trunc fs path in Some (Some (XWriting i 0), fs')
  | XStart, IoNoOpen => Some (None, fs)
  | XWriting i n, IoWrite m =>
      if bool_decide (n + m <= length text)%nat
      then Some (Some (XWriting i (n + m)), fs_write fs i n (take m (drop n text))) else None
  | XWriting i n, IoFail => Some (None, fs)
  | XWriting i n, IoClose => if bool_decide (n = length text) then Some (None, fs) else None
  | _, _ => None
  end.

(** ** The process *)

(** What a thread is in the middle of: [persist_now], with its state and payload, or
    [write_statefile]. *)
Inductive Task : Set :=
  | TSave (st : PersistedState) (payload : bytes) (ph : WritePhase)
  | TText (text : bytes) (ph : TextPhase).

(** Running, ended with the code 0 of [main], or ended by an exception nobody catches. *)
Inductive ProcStatus : Set := PsRunning | PsReturned | PsAborted.

Record System : Type := mkSystem {
  sy_coord : Coordinator;
  sy_tasks : gmap (option nat) Task;   (** by thread; [None] is the main thread *)
  sy_fs : FileSystem;
  sy_status : ProcStatus;
}.

Definition system_start (f : Fabric) (fs : FileSystem) : System :=
  mkSystem (coord_init f) ∅ fs PsRunning.

(** The thread of an event, among those that write files. *)
Definition event_thread (ev : CoordEvent) : option (option nat) :=
  match ev with
  | EvSignal | EvAcceptTest | EvAccept _ | EvAcceptFail => None
  | EvMain => Some None
  | EvBoot n _ | EvNoBoot n | EvLoop n | EvRecv n _ | EvLost n | EvRun n | EvClose n =>
      Some (Some n)
  end.

(** What an output of a thread makes it do next. *)
Definition begin_task (o : option Output) : option Task :=
  match o with
  | Some (OPersist st) =>
      match serialize_state st with
      | inr payload => Some (TSave st payload WStart)
      | inl _ => None
      end
  | Some (OStateFile text) => Some (TText (string_bytes text) XStart)
  | Some (OSend _) | None => None
  end.

(** The process ends with its main thread, whatever the others are doing. *)
Definition status_of (c : Coordinator) (tasks : gmap (option nat) Task) : ProcStatus :=
  if negb (co_main c) && bool_decide (tasks !! None = None) then PsReturned else PsRunning.

Inductive SysEvent : Set :=
  | SvThread (ev : CoordEvent)                     (** a step of a thread *)
  | SvIo (th : option nat) (ch : IoChoice).        (** a system call of a save *)

(** A thread's step, unless it is in the middle of writing a file. *)
Definition thread_exec (cfg : CoordConfig) (ev : CoordEvent) (s : System) : option System :=
  let go th :=
    '(c', o) ← coord_exec cfg ev (sy_coord s);
    let tasks := match begin_task o with
                 | Some t => <[th := t]> (sy_tasks s)
                 | None => sy_tasks s
                 end in
    Some (mkSystem c' tasks (sy_fs s) (status_of c' tasks)) in
  match event_thread ev with
  | Some th => if bool_decide (sy_tasks s !! th = None) then go th else None
  | None =>
      '(c', _) ← coord_exec cfg ev (sy_coord s);
      Some (mkSystem c' (sy_tasks s) (sy_fs s) (status_of c' (sy_tasks s)))
  end.

(** The thread [th] leaves its task, or goes on with it. *)
Definition end_task (s : System) (th : option nat) (fs : FileSystem) : System :=
  mkSystem (sy_coord s) (delete th (sy_tasks s)) fs
    (status_of (sy_coord s) (delete th (sy_tasks s))).
Definition keep_task (s : System) (th : option nat) (t : Task) (fs : FileSystem) : System :=
  mkSystem (sy_coord s) (<[th := t]> (sy_tasks s)) fs (sy_status s).

(** A system call of a thread, with the state it announces as persisted. *)
Definition io_exec (cfg : CoordConfig) (th : option nat) (ch : IoChoice) (s : System)
    : option (System * option PersistedState) :=
  match sy_tasks s !! th with
  | Some (TSave st payload ph) =>
      '(ph', fs') ← write_exec (cfg_persist cfg) payload ch (ph, sy_fs s);
      Some match ph' with
           | WDone WrOk => (end_task s th fs', Some st)
           | WDone (WrErr _) => (end_task s th fs', None)
           | WDone WrThrow => (mkSystem (sy_coord s) (sy_tasks s) fs' PsAborted, None)
           | _ => (keep_task s th (TSave st payload ph') fs', None)
           end
  | Some (TText text ph) =>
      '(ph', fs') ← text_exec (cfg_statefile cfg) text ch ph (sy_fs s);
      Some match ph' with
           | None => (end_task s th fs', None)
           | Some ph' => (keep_task s th (TText text ph') fs', None)
           end
  | None => None
  end.

Definition sys_exec (cfg : CoordConfig) (e : SysEvent) (s : System)
    : option (System * option PersistedState) :=
  match sy_status s with
  | PsRunning =>
      match e with
      | SvThread ev => s' ← thread_exec cfg ev s; Some (s', None)
      | SvIo th ch => io_exec cfg th ch s
      end
  | _ => None
  end.

(** A run, with the states whose saves were announced ([[coordinator] persisted]), in
    order. *)
Fixpoint sys_run (cfg : CoordConfig) (evs : list SysEvent) (s : System)
    : option (System * list PersistedState) :=
  match evs with
  | [] => Some (s, [])
  | e :: evs' =>
      '(s1, o) ← sys_exec cfg e s;
      '(s2, os) ← sys_run cfg evs' s1;
      Some (s2, option_list o ++ os)
  end.

(** At most one thread is inside [persist_now]. *)
Definition saving (t : Task) : bool := match t with TSave _ _ _ => true | TText _ _ => false end.
Definition solo (s : System) : bool :=
  bool_decide (size (filter (fun kt => saving kt.2 = true) (sy_tasks s)) <= 1)%nat.

(** It is so at every point of a run. *)
Fixpoint solo_run (cfg : CoordConfig) (evs : list SysEvent) (s : System) : bool :=
  solo s &&
  match evs with
  | [] => true
  | e :: evs' => match sys_exec cfg e s with Some (s1, _) => solo_run cfg evs' s1 | None => false end
  end.

(** ** [main] *)

(** A whole call of [write_statefile]. *)
Definition write_text (io : IoOutcome) (path text : string) (fs : FileSystem) : FileSystem :=
  if negb (io_open io) then fs else
  let '(i, fs1) := fs_open_trunc fs path in
  let file := string_bytes text in
  fs_write fs1 i 0 (match io_short io with Some n => take n file | None => file end).

Inductive MainStart : Type :=
  | MThrows                                (** a number does not convert *)
  | MFault                                 (** a read outside the snapshot *)
  | MExit (code : Z) (fs : FileSystem)     (** [start] failed *)
  | MServes (cfg : CoordConfig) (s : System).

(** [main] up to the loop of [run]; [listens] is the answer of [listen_on]. *)
Definition coordinator_main (argv : list string) (listens : bool) (io : IoOutcome)
    (fs : FileSystem) : MainStart :=
  match coord_args argv with
  | None => MThrows
  | Some a =>
      match coordinator_boot (ca_epoch a) (ca_persist a) fs with
      | None => MFault
      | Some f =>
          let fs1 := if String.eqb (ca_statefile a) "" then fs
                     else write_text io (ca_statefile a) (fabric_state_text (snapshot f)) fs in
          if listens then MServes (mkConfig (ca_persist a) (ca_statefile a)) (system_start f fs1)
          else MExit 2 fs1
      end
  end.
