(* ===== verification/Durability.v ===== *)
(** * The files of the coordinator under every interleaving

    As long as the saves of two threads do not overlap, the snapshot is at every moment the
    last state announced as persisted, the engine's guarantees hold throughout, and what
    is saved was exported from such an engine. The lemmas of this file follow the files,
    then the engine, over a run; what they come to is in [Crash]. *)
From S2P Require Import Prelude.
From S2P Require Import Identity.
From S2P Require Import Enums.
From S2P Require Import Records.
From S2P Require Import Selection.
From S2P Require Import Fabric.
From S2P Require Import Synthetic.
From S2P Require Import Ledger.
From S2P Require Import LedgerRefinement.
From S2P Require Import Invariants.
From S2P Require Import CapacitySafety.
From S2P Require Import Crc.
From S2P Require Import Protocol.
From S2P Require Import Readers.
From S2P Require Import Codec.
From S2P Require Import Persistence.
From S2P Require Import Storage.
From S2P Require Import Recovery.
From S2P Require Import Args.
From S2P Require Import Coordinator.
From S2P Require Import Worker.
From S2P Require Import Interleaving.
From S2P Require Import Process.

(** ** What a system call leaves alone *)

(** The files of other names than these are what they were. *)
Definition untouched (names : list string) (fs fs' : FileSystem) : Prop :=
  forall q, q ∉ names -> fs_names fs' !! q = fs_names fs !! q /\ fs_read fs' q = fs_read fs q.

Lemma untouched_refl names fs : untouched names fs fs.
Proof. by intros q _. Qed.
#[export] Hint Resolve untouched_refl : core.

Lemma untouched_weaken names names' fs fs' :
  names ⊆ names' -> untouched names fs fs' -> untouched names' fs fs'.
Proof. intros Hsub H q Hq. apply H. set_solver. Qed.

Lemma open_untouched fs path i fs' :
  fs_ok fs -> fs_open_trunc fs path = (i, fs') ->
  untouched [path] fs fs' /\ fs_names fs' !! path = Some i /\ fs_read fs' path = Some [].
Proof.
  intros Hok Ho. destruct (open_holding fs path i fs' Hok Ho) as [Hn Hd _ Hr]. split_and!.
  - intros q Hq. assert (q <> path) as Hne by set_solver. split; [|by apply Hr].
    unfold fs_open_trunc in Ho. destruct (fs_names fs !! path); simplify_eq; [done|].
    simpl. by rewrite lookup_insert_ne.
  - done.
  - unfold fs_read. by rewrite Hn.
Qed.

Lemma write_untouched fs path i off chunk :
  fs_ok fs -> fs_names fs !! path = Some i -> untouched [path] fs (fs_write fs i off chunk).
Proof.
  intros [Hinj _] Hn q Hq. assert (q <> path) as Hne by set_solver. split; [done|].
  unfold fs_read. simpl. destruct (fs_names fs !! q) as [j|] eqn:Hj; [|done]. simpl.
  rewrite lookup_alter_ne; [done|]. intros ->. apply Hne. by eapply Hinj.
Qed.

Lemma write_read fs path i off chunk content :
  fs_names fs !! path = Some i -> fs_read fs path = Some content ->
  fs_read (fs_write fs i off chunk) path = Some (write_at off chunk content).
Proof.
  unfold fs_read. simpl. intros ->. simpl. intros Hc. by rewrite lookup_alter_eq, Hc.
Qed.

Lemma rename_untouched fs a b fs' :
  a <> b -> fs_rename fs a b = Some fs' -> untouched [a; b] fs fs' /\ fs_read fs' b = fs_read fs a.
Proof.
  intros Hne. unfold fs_rename. destruct (fs_names fs !! a) as [i|] eqn:Ha; [|done]. simpl.
  intros [= <-]. split.
  - intros q Hq. assert (q <> a /\ q <> b) as [? ?] by set_solver. unfold fs_read. simpl.
    by rewrite lookup_insert_ne, lookup_delete_ne by done.
  - unfold fs_read. simpl. by rewrite lookup_insert_eq, Ha.
Qed.

(** ** [write_exec] is [write_step] *)

Lemma write_exec_step path payload s s' :
  write_step path payload s s' <-> exists ch, write_exec path payload ch s = Some s'.
Proof.
  split.
  - intros Hstep. destruct Hstep as [fs H|fs H|fs i fs' H Ho|fs i n m H|fs i n|fs i|fs fs' H|fs].
    + exists IoOpen. simpl. by rewrite bool_decide_true.
    + exists IoNoOpen. simpl. by rewrite bool_decide_false by lia.
    + exists IoOpen. simpl. rewrite bool_decide_false by lia. by rewrite Ho.
    + exists (IoWrite m). simpl. by rewrite bool_decide_true.
    + by exists IoFail.
    + exists IoClose. simpl. by rewrite bool_decide_true.
    + exists IoRename. simpl. by rewrite H.
    + by exists IoNoRename.
  - destruct s as [ph fs]. intros [ch H]. destruct ph, ch; simpl in H; try done.
    + case_bool_decide; [simplify_eq; by constructor|].
      destruct (fs_open_trunc _ _) eqn:Ho. simplify_eq. constructor; [lia|done].
    + case_bool_decide; simplify_eq; constructor; lia.
    + case_bool_decide; simplify_eq. by constructor.
    + simplify_eq. constructor.
    + case_bool_decide; simplify_eq. constructor.
    + destruct (fs_rename _ _ _) eqn:Hr; simplify_eq; by constructor.
    + simplify_eq. constructor.
Qed.

(** A step of a thread touches no file, and begins at most one task. *)
Lemma thread_exec_inv cfg ev s s' :
  thread_exec cfg ev s = Some s' ->
  exists c' o, coord_exec cfg ev (sy_coord s) = Some (c', o) /\ sy_coord s' = c' /\
    sy_fs s' = sy_fs s /\
    (sy_tasks s' = sy_tasks s \/
     exists th t, begin_task o = Some t /\ sy_tasks s' = <[th := t]> (sy_tasks s)).
Proof.
  unfold thread_exec. destruct (event_thread ev) as [th|]; [case_bool_decide; [|done]|];
    (destruct (coord_exec cfg ev (sy_coord s)) as [[c' o]|]; [|done]); cbn; intros [= <-];
    exists c', o; (split_and!; [done..|]); cbn; [|by left].
  destruct (begin_task o) as [t|] eqn:Hb; [right; eauto | by left].
Qed.

(** ** The invariant of the files *)

Section Files.
Context (cfg : CoordConfig).
Let path := cfg_persist cfg.
Let tmp := tmp_of path.
Context (Hstate : cfg_statefile cfg <> path) (Htmp : cfg_statefile cfg <> tmp).

(** What the file system holds of a task of a thread. *)
Definition task_ok (fs : FileSystem) (t : Task) : Prop :=
  match t with
  | TSave st payload ph =>
      serialize_state st = inr payload /\
      match ph with
      | WStart => True
      | WWriting i n =>
          (n <= length (persist_file payload))%nat /\ bsize payload <= kMaxPersistPayload /\
          fs_names fs !! tmp = Some i /\ fs_read fs tmp = Some (take n (persist_file payload))
      | WClosed => bsize payload <= kMaxPersistPayload /\
                   fs_read fs tmp = Some (persist_file payload)
      | WDone _ => False
      end
  | TText _ XStart => True
  | TText _ (XWriting i _) => fs_names fs !! cfg_statefile cfg = Some i
  end.

(** A save works on the temporary file, a text on its own. *)
Definition task_files (t : Task) : list string :=
  match t with TSave _ _ _ => [tmp; path] | TText _ _ => [cfg_statefile cfg] end.

Lemma task_ok_untouched t t' fs fs' :
  saving t <> saving t' -> untouched (task_files t') fs fs' -> task_ok fs t -> task_ok fs' t.
Proof.
  intros Hne Hun. destruct t as [st payload ph|text ph], t' as [|]; simpl in *; try done.
  - destruct (Hun tmp) as [Hn Hr]; [set_solver|]. destruct ph; rewrite ?Hn, ?Hr; done.
  - destruct (Hun (cfg_statefile cfg)) as [Hn Hr]; [set_solver|]. destruct ph; by rewrite ?Hn.
Qed.

(** One step of a save: what it makes of the temporary file, and of the snapshot. *)
Lemma write_exec_ok st payload ch ph fs ph' fs' :
  fs_ok fs -> task_ok fs (TSave st payload ph) ->
  write_exec path payload ch (ph, fs) = Some (ph', fs') ->
  fs_ok fs' /\ untouched [tmp; path] fs fs' /\
  match ph' with
  | WDone WrOk => bsize payload <= kMaxPersistPayload /\ fs_read fs' path = Some (persist_file payload)
  | WDone _ => fs_read fs' path = fs_read fs path
  | _ => task_ok fs' (TSave st payload ph') /\ fs_read fs' path = fs_read fs path
  end.
Proof.
  intros Hok [Hser Hph] Hex.
  assert (tmp <> path) as Hne by (apply not_eq_sym, tmp_of_ne).
  assert (path ∉ [tmp]) as Hnin by set_solver.
  assert (write_step path payload (ph, fs) (ph', fs')) as Hstep by (apply write_exec_step; eauto).
  split; [exact (fs_ok_step _ _ _ _ Hstep Hok)|].
  inversion Hstep; subst; try (split; [done|]; done).
  - (* open *)
    destruct (open_untouched fs tmp i fs' Hok) as (Hu & Hn & Hr); [done|].
    split; [eapply untouched_weaken; [|exact Hu]; set_solver|].
    split; [|by apply Hu]. split; [done|]. split_and!; [lia | done | done | exact Hr].
  - (* write *)
    destruct Hph as (Hn & Hsz & Hname & Hread).
    pose proof (write_untouched fs tmp i n (take m (drop n (persist_file payload))) Hok Hname) as Hu.
    split; [eapply untouched_weaken; [|exact Hu]; set_solver|].
    split; [|by apply Hu]. split; [done|]. split_and!; [lia | done | done |].
    erewrite write_read by done. by rewrite write_at_prefix.
  - (* close *)
    split; [done|]. destruct Hph as (Hn & Hsz & Hname & Hread). split; [|done]. split; [done|].
    split; [done|]. by rewrite take_ge in Hread.
  - (* rename *)
    destruct Hph as [Hsz Hread].
    destruct (rename_untouched fs tmp path fs') as [Hu Hr]; [done..|].
    split; [done|]. split; [done|]. by rewrite Hr.
Qed.

(** One step of a text. *)
Lemma text_exec_ok text ch ph fs ph' fs' :
  fs_ok fs -> task_ok fs (TText text ph) ->
  text_exec (cfg_statefile cfg) text ch ph fs = Some (ph', fs') ->
  fs_ok fs' /\ untouched [cfg_statefile cfg] fs fs' /\
  (fs_names fs !! cfg_statefile cfg = fs_names fs' !! cfg_statefile cfg \/
   fs_names fs !! cfg_statefile cfg = None) /\
  (forall ph1, ph' = Some ph1 -> task_ok fs' (TText text ph1)).
Proof.
  intros Hok Hph Hex. destruct ph as [|i n], ch; simpl in *; try done.
  - destruct (fs_open_trunc fs (cfg_statefile cfg)) as [i fs1] eqn:Ho. simplify_eq.
    destruct (open_untouched fs _ i fs' Hok Ho) as (Hu & Hn & _). split_and!.
    + replace fs' with (fs_open_trunc fs (cfg_statefile cfg)).2 by by rewrite Ho.
      by apply fs_ok_open.
    + done.
    + unfold fs_open_trunc in Ho. destruct (fs_names fs !! cfg_statefile cfg) eqn:Hf; [left|by right].
      simplify_eq. by rewrite <- Hf.
    + by intros ph1 [= <-].
  - simplify_eq. split_and!; auto. done.
  - case_bool_decide; [|done]. simplify_eq.
    split_and!; [by apply fs_ok_write | by apply write_untouched | by left |].
    by intros ph1 [= <-].
  - simplify_eq. split_and!; auto. done.
  - case_bool_decide; simplify_eq. split_and!; auto. done.
Qed.

(** What a run keeps: a well-formed file system, and its tasks in order. *)
Record files_inv (s : System) : Prop := {
  fi_fs : fs_ok (sy_fs s);
  fi_tasks : map_Forall (fun _ t => task_ok (sy_fs s) t) (sy_tasks s);
}.

Lemma files_inv_start f fs : fs_ok fs -> files_inv (system_start f fs).
Proof. split; [done | by apply map_Forall_empty]. Qed.

Lemma begin_task_ok fs o t : begin_task o = Some t -> task_ok fs t.
Proof.
  destruct o as [[|st|text]|]; simpl; try done; [|by intros [= <-]].
  destruct (serialize_state st) eqn:Hs; [done|]. by intros [= <-].
Qed.

Lemma thread_exec_files ev s s' :
  files_inv s -> thread_exec cfg ev s = Some s' -> files_inv s' /\ sy_fs s' = sy_fs s.
Proof.
  intros [Hfs Ht] Hte. destruct (thread_exec_inv _ _ _ _ Hte) as (c' & o & _ & _ & Hf & Htk).
  split; [|done]. split; rewrite Hf; [done|].
  destruct Htk as [->|(th & t & Hb & ->)]; [done|].
  apply map_Forall_insert_2; [by eapply begin_task_ok | done].
Qed.

(** Two saves at once are the same thread's. *)
Lemma solo_same s th th' t t' :
  solo s = true -> sy_tasks s !! th = Some t -> sy_tasks s !! th' = Some t' ->
  saving t = true -> saving t' = true -> th = th'.
Proof.
  unfold solo. rewrite bool_decide_eq_true. intros Hsz Ht Ht' Hs Hs'.
  destruct (decide (th = th')) as [|Hne]; [done|]. exfalso.
  set (m := filter _ (sy_tasks s)) in Hsz.
  assert (m !! th = Some t) as H1 by (by apply map_lookup_filter_Some).
  assert (delete th m !! th' = Some t') as H2
    by (rewrite lookup_delete_ne by done; by apply map_lookup_filter_Some).
  rewrite <- (insert_delete_id m th t H1), map_size_insert_None in Hsz by apply lookup_delete_eq.
  assert (size (delete th m) <> 0%nat) by (intros H0%map_size_empty_iff; by rewrite H0 in H2).
  lia.
Qed.

(** The tasks of the other threads keep what they hold. *)
Lemma others_ok s th t fs' :
  solo s = true -> files_inv s -> sy_tasks s !! th = Some t ->
  untouched (task_files t) (sy_fs s) fs' ->
  (saving t = false -> fs_names (sy_fs s) !! cfg_statefile cfg = fs_names fs' !! cfg_statefile cfg \/
     fs_names (sy_fs s) !! cfg_statefile cfg = None) ->
  map_Forall (fun _ t' => task_ok fs' t') (delete th (sy_tasks s)).
Proof.
  intros Hsolo [_ Hts] Ht Hun Hname th' t' [Hne Ht']%lookup_delete_Some.
  specialize (Hts th' t' Ht'). cbn in Hts.
  destruct t as [st payload ph|text ph], t' as [st' payload' ph'|text' ph'].
  - by destruct Hne; eapply solo_same.
  - eapply task_ok_untouched; [|exact Hun|exact Hts]; done.
  - eapply task_ok_untouched; [|exact Hun|exact Hts]; done.
  - destruct ph' as [|i n]; [done|]. simpl in *. destruct (Hname eq_refl) as [H|H]; congruence.
Qed.

Lemma keep_task_inv s th t fs' :
  fs_ok fs' -> task_ok fs' t -> map_Forall (fun _ t' => task_ok fs' t') (delete th (sy_tasks s)) ->
  files_inv (keep_task s th t fs').
Proof.
  intros Hok Ht Ho. split; [done|]. cbn. rewrite <- insert_delete_eq. by apply map_Forall_insert_2.
Qed.

(** What one event does to the snapshot. *)
Lemma sys_exec_files e s s' o :
  solo s = true -> files_inv s -> sys_exec cfg e s = Some (s', o) ->
  files_inv s' /\
  match o with
  | Some st => exists payload, serialize_state st = inr payload /\
                 bsize payload <= kMaxPersistPayload /\
                 fs_read (sy_fs s') path = Some (persist_file payload)
  | None => fs_read (sy_fs s') path = fs_read (sy_fs s) path
  end.
Proof.
  intros Hsolo Hinv Hex. unfold sys_exec in Hex. destruct (sy_status s); try done.
  destruct e as [ev|th ch].
  { destruct (thread_exec cfg ev s) eqn:Hth; simpl in Hex; simplify_eq.
    destruct (thread_exec_files ev s s' Hinv Hth) as [? Hfs]. by rewrite Hfs. }
  unfold io_exec in Hex. destruct (sy_tasks s !! th) as [t|] eqn:Ht; [|done].
  pose proof Hinv as [Hfs Hts]. pose proof (Hts th t Ht) as Htask. cbn in Htask.
  destruct t as [st payload ph|text ph].
  - destruct (write_exec _ _ _ _) as [[ph' fs']|] eqn:Hw; [|done]. cbn in Hex.
    destruct (write_exec_ok st payload ch ph (sy_fs s) ph' fs' Hfs Htask Hw) as (Hok & Hun & Hph).
    assert (map_Forall (fun _ t' => task_ok fs' t') (delete th (sy_tasks s))) as Ho
      by (eapply others_ok; done).
    destruct ph' as [|i n| |[|err|]]; simplify_eq; cbn.
    1-3: (split; [apply keep_task_inv; tauto | tauto]).
    + split; [by split|]. exists payload. by destruct Htask.
    + split; [by split | done].
    + split; [|done]. split; [done|]. cbn.
      assert (fs' = sy_fs s) as ->; [|done].
      unfold write_exec in Hw. by repeat case_match; simplify_eq.
  - destruct (text_exec _ _ _ _ _) as [[ph' fs']|] eqn:Hw; [|done]. cbn in Hex.
    destruct (text_exec_ok text ch ph (sy_fs s) ph' fs' Hfs Htask Hw) as (Hok & Hun & Hn & Hph).
    assert (map_Forall (fun _ t' => task_ok fs' t') (delete th (sy_tasks s))) as Ho
      by (eapply others_ok; done).
    assert (fs_read fs' path = fs_read (sy_fs s) path) as Hr by (apply Hun; set_solver).
    destruct ph' as [ph'|]; simplify_eq; cbn; (split; [|exact Hr]).
    + apply keep_task_inv; auto.
    + by split.
Qed.

(** Over a run the snapshot is that of the last state announced. *)
Definition snapshot_is (fs fs' : FileSystem) (st : option PersistedState) : Prop :=
  match st with
  | Some st => exists payload, serialize_state st = inr payload /\
                 bsize payload <= kMaxPersistPayload /\ fs_read fs' path = Some (persist_file payload)
  | None => fs_read fs' path = fs_read fs path
  end.

Lemma sys_run_files evs s s' saved :
  solo_run cfg evs s = true -> files_inv s -> sys_run cfg evs s = Some (s', saved) ->
  files_inv s' /\ snapshot_is (sy_fs s) (sy_fs s') (last saved).
Proof.
  revert s saved. induction evs as [|e evs IH]; intros s saved Hsolo Hinv Hrun; simpl in *.
  { by simplify_eq. }
  apply andb_true_iff in Hsolo as [Hs Hsolo].
  destruct (sys_exec cfg e s) as [[s1 o]|] eqn:Hex; simpl in Hrun; [|done].
  destruct (sys_run cfg evs s1) as [[s2 os]|] eqn:Hr; simpl in Hrun; [|done]. simplify_eq.
  destruct (sys_exec_files e s s1 o Hs Hinv Hex) as [Hinv1 Ho].
  destruct (IH s1 os Hsolo Hinv1 Hr) as [Hinv' Hlast]. split; [done|].
  rewrite last_app. destruct (last os) as [st|]; [done|].
  simpl in Hlast. destruct o as [st|]; simpl in *; [|congruence].
  destruct Ho as (payload & ? & ? & ?). exists payload. by rewrite Hlast.
Qed.
End Files.

(** ** What the saves hold *)

(** A program saves only states it has exported. *)
Section Saving.
Context (E : PersistedState -> Prop).

Definition exports {X} (c : FabricCall X) : X -> Prop :=
  match c in FabricCall X return X -> Prop with CExport => E | _ => fun _ => True end.

Fixpoint saves_only (p : Prog) : Prop :=
  match p with
  | PDone | PFault => True
  | PCall c k => forall x, exports c x -> saves_only (k x)
  | PPersist st k => E st /\ saves_only k
  | PSend _ k | PPushDevice _ k | PPushReservation _ k | PStop k | PStateFile _ k => saves_only k
  end.

Lemma saves_write_statefile cfg k : saves_only k -> saves_only (write_statefile cfg k).
Proof. intros Hk. unfold write_statefile. destruct (String.eqb _ _); simpl; auto. Qed.

Lemma saves_maybe_persist cfg k : saves_only k -> saves_only (maybe_persist cfg k).
Proof.
  intros Hk. pose proof (saves_write_statefile cfg k Hk). unfold maybe_persist.
  repeat destruct (String.eqb _ _); simpl; auto.
Qed.

Lemma saves_switch ctx f k : saves_only k -> saves_only (dispatch_switch ctx f k).
Proof.
  intros Hk. unfold dispatch_switch, send_ack, send_error, send_reserve_result.
  destruct (fr_type f); try done; repeat case_match; try done; intros x _; repeat case_match; simpl; auto.
Qed.

Lemma saves_dispatch cfg boot f : saves_only (dispatch cfg boot f).
Proof.
  intros ep _ pol _. apply saves_switch. case_match; [by apply saves_maybe_persist | done].
Qed.

Lemma saves_mark_all devs ctx k : saves_only k -> saves_only (mark_all devs ctx k).
Proof. intros Hk. by induction devs as [|d devs IH]; simpl. Qed.

Lemma saves_fence cfg devs : saves_only (fence_prog cfg devs).
Proof.
  intros ep _ pol _. apply saves_mark_all. destruct (String.eqb _ _); [done|].
  by apply saves_write_statefile.
Qed.

Definition phase_saves (ph : ConnPhase) : Prop :=
  match ph with PhBusy _ p | PhFencing _ p => saves_only p | _ => True end.
Definition threads_save (c : Coordinator) : Prop :=
  map_Forall (fun _ cn => phase_saves (cn_phase cn)) (co_conns c).

Lemma threads_save_insert c n ws ph :
  threads_save c -> phase_saves ph ->
  map_Forall (fun _ cn => phase_saves (cn_phase cn)) (<[n := mkConn ws ph]> (co_conns c)).
Proof. intros. by apply map_Forall_insert_2. Qed.

Lemma threads_save_lookup c n ws ph :
  threads_save c -> co_conns c !! n = Some (mkConn ws ph) -> phase_saves ph.
Proof. intros H Hn. exact (H n _ Hn). Qed.

Lemma begin_death_saves cfg c n ws key : threads_save c -> threads_save (begin_death cfg c n ws key).
Proof.
  intros Hc. unfold begin_death.
  destruct (co_workers c !! key) as [m|]; simpl; [|by apply threads_save_insert].
  destruct (co_conns c !! m) as [[wm pm]|] eqn:Hm; simpl; [|by apply threads_save_insert].
  destruct (wk_dead wm); [by apply threads_save_insert|].
  apply (threads_save_insert (set_conn c m _ _)); [|apply saves_fence].
  apply threads_save_insert; [done|]. exact (Hc m _ Hm).
Qed.

Lemma prog_next_saves p t p' t' o :
  E (export_persisted (th_fabric t)) -> saves_only p -> prog_next p t = Some (p', t', o) ->
  saves_only p' /\ forall st, o = Some (OPersist st) -> E st.
Proof.
  intros He Hp Hn. destruct p as [| |X c k|fr k|d k|r k|k|st k|text k]; simpl in *; try done.
  - destruct (call_fabric c (th_fabric t)) as [x f'] eqn:Hc. simplify_eq. split; [|done].
    apply Hp. destruct c; simpl in *; simplify_eq; done.
  - by simplify_eq.
  - by simplify_eq.
  - by simplify_eq.
  - by simplify_eq.
  - destruct Hp. simplify_eq. split; [done|]. by intros ? [= <-].
  - by simplify_eq.
Qed.

Lemma run_step_saves c n ws p (ph : Prog -> ConnPhase) p' t o :
  E (export_persisted (co_fabric c)) -> threads_save c -> saves_only p ->
  (forall q, saves_only q -> phase_saves (ph q)) ->
  prog_next p (mkThread (co_fabric c) ws (co_running c)) = Some (p', t, o) ->
  threads_save (set_thread c n t (ph p')) /\ forall st, o = Some (OPersist st) -> E st.
Proof.
  intros He Hc Hp Hph Hn.
  destruct (prog_next_saves p (mkThread (co_fabric c) ws (co_running c)) p' t o He Hp Hn).
  split; [apply threads_save_insert; auto | done].
Qed.

(** Whatever a thread saves was exported from the engine. *)
Lemma coord_exec_saves cfg ev c c' o :
  E (export_persisted (co_fabric c)) -> threads_save c -> coord_exec cfg ev c = Some (c', o) ->
  threads_save c' /\ forall st, o = Some (OPersist st) -> E st.
Proof.
  intros He Hc Hex.
  destruct ev; cbn [coord_exec] in Hex; repeat case_match; simplify_eq;
    try (split; [(exact Hc || by apply threads_save_insert) | done]).
  all: try (match goal with H : co_conns _ !! _ = Some _ |- _ => pose proof (threads_save_lookup _ _ _ _ Hc H) as Hph end;
    by (eapply (run_step_saves _ _ _ _ (PhBusy _)) || eapply (run_step_saves _ _ _ _ (PhFencing _)))).
  - split; [exact Hc|]. unfold stop_output. case_match; [done|]. by intros ? [= <-].
  - split; [|done]. apply threads_save_insert; [done|]. apply saves_dispatch.
  - split; [|done]. by apply begin_death_saves.
Qed.
End Saving.

(** ** The engine over a run of the process *)

(** Conditions on operations under which the engine stays over any number of lives: what
    a coordinator does meets them, and so does the restoring of what it saved. *)
Class Lasting (ok : Fabric -> FabricOp -> Prop) : Prop := {
  la_plain : forall f op, op_plain f op -> ok f op;
  la_wf : forall f op, ok f op -> op_wf f op;
  la_kept : forall f g, reachable ok f -> ok g (OpImport (kept_state (export_persisted f)));
}.

Lemma lasting_wf ok `{!Lasting ok} f : reachable ok f -> reachable op_wf f.
Proof. apply reachable_mono. exact la_wf. Qed.

#[export] Instance wf_lasting : Lasting op_wf.
Proof.
  split; [by intros f op [[? _] _] | done |].
  intros f g Hf. by apply kept_ok, exported_ok, reachable_inv.
Qed.

#[export] Instance covering_lasting : Lasting op_covering.
Proof.
  split; [by intros f op [] | by intros f op [] |].
  intros f g Hf. pose proof (covering_inv f Hf) as Hinv.
  split; [by apply kept_ok, exported_ok|]. simpl.
  intros k x (p & <- & Hk)%lookup_fmap_Some.
  by destruct (pools_good f Hinv (reachable_covered f Hf) k p Hk).
Qed.

Section Engine.
Context (ok : Fabric -> FabricOp -> Prop) `{!Lasting ok}.

(** A state saved from an engine whose guarantees hold. *)
Definition guaranteed (st : PersistedState) : Prop :=
  exists f, reachable ok f /\ st = export_persisted f.

Context (au : CoordinatorEpoch * PolicyGeneration) (cfg : CoordConfig).

(** The process is in order, and [n] more events cannot exhaust the reservation numbers. *)
Record healthy (n : nat) (s : System) : Prop := {
  he_engine : reachable ok (co_fabric (sy_coord s));
  he_authority : authority (co_fabric (sy_coord s)) = au;
  he_threads : threads_disciplined au (sy_coord s);
  he_saves : threads_save guaranteed (sy_coord s);
  he_tasks : map_Forall (fun _ t => match t with TSave st _ _ => guaranteed st | _ => True end)
               (sy_tasks s);
  he_room : sequence_ (co_fabric (sy_coord s)) + Z.of_nat n <= UINT64_MAX;
}.

Definition sys_event_sane (e : SysEvent) : Prop :=
  match e with SvThread ev => event_sane ev | SvIo _ _ => True end.

Lemma coord_exec_reachable ev c c' o :
  reachable ok (co_fabric c) -> authority (co_fabric c) = au -> threads_disciplined au c ->
  sequence_ (co_fabric c) < UINT64_MAX -> event_sane ev -> coord_exec cfg ev c = Some (c', o) ->
  reachable ok (co_fabric c') /\ authority (co_fabric c') = au /\ threads_disciplined au c' /\
  sequence_ (co_fabric c') <= sequence_ (co_fabric c) + 1.
Proof.
  intros Hr Hau Hth Hseq Hev Hex.
  destruct (coord_exec_disciplined au cfg ev c c' o) as (Hth' & ops & Hf & Hd & Hl & Hk); try done.
  destruct Hk as [Hau' Hseq']; [by eapply reachable_inv, lasting_wf | done |]. split_and!; try done.
  rewrite Hf. destruct ops as [|op [|]]; [done| |simpl in Hl; lia]. simpl.
  apply reach_step; [done|]. apply Forall_singleton in Hd as [_ Hpl]. by apply la_plain, Hpl.
Qed.

Lemma sys_exec_healthy n e s s' o :
  healthy (S n) s -> sys_event_sane e -> sys_exec cfg e s = Some (s', o) ->
  healthy n s' /\ forall st, o = Some st -> guaranteed st.
Proof.
  intros [Hr Hau Hth Hsv Ht Hroom] Hev Hex. unfold sys_exec in Hex. destruct (sy_status s); try done.
  destruct e as [ev|th ch].
  - destruct (thread_exec cfg ev s) as [s1|] eqn:Hte; simpl in Hex; simplify_eq.
    destruct (thread_exec_inv _ _ _ _ Hte) as (c' & o & Hce & Hc' & _ & Htk).
    destruct (coord_exec_reachable ev _ _ _ Hr Hau Hth ltac:(lia) Hev Hce) as (Hr' & Hau' & Hth' & Hq).
    destruct (coord_exec_saves guaranteed cfg ev _ _ _ (ex_intro _ _ (conj Hr eq_refl)) Hsv Hce) as [Hsv' Hout].
    split; [|done]. split; rewrite ?Hc'; try done; [|lia].
    destruct Htk as [->|(th & t & Hb & ->)]; [done|]. apply map_Forall_insert_2; [|done].
    destruct o as [[|st|]|]; simpl in Hb; repeat case_match; simplify_eq; auto.
  - unfold io_exec in Hex. destruct (sy_tasks s !! th) as [t|] eqn:Hth'; [|done].
    pose proof (Ht th t Hth') as Hg. cbn in Hg.
    assert (map_Forall (fun _ t => match t with TSave st _ _ => guaranteed st | _ => True end)
              (delete th (sy_tasks s))) as Hdel by by apply map_Forall_delete.
    destruct t as [st payload ph|text ph].
    + destruct (write_exec _ _ _ _) as [[ph' fs']|]; [|done]. cbn in Hex.
      destruct ph' as [| | |[| |]]; simplify_eq;
        (split; [split; cbn; try done; try lia; by apply map_Forall_insert_2 |]);
        try done; by intros ? [= <-].
    + destruct (text_exec _ _ _ _ _) as [[ph' fs']|]; [|done]. cbn in Hex.
      destruct ph'; simplify_eq;
        (split; [split; cbn; try done; try lia; by apply map_Forall_insert_2 | done]).
Qed.

Lemma sys_run_healthy evs s s' saved :
  healthy (length evs) s -> Forall sys_event_sane evs -> sys_run cfg evs s = Some (s', saved) ->
  healthy 0 s' /\ Forall guaranteed saved.
Proof.
  revert s saved. induction evs as [|e evs IH]; intros s saved Hh Hev Hrun; simpl in *.
  { by simplify_eq. }
  apply Forall_cons in Hev as [He Hev].
  destruct (sys_exec cfg e s) as [[s1 o]|] eqn:Hex; simpl in Hrun; [|done].
  destruct (sys_run cfg evs s1) as [[s2 os]|] eqn:Hr; simpl in Hrun; [|done]. simplify_eq.
  destruct (sys_exec_healthy _ e s s1 o Hh He Hex) as [Hh1 Ho].
  destruct (IH s1 os Hh1 Hev Hr) as [Hh' Hos]. split; [done|].
  apply Forall_app. split; [|done]. destruct o; simpl; [|done]. apply Forall_singleton. auto.
Qed.
End Engine.

(** ** One life of the process *)

(** The snapshot has a name, and the state in text form goes elsewhere. *)
Definition files_apart (cfg : CoordConfig) : Prop :=
  cfg_persist cfg <> "" /\ cfg_statefile cfg <> cfg_persist cfg /\
  cfg_statefile cfg <> tmp_of (cfg_persist cfg).

(** A run without overlapping saves, with frames as [event_sane] asks, too short to
    exhaust the reservation numbers, that saves states within the limits of the format. *)
Record proper_run (cfg : CoordConfig) (s0 : System) (evs : list SysEvent)
    (saved : list PersistedState) : Prop := {
  pr_solo : solo_run cfg evs s0 = true;
  pr_sane : Forall sys_event_sane evs;
  pr_room : sequence_ (co_fabric (sy_coord s0)) + Z.of_nat (length evs) <= UINT64_MAX;
  pr_fits : Forall state_fits saved;
}.

Lemma healthy_start ok f fs n :
  reachable ok f -> sequence_ f + Z.of_nat n <= UINT64_MAX ->
  healthy ok (authority f) n (system_start f fs).
Proof. intros. split; try done; by apply map_Forall_empty. Qed.

Lemma Forall_of_last {A} (P : A -> Prop) l x : Forall P l -> last l = Some x -> P x.
Proof. intros H [l' ->]%last_Some. rewrite Forall_app, Forall_singleton in H. by destruct H. Qed.

(** What a new process reads where the snapshot of a state stands. *)
Lemma boot_snapshot epoch path fs st payload :
  path <> "" -> state_fits st -> serialize_state st = inr payload ->
  bsize payload <= kMaxPersistPayload -> fs_read fs path = Some (persist_file payload) ->
  coordinator_boot epoch path fs =
    Some (import_persisted (fabric_init (mkGen epoch) (mkGen 1)) (kept_state st)).
Proof.
  intros Hp Hfit Hser Hsz Hread. rewrite serialize_state_fits in Hser by done.
  apply (inj inr) in Hser. subst payload. rewrite persist_file_envelope in Hread by done.
  apply boot_saved; try done.
  - unfold sealed in Hsz. rewrite bsize_app, bsize_put_u32 in Hsz.
    unfold kMaxPersistPayload, UINT64_MAX in *. lia.
  - apply (read_envelope fs path [0; 0; 0; 0]); try done; [apply zeros_ok|].
    apply sealed_ok, serialize_body_ok.
Qed.

Lemma reachable_kept ok `{!Lasting ok} epoch st :
  guaranteed ok st -> reachable ok (import_persisted (fabric_init (mkGen epoch) (mkGen 1)) (kept_state st)).
Proof.
  intros (f & Hf & ->). apply (reach_step ok _ (OpImport (kept_state (export_persisted f)))).
  - constructor.
  - by apply la_kept.
Qed.

Lemma crash_boot ok `{!Lasting ok} cfg f0 fs0 evs s saved epoch :
  files_apart cfg -> reachable ok f0 -> fs_ok fs0 ->
  sys_run cfg evs (system_start f0 fs0) = Some (s, saved) ->
  proper_run cfg (system_start f0 fs0) evs saved ->
  fs_ok (sy_fs s) /\ reachable ok (co_fabric (sy_coord s)) /\ Forall (guaranteed ok) saved /\
  coordinator_boot epoch (cfg_persist cfg) (sy_fs s) =
    match last saved with
    | Some st => Some (import_persisted (fabric_init (mkGen epoch) (mkGen 1)) (kept_state st))
    | None => coordinator_boot epoch (cfg_persist cfg) fs0
    end.
Proof.
  intros (Hp & Hs & Ht) Hf0 Hfs Hrun [Hsolo Hsane Hroom Hfits].
  destruct (sys_run_healthy ok _ cfg evs _ s saved (healthy_start ok f0 fs0 _ Hf0 Hroom) Hsane Hrun)
    as [Hh Hg].
  destruct (sys_run_files cfg Hs Ht evs _ s saved Hsolo (files_inv_start cfg f0 fs0 Hfs) Hrun)
    as [[Hok _] Hsnap].
  split_and!; [done | by destruct Hh | done |]. destruct (last saved) as [st|] eqn:Hl.
  - destruct Hsnap as (payload & Hser & Hsz & Hread). eapply boot_snapshot; try done.
    by eapply Forall_of_last.
  - by apply boot_same.
Qed.

(** Whatever is done by one connection alone, while the main thread serves, does not
    overlap. *)
Definition event_of (n : nat) (e : SysEvent) : Prop :=
  match e with
  | SvThread ev => event_thread ev = None \/ event_thread ev = Some (Some n)
  | SvIo th _ => True
  end.

Lemma one_task_solo s n : dom (sy_tasks s) ⊆ {[Some n]} -> solo s = true.
Proof.
  intros Hd. apply bool_decide_eq_true. set (m := filter _ _).
  assert (dom m ⊆ {[Some n]}) as Hm by (etransitivity; [apply dom_filter_subseteq | done]).
  apply subseteq_size in Hm. rewrite size_singleton, size_dom in Hm. done.
Qed.

Lemma sys_exec_one_task cfg n e s s' o :
  event_of n e -> dom (sy_tasks s) ⊆ {[Some n]} -> sys_exec cfg e s = Some (s', o) ->
  dom (sy_tasks s') ⊆ {[Some n]}.
Proof.
  intros He Hd Hex. unfold sys_exec in Hex. destruct (sy_status s); try done.
  destruct e as [ev|th ch].
  - destruct (thread_exec cfg ev s) as [s1|] eqn:Hte; simpl in Hex; simplify_eq.
    unfold thread_exec in Hte. destruct He as [He|He]; rewrite He in Hte;
      [|case_bool_decide; [|done]];
      (destruct (coord_exec cfg ev (sy_coord s)) as [[c' o]|]; [|done]); cbn in Hte; simplify_eq;
      cbn; [done|]. destruct (begin_task o); [|done]. rewrite dom_insert. set_solver.
  - unfold io_exec in Hex. destruct (sy_tasks s !! th) as [t|] eqn:Ht; [|done].
    apply elem_of_dom_2 in Ht. assert (th = Some n) as -> by set_solver.
    assert (forall t', dom (<[Some n := t']> (sy_tasks s)) ⊆ {[Some n]})
      by (intros; rewrite dom_insert; set_solver).
    assert (dom (delete (Some n) (sy_tasks s)) ⊆ {[Some n]}) by (rewrite dom_delete; set_solver).
    destruct t as [st payload ph|text ph].
    + destruct (write_exec _ _ _ _) as [[ph' fs']|]; [|done]. cbn in Hex.
      destruct ph' as [| | |[| |]]; simplify_eq; cbn; auto.
    + destruct (text_exec _ _ _ _ _) as [[ph' fs']|]; [|done]. cbn in Hex.
      destruct ph'; simplify_eq; cbn; auto.
Qed.

Lemma one_worker_solo cfg n evs s s' saved :
  Forall (event_of n) evs -> dom (sy_tasks s) ⊆ {[Some n]} -> sys_run cfg evs s = Some (s', saved) ->
  solo_run cfg evs s = true.
Proof.
  revert s saved. induction evs as [|e evs IH]; intros s saved Hev Hd Hrun; simpl in *;
    rewrite (one_task_solo s n Hd); [done|]. apply Forall_cons in Hev as [He Hev].
  destruct (sys_exec cfg e s) as [[s1 o]|] eqn:Hex; simpl in Hrun; [|done].
  destruct (sys_run cfg evs s1) as [[s2 os]|] eqn:Hr; simpl in Hrun; [|done]. simplify_eq.
  eapply IH; [done| |done]. by eapply sys_exec_one_task.
Qed.
