(* ===== verification/Crash.v ===== *)
(** * What survives a crash

    What a process finds that is started after another one was stopped, at any point of
    its run: over one life of the coordinator and over any number of them. The code does
    not keep the saves of its threads apart: at the end of the file, what happens then. *)
From S2P Require Import Prelude.
From S2P Require Import Identity.
From S2P Require Import Enums.
From S2P Require Import Records.
From S2P Require Import Selection.
From S2P Require Import Fabric.
From S2P Require Import Synthetic.
From S2P Require Import Ledger.
From S2P Require Import LedgerRefinement.
From S2P Require Import Invariants.
From S2P Require Import CapacitySafety.
From S2P Require Import Crc.
From S2P Require Import Protocol.
From S2P Require Import Readers.
From S2P Require Import Codec.
From S2P Require Import Persistence.
From S2P Require Import Storage.
From S2P Require Import Recovery.
From S2P Require Import Args.
From S2P Require Import Coordinator.
From S2P Require Import Worker.
From S2P Require Import Interleaving.
From S2P Require Import WorkerDeath.
From S2P Require Import Process.
From S2P Require Import Durability.

(** C21. A crash loses nothing that was announced. Take any run of the coordinator with its
    files from any reachable engine, all threads and all system calls of their saves
    interleaved as they may be, any of the calls failing, as long as no two saves overlap,
    and stop it at any point. A process started then boots from exactly the last state
    announced as persisted, whatever a save in progress had done, or, if there was none,
    as it would have booted before; that state was exported from a reachable engine, and
    so the engine of the new process, like that of the old one at every moment, has all
    the guarantees of reachable engines. *)
Theorem crash_recovers cfg f0 fs0 evs s saved epoch :
  files_apart cfg -> reachable op_wf f0 -> fs_ok fs0 ->
  sys_run cfg evs (system_start f0 fs0) = Some (s, saved) ->
  proper_run cfg (system_start f0 fs0) evs saved ->
  reachable op_wf (co_fabric (sy_coord s)) /\
  match last saved with
  | Some st =>
      (exists f, reachable op_wf f /\ st = export_persisted f) /\
      exists f', coordinator_boot epoch (cfg_persist cfg) (sy_fs s) = Some f' /\
        f' = import_persisted (fabric_init (mkGen epoch) (mkGen 1)) (kept_state st) /\
        reachable op_wf f'
  | None => coordinator_boot epoch (cfg_persist cfg) (sy_fs s) =
              coordinator_boot epoch (cfg_persist cfg) fs0
  end.
Proof.
  intros Hap Hf0 Hfs Hrun Hpr.
  destruct (crash_boot op_wf cfg f0 fs0 evs s saved epoch) as (_ & Hr & Hg & Hboot); try done.
  split; [done|]. destruct (last saved) as [st|] eqn:Hl; [|done].
  assert (guaranteed op_wf st) as Hst by by eapply Forall_of_last.
  split; [done|]. eexists. split_and!; [done..|]. by apply (reachable_kept op_wf).
Qed.

(** ** Many lives *)

Lemma write_text_ok io path text fs :
  fs_ok fs -> fs_ok (write_text io path text fs) /\ untouched [path] fs (write_text io path text fs).
Proof.
  intros Hok. unfold write_text. destruct (io_open io); [|done]. simpl.
  destruct (fs_open_trunc fs path) as [i fs1] eqn:Ho.
  destruct (open_untouched fs path i fs1 Hok Ho) as (Hu & Hn & _).
  assert (fs_ok fs1) as Hok1.
  { replace fs1 with (fs_open_trunc fs path).2 by by rewrite Ho. by apply fs_ok_open. }
  split; [by apply fs_ok_write|]. intros q Hq.
  destruct (write_untouched fs1 path i 0 (match io_short io with
    | Some n => take n (string_bytes text) | None => string_bytes text end) Hok1 Hn q Hq) as [-> ->].
  by apply Hu.
Qed.

(** What the lives of a process with these files can leave behind: it starts with no
    snapshot; each life is a call of [main] that cannot listen, or that serves until it
    is stopped at any point. *)
Inductive lives (cfg : CoordConfig) : FileSystem -> Prop :=
  | lives_new fs : fs_ok fs -> fs_read fs (cfg_persist cfg) = None -> lives cfg fs
  | lives_refused fs argv io fs1 a :
      lives cfg fs -> coord_args argv = Some a -> ca_persist a = cfg_persist cfg ->
      ca_statefile a = cfg_statefile cfg -> coordinator_main argv false io fs = MExit 2 fs1 ->
      lives cfg fs1
  | lives_served fs argv io s0 evs s saved :
      lives cfg fs -> coordinator_main argv true io fs = MServes cfg s0 ->
      sys_run cfg evs s0 = Some (s, saved) -> proper_run cfg s0 evs saved ->
      lives cfg (sy_fs s).

(** What every life finds. *)
Definition bootable (cfg : CoordConfig) (fs : FileSystem) : Prop :=
  fs_ok fs /\ forall epoch, exists f,
    coordinator_boot epoch (cfg_persist cfg) fs = Some f /\ reachable op_covering f /\ sequence_ f = 0.

Lemma main_start cfg argv listens io fs a :
  files_apart cfg -> bootable cfg fs -> coord_args argv = Some a -> ca_persist a = cfg_persist cfg ->
  ca_statefile a = cfg_statefile cfg ->
  exists f fs1, coordinator_main argv listens io fs =
      (if listens then MServes cfg (system_start f fs1) else MExit 2 fs1) /\
    reachable op_covering f /\ sequence_ f = 0 /\ bootable cfg fs1.
Proof.
  intros (_ & Hs & Ht) [Hok Hboot] Ha Hp Hst. destruct (Hboot (ca_epoch a)) as (f & Hf & Hr & Hseq).
  set (fs1 := if String.eqb (ca_statefile a) "" then fs
              else write_text io (ca_statefile a) (fabric_state_text (snapshot f)) fs).
  exists f, fs1. unfold coordinator_main. rewrite Ha, Hp, Hf. fold fs1. split_and!; try done.
  - destruct cfg as [p t]. simpl in *. by rewrite Hst.
  - assert (fs_ok fs1 /\ fs_read fs1 (cfg_persist cfg) = fs_read fs (cfg_persist cfg)) as [Hok1 Hread].
    { unfold fs1. destruct (String.eqb _ _); [done|].
      destruct (write_text_ok io (ca_statefile a) (fabric_state_text (snapshot f)) fs Hok) as [? Hu].
      split; [done|]. apply Hu. rewrite Hst. set_solver. }
    split; [done|]. intros e. rewrite (boot_same e _ fs fs1 Hread). apply Hboot.
Qed.

Lemma main_serves cfg argv listens io fs s0 :
  coordinator_main argv listens io fs = MServes cfg s0 ->
  exists a, coord_args argv = Some a /\ ca_persist a = cfg_persist cfg /\
    ca_statefile a = cfg_statefile cfg /\ listens = true.
Proof.
  unfold coordinator_main. destruct (coord_args argv) as [a|]; [|done].
  destruct (coordinator_boot _ _ _); [|done]. destruct listens; [|done].
  intros [= <- _]. by exists a.
Qed.

Lemma served_life cfg fs argv io s0 evs s saved :
  files_apart cfg -> bootable cfg fs -> coordinator_main argv true io fs = MServes cfg s0 ->
  sys_run cfg evs s0 = Some (s, saved) -> proper_run cfg s0 evs saved ->
  reachable op_covering (co_fabric (sy_coord s)) /\ bootable cfg (sy_fs s).
Proof.
  intros Hap Hb Hmain Hrun Hpr. destruct (main_serves _ _ _ _ _ _ Hmain) as (a & Ha & Hp & Hst & _).
  destruct (main_start cfg argv true io fs a Hap Hb Ha Hp Hst) as (f & fs1 & Hm & Hr & Hseq & Hok1 & Hb1).
  rewrite Hm in Hmain. injection Hmain as <-.
  assert (forall epoch, _) as Hcrash
    by (intros epoch; exact (crash_boot op_covering cfg f fs1 evs s saved epoch Hap Hr Hok1 Hrun Hpr)).
  destruct (Hcrash 0) as (Hok & Hr' & Hg & _). split; [done|]. split; [done|]. intros e.
  destruct (Hcrash e) as (_ & _ & _ & Hboot). rewrite Hboot.
  destruct (last saved) as [st|] eqn:Hl; [|apply Hb1].
  eexists. split_and!; [done | |done]. apply (reachable_kept op_covering). by eapply Forall_of_last.
Qed.

Lemma lives_bootable cfg fs : files_apart cfg -> lives cfg fs -> bootable cfg fs.
Proof.
  intros Hap Hl. induction Hl as [fs Hok Hno|fs argv io fs1 a _ IH Ha Hp Hst Hm|].
  - split; [done|]. intros e. exists (fabric_init (mkGen e) (mkGen 1)).
    split_and!; [|constructor|done]. unfold coordinator_boot. rewrite Hno.
    rewrite bool_decide_false by (by intros []). simpl. by rewrite orb_true_r.
  - destruct (main_start cfg argv false io fs a) as (f & fs2 & Hm' & _ & _ & Hb); try done. congruence.
  - by eapply served_life.
Qed.

(** C22. The guarantees hold in every life. Start from no snapshot, and let the coordinator
    live any number of times on the same files: each life a call of [main] with any other
    arguments, that cannot listen or that serves until it is stopped at any point, with its
    threads and system calls interleaved as they may be but no two saves overlapping. Then
    the next call of [main] finds a snapshot it can boot from, or none, never reads outside
    it, ends with the code 2 exactly when it cannot listen, and otherwise serves,
    numbering reservations from 1 again; and at every moment (with frames and states as
    [proper_run] asks) the engine is in a state reachable by operations on covered pools, in
    which no pool is oversubscribed: the bytes of the live reservations on it do not exceed
    what it accounts as reserved or committed, and these together with its unavailable and
    draining bytes do not exceed the capacity it governs. *)
Theorem guarantees_in_every_life cfg fs argv listens io a :
  files_apart cfg -> lives cfg fs -> coord_args argv = Some a ->
  ca_persist a = cfg_persist cfg -> ca_statefile a = cfg_statefile cfg ->
  exists f fs1,
    coordinator_main argv listens io fs =
      (if listens then MServes cfg (system_start f fs1) else MExit 2 fs1) /\
    sequence_ f = 0 /\
    forall evs s saved,
      sys_run cfg evs (system_start f fs1) = Some (s, saved) ->
      proper_run cfg (system_start f fs1) evs saved ->
      let f' := co_fabric (sy_coord s) in
      reachable op_covering f' /\
      forall k p, st_pools (state_ f') !! k = Some p ->
        live_bytes f' k <= pool_reserved_bytes p + pool_committed_bytes p /\
        pool_unavailable_bytes p + pool_reserved_bytes p + pool_committed_bytes p
          + pool_draining_bytes p <= pool_total_governed_bytes p.
Proof.
  intros Hap Hl Ha Hp Hst. pose proof (lives_bootable cfg fs Hap Hl) as Hb.
  destruct (main_start cfg argv listens io fs a Hap Hb Ha Hp Hst) as (f & fs1 & Hm & Hr & Hseq & Hok & _).
  exists f, fs1. split; [done|]. split; [done|]. intros evs s saved Hrun Hpr.
  destruct (crash_boot op_covering cfg f fs1 evs s saved 0 Hap Hr Hok Hrun Hpr) as (_ & Hr' & _).
  split; [done|]. intros k p Hk. by apply covering_capacity.
Qed.

(** ** Overlapping saves *)

Lemma sys_run_cons cfg e evs s s1 o s2 os :
  sys_exec cfg e s = Some (s1, o) -> sys_run cfg evs s1 = Some (s2, os) ->
  sys_run cfg (e :: evs) s = Some (s2, option_list o ++ os).
Proof. intros H1 H2. simpl. rewrite H1. simpl. by rewrite H2. Qed.

(** One step of a save that is not its last. *)
Lemma save_goes_on cfg th ch s st payload ph ph' fs' :
  sy_status s = PsRunning -> sy_tasks s !! th = Some (TSave st payload ph) ->
  write_exec (cfg_persist cfg) payload ch (ph, sy_fs s) = Some (ph', fs') ->
  (forall r, ph' <> WDone r) ->
  sys_exec cfg (SvIo th ch) s = Some (keep_task s th (TSave st payload ph') fs', None).
Proof.
  intros Hs Ht Hw Hr. unfold sys_exec, io_exec. rewrite Hs, Ht, Hw. cbn.
  destruct ph'; try done. by destruct (Hr r).
Qed.

Lemma save_ends cfg th ch s st payload ph fs' :
  sy_status s = PsRunning -> sy_tasks s !! th = Some (TSave st payload ph) ->
  write_exec (cfg_persist cfg) payload ch (ph, sy_fs s) = Some (WDone WrOk, fs') ->
  sys_exec cfg (SvIo th ch) s = Some (end_task s th fs', Some st).
Proof. intros Hs Ht Hw. unfold sys_exec, io_exec. by rewrite Hs, Ht, Hw. Qed.

(** The process is told to stop: the main thread begins the last save. *)
Definition stopping (s : System) (payload : bytes) : System :=
  let c := sy_coord s in
  mkSystem (mkCoord (co_fabric c) false (co_workers c) (co_conns c) (co_mutex c) (co_accept c) false)
    (<[None := TSave (export_persisted (co_fabric c)) payload WStart]> (sy_tasks s)) (sy_fs s) PsRunning.

Lemma stop_begins cfg s payload :
  sy_status s = PsRunning -> co_main (sy_coord s) = true -> sy_tasks s !! None = None ->
  cfg_persist cfg <> "" -> serialize_state (export_persisted (co_fabric (sy_coord s))) = inr payload ->
  sys_run cfg [SvThread EvSignal; SvThread EvMain] s = Some (stopping s payload, []).
Proof.
  intros Hs Hm Ht Hp Hser. destruct s as [c tasks fs stt]. cbn in *. subst stt.
  unfold sys_exec, thread_exec. cbn. unfold status_of. cbn. rewrite Hm. cbn.
  rewrite bool_decide_true by done. unfold stop_output. cbn.
  destruct (String.eqb_spec (cfg_persist cfg) "") as [|_]; [done|]. cbn. rewrite Hser. cbn.
  unfold stopping, status_of. cbn. rewrite bool_decide_false; [done|]. by rewrite lookup_insert_eq.
Qed.

(** A save of the main thread up to the point where the temporary file is closed. *)
Lemma save_closes cfg th s st payload :
  sy_status s = PsRunning -> sy_tasks s !! th = Some (TSave st payload WStart) ->
  fs_ok (sy_fs s) -> bsize payload <= kMaxPersistPayload ->
  exists calls i fs',
    sys_run cfg (SvIo th <$> calls) s = Some (keep_task s th (TSave st payload WClosed) fs', []) /\
    fs_names fs' !! tmp_of (cfg_persist cfg) = Some i.
Proof.
  intros Hs Ht Hok Hsz. set (tmp := tmp_of (cfg_persist cfg)). set (file := persist_file payload).
  destruct (fs_open_trunc (sy_fs s) tmp) as [i fs1] eqn:Ho.
  destruct (open_untouched _ _ _ _ Hok Ho) as (_ & Hn & _).
  exists [IoOpen; IoWrite (length file); IoClose], i,
    (fs_write fs1 i 0 file). split; [|done].
  set (s1 := keep_task s th (TSave st payload (WWriting i 0)) fs1).
  set (s2 := keep_task s1 th (TSave st payload (WWriting i (0 + length file))) (fs_write fs1 i 0 file)).
  apply (sys_run_cons _ _ _ _ s1 None _ []).
  { apply save_goes_on with (ph := WStart); try done. cbn [write_exec sy_fs].
    rewrite bool_decide_false by lia. unfold tmp in Ho. by rewrite Ho. }
  apply (sys_run_cons _ _ _ _ s2 None _ []).
  { apply save_goes_on with (ph := WWriting i 0); try done; [by apply lookup_insert_eq|].
    cbn [write_exec sy_fs s1 keep_task]. fold file. rewrite bool_decide_true by lia.
    by rewrite drop_0, take_ge. }
  apply (sys_run_cons _ _ _ _ (keep_task s2 th (TSave st payload WClosed) (fs_write fs1 i 0 file)) None _ []).
  { apply save_goes_on with (ph := WWriting i (0 + length file)); try done; [by apply lookup_insert_eq|].
    cbn [write_exec sy_fs s2 keep_task]. fold file. by rewrite bool_decide_true. }
  cbn [sys_run]. unfold s2, s1, keep_task. cbn [sy_coord sy_tasks sy_status].
  by rewrite !insert_insert_eq.
Qed.

Lemma sys_run_app cfg evs evs' s s1 os1 s2 os2 :
  sys_run cfg evs s = Some (s1, os1) -> sys_run cfg evs' s1 = Some (s2, os2) ->
  sys_run cfg (evs ++ evs') s = Some (s2, os1 ++ os2).
Proof.
  revert s os1. induction evs as [|e evs IH]; intros s os1 H1 H2; simpl in *; [by simplify_eq|].
  destruct (sys_exec cfg e s) as [[s' o]|]; simpl in *; [|done].
  destruct (sys_run cfg evs s') as [[s'' os]|] eqn:Hr; simpl in *; [|done]. simplify_eq.
  rewrite (IH s' os Hr H2). simpl. by rewrite app_assoc.
Qed.

(** The second writer opens the closed temporary file of the first, who then renames it. *)
Lemma reopen_and_rename fs path i :
  fs_names fs !! tmp_of path = Some i ->
  exists fs1 fs2, fs_open_trunc fs (tmp_of path) = (i, fs1) /\
    fs_rename fs1 (tmp_of path) path = Some fs2 /\ fs_read fs2 path = Some [].
Proof.
  intros Hn. unfold fs_open_trunc. rewrite Hn. eexists _, _. split; [done|].
  unfold fs_rename. simpl. rewrite Hn. simpl. split; [done|]. unfold fs_read. simpl.
  rewrite lookup_insert_eq. simpl. by rewrite lookup_insert_eq.
Qed.

Lemma boot_empty epoch path fs :
  fs_read fs path = Some [] ->
  read_persisted fs path = inl "truncated header" /\
  coordinator_boot epoch path fs = Some (fabric_init (mkGen epoch) (mkGen 1)).
Proof.
  intros Hr. assert (read_persisted fs path = inl "truncated header") as Hread
    by (unfold read_persisted; by rewrite Hr).
  split; [done|]. unfold coordinator_boot. rewrite Hread. by case_match.
Qed.

(** C36. A clean shutdown can leave an empty snapshot. One worker is enough: at whatever
    point of whatever run a connection's thread is about to write what it persists, a
    signal can stop the process so that the last save of the main thread and that of the
    connection share the temporary file. The main thread announces its state as persisted
    and [main] returns 0, while the file at the path is empty; the state saved before is
    gone, and the next process rejects the file and starts with an empty engine. *)
Theorem shutdown_loses_snapshot cfg s n st payload epoch :
  sy_status s = PsRunning -> co_main (sy_coord s) = true -> sy_tasks s !! None = None ->
  sy_tasks s !! Some n = Some (TSave st payload WStart) -> bsize payload <= kMaxPersistPayload ->
  fs_ok (sy_fs s) -> cfg_persist cfg <> "" ->
  state_fits (export_persisted (co_fabric (sy_coord s))) ->
  bsize (serialize_body (export_persisted (co_fabric (sy_coord s)))) + 4 <= kMaxPersistPayload ->
  exists evs s',
    sys_run cfg evs s = Some (s', [export_persisted (co_fabric (sy_coord s))]) /\
    sy_status s' = PsReturned /\
    read_persisted (sy_fs s') (cfg_persist cfg) = inl "truncated header" /\
    coordinator_boot epoch (cfg_persist cfg) (sy_fs s') = Some (fabric_init (mkGen epoch) (mkGen 1)).
Proof.
  intros Hs Hm Hmain Ht Hsz Hok Hp Hfit Hbody. set (last := export_persisted _) in *.
  set (pl := sealed (serialize_body last)).
  assert (bsize pl <= kMaxPersistPayload) as Hpl
    by (unfold pl, sealed; rewrite bsize_app, bsize_put_u32; lia).
  pose proof (stop_begins cfg s pl Hs Hm Hmain Hp (serialize_state_fits last Hfit)) as Hstop.
  set (s1 := stopping s pl) in *.
  destruct (save_closes cfg None s1 last pl) as (calls & i & fs2 & Hclose & Hname);
    [done | apply lookup_insert_eq | done | done |].
  set (s2 := keep_task s1 None (TSave last pl WClosed) fs2) in *.
  destruct (reopen_and_rename fs2 (cfg_persist cfg) i Hname) as (fs3 & fs4 & Hopen & Hren & Hread).
  set (s3 := keep_task s2 (Some n) (TSave st payload (WWriting i 0)) fs3).
  assert (sys_exec cfg (SvIo (Some n) IoOpen) s2 = Some (s3, None)) as H3.
  { apply save_goes_on with (ph := WStart); try done.
    - unfold s2, s1. cbn [sy_tasks keep_task stopping]. by rewrite !lookup_insert_ne.
    - unfold s2. cbn [write_exec sy_fs keep_task]. rewrite bool_decide_false by lia. by rewrite Hopen. }
  assert (sys_exec cfg (SvIo None IoRename) s3 = Some (end_task s3 None fs4, Some last)) as H4.
  { apply save_ends with (payload := pl) (ph := WClosed); [done| |].
    - unfold s3, s2. cbn [sy_tasks keep_task]. rewrite lookup_insert_ne by done. apply lookup_insert_eq.
    - unfold s3. cbn [write_exec sy_fs keep_task]. by rewrite Hren. }
  exists ([SvThread EvSignal; SvThread EvMain] ++ (SvIo None <$> calls) ++ [SvIo (Some n) IoOpen; SvIo None IoRename]),
    (end_task s3 None fs4).
  destruct (boot_empty epoch (cfg_persist cfg) fs4 Hread) as [Hr Hb].
  split_and!; [| |exact Hr|exact Hb].
  - apply (sys_run_app _ _ _ _ _ _ _ [last] Hstop). apply (sys_run_app _ _ _ _ _ _ _ [last] Hclose).
    apply (sys_run_cons _ _ _ _ _ None _ [last] H3). exact (sys_run_cons _ _ [] _ _ _ _ [] H4 eq_refl).
  - unfold end_task, status_of. cbn [sy_status sy_coord]. rewrite bool_decide_true; [done|].
    apply lookup_delete_eq.
Qed.

(** ** Runs *)

Definition with_snapshot : CoordConfig := mkConfig "state.bin" "".
Definition empty_disk : FileSystem := mkFS ∅ ∅.
Definition new_process : System := system_start (fabric_init (mkGen 1) (mkGen 1)) empty_disk.

(** A connection announces itself and publishes a device; its thread runs up to the save. *)
Definition publishing (n : nat) (boot : string) (d : CxlDevice) : list SysEvent :=
  SvThread <$> connect n boot ++ [EvRecv n (device_frame d)] ++ replicate 7 (EvRun n).

(** The system calls of a save whose file has this length. *)
Definition save_calls (n len : nat) : list SysEvent :=
  SvIo (Some n) <$> [IoOpen; IoWrite 5; IoWrite (len - 5); IoClose; IoRename].

(** Where a run ends, and what it announces. *)
Definition ends (evs : list SysEvent) : System :=
  match sys_run with_snapshot evs new_process with Some (s, _) => s | None => new_process end.
Definition announced (evs : list SysEvent) : list PersistedState :=
  match sys_run with_snapshot evs new_process with Some (_, saved) => saved | None => [] end.

Lemma ends_announced evs :
  bool_decide (is_Some (sys_run with_snapshot evs new_process)) = true ->
  sys_run with_snapshot evs new_process = Some (ends evs, announced evs).
Proof.
  unfold ends, announced. intros H%bool_decide_eq_true. destruct (sys_run _ _ _) as [[s saved]|]; [done|].
  by destruct H.
Qed.

(** A worker publishes its device, which is saved, and publishes it again; the process is
    stopped when five bytes of the second save have reached the temporary file. *)
Definition crashing : list SysEvent :=
  publishing 0 "w-0" (worker_device "w-0") ++ save_calls 0 283 ++
  (SvThread <$> [EvRun 0; EvLoop 0; EvRecv 0 (device_frame (worker_device "w-0"))] ++
                replicate 7 (EvRun 0)) ++
  [SvIo (Some 0%nat) IoOpen; SvIo (Some 0%nat) (IoWrite 5)].

Definition published_state : PersistedState :=
  export_persisted (co_fabric (sy_coord (ends (publishing 0 "w-0" (worker_device "w-0"))))).

Lemma crashing_saved : announced crashing = [published_state].
Proof. vm_compute. reflexivity. Qed.

Lemma published_fits : state_fits published_state.
Proof. fits_by_computation. Qed.

Lemma publishing_sane n boot d : Forall sys_event_sane (publishing n boot d).
Proof.
  unfold publishing, connect. repeat (apply Forall_cons; split); try exact I; [|by constructor].
  apply frame_sane_other; [done | apply encode_device_ok].
Qed.

Lemma save_calls_sane n len : Forall sys_event_sane (save_calls n len).
Proof. repeat constructor. Qed.

Lemma crashing_proper : proper_run with_snapshot new_process crashing (announced crashing).
Proof.
  split.
  - vm_compute. reflexivity.
  - apply Forall_app; split; [apply publishing_sane|]. apply Forall_app; split; [apply save_calls_sane|].
    repeat (apply Forall_cons; split); try exact I; [|by constructor].
    apply frame_sane_other; [done | apply encode_device_ok].
  - vm_compute. discriminate.
  - rewrite crashing_saved. apply Forall_singleton. exact published_fits.
Qed.

Lemma with_snapshot_apart : files_apart with_snapshot.
Proof. split_and!; discriminate. Qed.

Lemma crash_recovers_witness :
  exists f', coordinator_boot 2 "state.bin" (sy_fs (ends crashing)) = Some f' /\
    reachable op_wf f' /\ is_Some (st_devices (state_ f') !! mkId "dev-1").
Proof.
  destruct (crash_recovers with_snapshot (fabric_init (mkGen 1) (mkGen 1)) empty_disk crashing
    (ends crashing) (announced crashing) 2) as [_ H].
  - exact with_snapshot_apart.
  - constructor.
  - exact fs_ok_empty.
  - apply ends_announced. vm_compute. reflexivity.
  - exact crashing_proper.
  - rewrite crashing_saved in H. cbn [last] in H. destruct H as (_ & f' & Hb & He & Hr).
    exists f'. split; [exact Hb|]. split; [exact Hr|]. rewrite He. refine (bool_decide_unpack _ _).
    vm_compute. exact I.
Defined.

(** A second life, started with the same files after the crash. *)
Lemma guarantees_in_every_life_witness :
  exists f fs1,
    coordinator_main ["--persist"; "state.bin"; "--epoch"; "2"] true io_good (sy_fs (ends crashing)) =
      MServes with_snapshot (system_start f fs1) /\ reachable op_covering f.
Proof.
  assert (lives with_snapshot (sy_fs (ends crashing))) as Hl.
  { apply (lives_served with_snapshot empty_disk ["--persist"; "state.bin"] io_good new_process crashing
             (ends crashing) (announced crashing)).
    - apply lives_new; [exact fs_ok_empty | vm_compute; reflexivity].
    - vm_compute. reflexivity.
    - apply ends_announced. vm_compute. reflexivity.
    - exact crashing_proper. }
  destruct (guarantees_in_every_life with_snapshot _ ["--persist"; "state.bin"; "--epoch"; "2"] true io_good
    (mkCoordArgs 17777 2 "state.bin" "") with_snapshot_apart Hl) as (f & fs1 & Hm & Hseq & Hall);
    [vm_compute; reflexivity | reflexivity | reflexivity |].
  exists f, fs1. split; [exact Hm|]. destruct (Hall [] (system_start f fs1) []) as [Hr _].
  - reflexivity.
  - split; [reflexivity | constructor | | constructor].
    cbn [sy_coord system_start coord_init co_fabric]. rewrite Hseq. discriminate.
  - exact Hr.
Defined.

Lemma shutdown_loses_snapshot_witness :
  exists evs s',
    sys_run with_snapshot evs (ends (publishing 0 "w-0" (worker_device "w-0"))) = Some (s', [published_state]) /\
    sy_status s' = PsReturned /\ read_persisted (sy_fs s') "state.bin" = inl "truncated header".
Proof.
  destruct (shutdown_loses_snapshot with_snapshot (ends (publishing 0 "w-0" (worker_device "w-0"))) 0
    published_state (sealed (serialize_body published_state)) 2) as (evs & s' & Hrun & Hst & Hr & _).
  - vm_compute. reflexivity.
  - vm_compute. reflexivity.
  - vm_compute. reflexivity.
  - vm_compute. reflexivity.
  - vm_compute. discriminate.
  - replace (sy_fs _) with empty_disk by (vm_compute; reflexivity). exact fs_ok_empty.
  - discriminate.
  - exact published_fits.
  - vm_compute. discriminate.
  - exists evs, s'. exact (conj Hrun (conj Hst Hr)).
Defined.

(** ** A save overtaken by another *)

(** A step of the thread [th] of a running process. *)
Lemma thread_step cfg ev th s c' o :
  sy_status s = PsRunning -> event_thread ev = Some th -> sy_tasks s !! th = None ->
  co_main c' = true -> coord_exec cfg ev (sy_coord s) = Some (c', o) ->
  sys_exec cfg (SvThread ev) s =
    Some (mkSystem c' (match begin_task o with Some t => <[th := t]> (sy_tasks s) | None => sy_tasks s end)
            (sy_fs s) PsRunning, None).
Proof.
  intros Hs He Ht Hm Hc. unfold sys_exec, thread_exec. rewrite Hs, He, bool_decide_true by done.
  rewrite Hc. cbn [mbind option_bind]. unfold status_of. by rewrite Hm.
Qed.

(** The main thread stays where it is unless it is its turn. *)
Lemma coord_exec_main cfg ev c c' o :
  coord_exec cfg ev c = Some (c', o) -> ev <> EvMain -> co_main c' = co_main c.
Proof.
  intros Hex Hne. destruct ev; try done; cbn [coord_exec] in Hex; repeat case_match; simplify_eq;
    try done; unfold begin_death; repeat case_match; done.
Qed.

(** Steps of a connection before it saves. *)
Lemma thread_steps cfg n evs s c' os :
  sy_status s = PsRunning -> sy_tasks s = ∅ -> co_main (sy_coord s) = true ->
  Forall (fun ev => event_thread ev = Some (Some n)) evs ->
  coord_run cfg evs (sy_coord s) = Some (c', os) -> Forall (fun o => begin_task (Some o) = None) os ->
  sys_run cfg (SvThread <$> evs) s = Some (mkSystem c' ∅ (sy_fs s) PsRunning, []) /\ co_main c' = true.
Proof.
  revert s os. induction evs as [|ev evs IH]; intros s os Hs Ht Hm Hevs Hrun Hos; simpl in Hrun.
  { simplify_eq. destruct s. simpl in *. by subst. }
  apply Forall_cons in Hevs as [Hth Hevs]. assert (ev <> EvMain) as Hne by by intros ->.
  destruct (coord_exec cfg ev (sy_coord s)) as [[c1 o]|] eqn:Hex; simpl in Hrun; [|done].
  destruct (coord_run cfg evs c1) as [[c2 os2]|] eqn:Hr; simpl in Hrun; [|done]. simplify_eq.
  apply Forall_app in Hos as [Ho Hos].
  assert (co_main c1 = true) as Hm1 by (rewrite <- Hm; by eapply coord_exec_main).
  assert (begin_task o = None) as Hb by (destruct o; [exact (proj1 (Forall_singleton _ _) Ho) | done]).
  pose proof (thread_step cfg ev (Some n) s c1 o Hs Hth) as Hstep. rewrite Ht, Hb in Hstep.
  destruct (IH (mkSystem c1 ∅ (sy_fs s) PsRunning) os2) as [Hrest Hm2]; try done.
  split; [|done]. rewrite fmap_cons. apply (sys_run_cons _ _ _ _ _ None _ []) with (2 := Hrest).
  by apply Hstep.
Qed.

(** A whole save, while nobody else saves. *)
Lemma save_whole cfg th s st payload :
  sy_status s = PsRunning -> sy_tasks s = {[th := TSave st payload WStart]} ->
  co_main (sy_coord s) = true -> fs_ok (sy_fs s) -> bsize payload <= kMaxPersistPayload ->
  exists calls fs', sys_run cfg (SvIo th <$> calls) s = Some (mkSystem (sy_coord s) ∅ fs' PsRunning, [st]).
Proof.
  intros Hs Ht Hm Hok Hsz.
  destruct (save_closes cfg th s st payload) as (calls & i & fs1 & Hrun & Hname); try done.
  { rewrite Ht. apply lookup_singleton_eq. }
  assert (exists fs2, fs_rename fs1 (tmp_of (cfg_persist cfg)) (cfg_persist cfg) = Some fs2) as [fs2 Hren].
  { unfold fs_rename. rewrite Hname. by eexists. }
  exists (calls ++ [IoRename]), fs2. rewrite fmap_app.
  apply (sys_run_app _ _ _ _ _ _ _ [st] Hrun).
  assert (mkSystem (sy_coord s) ∅ fs2 PsRunning = end_task (keep_task s th (TSave st payload WClosed) fs1) th fs2)
    as ->.
  { unfold end_task, keep_task, status_of. cbn [sy_coord sy_tasks]. rewrite Ht, Hm.
    by rewrite delete_insert_eq, delete_singleton_eq. }
  eapply (sys_run_cons _ _ [] _ _ (Some st) _ []); [|reflexivity].
  apply save_ends with (payload := payload) (ph := WClosed); [done | apply lookup_insert_eq |].
  cbn [write_exec sy_fs keep_task]. by rewrite Hren.
Qed.

(** A connection waits for a frame and the frame publishes a device: the program runs up to
    the save. *)
Section Publishing.
Context (cfg : CoordConfig) (c : Coordinator) (m : nat) (ws : WorkerState) (key : string).
Context (fr : Frame) (d : CxlDevice) (len : Z).
Context (Hpersist : cfg_persist cfg <> "").
Context (Hm : co_conns c !! m = Some (mkConn ws (PhReading key))).
Context (Htype : fr_type fr = FT_PUBLISH_DEVICE).
Context (Hdec : decode_device (fr_payload fr) device_default = Got d len).

Let f := co_fabric c.
Let ctx := mkContext (epoch f) (policy_generation f) (wk_boot ws) (mkGen 1).

Lemma busy_run o evs t t' p p' c' os :
  prog_next p t = Some (p', t', o) ->
  coord_run cfg evs (set_thread c m t' (PhBusy key p')) = Some (c', os) ->
  coord_run cfg (EvRun m :: evs) (set_thread c m t (PhBusy key p)) = Some (c', option_list o ++ os).
Proof.
  intros Hn. apply coord_run_cons. apply exec_run; [by exists key; left | done].
Qed.

Lemma publishing_runs f' :
  register_device f d ctx = (DecisionReason_OK, f') ->
  coord_run cfg (EvRecv m fr :: replicate 6 (EvRun m)) c =
    Some (set_thread c m (mkThread f' (push_device ws (dev_id d)) (co_running c))
            (PhBusy key (PPersist (export_persisted f') (write_statefile cfg PDone))),
          [OSend (ack_frame DecisionReason_OK)]).
Proof.
  intros Hreg. set (t := mkThread f ws (co_running c)).
  apply (coord_run_cons _ _ _ _ (set_thread c m t (PhBusy key (dispatch cfg (wk_boot ws) fr))) None).
  { cbn [coord_exec]. by rewrite Hm. }
  unfold dispatch, dispatch_switch, persists_after, maybe_persist. rewrite Htype, Hdec.
  rewrite bool_decide_true by set_solver.
  destruct (String.eqb_spec (cfg_persist cfg) "") as [|_]; [done|].
  do 2 (eapply (busy_run None); [reflexivity|]). cbn beta.
  eapply (busy_run None).
  { cbn [prog_next call_fabric th_fabric t]. fold ctx. rewrite Hreg. reflexivity. }
  rewrite bool_decide_true by done. unfold send_ack.
  eapply (busy_run None); [reflexivity|].
  eapply (busy_run (Some _) _ _ _ _ _ _ []); [reflexivity|].
  eapply (busy_run None _ _ _ _ _ _ []); [reflexivity|]. cbn [replicate coord_run th_fabric call_fabric].
  unfold write_statefile. by destruct (String.eqb _ _).
Qed.
End Publishing.

(** A state the format can hold. *)
Definition saveable (st : PersistedState) : Prop :=
  state_fits st /\ bsize (serialize_body st) + 4 <= kMaxPersistPayload.

Lemma saveable_payload st :
  saveable st -> serialize_state st = inr (sealed (serialize_body st)) /\
                 bsize (sealed (serialize_body st)) <= kMaxPersistPayload.
Proof.
  intros [Hfit Hsz]. split; [by apply serialize_state_fits|].
  unfold sealed. rewrite bsize_app, bsize_put_u32. lia.
Qed.

Lemma solo_run_app cfg evs evs' s s1 os :
  solo_run cfg evs s = true -> sys_run cfg evs s = Some (s1, os) -> solo_run cfg evs' s1 = true ->
  solo_run cfg (evs ++ evs') s = true.
Proof.
  revert s os. induction evs as [|e evs IH]; intros s os Hs Hr Hs'; simpl in *; [by simplify_eq|].
  apply andb_true_iff in Hs as [-> Hs]. destruct (sys_exec cfg e s) as [[s2 o]|]; simpl in *; [|done].
  destruct (sys_run cfg evs s2) as [[s3 os3]|] eqn:Hr2; simpl in *; [|done]. simplify_eq. by eapply IH.
Qed.

(** The steps of one connection while nobody saves, itself included. *)
Lemma quiet_solo cfg n evs s s' saved :
  sy_tasks s = ∅ -> Forall (fun ev => event_thread ev = Some (Some n)) evs ->
  sys_run cfg (SvThread <$> evs) s = Some (s', saved) -> solo_run cfg (SvThread <$> evs) s = true.
Proof.
  intros Ht Hev Hrun. eapply (one_worker_solo cfg n); [|by rewrite Ht, dom_empty|exact Hrun].
  apply Forall_fmap. eapply Forall_impl; [exact Hev|]. intros ev He. by right.
Qed.

Lemma exec_persist cfg c n ws key st k :
  co_conns c !! n = Some (mkConn ws (PhBusy key (PPersist st k))) ->
  coord_exec cfg (EvRun n) c = Some (set_conn c n ws (PhBusy key k), Some (OPersist st)).
Proof. intros Hn. cbn [coord_exec]. by rewrite Hn. Qed.

Lemma exec_export cfg c n ws key :
  cfg_persist cfg <> "" -> co_conns c !! n = Some (mkConn ws (PhBusy key (maybe_persist cfg PDone))) ->
  coord_exec cfg (EvRun n) c =
    Some (set_conn c n ws (PhBusy key (PPersist (export_persisted (co_fabric c)) (write_statefile cfg PDone))),
          None).
Proof.
  intros Hp Hn. cbn [coord_exec]. rewrite Hn. unfold maybe_persist.
  destruct (String.eqb_spec (cfg_persist cfg) "") as [|_]; [done|]. simpl.
  unfold write_statefile. by destruct (String.eqb _ _).
Qed.

(** A connection about to save does it, with nobody in between. *)
Lemma saves_at_once cfg s n ws key st k :
  files_apart cfg -> sy_status s = PsRunning -> sy_tasks s = ∅ -> co_main (sy_coord s) = true ->
  fs_ok (sy_fs s) -> co_conns (sy_coord s) !! n = Some (mkConn ws (PhBusy key (PPersist st k))) ->
  saveable st ->
  exists calls fs', let evs := SvThread (EvRun n) :: (SvIo (Some n) <$> calls) in
    sys_run cfg evs s =
      Some (mkSystem (set_conn (sy_coord s) n ws (PhBusy key k)) ∅ fs' PsRunning, [st]) /\
    solo_run cfg evs s = true /\ fs_ok fs' /\
    fs_read fs' (cfg_persist cfg) = Some (persist_file (sealed (serialize_body st))).
Proof.
  intros (_ & Hst & Htmp) Hs Ht Hm Hok Hn Hsv. destruct (saveable_payload st Hsv) as [Hser Hsz].
  set (c1 := set_conn (sy_coord s) n ws (PhBusy key k)).
  set (s1 := mkSystem c1 {[Some n := TSave st (sealed (serialize_body st)) WStart]} (sy_fs s) PsRunning).
  assert (sys_exec cfg (SvThread (EvRun n)) s = Some (s1, None)) as H1.
  { rewrite (thread_step cfg _ (Some n) s c1 (Some (OPersist st)));
      [cbn [begin_task]; by rewrite Hser, Ht | done | done | by rewrite Ht | done | by apply exec_persist]. }
  destruct (save_whole cfg (Some n) s1 st (sealed (serialize_body st))) as (calls & fs' & Hcalls); try done.
  exists calls, fs'. cbv zeta.
  pose proof (sys_run_cons _ _ _ _ _ _ _ _ H1 Hcalls) as Hrun. split; [exact Hrun|].
  assert (solo_run cfg (SvThread (EvRun n) :: (SvIo (Some n) <$> calls)) s = true) as Hsolo.
  { eapply (one_worker_solo cfg n); [|by rewrite Ht, dom_empty|exact Hrun].
    constructor; [by right|]. apply Forall_fmap, Forall_forall. done. }
  assert (files_inv cfg s) as Hinv by (split; [done|]; rewrite Ht; by apply map_Forall_empty).
  destruct (sys_run_files cfg Hst Htmp _ _ _ _ Hsolo Hinv Hrun) as [[Hok' _] (payload & Hp & _ & Hread)].
  split_and!; [done..|]. rewrite Hser in Hp. by simplify_eq.
Qed.

(** What the threads do in a run. *)
Definition thread_events (evs : list SysEvent) : list CoordEvent :=
  omap (fun e => match e with SvThread ev => Some ev | SvIo _ _ => None end) evs.

Lemma thread_events_threads evs : thread_events (SvThread <$> evs) = evs.
Proof. unfold thread_events. induction evs as [|ev evs IH]; simpl; [done | by f_equal]. Qed.
Lemma thread_events_calls th calls : thread_events (SvIo th <$> calls) = [].
Proof. unfold thread_events. by induction calls. Qed.
Lemma thread_events_cons ev evs : thread_events (SvThread ev :: evs) = ev :: thread_events evs.
Proof. done. Qed.
Lemma thread_events_app evs evs' : thread_events (evs ++ evs') = thread_events evs ++ thread_events evs'.
Proof. apply omap_app. Qed.

(** The run: [n] exports the state, [m] handles a frame and saves, [n] saves. *)
Definition overtaken (n m : nat) (fr : Frame) (calls calls' : list IoChoice) : list SysEvent :=
  (SvThread <$> [EvRun n]) ++ (SvThread <$> EvRecv m fr :: replicate 6 (EvRun m)) ++
  (SvThread (EvRun m) :: (SvIo (Some m) <$> calls)) ++
  (SvThread (EvRun n) :: (SvIo (Some n) <$> calls')).

Lemma overtaken_threads n m fr calls calls' :
  thread_events (overtaken n m fr calls calls') =
    EvRun n :: (EvRecv m fr :: replicate 6 (EvRun m)) ++ [EvRun m; EvRun n].
Proof.
  unfold overtaken. rewrite !thread_events_app, !thread_events_threads.
  by rewrite !thread_events_cons, !thread_events_calls.
Qed.

Definition engine_of (s : System) : Fabric := co_fabric (sy_coord s).

(** The context of a request that comes from the worker [ws]. *)
Definition request_ctx (f : Fabric) (ws : WorkerState) : AuthorityContext :=
  mkContext (epoch f) (policy_generation f) (wk_boot ws) (mkGen 1).

(** One connection is about to export the state and save it, another waits for a frame. *)
Record about_to_save (cfg : CoordConfig) (s : System) (n m : nat) (ws : WorkerState) (key : string)
    (ws' : WorkerState) (key' : string) : Prop := {
  as_running : sy_status s = PsRunning;
  as_main : co_main (sy_coord s) = true;
  as_idle : sy_tasks s = ∅;
  as_files : fs_ok (sy_fs s);
  as_ne : n <> m;
  as_first : co_conns (sy_coord s) !! n = Some (mkConn ws (PhBusy key (maybe_persist cfg PDone)));
  as_second : co_conns (sy_coord s) !! m = Some (mkConn ws' (PhReading key'));
}.

Lemma overtaken_runs cfg s n m ws key ws' key' fr d len f' :
  files_apart cfg -> about_to_save cfg s n m ws key ws' key' ->
  fr_type fr = FT_PUBLISH_DEVICE -> decode_device (fr_payload fr) device_default = Got d len ->
  register_device (engine_of s) d (request_ctx (engine_of s) ws') = (DecisionReason_OK, f') ->
  saveable (export_persisted (engine_of s)) -> saveable (export_persisted f') ->
  exists calls calls' s',
    sys_run cfg (overtaken n m fr calls calls') s =
      Some (s', [export_persisted f'; export_persisted (engine_of s)]) /\
    coord_run cfg (thread_events (overtaken n m fr calls calls')) (sy_coord s) =
      Some (sy_coord s', [OSend (ack_frame DecisionReason_OK); OPersist (export_persisted f');
                          OPersist (export_persisted (engine_of s))]) /\
    solo_run cfg (overtaken n m fr calls calls') s = true /\
    sy_status s' = PsRunning /\ sy_tasks s' = ∅ /\ engine_of s' = f' /\
    fs_read (sy_fs s') (cfg_persist cfg) =
      Some (persist_file (sealed (serialize_body (export_persisted (engine_of s))))).
Proof.
  intros Hap [Hs Hmain Ht Hok Hne Hn Hm] Htype Hdec Hreg Hsv Hsv'. pose proof Hap as (Hp & _).
  set (sf := write_statefile cfg PDone). set (older := export_persisted (engine_of s)) in *.
  set (c0 := set_conn (sy_coord s) n ws (PhBusy key (PPersist older sf))).
  assert (coord_exec cfg (EvRun n) (sy_coord s) = Some (c0, None)) as H0 by by apply exec_export.
  assert (co_conns c0 !! m = Some (mkConn ws' (PhReading key'))) as Hm0
    by (simpl; by rewrite lookup_insert_ne).
  pose proof (publishing_runs cfg c0 m ws' key' fr d len Hp Hm0 Htype Hdec f' Hreg) as H1.
  set (c1 := set_thread c0 m _ _) in H1.
  destruct (thread_steps cfg n [EvRun n] s c0 []) as [R0 M0]; try done; [by repeat constructor| |].
  { exact (coord_run_cons _ _ [] _ _ None _ [] H0 eq_refl). }
  set (s0 := mkSystem c0 ∅ (sy_fs s) PsRunning) in R0.
  destruct (thread_steps cfg m (EvRecv m fr :: replicate 6 (EvRun m)) s0 c1
    [OSend (ack_frame DecisionReason_OK)] eq_refl eq_refl M0) as [R1 M1];
    [by repeat constructor | exact H1 | by repeat constructor |].
  set (s1 := mkSystem c1 ∅ _ PsRunning) in R1.
  destruct (saves_at_once cfg s1 m (push_device ws' (dev_id d)) key' (export_persisted f') sf)
    as (calls & fs2 & R2 & S2 & Hok2 & _); try done; [apply lookup_insert_eq|].
  set (c2 := set_conn (sy_coord s1) m _ _) in R2. set (s2 := mkSystem c2 ∅ fs2 PsRunning) in R2.
  assert (co_conns c2 !! n = Some (mkConn ws (PhBusy key (PPersist older sf)))) as Hn2.
  { simpl. rewrite !lookup_insert_ne by done. apply lookup_insert_eq. }
  destruct (saves_at_once cfg s2 n ws key older sf) as (calls' & fs3 & R3 & S3 & _ & Hread); try done.
  exists calls, calls', (mkSystem (set_conn c2 n ws (PhBusy key sf)) ∅ fs3 PsRunning).
  split_and!; try done.
  - exact (sys_run_app _ _ _ _ _ _ _ _ R0 (sys_run_app _ _ _ _ _ _ _ _ R1 (sys_run_app _ _ _ _ _ _ _ _ R2 R3))).
  - rewrite overtaken_threads. apply (coord_run_cons _ _ _ _ _ None _ _ H0).
    apply (coord_run_app _ _ _ _ _ _ _ [_; _] H1).
    eapply (coord_run_cons _ _ _ _ _ (Some _) _ [_]); [apply exec_persist, lookup_insert_eq|].
    exact (coord_run_cons _ _ [] _ _ (Some _) _ [] (exec_persist cfg c2 n _ _ _ _ Hn2) eq_refl).
  - unfold overtaken. eapply solo_run_app; [|exact R0|eapply solo_run_app; [|exact R1|
      eapply solo_run_app; [exact S2|exact R2|exact S3]]].
    + eapply (quiet_solo cfg n); [done | by repeat constructor | exact R0].
    + eapply (quiet_solo cfg m); [done | by repeat constructor | exact R1].
Qed.

(** C37. An older state can be saved over a newer one without any overlap, at any time: what
    is saved is exported before, in steps of its own, and nothing orders the two. Whenever a
    connection is about to export the state and save it while nobody saves, and another one
    waits for a frame, then for every frame that publishes a device not known yet that the
    engine accepts, there is a run without overlapping saves in which the second worker is told
    that its device was accepted, the new state is exported later and saved first, and
    the state from before it is saved last. Both saves are announced, in this order; the
    engine has the device; and a process started after the first was stopped there boots from the older state and does not have it. *)
Theorem older_save_wins cfg s n m ws key ws' key' fr d len f' epoch :
  files_apart cfg -> about_to_save cfg s n m ws key ws' key' ->
  fr_type fr = FT_PUBLISH_DEVICE -> decode_device (fr_payload fr) device_default = Got d len ->
  st_devices (state_ (engine_of s)) !! dev_id d = None ->
  register_device (engine_of s) d (request_ctx (engine_of s) ws') = (DecisionReason_OK, f') ->
  saveable (export_persisted (engine_of s)) -> saveable (export_persisted f') ->
  let newer := export_persisted f' in
  let older := export_persisted (engine_of s) in
  exists evs s' f2,
    sys_run cfg evs s = Some (s', [newer; older]) /\ solo_run cfg evs s = true /\
    coord_run cfg (thread_events evs) (sy_coord s) =
      Some (sy_coord s', [OSend (ack_frame DecisionReason_OK); OPersist newer; OPersist older]) /\
    sy_status s' = PsRunning /\ sy_tasks s' = ∅ /\
    engine_of s' = f' /\ st_devices (state_ f') !! dev_id d = Some d /\
    coordinator_boot epoch (cfg_persist cfg) (sy_fs s') = Some f2 /\
    f2 = import_persisted (fabric_init (mkGen epoch) (mkGen 1)) (kept_state older) /\
    st_devices (state_ f2) !! dev_id d = None.
Proof.
  intros Hap Has Htype Hdec Hno Hreg Hsv Hsv'. cbv zeta.
  destruct (overtaken_runs cfg s n m ws key ws' key' fr d len f') as
    (calls & calls' & s' & Hrun & Hth & Hsolo & Hs & Ht & Hf & Hread); try done.
  destruct (saveable_payload _ Hsv) as [Hser Hsz].
  exists (overtaken n m fr calls calls'), s',
    (import_persisted (fabric_init (mkGen epoch) (mkGen 1)) (kept_state (export_persisted (engine_of s)))).
  split_and!; try done.
  - assert (f' = put_device (engine_of s) (dev_id d) d) as ->; [|apply lookup_insert_eq].
    revert Hreg. unfold register_device. open_op; congruence.
  - eapply boot_snapshot; try done; [by destruct Hap | by destruct Hsv].
  - simpl. by rewrite !lookup_fmap, Hno.
Qed.

(** Two workers: the first has published its device and its thread is about to export the
    state; the second has announced itself. *)
Definition before_the_saves : list SysEvent :=
  (SvThread <$> connect 0 "w-0" ++ [EvRecv 0 (device_frame (worker_device "w-0"))] ++
                replicate 5 (EvRun 0)) ++
  (SvThread <$> connect 1 "w-1").

Definition pending : System := ends before_the_saves.
Definition received_device : CxlDevice :=
  match decode_device (fr_payload (device_frame other_device)) device_default with
  | Got d _ => d
  | _ => device_default
  end.
Definition engine_after : Fabric :=
  (register_device (engine_of pending) received_device
     (request_ctx (engine_of pending) (mkWorker (mkId "w-1") [] [] false))).2.

Lemma pending_about_to_save :
  about_to_save with_snapshot pending 0 1 (mkWorker (mkId "w-0") [mkId "dev-1"] [] false) "w-0"
    (mkWorker (mkId "w-1") [] [] false) "w-1".
Proof.
  split; try (vm_compute; reflexivity); [|discriminate].
  replace (sy_fs pending) with empty_disk by (vm_compute; reflexivity). exact fs_ok_empty.
Qed.

Lemma pending_saveable :
  saveable (export_persisted (engine_of pending)) /\ saveable (export_persisted engine_after).
Proof. split; (split; [fits_by_computation | vm_compute; discriminate]). Qed.

Lemma older_save_wins_witness :
  exists evs s' f2,
    sys_run with_snapshot evs pending =
      Some (s', [export_persisted engine_after; export_persisted (engine_of pending)]) /\
    engine_of s' = engine_after /\
    is_Some (st_devices (state_ engine_after) !! mkId "dev-2") /\
    coordinator_boot 2 "state.bin" (sy_fs s') = Some f2 /\
    is_Some (st_devices (state_ f2) !! mkId "dev-1") /\
    st_devices (state_ f2) !! mkId "dev-2" = None.
Proof.
  destruct (older_save_wins with_snapshot pending 0 1 _ _ _ _ (device_frame other_device) received_device
    (bsize (encode_device other_device)) engine_after 2 with_snapshot_apart pending_about_to_save)
    as (evs & s' & f2 & Hrun & _ & _ & _ & _ & Hf & Hd & Hb & He & Hno).
  - reflexivity.
  - vm_compute. reflexivity.
  - vm_compute. reflexivity.
  - vm_compute. reflexivity.
  - exact (proj1 pending_saveable).
  - exact (proj2 pending_saveable).
  - assert (dev_id received_device = mkId "dev-2") as Hid by (vm_compute; reflexivity).
    rewrite Hid in Hd, Hno. exists evs, s', f2.
    split; [exact Hrun|]. split; [exact Hf|]. split; [rewrite Hd; eexists; reflexivity|].
    split; [exact Hb|]. split; [|exact Hno]. rewrite He. refine (bool_decide_unpack _ _).
    vm_compute. exact I.
Defined.
