(* ===== verification/Link.v ===== *)
(** * A worker and the coordinator over one connection

    The worker's program and the coordinator's programs run against each other over a
    connection that delivers frames in order, each as [decode_frame] reads what
    [encode_frame] wrote: intact, or, for a payload over the bound, as an error. The
    theorems say that what the worker prints is what the engine decided. *)
From S2P Require Import Prelude.
From S2P Require Import Identity.
From S2P Require Import Enums.
From S2P Require Import Accounting.
From S2P Require Import Records.
From S2P Require Import Selection.
From S2P Require Import Fabric.
From S2P Require Import Synthetic.
From S2P Require Import SelectionProps.
From S2P Require Import Ledger.
From S2P Require Import LedgerRefinement.
From S2P Require Import Reservations.
From S2P Require Import Invariants.
From S2P Require Import CapacitySafety.
From S2P Require Import Crc.
From S2P Require Import Protocol.
From S2P Require Import Readers.
From S2P Require Import Codec.
From S2P Require Import Net.
From S2P Require Import Coordinator.
From S2P Require Import Args.
From S2P Require Import Worker.
From S2P Require Import Interleaving.

(** ** One connection *)

(** Announced or not, or closed by the coordinator. *)
Inductive LinkPhase : Set := LkNew | LkServing | LkClosed.

(** The coordinator's side of a connection, the replies on their way, and what the worker
    has printed. *)
Record Link : Set := mkLink {
  lk_thread : ThreadState;
  lk_phase : LinkPhase;
  lk_inbox : list Frame;
  lk_text : string;
}.

Definition link_fabric (lk : Link) : Fabric := th_fabric (lk_thread lk).

Definition sent_frames (os : list Output) : list Frame :=
  omap (fun o => match o with OSend f => Some f | _ => None end) os.

(** What the other end reads of a frame. *)
Definition transmit (f : Frame) : DecodeResult := decode_frame (encode_frame f kProtocolVersion).

(** The coordinator's thread has read a frame: the first one announces the worker, the
    others are dispatched as long as it runs; what does not arrive intact is the worker's
    death, and closes the connection. [None] is a fault. *)
Definition serve (cfg : CoordConfig) (dr : DecodeResult) (lk : Link) : option Link :=
  let t := lk_thread lk in
  let ws := th_worker t in
  match lk_phase lk with
  | LkNew =>
      if received_ok dr && received_type dr FT_WORKER_BOOT then
        let ws' := set_boot ws (mkId (bytes_string (fr_payload (dr_frame dr)))) in
        Some (mkLink (mkThread (th_fabric t) ws' (th_running t)) LkServing (lk_inbox lk) (lk_text lk))
      else Some (mkLink t LkClosed (lk_inbox lk) (lk_text lk))
  | LkServing =>
      if th_running t then
        if received_ok dr then
          '(t', os) ← run_prog (dispatch cfg (wk_boot ws) (dr_frame dr)) t;
          Some (mkLink t' LkServing (lk_inbox lk ++ sent_frames os) (lk_text lk))
        else
          '(t', _) ← run_prog (fence_prog cfg (wk_devices ws))
                       (mkThread (th_fabric t) (mark_dead ws) (th_running t));
          Some (mkLink t' LkClosed (lk_inbox lk) (lk_text lk))
      else Some lk
  | LkClosed => Some lk
  end.

Definition deliver (cfg : CoordConfig) (f : Frame) (lk : Link) : option Link :=
  serve cfg (transmit f) lk.

(** Nothing more will come. *)
Definition hung_up (lk : Link) : bool :=
  match lk_phase lk with LkClosed => true | _ => negb (th_running (lk_thread lk)) end.

Definition peer_closed : DecodeResult := decode_error DS_TRUNCATED "peer closed or header truncated".

Inductive WEnd : Set :=
  | Returned (code : Z)
  | Stays
  | Waits.              (** in [recv_frame], with nothing to come *)

Definition take_reply (lk : Link) (rest : list Frame) : Link :=
  mkLink (lk_thread lk) (lk_phase lk) rest (lk_text lk).
Definition print (lk : Link) (s : string) : Link :=
  mkLink (lk_thread lk) (lk_phase lk) (lk_inbox lk) (lk_text lk +:+ s).

Fixpoint run_worker (cfg : CoordConfig) (p : WProg) (lk : Link) : option (WEnd * Link) :=
  match p with
  | WReturn code => Some (Returned code, lk)
  | WFault => None
  | WStay => Some (Stays, lk)
  | WSend f k => lk' ← deliver cfg f lk; run_worker cfg (k true) lk'
  | WRecv k =>
      match lk_inbox lk with
      | f :: rest => run_worker cfg (k (transmit f)) (take_reply lk rest)
      | [] => if hung_up lk then run_worker cfg (k peer_closed) lk else Some (Waits, lk)
      end
  | WEmit s k => run_worker cfg k (print lk s)
  end.

Definition link_init (f : Fabric) : Link :=
  mkLink (mkThread f worker_default true) LkNew [] "".

(** Within the bound, what was sent arrives. *)
Lemma transmit_ok f : frame_ok f -> transmit f = received f.
Proof.
  intros Hf. unfold transmit, received. rewrite <- (app_nil_r (encode_frame f kProtocolVersion)).
  by rewrite (decode_encode f [] Hf (Forall_nil_2 _)).
Qed.

Lemma deliver_ok cfg f lk : frame_ok f -> deliver cfg f lk = serve cfg (received f) lk.
Proof. intros Hf. unfold deliver. by rewrite transmit_ok. Qed.

(** ** Programs without a reply *)

Lemma maybe_persist_quiet cfg t :
  exists os, run_prog (maybe_persist cfg PDone) t = Some (t, os) /\ sent_frames os = [].
Proof.
  unfold maybe_persist, write_statefile. destruct t.
  destruct (String.eqb (cfg_persist cfg) ""), (String.eqb (cfg_statefile cfg) ""); cbn; eauto.
Qed.

(** ** Results read back *)

Lemma pretty_go_length k x s :
  (x < 10 ^ N.of_nat k)%N -> (String.length (pretty_N_go x s) <= k + String.length s)%nat.
Proof.
  revert x s. induction k as [|k IH]; intros x s Hx.
  { assert (x = 0%N) as -> by (change (10 ^ N.of_nat 0)%N with 1%N in Hx; lia).
    by rewrite pretty_N_go_0. }
  destruct (decide (x = 0%N)) as [->|Hne]; [rewrite pretty_N_go_0; lia|].
  rewrite pretty_N_go_step by lia.
  specialize (IH (x / 10)%N (String (pretty_N_char (x mod 10)) s)). simpl in IH.
  enough (x / 10 < 10 ^ N.of_nat k)%N as Hlt by (specialize (IH Hlt); lia).
  rewrite Nat2N.inj_succ, N.pow_succ_r' in Hx. apply N.Div0.div_lt_upper_bound. done.
Qed.

Lemma to_string_u64_length n : in_u64 n -> (String.length (to_string_u64 n) <= 20)%nat.
Proof.
  intros Hn. unfold to_string_u64, pretty, pretty_N. case_decide; [simpl; lia|].
  pose proof (pretty_go_length 20 (Z.to_N n) "") as Hgo. cbn [String.length] in Hgo.
  rewrite Nat.add_0_r in Hgo. apply Hgo. change (N.of_nat 20) with 20%N.
  unfold in_u64, UINT64_MAX in Hn. change (10 ^ 20)%N with 100000000000000000000%N. lia.
Qed.

(** The engine's names for reservations are short. *)
Definition short_name (s : string) : Prop := (String.length s <= 24)%nat.

Lemma short_name_fits s : short_name s -> str_fits s.
Proof. unfold short_name, str_fits. lia. Qed.

Lemma reservation_name_short n : in_u64 n -> short_name (id_str (reservation_name n)).
Proof.
  intros Hn. unfold short_name, reservation_name. cbn [id_str].
  pose proof (to_string_u64_length n Hn) as Hl.
  change (4 + String.length (to_string_u64 n) <= 24)%nat. lia.
Qed.

(** What the worker reads in the answer to a request. *)
Definition outcome_words (ro : ReserveOutcome) : string * Z * Z :=
  (id_str (res_id (ro_reservation ro)), enum_to_u32 (ro_reason ro), bool_word (ro_ok ro)).

Lemma in_u32_word v : in_u32 (u32 v).
Proof. unfold in_u32, u32. pose proof (Z.mod_pos_bound v (2 ^ 32)). lia. Qed.

Lemma read_reserve_result ro :
  str_fits (id_str (res_id (ro_reservation ro))) ->
  exists n, run_reader read_result (reserve_result ro) = Got (outcome_words ro) n.
Proof.
  intros Hs. unfold reserve_result, run_reader, read_result.
  set (s := id_str _) in *. set (w := enum_to_u32 _).
  assert (bytes_ok (put_str s ++ put_u32 w ++ [bool_word (ro_ok ro)])) as Hok.
  { apply Forall_app. split; [apply put_str_ok|]. apply Forall_app. split; [apply put_u32_ok|].
    constructor; [|constructor]. by destruct (ro_ok ro). }
  assert (bsize (put_str s) = 4 + Z.of_nat (String.length s)) as Hl.
  { rewrite put_str_bytes, bsize_app, bsize_put_u32. unfold bsize. by rewrite length_string_bytes. }
  pose proof Hok as [_ Hok2]%Forall_app. set (one := [bool_word (ro_ok ro)]) in *.
  assert (bsize (put_str s ++ put_u32 w ++ one) = 9 + Z.of_nat (String.length s)) as Hsz
    by (rewrite !bsize_app, bsize_put_u32; unfold one, bsize in *; simpl in *; lia).
  unfold str_fits in Hs.
  assert (bsize (put_str s ++ put_u32 w ++ one) <= UINT64_MAX) as Hmax by (unfold UINT64_MAX; lia).
  pose proof (reads_str s tt Hs [] (put_u32 w ++ one) Hok Hmax) as H1.
  pose proof (reads_u32 w tt (in_u32_word _) (put_str s) one Hok2 Hmax) as H2.
  cbn [app] in H1. change (bsize []) with 0 in H1.
  unfold rbind, cstr, cu32. rewrite H1, H2.
  unfold peek_byte. rewrite Hsz, bsize_app, Hl, bsize_put_u32.
  rewrite bool_decide_true by lia. eexists. unfold rret, outcome_words. repeat f_equal.
  assert (length (put_str s ++ put_u32 w) = Z.to_nat (4 + Z.of_nat (String.length s) + 4)) as Hlen.
  { rewrite <- Hl, <- (bsize_put_u32 w), <- bsize_app. unfold bsize. by rewrite Nat2Z.id. }
  rewrite app_assoc, app_nth2, Hlen, Nat.sub_diag by lia. done.
Qed.

(** ** The names in the engine's answers *)

Section Names.
Context (f : Fabric) (Hinv : fabric_inv f).

Lemma stored_name_short rid res :
  st_reservations (state_ f) !! rid = Some res -> short_name (id_str (res_id res)).
Proof.
  intros H. rewrite (ko_reservations f (inv_keys f Hinv) rid res H).
  destruct (inv_sequence f Hinv) as [Hseq Hn]. destruct (Hn rid res H) as (n & Hr & ->).
  apply reservation_name_short. unfold in_u64 in *. lia.
Qed.

Lemma reserve_name_short req ctx :
  short_name (id_str (res_id (ro_reservation (reserve f req ctx).1))).
Proof.
  destruct (reserve_cases f req ctx (inv_keys f Hinv)) as
    [(why & _ & -> & _) | (p & r & d & _ & _ & _ & _ & ->)]; [unfold short_name; simpl; lia|].
  apply reservation_name_short, u64_range.
Qed.

Lemma commit_name_short rid ctx :
  short_name (id_str (res_id (ro_reservation (commit f rid ctx).1))).
Proof.
  destruct (commit_cases f rid ctx) as
    [(why & _ & -> & _) | (res & p & r & d & [Hres _ _ _ _ _ _ _] & ->)]; [unfold short_name; simpl; lia|].
  exact (stored_name_short _ _ Hres).
Qed.

Lemma release_name_short rid ctx :
  short_name (id_str (res_id (ro_reservation (release f rid ctx).1))).
Proof.
  destruct (release_cases f rid ctx Hinv) as
    [[-> _] | (res & p & Hres & _ & _ & _ & _ & ->)]; [unfold short_name; simpl; lia|].
  exact (stored_name_short _ _ Hres).
Qed.
End Names.

(** ** Frames that arrive *)

Lemma frame_fits t payload :
  t ∈ frame_types -> bytes_ok payload -> bsize payload <= kMaxPayloadBytes -> frame_ok (mkFrame t payload).
Proof. by split. Qed.

Ltac known_type := apply (bool_decide_unpack _); by vm_compute.

Lemma ack_frame_ok r : frame_ok (ack_frame r).
Proof. apply frame_fits; [known_type | apply put_u32_ok |]. rewrite bsize_put_u32. by vm_compute. Qed.

Lemma bytes_of_string_fit s :
  str_fits s -> bytes_ok (string_bytes s) /\ bsize (string_bytes s) <= kMaxPayloadBytes.
Proof.
  intros Hs. split; [apply string_bytes_ok|]. unfold bsize. by rewrite length_string_bytes.
Qed.

Lemma reserve_result_ok t ro :
  t ∈ frame_types -> short_name (id_str (res_id (ro_reservation ro))) ->
  frame_ok (mkFrame t (reserve_result ro)).
Proof.
  intros Ht Hs. apply frame_fits; [done|..].
  - apply Forall_app. split; [apply put_str_ok|]. apply Forall_app. split; [apply put_u32_ok|].
    constructor; [|constructor]. by destruct (ro_ok ro).
  - unfold reserve_result, short_name, kMaxPayloadBytes in *.
    rewrite put_str_bytes, !bsize_app, !bsize_put_u32. unfold bsize. rewrite length_string_bytes.
    simpl. lia.
Qed.

(** A consumer name with which a RESERVE frame stays within the bound. *)
Definition consumer_fits (c : string) : Prop := Z.of_nat (String.length c) <= 65524.

Lemma reserve_frame_ok n c : consumer_fits c -> frame_ok (mkFrame FT_RESERVE (encode_reserve n c)).
Proof.
  intros Hc. apply frame_fits; [known_type | apply encode_reserve_ok |].
  unfold encode_reserve, consumer_fits, kMaxPayloadBytes in *. cbn [concat].
  rewrite !bsize_app, put_str_bytes, bsize_app, bsize_put_u32. unfold bsize.
  rewrite length_string_bytes. simpl. lia.
Qed.

Lemma consumer_fits_str c : consumer_fits c -> str_fits c.
Proof. unfold consumer_fits, str_fits. lia. Qed.

(** ** One request *)

Lemma append_nil s : s +:+ "" = s.
Proof. induction s as [|c s IH]; [done|]. exact (f_equal (String c) IH). Qed.

(** The worker waits for nothing and the coordinator serves it. *)
Definition idle (lk : Link) : Prop :=
  lk_phase lk = LkServing /\ th_running (lk_thread lk) = true /\ lk_inbox lk = [].

(** The authority under which the coordinator serves the worker. *)
Definition link_context (lk : Link) : AuthorityContext :=
  mkContext (epoch (link_fabric lk)) (policy_generation (link_fabric lk))
    (wk_boot (th_worker (lk_thread lk))) (mkGen 1).

(** The link after a request: the engine's new state, what the coordinator noted of the
    worker, and what the worker has printed since. *)
Definition answered (lk : Link) (f' : Fabric) (ws' : WorkerState) (said : string) : Link :=
  mkLink (mkThread f' ws' true) LkServing [] (lk_text lk +:+ said).

Definition note_reservation (ro : ReserveOutcome) (ws : WorkerState) : WorkerState :=
  if ro_ok ro then push_reservation ws (res_id (ro_reservation ro)) else ws.

Lemma emit_outcome cfg what ro k lk :
  short_name (id_str (res_id (ro_reservation ro))) ->
  run_worker cfg (emit_result what (reserve_result ro) k) lk =
  run_worker cfg k (print lk (result_line what (outcome_words ro))).
Proof.
  intros Hs%short_name_fits. unfold emit_result. by destruct (read_reserve_result ro Hs) as [n ->].
Qed.

Lemma decode_encoded_reserve n c :
  in_u64 n -> str_fits c -> exists m, decode_reserve (encode_reserve n c) = Got (n, c) m.
Proof.
  intros Hn Hc. unfold decode_reserve. eexists. apply reads_run.
  - by apply reads_reserve.
  - apply encode_reserve_ok.
  - unfold encode_reserve. cbn [concat]. rewrite !bsize_app, put_str_bytes, bsize_app, bsize_put_u32.
    unfold str_fits, UINT64_MAX in *. unfold bsize. rewrite length_string_bytes. simpl. lia.
Qed.

(** Dispatching is running the switch under the current authority. *)
Lemma dispatch_run cfg boot fr f ws run :
  run_prog (dispatch cfg boot fr) (mkThread f ws run) =
  run_prog (dispatch_switch (mkContext (epoch f) (policy_generation f) boot (mkGen 1)) fr
              (if persists_after (fr_type fr) then maybe_persist cfg PDone else PDone))
    (mkThread f ws run).
Proof. reflexivity. Qed.

(** Whatever is saved after the reply, the thread is left as it was. *)
Lemma tail_quiet cfg (b : bool) t :
  exists os, run_prog (if b then maybe_persist cfg PDone else PDone) t = Some (t, os) /\
             sent_frames os = [].
Proof. destruct b; [apply maybe_persist_quiet | by exists []]. Qed.

(** A frame answered by one reply after which nothing is sent. *)
Lemma serve_reply cfg fr lk f' ws' reply :
  idle lk ->
  (forall q, run_prog (dispatch_switch (link_context lk) fr q) (lk_thread lk) =
             prod_map id (cons (OSend reply)) <$> run_prog q (mkThread f' ws' true)) ->
  serve cfg (received fr) lk = Some (mkLink (mkThread f' ws' true) LkServing [reply] (lk_text lk)).
Proof.
  intros (Hb & Hr & Hi) Hsw. unfold serve. rewrite Hb, Hr, Hi. unfold received_ok.
  rewrite bool_decide_true by done. cbn [received dr_frame].
  destruct (lk_thread lk) as [f ws run] eqn:Ht. rewrite dispatch_run.
  unfold link_context, link_fabric in Hsw. rewrite Ht in Hsw. cbn [th_fabric th_worker] in Hsw |- *.
  rewrite Hsw. destruct (tail_quiet cfg (persists_after (fr_type fr)) (mkThread f' ws' true))
    as (os & -> & Hos). cbn. unfold sent_frames in Hos. by rewrite Hos.
Qed.

(** A request of the worker: send, await, go on with the reply. *)
Lemma ask cfg fr lk f' ws' reply (k : DecodeResult -> WProg) :
  frame_ok fr -> idle lk ->
  (forall q, run_prog (dispatch_switch (link_context lk) fr q) (lk_thread lk) =
             prod_map id (cons (OSend reply)) <$> run_prog q (mkThread f' ws' true)) ->
  run_worker cfg (WSend fr (fun _ => WRecv k)) lk =
  run_worker cfg (k (transmit reply)) (mkLink (mkThread f' ws' true) LkServing [] (lk_text lk)).
Proof.
  intros Hfr Hidle H. cbn [run_worker]. rewrite deliver_ok by done.
  by rewrite (serve_reply cfg fr lk f' ws' reply Hidle H).
Qed.

Lemma reserve_request cfg a k lk ro f' :
  idle lk -> fabric_inv (link_fabric lk) -> in_u64 (wa_reserve_bytes a) ->
  consumer_fits (wa_consumer a) ->
  reserve (link_fabric lk) (request_for (wa_reserve_bytes a) (mkId (wa_consumer a)))
    (link_context lk) = (ro, f') ->
  run_worker cfg (reserve_part a k) lk =
  run_worker cfg k (answered lk f' (note_reservation ro (th_worker (lk_thread lk)))
                      (result_line "RESERVED" (outcome_words ro))).
Proof.
  intros Hidle Hinv Hn Hc Hres.
  pose proof (reserve_name_short _ Hinv (request_for (wa_reserve_bytes a) (mkId (wa_consumer a)))
                (link_context lk)) as Hfit. rewrite Hres in Hfit.
  destruct (decode_encoded_reserve _ _ Hn (consumer_fits_str _ Hc)) as [m Hdec].
  unfold reserve_part.
  rewrite (ask cfg _ lk f' (note_reservation ro (th_worker (lk_thread lk)))
             (mkFrame FT_RESERVE_RESULT (reserve_result ro)) _ (reserve_frame_ok _ _ Hc) Hidle).
  - rewrite transmit_ok by (apply reserve_result_ok; [known_type | done]).
    exact (emit_outcome _ _ _ _ _ Hfit).
  - intros q. cbn [dispatch_switch fr_type fr_payload]. rewrite Hdec.
    cbn [run_prog call_fabric]. unfold link_fabric in Hres. rewrite Hres.
    destruct Hidle as (_ & -> & _). unfold note_reservation. by destruct (ro_ok ro).
Qed.

(** COMMIT and RELEASE. *)
Lemma settle_request cfg t what rid k lk ro f' :
  idle lk -> fabric_inv (link_fabric lk) -> str_fits rid ->
  (t = FT_COMMIT /\ commit (link_fabric lk) (mkId rid) (link_context lk) = (ro, f') \/
   t = FT_RELEASE /\ release (link_fabric lk) (mkId rid) (link_context lk) = (ro, f')) ->
  run_worker cfg (settle_part t what rid k) lk =
  run_worker cfg k (answered lk f' (th_worker (lk_thread lk)) (result_line what (outcome_words ro))).
Proof.
  intros Hidle Hinv Hrid Hcase.
  assert (short_name (id_str (res_id (ro_reservation ro)))) as Hfit.
  { destruct Hcase as [[_ H] | [_ H]]; [pose proof (commit_name_short _ Hinv (mkId rid) (link_context lk)) as Hf
      | pose proof (release_name_short _ Hinv (mkId rid) (link_context lk)) as Hf]; by rewrite H in Hf. }
  assert (frame_ok (mkFrame t (string_bytes rid))) as Hfr.
  { destruct (bytes_of_string_fit rid Hrid). apply frame_fits; [|done..].
    destruct Hcase as [[-> _] | [-> _]]; known_type. }
  unfold settle_part.
  rewrite (ask cfg _ lk f' (th_worker (lk_thread lk)) (mkFrame FT_COMMIT_RESULT (reserve_result ro)) _ Hfr Hidle).
  - rewrite transmit_ok by (apply reserve_result_ok; [known_type | done]).
    exact (emit_outcome _ _ _ _ _ Hfit).
  - intros q. unfold link_fabric in Hcase. destruct Hidle as (_ & Hr & _).
    destruct Hcase as [[-> H] | [-> H]]; cbn [dispatch_switch fr_type fr_payload];
      rewrite bytes_string_bytes; cbn [run_prog call_fabric send_reserve_result]; rewrite H, Hr; done.
Qed.

(** A payload over the bound arrives as an error. *)
Lemma transmit_oversized t payload :
  t ∈ frame_types -> bsize payload > kMaxPayloadBytes ->
  received_ok (transmit (mkFrame t payload)) = false.
Proof.
  intros Ht Hs. unfold transmit, encode_frame. cbn [fr_payload fr_type]. rewrite bool_decide_true by done.
  unfold frame_types in Ht.
  repeat (apply elem_of_cons in Ht as [-> | Ht]; [by vm_compute|]). by apply not_elem_of_nil in Ht.
Qed.

(** The answer to a query, if it fits in a frame. *)
Definition query_text (f : Fabric) : string :=
  let s := fabric_state_text (snapshot f) in
  if bool_decide (Z.of_nat (String.length s) <= kMaxPayloadBytes) then s else "".

Lemma query_request cfg k lk :
  idle lk ->
  run_worker cfg (query_part k) lk =
  run_worker cfg k (answered lk (link_fabric lk) (th_worker (lk_thread lk)) (query_text (link_fabric lk))).
Proof.
  intros Hidle. unfold query_part. erewrite (ask cfg _ lk); [..|exact Hidle|].
  2:{ apply frame_fits; [known_type | constructor | by vm_compute]. }
  2:{ intros q. destruct Hidle as (_ & Hr & _).
      cbn [dispatch_switch fr_type run_prog call_fabric]. by rewrite Hr. }
  unfold query_text. set (s := fabric_state_text _).
  case_bool_decide as Hs.
  - destruct (bytes_of_string_fit s Hs) as [Hb Hsz].
    rewrite transmit_ok by (by apply frame_fits; [known_type|..]).
    unfold received_ok, received_type. rewrite !bool_decide_true by done.
    cbn [andb run_worker received dr_frame fr_payload]. by rewrite bytes_string_bytes.
  - rewrite transmit_oversized; [|known_type|unfold bsize; rewrite length_string_bytes; lia].
    cbn [andb]. unfold answered. by rewrite append_nil.
Qed.

(** C23. What the worker prints is what the engine decided. When a worker asks to reserve,
    commit or release, its request reaches the engine with the values it was given, under
    the current epoch and policy and the worker's boot identity; the coordinator sends
    exactly one reply; and the worker prints the identity, the reason and the verdict of
    the engine's answer, no more and no less, while the engine moves to the state of that
    answer. A query changes nothing and prints the state text, or nothing when that is
    longer than the 64 KiB of a frame. *)
Theorem requests_answered cfg lk k :
  idle lk -> reachable op_wf (link_fabric lk) ->
  (forall a, in_u64 (wa_reserve_bytes a) -> consumer_fits (wa_consumer a) ->
     let '(ro, f') := reserve (link_fabric lk)
       (request_for (wa_reserve_bytes a) (mkId (wa_consumer a))) (link_context lk) in
     run_worker cfg (reserve_part a k) lk =
     run_worker cfg k (answered lk f' (note_reservation ro (th_worker (lk_thread lk)))
                         (result_line "RESERVED" (outcome_words ro)))) /\
  (forall rid, str_fits rid ->
     let '(ro, f') := commit (link_fabric lk) (mkId rid) (link_context lk) in
     run_worker cfg (settle_part FT_COMMIT "COMMIT_RESULT" rid k) lk =
     run_worker cfg k (answered lk f' (th_worker (lk_thread lk))
                         (result_line "COMMIT_RESULT" (outcome_words ro)))) /\
  (forall rid, str_fits rid ->
     let '(ro, f') := release (link_fabric lk) (mkId rid) (link_context lk) in
     run_worker cfg (settle_part FT_RELEASE "RELEASE_RESULT" rid k) lk =
     run_worker cfg k (answered lk f' (th_worker (lk_thread lk))
                         (result_line "RELEASE_RESULT" (outcome_words ro)))) /\
  run_worker cfg (query_part k) lk =
  run_worker cfg k (answered lk (link_fabric lk) (th_worker (lk_thread lk))
    (let s := fabric_state_text (snapshot (link_fabric lk)) in
     if bool_decide (Z.of_nat (String.length s) <= kMaxPayloadBytes) then s else "")).
Proof.
  intros Hidle Hf. pose proof (reachable_inv _ Hf) as Hinv. split_and!.
  - intros a Hn Hc. destruct (reserve _ _ _) as [ro f'] eqn:Hres. by apply reserve_request.
  - intros rid Hrid. destruct (commit _ _ _) as [ro f'] eqn:Hres.
    apply settle_request; [done..|]. by left.
  - intros rid Hrid. destruct (release _ _ _) as [ro f'] eqn:Hres.
    apply settle_request; [done..|]. by right.
  - by apply query_request.
Qed.

(** The link of a worker that has announced itself to a new coordinator. *)
Definition announced_link (boot : string) : Link :=
  mkLink (mkThread (fabric_init (mkGen 1) (mkGen 1)) (mkWorker (mkId boot) [] [] false) true) LkServing [] "".

Lemma requests_answered_witness :
  run_worker (mkConfig "" "") (query_part (WReturn 0)) (announced_link "w-7") =
  Some (Returned 0, answered (announced_link "w-7") (fabric_init (mkGen 1) (mkGen 1))
          (mkWorker (mkId "w-7") [] [] false)
          ("epoch=1" +:+ nl +:+ "devices=0" +:+ nl +:+ "reservations=0" +:+ nl)).
Proof.
  destruct (requests_answered (mkConfig "" "") (announced_link "w-7") (WReturn 0)) as (_ & _ & _ & Hq).
  - repeat split.
  - constructor.
  - rewrite Hq. vm_compute. reflexivity.
Defined.

(** The request of a frame that is answered with an error report, and the report. *)
Definition bad_request (fr : Frame) : option string :=
  let refused {E A} (o : Outcome E A) := match o with Refused _ => true | _ => false end in
  match fr_type fr with
  | FT_PUBLISH_DEVICE =>
      if refused (decode_device (fr_payload fr) device_default) then Some "decode_device" else None
  | FT_RESERVE => if refused (decode_reserve (fr_payload fr)) then Some "decode_reserve" else None
  | FT_PUBLISH_POOL => if refused (decode_pool (fr_payload fr) []) then Some "decode_pool" else None
  | FT_PUBLISH_REGION =>
      if refused (decode_region (fr_payload fr) region_default) then Some "decode_region" else None
  | FT_COMMIT | FT_RELEASE | FT_QUERY_STATE | FT_SHUTDOWN => None
  | _ => Some "unsupported frame type"
  end.

(** A bad request is answered and has no effect. A frame that arrives whose payload its decoder
    refuses, or whose type the coordinator does not serve (a second WORKER_BOOT, a reply,
    REVALIDATE, any unknown type), is answered with exactly one ERROR_REPORT that names the
    cause; the engine, what is recorded of the worker and the running flag are unchanged. *)
Theorem bad_request_refused cfg fr lk msg :
  idle lk -> bad_request fr = Some msg ->
  serve cfg (received fr) lk =
    Some (mkLink (lk_thread lk) LkServing [error_frame msg] (lk_text lk)).
Proof.
  intros Hidle Hbad. pose proof Hidle as (_ & Hr & _).
  assert (lk_thread lk = mkThread (th_fabric (lk_thread lk)) (th_worker (lk_thread lk)) true) as ->
    by (rewrite <- Hr; by destruct (lk_thread lk)).
  apply serve_reply; [done|]. intros q.
  assert (mkThread (th_fabric (lk_thread lk)) (th_worker (lk_thread lk)) true = lk_thread lk) as ->
    by (rewrite <- Hr; by destruct (lk_thread lk)).
  unfold bad_request in Hbad. unfold dispatch_switch.
  destruct (fr_type fr); try discriminate Hbad; try (injection Hbad as <-; reflexivity);
    [destruct (decode_device _ _) | destruct (decode_region _ _) | destruct (decode_pool _ _)
     | destruct (decode_reserve _)]; try discriminate Hbad; injection Hbad as <-; reflexivity.
Qed.

(** Publications that are accepted. *)
Definition acked (lk : Link) (f' : Fabric) (ws' : WorkerState) : Link :=
  mkLink (mkThread f' ws' true) LkServing [ack_frame DecisionReason_OK] (lk_text lk).

Lemma device_answer cfg payload lk d n f' :
  idle lk -> decode_device payload device_default = Got d n ->
  register_device (link_fabric lk) d (link_context lk) = (DecisionReason_OK, f') ->
  serve cfg (received (mkFrame FT_PUBLISH_DEVICE payload)) lk =
  Some (acked lk f' (push_device (th_worker (lk_thread lk)) (dev_id d))).
Proof.
  intros Hidle Hd Hr. apply serve_reply; [done|]. intros q.
  cbn [dispatch_switch fr_type fr_payload]. rewrite Hd. cbn [run_prog call_fabric].
  unfold link_fabric in Hr. rewrite Hr. by destruct Hidle as (_ & -> & _).
Qed.

Lemma pool_answer cfg payload lk pid gen ms n f' :
  idle lk -> decode_pool payload [] = Got (pid, gen, ms) n ->
  create_pool (link_fabric lk) (published_pool pid gen ms) (link_context lk) =
    (DecisionReason_OK, f') ->
  serve cfg (received (mkFrame FT_PUBLISH_POOL payload)) lk = Some (acked lk f' (th_worker (lk_thread lk))).
Proof.
  intros Hidle Hd Hr. apply serve_reply; [done|]. intros q.
  cbn [dispatch_switch fr_type fr_payload]. rewrite Hd. cbn [run_prog call_fabric].
  unfold link_fabric in Hr. rewrite Hr. by destruct Hidle as (_ & -> & _).
Qed.

Lemma region_answer cfg payload lk r n f' :
  idle lk -> decode_region payload region_default = Got r n ->
  create_region (link_fabric lk) r (link_context lk) = (DecisionReason_OK, f') ->
  serve cfg (received (mkFrame FT_PUBLISH_REGION payload)) lk = Some (acked lk f' (th_worker (lk_thread lk))).
Proof.
  intros Hidle Hd Hr. apply serve_reply; [done|]. intros q.
  cbn [dispatch_switch fr_type fr_payload]. rewrite Hd. cbn [run_prog call_fabric].
  unfold link_fabric in Hr. rewrite Hr. by destruct Hidle as (_ & -> & _).
Qed.

Lemma take_ack lk f ws : take_reply (acked lk f ws) [] = answered lk f ws "".
Proof. unfold take_reply, acked, answered. cbn. by rewrite append_nil. Qed.

Lemma run_send cfg f k lk lk' :
  deliver cfg f lk = Some lk' -> run_worker cfg (WSend f k) lk = run_worker cfg (k true) lk'.
Proof. intros H. cbn [run_worker]. by rewrite H. Qed.

Lemma run_recv_ack cfg k lk f ws :
  run_worker cfg (WRecv k) (acked lk f ws) =
  run_worker cfg (k (received (ack_frame DecisionReason_OK))) (answered lk f ws "").
Proof. rewrite <- take_ack, <- (transmit_ok (ack_frame _) (ack_frame_ok _)). reflexivity. Qed.

(** The worker publishes, is acknowledged three times, and goes on. *)
Lemma publish_answered cfg base k lk f1 f2 f3 ws :
  deliver cfg (device_frame base) lk = Some (acked lk f1 ws) ->
  deliver cfg (pool_frame base) (answered lk f1 ws "") = Some (acked (answered lk f1 ws "") f2 ws) ->
  deliver cfg (region_frame base) (answered lk f2 ws "") = Some (acked (answered lk f2 ws "") f3 ws) ->
  run_worker cfg (publish_part base k) lk = run_worker cfg k (answered lk f3 ws "").
Proof.
  intros H1 H2 H3. unfold publish_part, send_and_await.
  assert (forall f g, answered (answered lk f ws "") g ws "" = answered lk g ws "") as Ha
    by (intros; unfold answered; cbn [lk_text]; by rewrite !append_nil).
  rewrite (run_send _ _ _ _ _ H1). cbv beta. cbn [negb]. rewrite run_recv_ack.
  change (received_ok (received (ack_frame DecisionReason_OK))) with true.
  change (received_type (received (ack_frame DecisionReason_OK)) FT_ACK) with true.
  cbv beta. cbn [negb]. rewrite (run_send _ _ _ _ _ H2). cbv beta. rewrite run_recv_ack, Ha.
  rewrite (run_send _ _ _ _ _ H3). cbv beta. by rewrite run_recv_ack, Ha.
Qed.
