(* ===== verification/Session.v ===== *)
(** * A session from end to end

    A worker's [main] against a new coordinator, over the connection of [Link]: what is
    published, reserved and printed, and who else can commit it. *)
From S2P Require Import Prelude.
From S2P Require Import Identity.
From S2P Require Import Enums.
From S2P Require Import Accounting.
From S2P Require Import Records.
From S2P Require Import Selection.
From S2P Require Import Fabric.
From S2P Require Import Synthetic.
From S2P Require Import SelectionProps.
From S2P Require Import Ledger.
From S2P Require Import LedgerRefinement.
From S2P Require Import Reservations.
From S2P Require Import Invariants.
From S2P Require Import CapacitySafety.
From S2P Require Import Crc.
From S2P Require Import Protocol.
From S2P Require Import Readers.
From S2P Require Import Codec.
From S2P Require Import Net.
From S2P Require Import Coordinator.
From S2P Require Import Args.
From S2P Require Import Worker.
From S2P Require Import Interleaving.
From S2P Require Import WorkerDeath.
From S2P Require Import Link.

(** ** A whole session *)

Definition fresh_engine : Fabric := fabric_init (mkGen 1) (mkGen 1).

(** The link after the worker has announced itself and published. *)
Definition booted (boot : string) (f : Fabric) (devs : list DeviceId) : Link :=
  mkLink (mkThread f (mkWorker (mkId boot) devs [] false) true) LkServing [] "".

(** The engine as a worker publishes its device, its pool and its region. *)
Definition publish_ctx (f : Fabric) : AuthorityContext := link_context (booted "" f []).
Definition received_device : CxlDevice :=
  match decode_device (encode_device (worker_device "")) device_default with
  | Got d _ => d
  | _ => device_default
  end.
Definition device_fabric : Fabric :=
  (register_device fresh_engine received_device (publish_ctx fresh_engine)).2.
Definition pool_fabric : Fabric :=
  (create_pool device_fabric
     (published_pool (mkId "p-1") (mkGen 1) [worker_member (worker_device "")])
     (publish_ctx device_fabric)).2.
Definition received_region : CxlRegion :=
  match decode_region (fr_payload (region_frame (worker_device ""))) region_default with
  | Got r _ => r
  | _ => region_default
  end.
Definition worker_fabric : Fabric :=
  (create_region pool_fabric received_region (publish_ctx pool_fabric)).2.


Lemma received_facts :
  decode_device (encode_device (worker_device "")) device_default =
    Got received_device (bsize (encode_device (worker_device ""))) /\
  dev_id received_device = mkId "dev-1" /\
  decode_pool (fr_payload (pool_frame (worker_device ""))) [] =
    Got (mkId "p-1", mkGen 1, [worker_member (worker_device "")])
      (bsize (fr_payload (pool_frame (worker_device "")))) /\
  decode_region (fr_payload (region_frame (worker_device ""))) region_default =
    Got received_region (bsize (fr_payload (region_frame (worker_device "")))).
Proof. split_and!; vm_compute; reflexivity. Qed.

Lemma publish_facts boot devs :
  register_device (link_fabric (booted boot fresh_engine devs)) received_device
    (link_context (booted boot fresh_engine devs)) =
    (DecisionReason_OK, device_fabric) /\
  create_pool (link_fabric (booted boot device_fabric devs))
    (published_pool (mkId "p-1") (mkGen 1) [worker_member (worker_device "")])
    (link_context (booted boot device_fabric devs)) = (DecisionReason_OK, pool_fabric) /\
  create_region (link_fabric (booted boot pool_fabric devs)) received_region
    (link_context (booted boot pool_fabric devs)) =
    (DecisionReason_OK, worker_fabric).
Proof. split_and!; vm_compute; reflexivity. Qed.

(** The records of the published state. *)
Definition the_device : CxlDevice :=
  default device_default (st_devices (state_ worker_fabric) !! mkId "dev-1").
Definition the_pool : CxlPool :=
  default pool_default (st_pools (state_ worker_fabric) !! mkId "p-1").
Definition the_region : CxlRegion :=
  default region_default (st_regions (state_ worker_fabric) !! mkId "r-1").

Lemma worker_fabric_records :
  st_devices (state_ worker_fabric) = {[mkId "dev-1" := the_device]} /\
  st_pools (state_ worker_fabric) = {[mkId "p-1" := the_pool]} /\
  st_regions (state_ worker_fabric) = {[mkId "r-1" := the_region]} /\
  st_reservations (state_ worker_fabric) = ∅ /\
  epoch worker_fabric = mkGen 1 /\ sequence_ worker_fabric = 0.
Proof. split_and!; vm_compute; reflexivity. Qed.

Lemma the_records :
  pool_id the_pool = mkId "p-1" /\ reg_id the_region = mkId "r-1" /\
  dev_id the_device = mkId "dev-1" /\ reg_pool the_region = mkId "p-1" /\
  reg_member_devices the_region = [mkId "dev-1"] /\ pool_evidence_current the_pool = true /\
  pool_free the_pool = 16 * GiB /\ region_free the_region = 16 * GiB /\
  pool_reserved_bytes the_pool = 0.
Proof. split_and!; vm_compute; reflexivity. Qed.

Lemma the_admissible n c :
  n <= 16 * GiB ->
  admissible the_device the_region the_pool (16 * GiB) (request_for n c) true.
Proof.
  intros Hn. constructor.
  - split; [|split]; vm_compute; reflexivity.
  - split; [|split]; [vm_compute; reflexivity..|]. left. vm_compute. reflexivity.
  - split; [|split]; vm_compute; reflexivity.
  - exact Hn.
  - intros H. discriminate H.
  - left. reflexivity.
  - left. reflexivity.
  - left. reflexivity.
  - intros p H. discriminate H.
  - intros need H. discriminate H.
  - intros t H. discriminate H.
  - intros need H. discriminate H.
  - intros H. destruct (Z.lt_irrefl 0 H).
  - intros H. destruct (Z.lt_irrefl 0 H).
Qed.

Lemma worker_fabric_reachable : reachable op_plain worker_fabric.
Proof.
  apply (reach_step op_plain pool_fabric (OpCreateRegion received_region (publish_ctx pool_fabric)));
    [|by apply op_plain_free].
  apply (reach_step op_plain device_fabric
           (OpCreatePool (published_pool (mkId "p-1") (mkGen 1) [worker_member (worker_device "")])
              (publish_ctx device_fabric))).
  - apply (reach_step op_plain fresh_engine
             (OpRegisterDevice received_device (publish_ctx fresh_engine)));
      [constructor | by apply op_plain_free].
  - apply published_pool_plain; [|vm_compute; discriminate].
    constructor; [|constructor]. split; [split; vm_compute; discriminate.. | by vm_compute].
Qed.

Lemma idle_booted boot f devs : idle (booted boot f devs).
Proof. repeat split. Qed.

Lemma worker_fabric_inv : fabric_inv worker_fabric.
Proof. apply reachable_inv, plain_wf, worker_fabric_reachable. Qed.

#[local] Opaque device_fabric pool_fabric worker_fabric received_device received_region the_device
  the_pool the_region.

(** What it publishes fits in frames. *)
Lemma published_frames_ok boot :
  frame_ok (device_frame (worker_device boot)) /\ frame_ok (pool_frame (worker_device boot)) /\
  frame_ok (region_frame (worker_device boot)).
Proof.
  split_and!; (apply frame_fits; [known_type | | vm_compute; discriminate]).
  - apply encode_device_ok.
  - apply encode_pool_ok.
  - apply encode_region_ok.
Qed.

(** A worker that connects to a new coordinator and publishes. *)
Lemma publish_session cfg boot k :
  run_worker cfg (publish_part (worker_device boot) k) (booted boot fresh_engine []) =
  run_worker cfg k (booted boot worker_fabric [mkId "dev-1"]).
Proof.
  destruct received_facts as (Hd & Hid & Hp & Hr).
  destruct (publish_facts boot []) as (Fd & _ & _).
  destruct (publish_facts boot [mkId "dev-1"]) as (_ & Fp & Fr).
  pose proof (device_answer cfg _ _ _ _ _ (idle_booted _ _ _) Hd Fd) as A1.
  pose proof (pool_answer cfg _ _ _ _ _ _ _ (idle_booted _ _ _) Hp Fp) as A2.
  pose proof (region_answer cfg _ _ _ _ _ (idle_booted _ _ _) Hr Fr) as A3.
  rewrite Hid in A1. destruct (published_frames_ok boot) as (O1 & O2 & O3).
  exact (publish_answered cfg (worker_device boot) k _ _ _ _ _ (eq_trans (deliver_ok cfg _ _ O1) A1)
           (eq_trans (deliver_ok cfg _ _ O2) A2) (eq_trans (deliver_ok cfg _ _ O3) A3)).
Qed.

(** ** The reservation *)

(** An engine with one device, one pool and one region over both, with [cap] bytes free in
    the pool and no less in the region. *)
Record single (f : Fabric) (p : CxlPool) (r : CxlRegion) (d : CxlDevice) (cap : Z) : Prop := {
  sg_inv : fabric_inv f;
  sg_devices : st_devices (state_ f) = {[dev_id d := d]};
  sg_regions : st_regions (state_ f) = {[reg_id r := r]};
  sg_pools : st_pools (state_ f) = {[pool_id p := p]};
  sg_owner : reg_pool r = pool_id p;
  sg_members : reg_member_devices r = [dev_id d];
  sg_current : pool_evidence_current p = true;
  sg_free : pool_free p = cap;
  sg_room : cap <= region_free r;
  sg_admits : forall n c, n <= region_free r ->
    admissible d r p (region_free r) (request_for n c) true;
}.

Section Single.
Context (f : Fabric) (p : CxlPool) (r : CxlRegion) (d : CxlDevice) (cap : Z) (Hs : single f p r d cap).

Lemma single_placement n c p' r' d' :
  placement (state_ f) (request_for n c) p' r' d' <-> p' = p /\ r' = r /\ d' = d /\ n <= region_free r.
Proof.
  destruct Hs as [_ Hd Hr Hp Ho Hm Hc Hf Hroom Ha]. split.
  - intros ((kp & Kp) & (kr & Kr) & _ & (kd & _ & Kd) & Hadm).
    rewrite Hp, lookup_singleton_Some in Kp. rewrite Hr, lookup_singleton_Some in Kr.
    rewrite Hd, lookup_singleton_Some in Kd. destruct Kp as [_ <-], Kr as [_ <-], Kd as [_ <-].
    apply adm_capacity in Hadm. split_and!; [reflexivity..|exact Hadm].
  - intros (-> & -> & -> & Hn). unfold placement. rewrite Hp, Hr, Hd, Ho, Hm, Hc.
    split; [|split; [|split; [|split]]].
    + exists (pool_id p). apply lookup_singleton_eq.
    + exists (reg_id r). apply lookup_singleton_eq.
    + reflexivity.
    + exists (dev_id d). split; [constructor | apply lookup_singleton_eq].
    + by apply Ha.
Qed.

Lemma single_reserve n c ctx :
  ctx_coordinator_epoch ctx = epoch f ->
  (0 < n <= cap ->
   reserve f (request_for n c) ctx =
     (mkReserveOutcome true DecisionReason_OK (reservation_for f (request_for n c) ctx p r d),
      after_reserve f p r (reservation_for f (request_for n c) ctx p r d))) /\
  (~ 0 < n <= cap -> 0 <= n ->
   exists why, why <> DecisionReason_OK /\ reserve f (request_for n c) ctx = (refuse why, f)).
Proof.
  intros Hctx.
  destruct (reserve_cases f (request_for n c) ctx (inv_keys _ (sg_inv _ _ _ _ _ Hs))) as
    [(why & Hwhy & Hres & Hno) | (p' & r' & d' & Hrs & Hpl & _ & _ & Hres)].
  - split; [|by eauto]. intros Hn. exfalso. apply (Hno p r d).
    assert (out_ok (select f (request_for n c)) = true) as Hok.
    { apply build_selection_ok_iff. exists p, r, d.
      apply single_placement. pose proof (sg_room _ _ _ _ _ Hs). split_and!; [reflexivity..|lia]. }
    destruct (build_selection_chosen _ _ Hok) as (p' & r' & d' & Hch & Hpl & _).
    apply single_placement in Hpl as (-> & -> & -> & _).
    constructor; [exact Hctx | simpl; lia | exact Hok | exact Hch |].
    rewrite (sg_free _ _ _ _ _ Hs). simpl. lia.
  - apply single_placement in Hpl as (-> & -> & -> & Hn). split; [by intros _|].
    intros Hnot Hn0. destruct Hrs as [_ Hne _ _ Hroom]. rewrite (sg_free _ _ _ _ _ Hs) in Hroom.
    simpl in Hne, Hroom. lia.
Qed.
End Single.

Lemma worker_single : single worker_fabric the_pool the_region the_device (16 * GiB).
Proof.
  destruct worker_fabric_records as (Hd & Hp & Hr & _ & _ & _).
  destruct the_records as (Ip & Ir & Id & Rp & Rm & Pe & Hf & Hrf & _).
  split; rewrite ?Ip, ?Ir, ?Id, ?Hrf;
    [exact worker_fabric_inv | exact Hd | exact Hr | exact Hp | exact Rp | exact Rm | exact Pe | exact Hf | reflexivity |].
  intros n c. apply the_admissible.
Qed.

Lemma deliver_boot cfg boot f :
  str_fits boot -> deliver cfg (boot_frame boot) (link_init f) = Some (booted boot f []).
Proof.
  intros [Hb Hsz]%bytes_of_string_fit. rewrite deliver_ok by (by apply frame_fits; [known_type|..]).
  unfold serve, received_ok, received_type. rewrite !bool_decide_true by reflexivity.
  cbn [andb lk_phase link_init received dr_frame boot_frame fr_payload].
  by rewrite bytes_string_bytes.
Qed.

(** A worker asked to reserve and to do nothing else. *)
Record only_reserves (a : WorkerArgs) : Prop := {
  or_reserve : 0 < wa_reserve_bytes a \/ wa_reserve_commit a = true;
  or_commit : wa_commit a = "";
  or_release : wa_release a = "";
  or_query : wa_query a = false;
  or_stay : wa_stay a = false;
}.

(** From an engine [f0] that the publication leads to [f1]. *)
Lemma session_run cfg a f0 f1 ro f' :
  only_reserves a -> str_fits (wa_boot a) -> in_u64 (wa_reserve_bytes a) ->
  consumer_fits (wa_consumer a) -> fabric_inv f1 ->
  (forall k, run_worker cfg (publish_part (worker_device (wa_boot a)) k) (booted (wa_boot a) f0 []) =
             run_worker cfg k (booted (wa_boot a) f1 [mkId "dev-1"])) ->
  reserve f1 (request_for (wa_reserve_bytes a) (mkId (wa_consumer a)))
    (link_context (booted (wa_boot a) f1 [mkId "dev-1"])) = (ro, f') ->
  run_worker cfg (worker_main true a) (link_init f0) =
  Some (Returned 0,
        answered (booted (wa_boot a) f1 [mkId "dev-1"]) f'
          (note_reservation ro (mkWorker (mkId (wa_boot a)) [mkId "dev-1"] [] false))
          (result_line "RESERVED" (outcome_words ro))).
Proof.
  intros [Hr Hc Hrel Hq Hs] Hboot Hn Hcons Hinv Hpub Hres. unfold worker_main. rewrite Hc, Hrel, Hq, Hs.
  assert (bool_decide (wa_reserve_bytes a > 0) || wa_reserve_commit a = true) as ->.
  { destruct Hr as [Hr | ->]; [by rewrite bool_decide_true by lia | by rewrite orb_true_r]. }
  rewrite orb_true_r. cbn [negb String.eqb]. rewrite (run_send _ _ _ _ _ (deliver_boot cfg _ f0 Hboot)).
  cbv beta. cbn [negb]. rewrite Hpub.
  rewrite (reserve_request cfg a _ _ ro f' (idle_booted _ _ _) Hinv Hn Hcons Hres).
  reflexivity.
Qed.

(** C24. A session from end to end. A worker started with a reservation of [n] bytes against
    a new coordinator announces itself, publishes its device, pool and region of 16 GiB,
    asks, prints one line and exits with 0. If 0 < n <= 16 GiB the line is
    "RESERVED res-1 reason=0 ok=1" and the engine then holds exactly that reservation, of
    [n] bytes, for the given consumer, bound to the worker's boot identity, with [n] bytes
    reserved in the pool; it is RESERVED, not committed, even under --reserve-commit.
    Otherwise the line shows a reason other than OK and ok=0, and nothing is reserved. *)
Theorem session_reserves cfg a :
  only_reserves a -> str_fits (wa_boot a) -> in_u64 (wa_reserve_bytes a) ->
  consumer_fits (wa_consumer a) ->
  exists lk, run_worker cfg (worker_main true a) (link_init fresh_engine) = Some (Returned 0, lk) /\
    (0 < wa_reserve_bytes a <= 16 * GiB ->
     lk_text lk = "RESERVED res-1 reason=0 ok=1" +:+ nl /\
     exists res p,
       st_reservations (state_ (link_fabric lk)) = {[mkId "res-1" := res]} /\
       res_state res = ResumeState_RESERVED /\ res_bytes res = wa_reserve_bytes a /\
       res_consumer res = mkId (wa_consumer a) /\ res_worker_boot_id res = mkId (wa_boot a) /\
       st_pools (state_ (link_fabric lk)) !! mkId "p-1" = Some p /\
       pool_reserved_bytes p = wa_reserve_bytes a) /\
    (~ 0 < wa_reserve_bytes a <= 16 * GiB ->
     st_reservations (state_ (link_fabric lk)) = ∅ /\
     exists why, why <> DecisionReason_OK /\
       lk_text lk = result_line "RESERVED" ("", enum_to_u32 why, 0)).
Proof.
  intros Ha Hb Hn Hc. destruct worker_fabric_records as (_ & _ & _ & Hnone & He & Hseq).
  destruct (single_reserve _ _ _ _ _ worker_single (wa_reserve_bytes a) (mkId (wa_consumer a))
              (link_context (booted (wa_boot a) worker_fabric [mkId "dev-1"]))) as [Hyes Hno];
    [reflexivity|].
  destruct (decide (0 < wa_reserve_bytes a <= 16 * GiB)) as [Hfit|Hnot].
  - eexists. split; [exact (session_run cfg a _ _ _ _ Ha Hb Hn Hc worker_fabric_inv (publish_session cfg _) (Hyes Hfit))|]. split;
      [intros _ | intros Hbad; destruct (Hbad Hfit)].
    destruct the_records as (Ip & _ & _ & _ & _ & _ & _ & _ & Hr0).
    unfold reservation_for, after_reserve. rewrite Hseq.
    split; [vm_compute; reflexivity|]. eexists _, _. cbn [answered link_fabric lk_thread th_fabric state_
      st_reservations st_pools res_id res_state res_bytes res_consumer res_worker_boot_id].
    rewrite Hnone, lookup_empty, Ip. split; [reflexivity|]. do 4 (split; [reflexivity|]).
    split; [apply lookup_insert_eq|]. cbn [charge_pool pool_set_account pool_reserved_bytes].
    rewrite Hr0, add64_small; [reflexivity|..]; unfold in_u64 in Hn; cbn [request_for req_bytes]; lia.
  - destruct Hno as (why & Hwhy & Hres); [exact Hnot | unfold in_u64 in Hn; lia|].
    eexists. split; [exact (session_run cfg a _ _ _ _ Ha Hb Hn Hc worker_fabric_inv (publish_session cfg _) Hres)|]. split;
      [intros Hbad; destruct (Hnot Hbad) | intros _].
    split; [exact Hnone|]. exists why. split; [exact Hwhy|]. reflexivity.
Qed.

(** The arguments as a shell would pass them. *)
Definition session_args : WorkerArgs :=
  default worker_args_default
    (worker_args ["--boot"; "w-7"; "--reserve-bytes"; "1073741824"; "--consumer"; "svc"]).

Lemma session_reserves_witness :
  exists lk, run_worker (mkConfig "" "") (worker_main true session_args) (link_init fresh_engine) =
               Some (Returned 0, lk) /\ lk_text lk = "RESERVED res-1 reason=0 ok=1" +:+ nl.
Proof.
  destruct (session_reserves (mkConfig "" "") session_args) as (lk & Hrun & Hyes & _).
  - split; [left|..]; vm_compute; reflexivity.
  - vm_compute. discriminate.
  - split; vm_compute; discriminate.
  - vm_compute. discriminate.
  - exists lk. split; [exact Hrun|]. apply Hyes. split; vm_compute; [reflexivity | discriminate].
Defined.

Lemma bad_request_refused_witness :
  serve (mkConfig "" "") (received (mkFrame FT_REVALIDATE [])) (booted "w-7" fresh_engine []) =
  Some (mkLink (lk_thread (booted "w-7" fresh_engine [])) LkServing [error_frame "unsupported frame type"] "").
Proof.
  apply (bad_request_refused (mkConfig "" "") (mkFrame FT_REVALIDATE []) (booted "w-7" fresh_engine [])).
  - exact (idle_booted _ _ _).
  - reflexivity.
Defined.

(** ** Commits by another worker *)

Definition boot_context (f : Fabric) (boot : WorkerBootId) : AuthorityContext :=
  mkContext (epoch f) (policy_generation f) boot (mkGen 1).

Lemma commit_guard f rid res boot boot' :
  st_reservations (state_ f) !! rid = Some res ->
  ro_ok (commit f rid (boot_context f boot)).1 = true ->
  boot' = id_default \/ boot' = res_worker_boot_id res ->
  commit f rid (boot_context f boot') = commit f rid (boot_context f boot).
Proof.
  intros Hres Hok Hboot.
  destruct (commit_cases f rid (boot_context f boot)) as
    [(why & _ & H & _) | (res1 & p & r & d & Hc & ->)]; [rewrite H in Hok; discriminate|].
  destruct Hc as [Hf Hst Hep _ Hp Hr Hd Hb]. assert (res1 = res) as -> by congruence.
  destruct (commit_cases f rid (boot_context f boot')) as
    [(why & _ & _ & Hno) | (res2 & p2 & r2 & d2 & [Hf2 _ _ _ [Hp2 _] [Hr2 _] _ _] & ->)].
  - destruct (Hno res p r d). by constructor.
  - destruct Hp, Hr. by simplify_eq.
Qed.

(** C40. An empty boot identity passes for any worker. A reservation that its owner could
    commit is committed with the same effect by a worker that announced an empty boot
    identity (a WORKER_BOOT frame without payload, which the coordinator accepts), while a
    worker that announced any other identity is refused. *)
Theorem empty_boot_commits_foreign cfg lk rid res k ro f' :
  idle lk -> reachable op_wf (link_fabric lk) -> str_fits rid -> wk_boot (th_worker (lk_thread lk)) = mkId "" ->
  st_reservations (state_ (link_fabric lk)) !! mkId rid = Some res ->
  commit (link_fabric lk) (mkId rid) (boot_context (link_fabric lk) (res_worker_boot_id res)) = (ro, f') ->
  ro_ok ro = true ->
  run_worker cfg (settle_part FT_COMMIT "COMMIT_RESULT" rid k) lk =
  run_worker cfg k (answered lk f' (th_worker (lk_thread lk))
                      (result_line "COMMIT_RESULT" (outcome_words ro))) /\
  (forall boot, boot <> mkId "" -> boot <> res_worker_boot_id res ->
     ro_ok (commit (link_fabric lk) (mkId rid) (boot_context (link_fabric lk) boot)).1 = false).
Proof.
  intros Hidle Hf Hrid Hboot Hres Hown Hok. pose proof (reachable_inv _ Hf) as Hinv. split.
  - apply settle_request; [done..|]. left. split; [done|]. rewrite <- Hown.
    assert (link_context lk = boot_context (link_fabric lk) (mkId "")) as ->
      by (unfold link_context; by rewrite Hboot).
    apply (commit_guard _ _ res); [done | by rewrite Hown | by left].
  - intros boot Hne Hno. destruct (commit_cases (link_fabric lk) (mkId rid)
      (boot_context (link_fabric lk) boot)) as
      [(why & _ & -> & _) | (res1 & p & r & d & [Hf1 _ _ Hb _ _ _ _] & _)]; [done|].
    exfalso. assert (res1 = res) as -> by congruence. by destruct Hb.
Qed.

(** The engine after the session of the first worker, seen by one with an empty identity. *)
Definition reserved_fabric : Fabric :=
  (reserve worker_fabric (request_for GiB (mkId "svc"))
     (link_context (booted "w-7" worker_fabric [mkId "dev-1"]))).2.

Lemma reserved_fabric_reachable : reachable op_wf reserved_fabric.
Proof.
  apply reach_reserve; [exact (plain_wf _ worker_fabric_reachable)|].
  split; vm_compute; [discriminate | reflexivity].
Qed.

Lemma empty_boot_commits_foreign_witness :
  exists lk, run_worker (mkConfig "" "") (settle_part FT_COMMIT "COMMIT_RESULT" "res-1" (WReturn 0))
               (booted "" reserved_fabric []) = Some (Returned 0, lk) /\
             lk_text lk = "COMMIT_RESULT res-1 reason=0 ok=1" +:+ nl.
Proof.
  destruct (empty_boot_commits_foreign (mkConfig "" "") (booted "" reserved_fabric []) "res-1"
    (reservation_for worker_fabric (request_for GiB (mkId "svc"))
       (mkContext (mkGen 1) (mkGen 1) (mkId "w-7") (mkGen 1)) the_pool the_region the_device) (WReturn 0)
    (commit reserved_fabric (mkId "res-1") (boot_context reserved_fabric (mkId "w-7"))).1
    (commit reserved_fabric (mkId "res-1") (boot_context reserved_fabric (mkId "w-7"))).2) as [H _].
  - exact (idle_booted _ _ _).
  - exact reserved_fabric_reachable.
  - vm_compute. discriminate.
  - reflexivity.
  - vm_compute. reflexivity.
  - vm_compute. reflexivity.
  - vm_compute. reflexivity.
  - eexists. split; [rewrite H; reflexivity|]. vm_compute. reflexivity.
Defined.

(** ** Requests that do not fit *)

(** C38. A request that does not fit in a frame is the worker's death. [encode_frame] drops
    a payload over the bound and sends the bare header, which the coordinator reads as a
    corrupted frame: it withdraws the evidence of every device the worker has published,
    leaves everything else as it is, and closes the connection; the worker exits with 1
    and prints nothing. A --consumer of more than 65524 characters is enough. *)
Theorem overlong_request_is_death cfg lk a k :
  idle lk -> 65524 < Z.of_nat (String.length (wa_consumer a)) ->
  exists lk', run_worker cfg (reserve_part a k) lk = Some (Returned 1, lk') /\
    lk_phase lk' = LkClosed /\ lk_text lk' = lk_text lk /\
    wk_dead (th_worker (lk_thread lk')) = true /\
    only_devices (wk_devices (th_worker (lk_thread lk))) (link_fabric lk) (link_fabric lk') /\
    (forall d dev, d ∈ wk_devices (th_worker (lk_thread lk)) ->
       st_devices (state_ (link_fabric lk')) !! d = Some dev ->
       ~ (dev_state dev = DeviceState_ONLINE /\ dev_evidence_current dev = true)).
Proof.
  intros (Hph & Hrun & Hin) Hlong. set (ws := th_worker (lk_thread lk)).
  destruct (fence_prog_spec cfg (wk_devices ws) (mkThread (link_fabric lk) (mark_dead ws) true))
    as (t' & os & Hfence & Hw & _ & Hod & Hf).
  exists (mkLink t' LkClosed [] (lk_text lk)). split; [|split_and!; try done].
  - unfold reserve_part. erewrite run_send.
    2:{ unfold deliver, serve. rewrite Hph, Hrun, Hin, transmit_oversized.
        - fold ws. unfold link_fabric in Hfence. by rewrite Hfence.
        - known_type.
        - unfold encode_reserve, kMaxPayloadBytes. cbn [concat].
          rewrite !bsize_app, put_str_bytes, bsize_app, bsize_put_u32.
          unfold bsize. rewrite length_string_bytes. simpl. lia. }
    cbv beta. reflexivity.
  - cbn. by rewrite Hw.
  - intros d dev Hd. by apply Hf.
Qed.

Definition long_consumer : string := String.concat "" (replicate 655 (String.concat "" (replicate 101 "a"))).
Definition overlong_args : WorkerArgs :=
  default worker_args_default (worker_args ["--boot"; "w-7"; "--reserve-bytes"; "1"; "--consumer"; long_consumer]).

Lemma overlong_request_is_death_witness :
  exists lk', run_worker (mkConfig "" "") (reserve_part overlong_args (WReturn 0))
                (booted "w-7" worker_fabric [mkId "dev-1"]) = Some (Returned 1, lk') /\
    lk_phase lk' = LkClosed.
Proof.
  destruct (overlong_request_is_death (mkConfig "" "") (booted "w-7" worker_fabric [mkId "dev-1"])
    overlong_args (WReturn 0)) as (lk' & Hrun & Hph & _).
  - exact (idle_booted _ _ _).
  - vm_compute. reflexivity.
  - exists lk'. exact (conj Hrun Hph).
Defined.
