(* ===== verification/Restart.v ===== *)
(** * A session after a restart

    A worker reserves; the coordinator is stopped and a new process boots from the state
    it saved ([Crash]); the worker is started again. What the second session gets, for any
    amounts: the bytes of the first reservation are gone for good, though the reservation
    is not there any more, and its name is given out again. *)
From S2P Require Import Prelude.
From S2P Require Import Identity.
From S2P Require Import Enums.
From S2P Require Import Accounting.
From S2P Require Import Lifecycle.
From S2P Require Import Records.
From S2P Require Import Selection.
From S2P Require Import Fabric.
From S2P Require Import Synthetic.
From S2P Require Import SelectionProps.
From S2P Require Import Ledger.
From S2P Require Import LedgerRefinement.
From S2P Require Import Reservations.
From S2P Require Import Invariants.
From S2P Require Import CapacitySafety.
From S2P Require Import Crc.
From S2P Require Import Protocol.
From S2P Require Import Readers.
From S2P Require Import Codec.
From S2P Require Import Persistence.
From S2P Require Import Net.
From S2P Require Import Recovery.
From S2P Require Import Args.
From S2P Require Import Coordinator.
From S2P Require Import Worker.
From S2P Require Import Interleaving.
From S2P Require Import Link.
From S2P Require Import Session.

(** ** Engines with one record of each kind *)

Definition one_of_each (e : Z) (d : CxlDevice) (r : CxlRegion) (p : CxlPool) : Fabric :=
  mkFabric
    (mkSnapshot (mkGen e) (mkGen 1) {[mkId "dev-1" := d]} {[mkId "r-1" := r]} {[mkId "p-1" := p]} ∅
       gen_default (global_ledger_of {[mkId "p-1" := p]})) 0.

(** The records as a restart brings them back, with nothing charged. *)
Definition restarted_device : CxlDevice :=
  dev_with_status (kept_device the_device) HealthState_UNKNOWN DeviceState_REVALIDATION_REQUIRED false.
Definition restarted_region : CxlRegion :=
  let r := kept_region the_region in
  reg_set_state r RegionState_REVALIDATION_REQUIRED (reg_health r) false.
Definition restarted_pool : CxlPool :=
  let p := kept_pool the_pool in
  pool_set_state p PoolState_REVALIDATION_REQUIRED false (pool_health_summary p).

(** And as the worker's second publication leaves them. *)
Definition again_region : CxlRegion :=
  reg_set_state restarted_region RegionState_ONLINE HealthState_HEALTHY true.
Definition again_pool : CxlPool :=
  recompute_pool (pool_set_state restarted_pool PoolState_AVAILABLE true HealthState_HEALTHY).

(** The first session's reservation of [n] bytes charged to a pool. *)
Definition charged (p : CxlPool) (n : Z) : CxlPool := pool_set_account p n 0.

(** The engine a new process boots with from a saved state. *)
Definition booted_from (e : Z) (st : PersistedState) : Fabric :=
  import_persisted (fabric_init (mkGen e) (mkGen 1)) (kept_state st).

Definition first_reservation (n : Z) (c boot : string) : Reservation :=
  reservation_for worker_fabric (request_for n (mkId c))
    (link_context (booted boot worker_fabric [mkId "dev-1"])) the_pool the_region the_device.

Lemma restarted_engine e n c boot :
  in_u64 n ->
  booted_from e (export_persisted
    (after_reserve worker_fabric the_pool the_region (first_reservation n c boot))) =
  one_of_each e restarted_device restarted_region (charged restarted_pool n).
Proof.
  intros Hn. destruct worker_fabric_records as (Hd & Hp & Hr & _ & _ & _).
  destruct the_records as (Ip & Ir & _ & _ & _ & _ & _ & _ & Hr0).
  assert (st_policy_generation (state_ worker_fabric) = mkGen 1) as Hpol by (vm_compute; reflexivity).
  unfold booted_from, import_persisted, export_persisted, kept_state, after_reserve.
  cbn [state_ st_devices st_regions st_pools st_policy_generation ps_devices ps_regions ps_pools
    ps_policy_generation fabric_init st_coordinator_epoch st_evidence_generation st_global_ledger].
  rewrite Hd, Hp, Hr, Ip, Ir, !insert_singleton_eq, !map_fmap_singleton, Hpol.
  unfold one_of_each, with_state, recompute_global, st_with_ledger. cbn [sequence_ fabric_init].
  assert (kept_region (charge_region the_region (res_bytes (first_reservation n c boot))) =
          kept_region the_region) as -> by reflexivity.
  assert (charge_pool the_pool (res_bytes (first_reservation n c boot)) = charged the_pool n) as ->.
  { unfold charge_pool, charged. rewrite Hr0. cbn [first_reservation reservation_for res_bytes request_for req_bytes].
    rewrite add64_small by (unfold in_u64 in Hn; lia). reflexivity. }
  reflexivity.
Qed.

(** ** Publishing again *)

(** The pool is known: it is revalidated. *)
Lemma pool_answer_again cfg payload lk pid gen ms n f' :
  idle lk -> decode_pool payload [] = Got (pid, gen, ms) n ->
  create_pool (link_fabric lk) (published_pool pid gen ms) (link_context lk) =
    (DecisionReason_DUPLICATE_IDENTITY, link_fabric lk) ->
  revalidate_pool (link_fabric lk) pid (link_context lk) = (DecisionReason_OK, f') ->
  serve cfg (received (mkFrame FT_PUBLISH_POOL payload)) lk = Some (acked lk f' (th_worker (lk_thread lk))).
Proof.
  intros Hidle Hd Hc Hr. apply serve_reply; [done|]. intros q.
  cbn [dispatch_switch fr_type fr_payload]. rewrite Hd. cbn [run_prog call_fabric].
  unfold link_fabric in Hc, Hr. rewrite Hc. rewrite bool_decide_true by done. cbn [run_prog call_fabric th_fabric].
  rewrite Hr. by destruct Hidle as (_ & -> & _).
Qed.

(** So is the region. *)
Lemma region_answer_again cfg payload lk r n f' :
  idle lk -> decode_region payload region_default = Got r n ->
  create_region (link_fabric lk) r (link_context lk) =
    (DecisionReason_DUPLICATE_IDENTITY, link_fabric lk) ->
  revalidate_region (link_fabric lk) (reg_id r) (link_context lk) = (DecisionReason_OK, f') ->
  serve cfg (received (mkFrame FT_PUBLISH_REGION payload)) lk = Some (acked lk f' (th_worker (lk_thread lk))).
Proof.
  intros Hidle Hd Hc Hr. apply serve_reply; [done|]. intros q.
  cbn [dispatch_switch fr_type fr_payload]. rewrite Hd. cbn [run_prog call_fabric].
  unfold link_fabric in Hc, Hr. rewrite Hc. rewrite bool_decide_true by done. cbn [run_prog call_fabric th_fabric].
  rewrite Hr. by destruct Hidle as (_ & -> & _).
Qed.

Definition ctx_of (e : Z) (boot : string) : AuthorityContext :=
  mkContext (mkGen e) (mkGen 1) (mkId boot) (mkGen 1).

Lemma register_again e n boot :
  register_device (one_of_each e restarted_device restarted_region (charged restarted_pool n))
    received_device (ctx_of e boot) =
  (DecisionReason_OK, one_of_each e received_device restarted_region (charged restarted_pool n)).
Proof.
  unfold register_device, stale_epoch, one_of_each.
  cbn [state_ st_devices st_coordinator_epoch ctx_coordinator_epoch ctx_of].
  rewrite bool_decide_true by done.
  assert (dev_id received_device = mkId "dev-1") as -> by (vm_compute; reflexivity).
  rewrite lookup_singleton_eq. cbn [negb].
  assert (id_empty (mkId "dev-1") || gen_empty (dev_generation received_device) ||
          id_empty (dev_boot_id received_device) = false) as -> by (vm_compute; reflexivity).
  assert (bool_decide (dev_generation restarted_device = dev_generation received_device) = true) as ->
    by (vm_compute; reflexivity).
  assert (String.eqb (dev_vendor_device_id restarted_device) (dev_vendor_device_id received_device) = true)
    as -> by (vm_compute; reflexivity).
  assert ((dev_total_physical_bytes restarted_device =? dev_total_physical_bytes received_device) = true)
    as -> by (vm_compute; reflexivity).
  unfold put_device, with_state, st_with_devices. cbn. by rewrite insert_singleton_eq.
Qed.

Lemma create_pool_again e n boot :
  let f := one_of_each e received_device restarted_region (charged restarted_pool n) in
  create_pool f (published_pool (mkId "p-1") (mkGen 1) [worker_member (worker_device "")]) (ctx_of e boot) =
    (DecisionReason_DUPLICATE_IDENTITY, f) /\
  revalidate_pool f (mkId "p-1") (ctx_of e boot) =
    (DecisionReason_OK, one_of_each e received_device restarted_region (charged again_pool n)).
Proof.
  cbv zeta. split.
  - unfold create_pool, stale_epoch, one_of_each.
    cbn [state_ st_pools st_coordinator_epoch ctx_coordinator_epoch ctx_of].
    rewrite bool_decide_true by done. cbn [negb pool_id published_pool].
    rewrite lookup_singleton_eq. reflexivity.
  - unfold revalidate_pool, stale_epoch, one_of_each.
    cbn [state_ st_pools st_coordinator_epoch ctx_coordinator_epoch ctx_of].
    rewrite bool_decide_true by done. cbn [negb]. rewrite lookup_singleton_eq.
    assert (valid_transition_pool (pool_state (charged restarted_pool n)) PoolState_AVAILABLE = true)
      as -> by (vm_compute; reflexivity).
    assert (recompute_pool (pool_set_state (charged restarted_pool n) PoolState_AVAILABLE true HealthState_HEALTHY) =
            charged again_pool n) as -> by (vm_compute; reflexivity).
    unfold put_pool_recompute, put_pool, with_state, st_with_pools, recompute_global, st_with_ledger. cbn.
    by rewrite !insert_singleton_eq.
Qed.

Lemma create_region_again e n boot :
  let f := one_of_each e received_device restarted_region (charged again_pool n) in
  create_region f received_region (ctx_of e boot) = (DecisionReason_DUPLICATE_IDENTITY, f) /\
  revalidate_region f (mkId "r-1") (ctx_of e boot) =
    (DecisionReason_OK, one_of_each e received_device again_region (charged again_pool n)).
Proof.
  assert (reg_id received_region = mkId "r-1") as Hid by (vm_compute; reflexivity).
  cbv zeta. split.
  - unfold create_region, stale_epoch, one_of_each.
    cbn [state_ st_regions st_pools st_coordinator_epoch ctx_coordinator_epoch ctx_of].
    rewrite bool_decide_true by done. cbn [negb]. rewrite Hid, lookup_singleton_eq.
    assert (id_empty (mkId "r-1") || gen_empty (reg_generation received_region) ||
            id_empty (reg_pool received_region) = false) as -> by (vm_compute; reflexivity).
    reflexivity.
  - unfold revalidate_region, stale_epoch, one_of_each.
    cbn [state_ st_regions st_coordinator_epoch ctx_coordinator_epoch ctx_of].
    rewrite bool_decide_true by done. cbn [negb]. rewrite lookup_singleton_eq.
    assert (valid_transition_region (reg_state restarted_region) RegionState_ONLINE = true)
      as -> by (vm_compute; reflexivity).
    unfold put_region, with_state, st_with_regions. cbn. by rewrite insert_singleton_eq.
Qed.

Lemma again_records n :
  pool_id (charged again_pool n) = mkId "p-1" /\ reg_id again_region = mkId "r-1" /\
  dev_id received_device = mkId "dev-1" /\ reg_pool again_region = mkId "p-1" /\
  reg_member_devices again_region = [mkId "dev-1"] /\
  pool_evidence_current (charged again_pool n) = true /\
  region_free again_region = 16 * GiB /\ pool_reserved_bytes (charged again_pool n) = n.
Proof. split_and!; vm_compute; reflexivity. Qed.

Lemma received_region_id : reg_id received_region = mkId "r-1".
Proof. vm_compute. reflexivity. Qed.

Lemma again_free n : 0 < n <= 16 * GiB -> pool_free (charged again_pool n) = 16 * GiB - n.
Proof.
  intros Hn. unfold pool_free.
  assert (pool_unavailable_bytes (charged again_pool n) = 0 /\
          pool_committed_bytes (charged again_pool n) = 0 /\
          pool_draining_bytes (charged again_pool n) = 0 /\
          pool_reserved_bytes (charged again_pool n) = n /\
          pool_total_governed_bytes (charged again_pool n) = 16 * GiB) as (-> & -> & -> & -> & ->)
    by (split_and!; vm_compute; reflexivity).
  assert (16 * GiB <= UINT64_MAX) as Hmax by (vm_compute; discriminate).
  rewrite (add64_small 0 n), (add64_small (0 + n) 0), (add64_small (0 + n + 0) 0) by lia.
  case_bool_decide; [lia|]. rewrite sub64_small by lia. lia.
Qed.

Lemma again_admissible n m c :
  m <= region_free again_region ->
  admissible received_device again_region (charged again_pool n) (region_free again_region)
    (request_for m c) true.
Proof.
  intros Hm. constructor.
  - split; [|split]; vm_compute; reflexivity.
  - split; [|split]; [vm_compute; reflexivity..|]. left. vm_compute. reflexivity.
  - split; [|split]; vm_compute; reflexivity.
  - exact Hm.
  - intros H. discriminate H.
  - left. reflexivity.
  - left. reflexivity.
  - left. reflexivity.
  - intros p H. discriminate H.
  - intros need H. discriminate H.
  - intros t H. discriminate H.
  - intros need H. discriminate H.
  - intros H. destruct (Z.lt_irrefl 0 H).
  - intros H. destruct (Z.lt_irrefl 0 H).
Qed.

Lemma one_of_each_fields e d r p :
  st_devices (state_ (one_of_each e d r p)) = {[mkId "dev-1" := d]} /\
  st_regions (state_ (one_of_each e d r p)) = {[mkId "r-1" := r]} /\
  st_pools (state_ (one_of_each e d r p)) = {[mkId "p-1" := p]} /\
  st_reservations (state_ (one_of_each e d r p)) = ∅ /\
  epoch (one_of_each e d r p) = mkGen e /\ policy_generation (one_of_each e d r p) = mkGen 1 /\
  sequence_ (one_of_each e d r p) = 0.
Proof. by split_and!. Qed.

Lemma one_of_each_context e d r p boot devs :
  link_context (booted boot (one_of_each e d r p) devs) = ctx_of e boot.
Proof. reflexivity. Qed.

#[local] Opaque restarted_device restarted_region restarted_pool again_region again_pool
  received_device received_region worker_fabric the_device the_pool the_region one_of_each.

Section Again.
Context (e n : Z) (c boot1 : string) (Hn : 0 < n <= 16 * GiB).

Lemma amount_u64 : in_u64 n.
Proof. assert (16 * GiB <= UINT64_MAX) by (vm_compute; discriminate). unfold in_u64. lia. Qed.

(** What the first session leaves. *)
Definition first_engine : Fabric :=
  after_reserve worker_fabric the_pool the_region (first_reservation n c boot1).

Lemma first_reserve :
  reserve worker_fabric (request_for n (mkId c))
    (link_context (booted boot1 worker_fabric [mkId "dev-1"])) =
  (mkReserveOutcome true DecisionReason_OK (first_reservation n c boot1), first_engine).
Proof. by apply (single_reserve _ _ _ _ _ worker_single n (mkId c)). Qed.

Lemma first_engine_reachable : reachable op_wf first_engine.
Proof.
  assert (first_engine = (reserve worker_fabric (request_for n (mkId c))
    (link_context (booted boot1 worker_fabric [mkId "dev-1"]))).2) as -> by by rewrite first_reserve.
  apply reach_reserve; [exact (plain_wf _ worker_fabric_reachable)|].
  split; [exact (proj1 amount_u64)|]. destruct worker_fabric_records as (_ & _ & _ & _ & _ & ->).
  vm_compute. reflexivity.
Qed.

Let base := one_of_each e restarted_device restarted_region (charged restarted_pool n).
Let final := one_of_each e received_device again_region (charged again_pool n).

Lemma base_reachable : reachable op_wf base.
Proof.
  unfold base. rewrite <- (restarted_engine e n c boot1 amount_u64).
  apply (reach_step op_wf _ (OpImport (kept_state (export_persisted first_engine)))); [constructor|].
  apply kept_ok, exported_ok, reachable_inv, first_engine_reachable.
Qed.

(** An operation on which the engine puts no condition. *)
Lemma free_step f op f' :
  reachable op_wf f -> (forall g, op_plain g op) -> (step f op).2 = f' -> reachable op_wf f'.
Proof.
  intros Hf Hop <-. apply reach_step; [exact Hf|]. by destruct (Hop f) as [[? _] _].
Qed.

Lemma final_reachable : reachable op_wf final.
Proof.
  pose proof (register_again e n "") as H1. destruct (create_pool_again e n "") as [_ H2].
  destruct (create_region_again e n "") as [_ H3].
  assert (reachable op_wf (one_of_each e received_device restarted_region (charged restarted_pool n))) as R1.
  { refine (free_step base (OpRegisterDevice received_device (ctx_of e "")) _ base_reachable _ _).
    - intros g. by apply op_plain_free.
    - unfold base. cbn [step]. rewrite H1. reflexivity. }
  assert (reachable op_wf (one_of_each e received_device restarted_region (charged again_pool n))) as R2.
  { refine (free_step _ (OpRevalidatePool (mkId "p-1") (ctx_of e "")) _ R1 _ _).
    - intros g. by apply op_plain_free.
    - cbn [step]. rewrite H2. reflexivity. }
  refine (free_step _ (OpRevalidateRegion (mkId "r-1") (ctx_of e "")) _ R2 _ _).
  - intros g. by apply op_plain_free.
  - cbn [step]. rewrite H3. reflexivity.
Qed.

Lemma final_single : single final (charged again_pool n) again_region received_device (16 * GiB - n).
Proof.
  destruct (again_records n) as (Ip & Ir & Id & Ro & Rm & Pe & Rf & _).
  destruct (one_of_each_fields e received_device again_region (charged again_pool n)) as (Fd & Fr & Fp & _).
  split; rewrite ?Ip, ?Ir, ?Id;
    [exact (reachable_inv _ final_reachable) | exact Fd | exact Fr | exact Fp | exact Ro | exact Rm | exact Pe | | |].
  - exact (again_free n Hn).
  - rewrite Rf. lia.
  - intros m c'. apply again_admissible.
Qed.

(** The second worker publishes. *)
Lemma publish_again cfg boot k :
  run_worker cfg (publish_part (worker_device boot) k) (booted boot base []) =
  run_worker cfg k (booted boot final [mkId "dev-1"]).
Proof.
  destruct received_facts as (Hd & Hid & Hp & Hr).
  assert (reg_id received_region = mkId "r-1") as Hrid by exact received_region_id.
  set (f1 := one_of_each e received_device restarted_region (charged restarted_pool n)).
  set (f2 := one_of_each e received_device restarted_region (charged again_pool n)).
  pose proof (register_again e n boot) as Fd.
  destruct (create_pool_again e n boot) as [Fp Fp']. destruct (create_region_again e n boot) as [Fr Fr'].
  rewrite <- Hrid in Fr'.
  rewrite <- (one_of_each_context e restarted_device restarted_region (charged restarted_pool n) boot []) in Fd.
  rewrite <- (one_of_each_context e received_device restarted_region (charged restarted_pool n) boot
                [mkId "dev-1"]) in Fp, Fp'.
  rewrite <- (one_of_each_context e received_device restarted_region (charged again_pool n) boot
                [mkId "dev-1"]) in Fr, Fr'.
  pose proof (device_answer cfg _ (booted boot base []) _ _ _ (idle_booted _ _ _) Hd Fd) as A1.
  pose proof (pool_answer_again cfg _ (booted boot f1 [mkId "dev-1"]) _ _ _ _ _ (idle_booted _ _ _) Hp Fp Fp') as A2.
  pose proof (region_answer_again cfg _ (booted boot f2 [mkId "dev-1"]) _ _ _ (idle_booted _ _ _) Hr Fr Fr') as A3.
  rewrite Hid in A1. destruct (published_frames_ok boot) as (O1 & O2 & O3).
  exact (publish_answered cfg (worker_device boot) k _ _ _ _ _ (eq_trans (deliver_ok cfg _ _ O1) A1)
           (eq_trans (deliver_ok cfg _ _ O2) A2) (eq_trans (deliver_ok cfg _ _ O3) A3)).
Qed.
End Again.

(** ** The second session *)

(** C35. What a restart costs. A worker reserves [n] bytes of a new coordinator and exits; the
    coordinator is stopped, and a new process boots, with any epoch, from the state that
    was saved; the worker is started again and asks for [m] bytes. It publishes, prints one
    line and exits with 0. The first reservation is gone, so its name is given out again:
    if 0 < m <= 16 GiB - n the line is "RESERVED res-1 reason=0 ok=1" and the pool has
    n + m bytes reserved for the one reservation of [m]. Otherwise the request is refused
    although the engine holds no reservation at all: the [n] bytes stay reserved, and there
    is no reservation left to release them. *)
Theorem session_after_restart cfg a1 lk1 cfg' a2 e :
  only_reserves a1 -> str_fits (wa_boot a1) -> consumer_fits (wa_consumer a1) ->
  0 < wa_reserve_bytes a1 <= 16 * GiB ->
  only_reserves a2 -> str_fits (wa_boot a2) -> in_u64 (wa_reserve_bytes a2) ->
  consumer_fits (wa_consumer a2) ->
  run_worker cfg (worker_main true a1) (link_init fresh_engine) = Some (Returned 0, lk1) ->
  exists lk2,
    run_worker cfg' (worker_main true a2)
      (link_init (import_persisted (fabric_init (mkGen e) (mkGen 1))
                    (kept_state (export_persisted (link_fabric lk1))))) = Some (Returned 0, lk2) /\
    exists p, st_pools (state_ (link_fabric lk2)) !! mkId "p-1" = Some p /\
    (0 < wa_reserve_bytes a2 <= 16 * GiB - wa_reserve_bytes a1 ->
     lk_text lk2 = "RESERVED res-1 reason=0 ok=1" +:+ nl /\
     pool_reserved_bytes p = wa_reserve_bytes a1 + wa_reserve_bytes a2 /\
     exists res, st_reservations (state_ (link_fabric lk2)) = {[mkId "res-1" := res]} /\
       res_bytes res = wa_reserve_bytes a2) /\
    (~ 0 < wa_reserve_bytes a2 <= 16 * GiB - wa_reserve_bytes a1 ->
     (exists why, why <> DecisionReason_OK /\
        lk_text lk2 = result_line "RESERVED" ("", enum_to_u32 why, 0)) /\
     st_reservations (state_ (link_fabric lk2)) = ∅ /\
     pool_reserved_bytes p = wa_reserve_bytes a1).
Proof.
  intros Ha1 Hb1 Hc1 Hn Ha2 Hb2 Hm Hc2 Hrun1. set (n := wa_reserve_bytes a1) in *.
  set (c1 := wa_consumer a1) in *. set (boot1 := wa_boot a1) in *.
  assert (link_fabric lk1 = first_engine n c1 boot1) as ->.
  { rewrite (session_run cfg a1 _ _ _ _ Ha1 Hb1 (amount_u64 n Hn) Hc1 worker_fabric_inv (publish_session cfg _)
               (first_reserve n c1 boot1 Hn)) in Hrun1. by injection Hrun1 as <-. }
  change (import_persisted _ _) with (booted_from e (export_persisted (first_engine n c1 boot1))).
  unfold first_engine. rewrite (restarted_engine e n c1 boot1 (amount_u64 n Hn)).
  pose proof (final_single e n c1 boot1 Hn) as Hsingle.
  set (f := one_of_each e received_device again_region (charged again_pool n)) in *.
  destruct (one_of_each_fields e received_device again_region (charged again_pool n))
    as (_ & _ & Fp & Fr & Fe & _ & Fs). fold f in Fp, Fr, Fe, Fs.
  destruct (again_records n) as (Ip & _ & _ & _ & _ & _ & _ & Hrsv).
  destruct (single_reserve f _ _ _ _ Hsingle (wa_reserve_bytes a2) (mkId (wa_consumer a2))
    (link_context (booted (wa_boot a2) f [mkId "dev-1"]))) as [Hyes Hno]; [reflexivity|].
  destruct (decide (0 < wa_reserve_bytes a2 <= 16 * GiB - n)) as [Hfit|Hnot].
  - eexists. split.
    { exact (session_run cfg' a2 _ f _ _ Ha2 Hb2 Hm Hc2 (sg_inv _ _ _ _ _ Hsingle)
               (publish_again e n cfg' _) (Hyes Hfit)). }
    unfold reservation_for, after_reserve. rewrite Fs.
    cbn [answered link_fabric lk_thread th_fabric state_ st_reservations st_pools res_id res_bytes lk_text].
    rewrite Ip, Fr, lookup_empty. eexists. split; [apply lookup_insert_eq|].
    split; [intros _ | intros Hbad; destruct (Hbad Hfit)].
    split; [vm_compute; reflexivity|]. split.
    + cbn [charge_pool pool_set_account pool_reserved_bytes request_for req_bytes]. rewrite Hrsv.
      assert (16 * GiB <= UINT64_MAX) by (vm_compute; discriminate).
      rewrite add64_small; [reflexivity | lia..].
    + eexists. split; reflexivity.
  - destruct Hno as (why & Hwhy & Hres); [exact Hnot | exact (proj1 Hm)|].
    eexists. split.
    { exact (session_run cfg' a2 _ f _ _ Ha2 Hb2 Hm Hc2 (sg_inv _ _ _ _ _ Hsingle)
               (publish_again e n cfg' _) Hres). }
    cbn [answered link_fabric lk_thread th_fabric lk_text]. rewrite Fp.
    exists (charged again_pool n). split; [apply lookup_singleton_eq|].
    split; [intros Hbad; destruct (Hnot Hbad) | intros _].
    split; [exists why; split; [exact Hwhy | reflexivity]|]. split; [exact Fr | exact Hrsv].
Qed.

(** Ten gibibytes of sixteen before the restart; eight are asked for after it. *)
Definition before_args : WorkerArgs :=
  default worker_args_default
    (worker_args ["--boot"; "w-7"; "--reserve-bytes"; "10737418240"; "--consumer"; "svc"]).
Definition after_args : WorkerArgs :=
  default worker_args_default
    (worker_args ["--boot"; "w-8"; "--reserve-bytes"; "8589934592"; "--consumer"; "svc"]).

Lemma session_after_restart_witness :
  exists lk1 lk2,
    run_worker (mkConfig "" "") (worker_main true before_args) (link_init fresh_engine) =
      Some (Returned 0, lk1) /\
    run_worker (mkConfig "" "") (worker_main true after_args)
      (link_init (import_persisted (fabric_init (mkGen 2) (mkGen 1))
                    (kept_state (export_persisted (link_fabric lk1))))) = Some (Returned 0, lk2) /\
    st_reservations (state_ (link_fabric lk2)) = ∅ /\
    exists p, st_pools (state_ (link_fabric lk2)) !! mkId "p-1" = Some p /\
              pool_reserved_bytes p = 10 * GiB.
Proof.
  assert (0 < wa_reserve_bytes before_args <= 16 * GiB) as Hn by (split; vm_compute; [reflexivity | discriminate]).
  assert (only_reserves before_args) as Ha by (split; [left|..]; vm_compute; reflexivity).
  assert (str_fits (wa_boot before_args)) as Hb by (vm_compute; discriminate).
  assert (consumer_fits (wa_consumer before_args)) as Hc by (vm_compute; discriminate).
  assert (exists lk1, run_worker (mkConfig "" "") (worker_main true before_args) (link_init fresh_engine) =
    Some (Returned 0, lk1)) as [lk1 H1].
  { eexists. exact (session_run (mkConfig "" "") before_args _ _ _ _ Ha Hb (amount_u64 _ Hn) Hc worker_fabric_inv
      (publish_session _ _) (first_reserve _ _ _ Hn)). }
  destruct (session_after_restart (mkConfig "" "") before_args lk1 (mkConfig "" "") after_args 2
    Ha Hb Hc Hn) as (lk2 & Hrun & p & Hp & _ & Hno).
  - split; [left|..]; vm_compute; reflexivity.
  - vm_compute. discriminate.
  - split; vm_compute; discriminate.
  - vm_compute. discriminate.
  - exact H1.
  - destruct Hno as (_ & Hnone & Hres).
    { intros [_ H]. vm_compute in H. by apply H. }
    exists lk1, lk2. split; [exact H1|]. split; [exact Hrun|]. split; [exact Hnone|].
    exists p. split; [exact Hp|]. rewrite Hres. vm_compute. reflexivity.
Defined.
