(* ===== verification/Wire.v ===== *)
(** * The session on bytes

    The connection of [Link] carries frames; this one carries what the processes put on
    it: the bytes of [encode_frame], which the network hands on in portions of any size,
    and from which each side takes a frame with the loops of [recv_frame]
    ([control/net.hpp]). The theorem is that a worker and the coordinator cannot tell the
    two apart. *)
From S2P Require Import Prelude.
From S2P Require Import Identity.
From S2P Require Import Records.
From S2P Require Import Selection.
From S2P Require Import Fabric.
From S2P Require Import Crc.
From S2P Require Import Protocol.
From S2P Require Import Readers.
From S2P Require Import Codec.
From S2P Require Import Net.
From S2P Require Import Coordinator.
From S2P Require Import Args.
From S2P Require Import Worker.
From S2P Require Import Link.

(** ** The connection *)

Record WireLink : Set := mkWireLink {
  wl_thread : ThreadState;
  wl_phase : LinkPhase;
  wl_down : bytes;             (** sent to the worker and not yet received *)
  wl_text : string;
}.

Definition frame_bytes (f : Frame) : bytes := encode_frame f kProtocolVersion.
Definition frames_bytes (fs : list Frame) : bytes := concat (frame_bytes <$> fs).

Section Network.
(** How the network cuts what it is given the [n]-th time. *)
Context (cut : nat -> bytes -> Incoming).

(** The coordinator receives from the bytes of one frame, and serves it. *)
Definition wire_deliver (cfg : CoordConfig) (n : nat) (f : Frame) (wl : WireLink) : option WireLink :=
  match recv_frame frame_calls (cut n (frame_bytes f)) with
  | Finished (dr, _) =>
      lk ← serve cfg dr (mkLink (wl_thread wl) (wl_phase wl) [] (wl_text wl));
      Some (mkWireLink (lk_thread lk) (lk_phase lk) (wl_down wl ++ frames_bytes (lk_inbox lk)) (lk_text lk))
  | Unfinished => None
  end.

Definition wire_hung_up (wl : WireLink) : bool :=
  match wl_phase wl with LkClosed => true | _ => negb (th_running (wl_thread wl)) end.

Fixpoint run_wire (cfg : CoordConfig) (n : nat) (p : WProg) (wl : WireLink) : option (WEnd * WireLink) :=
  match p with
  | WReturn code => Some (Returned code, wl)
  | WFault => None
  | WStay => Some (Stays, wl)
  | WSend f k => wl' ← wire_deliver cfg n f wl; run_wire cfg (S n) (k true) wl'
  | WRecv k =>
      if bool_decide (wl_down wl = []) && negb (wire_hung_up wl) then Some (Waits, wl)
      else
        match recv_frame frame_calls (cut n (wl_down wl)) with
        | Finished (dr, inp) =>
            run_wire cfg (S n) (k dr) (mkWireLink (wl_thread wl) (wl_phase wl) (delivered inp) (wl_text wl))
        | Unfinished => None
        end
  | WEmit s k =>
      run_wire cfg (S n) k (mkWireLink (wl_thread wl) (wl_phase wl) (wl_down wl) (wl_text wl +:+ s))
  end.

(** A link as the bytes on it. *)
Definition wire_of (lk : Link) : WireLink :=
  mkWireLink (lk_thread lk) (lk_phase lk) (frames_bytes (lk_inbox lk)) (lk_text lk).

(** ** Receiving one frame *)

(** A frame of bytes, of any length. *)
Definition frame_proper (f : Frame) : Prop := fr_type f ∈ frame_types /\ bytes_ok (fr_payload f).

Lemma frame_bytes_ok f : frame_proper f -> bytes_ok (frame_bytes f).
Proof. intros [_ H]. by apply encode_frame_ok. Qed.

Lemma frames_bytes_ok fs : Forall frame_proper fs -> bytes_ok (frames_bytes fs).
Proof.
  intros H. apply concat_ok, Forall_fmap. eapply Forall_impl; [exact H|]. apply frame_bytes_ok.
Qed.

Lemma frame_off_any f rest :
  frame_proper f -> bytes_ok rest -> frame_off_stream (frame_bytes f ++ rest) = (transmit f, rest).
Proof.
  intros [Ht Hb] Hr. destruct (decide (bsize (fr_payload f) <= kMaxPayloadBytes)) as [Hs|Hs].
  - assert (frame_ok f) as Hok by done. unfold frame_bytes.
    rewrite frame_off_encoded, transmit_ok by done. done.
  - unfold transmit, frame_bytes, encode_frame. rewrite bool_decide_true by lia.
    destruct (frame_type_range _ Ht) as [_ Htr].
    set (head := frame_prefix kProtocolVersion (fr_type f) 0 ++ store_u32 0).
    destruct (header_fields kProtocolVersion (fr_type f) 0 (store_u32 0)) as (_ & _ & _ & Hlen);
      [by vm_compute | done | done | apply store_u32_ok |].
    unfold frame_off_stream. rewrite length_app, (bool_decide_false (_ < 16)%nat) by (simpl; lia).
    change (take 16 (head ++ rest)) with head. fold head in Hlen. rewrite Hlen.
    rewrite (bool_decide_false (_ > _)) by (by vm_compute).
    rewrite (bool_decide_false (_ < _ + _)%nat) by (simpl; lia). done.
Qed.

(** In portions that are not empty, and nothing is lost, added or moved. *)
Context (Hcuts : forall n bs, concat (cut n bs) = bs /\ Forall (fun c => c <> []) (cut n bs)).

Lemma delivered_portions (inp : Incoming) : Forall (fun c => c <> []) inp -> delivered inp = concat inp.
Proof. induction 1 as [|[|b c] inp Hc _ IH]; [done..|]. cbn [delivered concat]. by rewrite IH. Qed.

Lemma Hcut n bs : delivered (cut n bs) = bs.
Proof. destruct (Hcuts n bs) as [Hc Hne]. by rewrite delivered_portions. Qed.

Lemma cut_nothing n : cut n [] = [].
Proof.
  destruct (Hcuts n []) as [Hc Hne]. destruct (cut n []) as [|c inp]; [done|].
  apply Forall_cons in Hne as [Hne _]. cbn in Hc. by apply app_nil in Hc as [-> _].
Qed.

Lemma recv_first n f rest :
  frame_proper f -> bytes_ok rest ->
  exists inp, recv_frame frame_calls (cut n (frame_bytes f ++ rest)) = Finished (transmit f, inp) /\
    (dr_status (transmit f) <> DS_TRUNCATED -> delivered inp = rest).
Proof.
  intros Hf Hr. destruct (recv_frame_reference frame_calls (cut n (frame_bytes f ++ rest))) as (inp & H1 & H2).
  - done.
  - rewrite Hcut. apply Forall_app. split; [by apply frame_bytes_ok | done].
  - rewrite Hcut, (frame_off_any f rest Hf Hr) in H1, H2. by exists inp.
Qed.

Lemma transmit_status f : frame_proper f -> dr_status (transmit f) <> DS_TRUNCATED.
Proof.
  intros [Ht Hb]. destruct (decide (bsize (fr_payload f) <= kMaxPayloadBytes)) as [Hs|Hs].
  - by rewrite transmit_ok.
  - destruct f as [t payload]. cbn [fr_type fr_payload] in *. unfold transmit, encode_frame.
    cbn [fr_type fr_payload]. rewrite bool_decide_true by lia. unfold frame_types in Ht.
    repeat (apply elem_of_cons in Ht as [-> | Ht]; [vm_compute; discriminate|]).
    by apply not_elem_of_nil in Ht.
Qed.

(** ** What the processes send *)

(** A program that sends proper frames, whatever the engine answers. *)
Fixpoint prog_proper (p : Prog) : Prop :=
  match p with
  | PDone | PFault => True
  | PCall c k => forall x, prog_proper (k x)
  | PSend f k => frame_proper f /\ prog_proper k
  | PPushDevice _ k | PPushReservation _ k | PStop k | PPersist _ k | PStateFile _ k => prog_proper k
  end.

Lemma run_prog_proper p t t' os :
  prog_proper p -> run_prog p t = Some (t', os) -> Forall frame_proper (sent_frames os).
Proof.
  revert t os. induction p as [| |X c k IH|fr p IH|d p IH|r p IH|p IH|ps p IH|s p IH]; intros t os Hp Hrun;
    simpl in *; simplify_eq; try done; try (by eapply IH).
  - destruct (call_fabric c (th_fabric t)) as [x f']. by eapply IH.
  - destruct (run_prog p t) as [[t1 os1]|] eqn:Hr; [|done]. cbn in Hrun. simplify_eq. cbn.
    destruct Hp. constructor; [done | by eapply IH].
  - destruct (run_prog p t) as [[t1 os1]|] eqn:Hr; [|done]. cbn in Hrun. simplify_eq. cbn. by eapply (IH _ _ Hp).
  - destruct (run_prog p t) as [[t1 os1]|] eqn:Hr; [|done]. cbn in Hrun. simplify_eq. cbn. by eapply (IH _ _ Hp).
Qed.

Lemma proper_ack r : frame_proper (ack_frame r).
Proof. split; [known_type | apply put_u32_ok]. Qed.
Lemma proper_error msg : frame_proper (error_frame msg).
Proof. split; [known_type | apply string_bytes_ok]. Qed.
Lemma proper_result t ro : t ∈ frame_types -> frame_proper (mkFrame t (reserve_result ro)).
Proof.
  intros Ht. split; [done|]. apply Forall_app. split; [apply put_str_ok|].
  apply Forall_app. split; [apply put_u32_ok|]. constructor; [|constructor]. by destruct (ro_ok ro).
Qed.
Lemma proper_text t s : t ∈ frame_types -> frame_proper (mkFrame t (string_bytes s)).
Proof. intros Ht. split; [done | apply string_bytes_ok]. Qed.
#[local] Hint Resolve proper_ack proper_error : core.

Lemma proper_statefile cfg k : prog_proper k -> prog_proper (write_statefile cfg k).
Proof. intros Hk. unfold write_statefile. destruct (String.eqb _ _); simpl; auto. Qed.

Lemma proper_persist cfg k : prog_proper k -> prog_proper (maybe_persist cfg k).
Proof.
  intros Hk. pose proof (proper_statefile cfg k Hk). unfold maybe_persist.
  repeat destruct (String.eqb _ _); simpl; auto.
Qed.

Lemma proper_dispatch cfg boot f : prog_proper (dispatch cfg boot f).
Proof.
  intros ep pol. set (ctx := mkContext _ _ _ _). clearbody ctx.
  assert (forall b : bool, prog_proper (if b then maybe_persist cfg PDone else PDone)) as Hk
    by (intros []; [by apply proper_persist | done]).
  specialize (Hk (persists_after (fr_type f))). revert Hk. generalize (if persists_after (fr_type f)
    then maybe_persist cfg PDone else PDone). intros k Hk.
  unfold dispatch_switch, send_ack, send_error, send_reserve_result.
  destruct (fr_type f); try done; repeat case_match; try done; try (by split);
    intros x; repeat case_match; simpl; try split; auto;
    (apply proper_result; known_type) || (apply proper_text; known_type).
Qed.

Lemma serve_proper cfg dr t ph text lk :
  serve cfg dr (mkLink t ph [] text) = Some lk -> Forall frame_proper (lk_inbox lk).
Proof.
  unfold serve. cbn [lk_phase lk_thread lk_inbox lk_text]. destruct ph.
  - by destruct (_ && _); intros; simplify_eq.
  - destruct (th_running t); [|by intros; simplify_eq]. destruct (received_ok dr).
    + destruct (run_prog _ t) as [[t' os]|] eqn:Hr; [|done]. cbn. intros [= <-]. cbn.
      eapply run_prog_proper; [|exact Hr]. apply proper_dispatch.
    + destruct (run_prog _ _) as [[t' os]|]; [|done]. cbn. by intros [= <-].
  - by intros; simplify_eq.
Qed.

(** The replies on their way have no influence. *)
Lemma serve_inbox cfg dr t ph inbox text :
  serve cfg dr (mkLink t ph inbox text) =
  (fun lk => mkLink (lk_thread lk) (lk_phase lk) (inbox ++ lk_inbox lk) (lk_text lk)) <$>
    serve cfg dr (mkLink t ph [] text).
Proof.
  unfold serve. cbn [lk_phase lk_thread lk_inbox lk_text]. destruct ph.
  - destruct (_ && _); cbn; by rewrite app_nil_r.
  - destruct (th_running t); [|cbn; by rewrite app_nil_r]. destruct (received_ok dr).
    + by destruct (run_prog _ t) as [[t' os]|].
    + destruct (run_prog _ _) as [[t' os]|]; [|done]. cbn. by rewrite app_nil_r.
  - cbn. by rewrite app_nil_r.
Qed.

(** The same of a worker's program, whatever it receives. *)
Fixpoint wprog_proper (p : WProg) : Prop :=
  match p with
  | WReturn _ | WFault | WStay => True
  | WSend f k => frame_proper f /\ forall sent, wprog_proper (k sent)
  | WRecv k => forall dr, wprog_proper (k dr)
  | WEmit _ k => wprog_proper k
  end.

Lemma proper_emit what payload k : wprog_proper k -> wprog_proper (emit_result what payload k).
Proof. intros Hk. unfold emit_result. by case_match. Qed.
#[local] Hint Resolve proper_emit : core.

Lemma proper_publish boot k : wprog_proper k -> wprog_proper (publish_part (worker_device boot) k).
Proof.
  intros Hk. unfold publish_part, send_and_await.
  split; [split; [known_type | apply encode_device_ok]|]. intros [|]; [|done]. intros dr.
  destruct (negb (received_ok dr)); [done|]. destruct (negb (received_type dr FT_ACK)); [done|].
  split; [split; [known_type | apply encode_pool_ok]|]. intros _ _.
  split; [split; [known_type | apply encode_region_ok]|]. by intros _ _.
Qed.

Lemma proper_reserve a k : wprog_proper k -> wprog_proper (reserve_part a k).
Proof.
  intros Hk. split; [split; [known_type | apply encode_reserve_ok]|]. intros _ dr.
  destruct (negb (received_ok dr)); [done|]. destruct (received_type dr FT_RESERVE_RESULT); auto.
Qed.

Lemma proper_settle t what rid k :
  t ∈ frame_types -> wprog_proper k -> wprog_proper (settle_part t what rid k).
Proof.
  intros Ht Hk. split; [by apply proper_text|]. intros _ dr.
  destruct (received_ok dr && received_type dr FT_COMMIT_RESULT); auto.
Qed.

Lemma proper_query k : wprog_proper k -> wprog_proper (query_part k).
Proof.
  intros Hk. split; [split; [known_type | constructor]|]. intros _ dr.
  by destruct (received_ok dr && received_type dr FT_QUERY_STATE_RESULT).
Qed.

Lemma proper_worker connected a : wprog_proper (worker_main connected a).
Proof.
  assert (forall (b : bool) p q, wprog_proper p -> wprog_proper q -> wprog_proper (if b then p else q))
    as Hif by (by intros []).
  unfold worker_main. apply Hif; [done|]. split; [by apply proper_text; known_type|].
  intros sent. apply Hif; [done|].
  set (q := if wa_query a then _ else _).
  assert (wprog_proper q) as Hq by (unfold q; repeat apply Hif; try done; apply proper_query; by apply Hif).
  clearbody q. assert (forall t what rid k, t ∈ [FT_COMMIT; FT_RELEASE] -> wprog_proper k ->
    wprog_proper (if String.eqb rid "" then k else settle_part t what rid k)) as Hs.
  { intros t what rid k Ht Hk. destruct (String.eqb rid ""); [done|]. apply proper_settle; [|done].
    apply elem_of_cons in Ht as [->|Ht%list_elem_of_singleton]; subst; known_type. }
  assert (wprog_proper (if String.eqb (wa_commit a) "" then
      (if String.eqb (wa_release a) "" then q else settle_part FT_RELEASE "RELEASE_RESULT" (wa_release a) q)
    else settle_part FT_COMMIT "COMMIT_RESULT" (wa_commit a)
      (if String.eqb (wa_release a) "" then q else settle_part FT_RELEASE "RELEASE_RESULT" (wa_release a) q)))
    as Hc by (apply Hs; [set_solver | apply Hs; [set_solver | done]]).
  apply Hif; [apply proper_publish|]; by apply Hif; [apply proper_reserve|].
Qed.

(** ** The two connections agree *)

Definition lift_wire (r : option (WEnd * Link)) : option (WEnd * WireLink) :=
  (fun el => (el.1, wire_of el.2)) <$> r.

Lemma frames_bytes_cons f fs : frames_bytes (f :: fs) = frame_bytes f ++ frames_bytes fs.
Proof. done. Qed.
Lemma frames_bytes_app fs fs' : frames_bytes (fs ++ fs') = frames_bytes fs ++ frames_bytes fs'.
Proof. unfold frames_bytes. by rewrite fmap_app, concat_app. Qed.

Lemma frame_bytes_nonempty f : frame_bytes f <> [].
Proof. unfold frame_bytes, encode_frame. by case_bool_decide. Qed.

(** The coordinator's side. *)
Lemma wire_deliver_agrees cfg n f lk :
  frame_proper f -> wire_deliver cfg n f (wire_of lk) = wire_of <$> deliver cfg f lk.
Proof.
  intros Hf. unfold wire_deliver, deliver.
  destruct (recv_first n f [] Hf (Forall_nil_2 _)) as (inp & Hr & _).
  rewrite app_nil_r in Hr. rewrite Hr. destruct lk as [t ph inbox text].
  cbn [wire_of wl_thread wl_phase wl_down wl_text lk_thread lk_phase lk_inbox lk_text].
  rewrite (serve_inbox cfg _ t ph inbox text).
  destruct (serve cfg (transmit f) (mkLink t ph [] text)) as [lk'|]; [|done].
  cbn [mbind option_bind fmap option_fmap option_map]. unfold wire_of.
  cbn [lk_thread lk_phase lk_inbox lk_text]. by rewrite frames_bytes_app.
Qed.

Lemma deliver_proper cfg f lk lk' :
  Forall frame_proper (lk_inbox lk) -> deliver cfg f lk = Some lk' -> Forall frame_proper (lk_inbox lk').
Proof.
  intros Hin. unfold deliver. destruct lk as [t ph inbox text]. rewrite serve_inbox.
  destruct (serve _ _ _) as [lk1|] eqn:Hs; [|done]. cbn. intros [= <-]. cbn.
  apply Forall_app. split; [done | by eapply serve_proper].
Qed.

Lemma run_wire_agrees cfg n p lk :
  wprog_proper p -> Forall frame_proper (lk_inbox lk) ->
  run_wire cfg n p (wire_of lk) = lift_wire (run_worker cfg p lk).
Proof.
  revert n lk. induction p as [code| | |f k IH|k IH|s k IH]; intros n lk Hp Hin; try done.
  - destruct Hp as [Hf Hk]. cbn [run_wire run_worker]. rewrite wire_deliver_agrees by done.
    destruct (deliver cfg f lk) as [lk'|] eqn:Hd; [|done]. cbn.
    apply IH; [apply Hk | by eapply deliver_proper].
  - cbn [run_wire run_worker]. destruct lk as [t ph inbox text].
    cbn [wire_of wl_down wl_thread wl_phase wl_text lk_inbox lk_thread lk_phase lk_text] in *.
    destruct inbox as [|f rest].
    + change (wire_hung_up _) with (hung_up (mkLink t ph [] text)).
      destruct (hung_up (mkLink t ph [] text)); cbn [negb andb]; [|done].
      rewrite andb_false_r.
      unfold frames_bytes. cbn [fmap list_fmap concat]. rewrite cut_nothing.
      change (recv_frame frame_calls []) with (Finished (peer_closed, [] : Incoming)).
      exact (IH peer_closed (S n) (mkLink t ph [] text) (Hp _) Hin).
    + apply Forall_cons in Hin as [Hf Hin]. rewrite frames_bytes_cons.
      rewrite bool_decide_false by (intros [H _]%app_nil; by eapply frame_bytes_nonempty).
      destruct (recv_first n f (frames_bytes rest) Hf (frames_bytes_ok _ Hin)) as (inp & -> & Hrest).
      rewrite (Hrest (transmit_status f Hf)).
      exact (IH (transmit f) (S n) (mkLink t ph rest text) (Hp _) Hin).
  - exact (IH (S n) (print lk s) Hp Hin).
Qed.

(** C25. A session is the same over any network. Whatever the worker is asked to do and
    whatever state the engine is in, run the worker and the coordinator on the bytes they
    send each other, each receiving with [recv_frame] from a network that cuts what it is
    given into portions of any size, differently every time: the worker ends the same
    way, prints the same, and leaves the engine, the coordinator's thread and the bytes on
    the connection as in the session on frames, payloads over the bound included. *)
Theorem session_over_any_network cfg connected a f n :
  run_wire cfg n (worker_main connected a) (wire_of (link_init f)) =
  (fun el => (el.1, wire_of el.2)) <$> run_worker cfg (worker_main connected a) (link_init f).
Proof. apply run_wire_agrees; [apply proper_worker | constructor]. Qed.
End Network.

(** A network that hands on every byte by itself. *)
Definition byte_by_byte (n : nat) (bs : bytes) : Incoming := (fun b => [b]) <$> bs.

Lemma byte_by_byte_cuts n bs :
  concat (byte_by_byte n bs) = bs /\ Forall (fun c => c <> []) (byte_by_byte n bs).
Proof.
  unfold byte_by_byte. split.
  - induction bs as [|b bs IH]; [done|]. cbn. by rewrite IH.
  - by apply Forall_fmap, Forall_true.
Qed.

Lemma session_over_any_network_witness :
  run_wire byte_by_byte (mkConfig "" "") 0 (worker_main true worker_args_default)
    (wire_of (link_init (fabric_init (mkGen 1) (mkGen 1)))) =
  Some (Returned 0, wire_of (mkLink (mkThread (fabric_init (mkGen 1) (mkGen 1))
    (mkWorker (mkId "worker-boot") [] [] false) true) LkServing [] "")).
Proof.
  rewrite (session_over_any_network byte_by_byte byte_by_byte_cuts). vm_compute. reflexivity.
Defined.
