(* ===== verification/Discovery.v ===== *)
(** * Discovery backends ([backend/backend.hpp] and [src/backend])

    The boundary through which devices are found: an interface with three
    implementations. The system backend asks the operating system; its answers, and the
    system's conversion of wide strings to UTF-8, are parameters. *)
From S2P Require Import Prelude.
From S2P Require Import Identity.
From S2P Require Import Enums.
From S2P Require Import Records.
From S2P Require Import Selection.
From S2P Require Import Synthetic.

(** ** The interface *)

Record DiscoveryResult : Set := mkDiscovery {
  disc_backend_name : string;
  disc_devices : list CxlDevice;
  disc_host_id : HostId;
  disc_accelerators : list string;
  disc_notes : list string;
  disc_cxl_memory_supported : bool;
  disc_provenance : Provenance;
}.

Definition discovery_default : DiscoveryResult :=
  mkDiscovery "" [] id_default [] [] false Provenance_UNSUPPORTED.

Definition add_note (r : DiscoveryResult) (n : string) : DiscoveryResult :=
  mkDiscovery (disc_backend_name r) (disc_devices r) (disc_host_id r) (disc_accelerators r)
    (disc_notes r ++ [n]) (disc_cxl_memory_supported r) (disc_provenance r).

(** [IDiscoveryBackend]. *)
Class DiscoveryBackend (B : Type) := {
  backend_name : B -> string;
  discover : B -> DiscoveryResult;
}.

(** ** The synthetic and the unsupported backend *)

Definition synthetic_discover : DiscoveryResult :=
  let host := mkId "host-synth" in
  mkDiscovery "synthetic" (baseline_devices host) host []
    ["SyntheticBackend: deterministic constructed topology. SYNTHETIC evidence only; this never models physical CXL hardware."]
    true Provenance_SYNTHETIC.

Inductive SyntheticBackend : Set := create_synthetic_backend.

#[export] Instance synthetic_discovery : DiscoveryBackend SyntheticBackend := {
  backend_name _ := "synthetic";
  discover _ := synthetic_discover;
}.

Definition unsupported_discover : DiscoveryResult :=
  mkDiscovery "unsupported" [] id_default []
    ["UnsupportedBackend: no supported physical CXL discovery path is available on this platform."]
    false Provenance_UNSUPPORTED.

Inductive UnsupportedBackend : Set := create_unsupported_backend.

#[export] Instance unsupported_discovery : DiscoveryBackend UnsupportedBackend := {
  backend_name _ := "unsupported";
  discover _ := unsupported_discover;
}.

(** ** The system backend *)

(** Wide strings, as their code units. *)
Definition wstring : Set := list Z.
Definition wide (s : string) : wstring :=
  (fun c => Z.of_N (Ascii.N_of_ascii c)) <$> String.list_ascii_of_string s.

(** [w.find(needle) != npos]. *)
Fixpoint wide_contains (needle w : wstring) : bool :=
  bool_decide (take (length needle) w = needle) ||
  match w with [] => false | _ :: w' => wide_contains needle w' end.

(** One entry of the device list: its class and its description, where the system has
    them. *)
Record SetupDevice : Set := mkSetupDevice {
  sd_class : option wstring;
  sd_description : option wstring;
}.

(** What the system answers: the computer name, the list of present devices (none when the
    list cannot be opened), and the conversion of a non-empty wide string. *)
Record SystemBackend : Set := create_system_backend {
  os_computer_name : wstring;
  os_devices : option (list SetupDevice);
  os_utf8 : wstring -> string;
}.

Definition to_utf8 (os : SystemBackend) (w : wstring) : string :=
  match w with [] => "" | _ => os_utf8 os w end.

(** The counters of the loop over the devices. *)
Record Enumeration : Set := mkEnumeration {
  en_pci_count : Z;
  en_display_count : Z;
  en_memory_like_count : Z;
  en_display_names : list string;
}.

Definition enumerate_device (os : SystemBackend) (e : Enumeration) (d : SetupDevice) : Enumeration :=
  let wcls := default [] (sd_class d) in
  let wdesc := default [] (sd_description d) in
  let display := wide_contains (wide "Display") wcls in
  let memory_like := wide_contains (wide "Memory") wcls || wide_contains (wide "System") wcls in
  mkEnumeration (add64 (en_pci_count e) 1)
    (if display then add64 (en_display_count e) 1 else en_display_count e)
    (if memory_like then add64 (en_memory_like_count e) 1 else en_memory_like_count e)
    (if display then en_display_names e ++ [to_utf8 os (match wdesc with [] => wcls | _ => wdesc end)]
     else en_display_names e).

Definition enumerate (os : SystemBackend) (ds : list SetupDevice) : Enumeration :=
  foldl (enumerate_device os) (mkEnumeration 0 0 0 []) ds.

Definition system_discover (os : SystemBackend) : DiscoveryResult :=
  let r := mkDiscovery "system" [] (mkId (to_utf8 os (os_computer_name os))) [] [] false
             Provenance_UNSUPPORTED in
  match os_devices os with
  | None =>
      add_note r "SystemBackend: SetupDiGetClassDevsW(all classes) failed; no device enumeration possible."
  | Some ds =>
      let e := enumerate os ds in
      let r := add_note r ("SystemBackend: enumerated " +:+ to_string_u64 (en_pci_count e) +:+
                           " present devices via SetupAPI (REAL).") in
      let r := add_note r "SystemBackend: no CXL memory device was conclusively identified; CXL capability is not inferred from PCI class alone." in
      let r := add_note r "Physical CXL memory hardware: UNSUPPORTED on this machine." in
      let r := mkDiscovery (disc_backend_name r) (disc_devices r) (disc_host_id r)
                 (en_display_names e) (disc_notes r) (disc_cxl_memory_supported r)
                 (disc_provenance r) in
      add_note r ("Accelerators present (REAL adjacency evidence, not CXL proof): " +:+
                  to_string_u64 (en_display_count e))
  end.

#[export] Instance system_discovery : DiscoveryBackend SystemBackend := {
  backend_name _ := "system";
  discover := system_discover;
}.

(** ** What the backends report *)

(** The entries with a display class, by the name they are reported under. *)
Definition display_name (os : SystemBackend) (d : SetupDevice) : option string :=
  let wcls := default [] (sd_class d) in
  let wdesc := default [] (sd_description d) in
  if wide_contains (wide "Display") wcls
  then Some (to_utf8 os (match wdesc with [] => wcls | _ => wdesc end)) else None.

Lemma enumerate_names os ds e :
  en_display_names (foldl (enumerate_device os) e ds) = en_display_names e ++ omap (display_name os) ds.
Proof.
  revert e. induction ds as [|d ds IH]; intros e; simpl; [by rewrite app_nil_r|].
  rewrite IH. unfold display_name at 2. simpl. destruct (wide_contains _ _); [|done].
  by rewrite <- app_assoc.
Qed.

Lemma enumerate_counts os ds e :
  0 <= en_pci_count e -> 0 <= en_display_count e ->
  en_pci_count e + Z.of_nat (length ds) <= UINT64_MAX ->
  en_display_count e + Z.of_nat (length ds) <= UINT64_MAX ->
  en_pci_count (foldl (enumerate_device os) e ds) = en_pci_count e + Z.of_nat (length ds) /\
  en_display_count (foldl (enumerate_device os) e ds) =
    en_display_count e + Z.of_nat (length (omap (display_name os) ds)).
Proof.
  revert e. induction ds as [|d ds IH]; intros e H1 H2 H3 H4; cbn [foldl length omap list_omap] in *.
  { split; simpl; lia. }
  specialize (IH (enumerate_device os e d)).
  unfold display_name at 1. unfold enumerate_device in IH at 1 2 3 4.
  cbn [en_pci_count en_display_count] in IH.
  destruct (wide_contains (wide "Display") (default [] (sd_class d))) eqn:Hd;
    rewrite ?(add64_small (en_pci_count e) 1), ?(add64_small (en_display_count e) 1) in IH by lia;
    destruct IH as [IH1 IH2]; try lia; rewrite IH1, IH2; unfold enumerate_device;
    cbn [en_pci_count en_display_count length]; rewrite ?Hd, ?add64_small by lia; split; lia.
Qed.

(** C29. Discovery fabricates nothing. Whatever the operating system answers, the system
    backend reports no CXL device, no support and UNSUPPORTED provenance; the accelerators
    it lists are exactly the present devices of a display class, in order, under their
    description or else their class, and the note counts them; no memory class is ever
    turned into a device. The unsupported backend reports nothing. Every device of the
    synthetic backend carries SYNTHETIC provenance, evidence and capabilities. *)
Theorem discovery_never_fabricates os :
  (disc_devices (discover os) = [] /\ disc_cxl_memory_supported (discover os) = false /\
   disc_provenance (discover os) = Provenance_UNSUPPORTED /\
   disc_accelerators (discover os) = omap (display_name os) (default [] (os_devices os)) /\
   (forall ds, os_devices os = Some ds -> Z.of_nat (length ds) <= UINT64_MAX ->
      ("Accelerators present (REAL adjacency evidence, not CXL proof): " +:+
       to_string_u64 (Z.of_nat (length (disc_accelerators (discover os))))) ∈
      disc_notes (discover os))) /\
  (disc_devices (discover create_unsupported_backend) = [] /\
   disc_accelerators (discover create_unsupported_backend) = [] /\
   disc_cxl_memory_supported (discover create_unsupported_backend) = false) /\
  Forall (fun d =>
      dev_provenance d = Provenance_SYNTHETIC /\
      econ_provenance (dev_economics d) = Provenance_SYNTHETIC /\
      econ_evidence_class (dev_economics d) = EvidenceClass_SYNTHETIC /\
      map_Forall (fun _ c => cap_provenance c = Provenance_SYNTHETIC) (dev_capabilities d))
    (disc_devices (discover create_synthetic_backend)).
Proof.
  split; [|split; [done|]].
  - cbn [discover system_discovery]. unfold system_discover.
    destruct (os_devices os) as [ds|]; cbn [default]; [|by split_and!].
    split_and!; try done.
    + cbn. unfold enumerate. by rewrite enumerate_names.
    + intros ds' [= <-] Hlen. cbn [disc_accelerators disc_notes add_note].
      unfold enumerate. rewrite enumerate_names. cbn [en_display_names app].
      destruct (enumerate_counts os ds (mkEnumeration 0 0 0 [])) as [_ Hc]; try (simpl; lia).
      rewrite Hc. do 3 apply list_elem_of_further. apply list_elem_of_here.
  - repeat constructor; try done; refine (bool_decide_unpack _ _); vm_compute; exact I.
Qed.

(** The synthetic backend reports CXL memory as supported, although the field is
    documented to be true only when real CXL memory is proven, and no device it lists is
    real. *)
Lemma synthetic_reports_support :
  disc_cxl_memory_supported (discover create_synthetic_backend) = true /\
  Forall (fun d => dev_provenance d <> Provenance_REAL)
    (disc_devices (discover create_synthetic_backend)).
Proof. split; [done|]. by repeat constructor. Qed.

(** Two entries of a device list: a memory controller and a display adapter without a
    description. *)
Lemma discovery_never_fabricates_witness :
  let os := create_system_backend (wide "host") (Some [mkSetupDevice (Some (wide "Memory")) None;
              mkSetupDevice (Some (wide "Display")) None]) (fun _ => "gpu") in
  disc_devices (discover os) = [] /\
  ("Accelerators present (REAL adjacency evidence, not CXL proof): " +:+
   to_string_u64 (Z.of_nat (length (disc_accelerators (discover os))))) ∈ disc_notes (discover os).
Proof.
  intros os. destruct (discovery_never_fabricates os) as ((Hd & _ & _ & _ & Hn) & _).
  split; [exact Hd|]. apply (Hn _ eq_refl). vm_compute. discriminate.
Defined.
