(* ===== verification/Cli.v ===== *)
(** * The command line tool ([cli/cxl_fabric_cli.cpp])

    Every command runs on the synthetic topology and writes text; the result of [main] is
    that text with the exit code, or nothing when an exception ends the program. *)
From S2P Require Import Prelude.
From S2P Require Import Identity.
From S2P Require Import Enums.
From S2P Require Import Accounting.
From S2P Require Import Records.
From S2P Require Import Selection.
From S2P Require Import Fabric.
From S2P Require Import Synthetic.
From S2P Require Import SelectionProps.
From S2P Require Import Args.
From S2P Require Import Discovery.

(** ** Text *)

Definition gbytes (b : Z) : string := to_string_u64 (b / GiB) +:+ "GiB".
Definition true_false (b : bool) : string := if b then "true" else "false".
Definition lines (l : list string) : string := String.concat "" l.

(** ** [discover] *)

Definition discovered_line (d : CxlDevice) : string :=
  "  device " +:+ id_str (dev_id d) +:+ " gen=" +:+ to_string_u64 (gen_value (dev_generation d)) +:+
  " vol=" +:+ enum_to_string (dev_volatility d) +:+ " state=" +:+ enum_to_string (dev_state d) +:+
  " provenance=" +:+ enum_to_string (dev_provenance d) +:+
  " total=" +:+ gbytes (dev_total_physical_bytes d) +:+ nl.

Definition discovery_text (r : DiscoveryResult) : string :=
  "backend=" +:+ disc_backend_name r +:+ " host=" +:+ id_str (disc_host_id r) +:+ nl +:+
  "cxl_memory_supported=" +:+ true_false (disc_cxl_memory_supported r) +:+
  " provenance=" +:+ enum_to_string (disc_provenance r) +:+
  " devices=" +:+ to_string_u64 (Z.of_nat (length (disc_devices r))) +:+ nl +:+
  lines (discovered_line <$> disc_devices r) +:+
  lines ((fun n => "  note: " +:+ n +:+ nl) <$> disc_notes r) +:+
  lines ((fun a => "  accelerator: " +:+ a +:+ nl) <$> disc_accelerators r).

Definition discover_value (x v : string) (backend : string) : option (option string) :=
  if String.eqb x "--backend" then Some (Some v) else None.

Definition cmd_discover (os : SystemBackend) (argv : list string) : option string :=
  backend ← parse_options discover_value (fun _ b => b) argv "synthetic";
  Some (discovery_text
    (if String.eqb backend "system" then discover os
     else if String.eqb backend "unsupported" then discover create_unsupported_backend
     else discover create_synthetic_backend)).

(** ** The records *)

Definition device_text (d : CxlDevice) : string :=
  "device " +:+ id_str (dev_id d) +:+ " gen=" +:+ to_string_u64 (gen_value (dev_generation d)) +:+
  " state=" +:+ enum_to_string (dev_state d) +:+ " prov=" +:+ enum_to_string (dev_provenance d) +:+
  " vol=" +:+ enum_to_string (dev_volatility d) +:+ " host=" +:+ id_str (dev_host d) +:+
  " evidence_current=" +:+ true_false (dev_evidence_current d) +:+ nl.

Definition region_text (r : CxlRegion) : string :=
  "region " +:+ id_str (reg_id r) +:+ " gen=" +:+ to_string_u64 (gen_value (reg_generation r)) +:+
  " pool=" +:+ id_str (reg_pool r) +:+ " state=" +:+ enum_to_string (reg_state r) +:+
  " tier=" +:+ enum_to_string (reg_tier r) +:+ " cap=" +:+ gbytes (reg_region_capacity_bytes r) +:+ nl.

Definition pool_text (p : CxlPool) : string :=
  "pool " +:+ id_str (pool_id p) +:+ " gen=" +:+ to_string_u64 (gen_value (pool_generation p)) +:+
  " state=" +:+ enum_to_string (pool_state p) +:+
  " total=" +:+ gbytes (pool_total_governed_bytes p) +:+
  " committed=" +:+ gbytes (pool_committed_bytes p) +:+
  " reserved=" +:+ gbytes (pool_reserved_bytes p) +:+
  " free=" +:+ gbytes (pool_free_bytes p) +:+ nl.

Definition cmd_devices (f : Fabric) : string :=
  lines ((fun kv => device_text kv.2) <$> map_iter (st_devices (state_ f))).
Definition cmd_regions (f : Fabric) : string :=
  lines ((fun kv => region_text kv.2) <$> map_iter (st_regions (state_ f))).
Definition cmd_pools (f : Fabric) : string :=
  lines ((fun kv => pool_text kv.2) <$> map_iter (st_pools (state_ f))).

(** ** The audit *)

Definition capacity_text (g : CapacityLine) : string :=
  "governed_total=" +:+ gbytes (total g) +:+ " online=" +:+ gbytes (online g) +:+
  " unavailable=" +:+ gbytes (unavailable g) +:+ " reserved=" +:+ gbytes (reserved g) +:+
  " committed=" +:+ gbytes (committed g) +:+ " free=" +:+ gbytes (line_free g) +:+ nl.

Definition cmd_capacity (f : Fabric) : string :=
  let ar := audit f in
  capacity_text (rep_global_ledger ar) +:+ "audit_ok=" +:+ true_false (rep_ok ar) +:+ nl +:+
  lines ((fun e => "  error: " +:+ e +:+ nl) <$> rep_errors ar).

Definition cmd_validate_state (f : Fabric) : string * Z :=
  let ar := audit f in
  ("validate-state " +:+ (if rep_ok ar then "OK" else "FAIL") +:+ nl +:+
   lines ((fun e => "  " +:+ e +:+ nl) <$> rep_errors ar),
   if rep_ok ar then 0 else 1).

(** ** [explain] *)

Definition req_set_bytes (r : AdmissionRequest) (n : Z) : AdmissionRequest :=
  mkRequest n (req_volatility r) (req_consumer r) (req_host r) (req_required_pool r)
    (req_minimum_locality r) (req_required_tier r) (req_accelerator_access r)
    (req_failure_domain_minimum r) (req_sharing r) (req_require_unique_failure_domain r)
    (req_require_persistence r) (req_require_accelerator_path r) (req_prefer_fallback r)
    (req_policy_class r) (req_minimum_bandwidth_mbps r) (req_maximum_latency_ns r).
Definition req_set_consumer (r : AdmissionRequest) (c : ConsumerId) : AdmissionRequest :=
  mkRequest (req_bytes r) (req_volatility r) c (req_host r) (req_required_pool r)
    (req_minimum_locality r) (req_required_tier r) (req_accelerator_access r)
    (req_failure_domain_minimum r) (req_sharing r) (req_require_unique_failure_domain r)
    (req_require_persistence r) (req_require_accelerator_path r) (req_prefer_fallback r)
    (req_policy_class r) (req_minimum_bandwidth_mbps r) (req_maximum_latency_ns r).
Definition req_set_locality (r : AdmissionRequest) (l : LocalityClass) : AdmissionRequest :=
  mkRequest (req_bytes r) (req_volatility r) (req_consumer r) (req_host r) (req_required_pool r)
    (Some l) (req_required_tier r) (req_accelerator_access r)
    (req_failure_domain_minimum r) (req_sharing r) (req_require_unique_failure_domain r)
    (req_require_persistence r) (req_require_accelerator_path r) (req_prefer_fallback r)
    (req_policy_class r) (req_minimum_bandwidth_mbps r) (req_maximum_latency_ns r).
Definition req_set_persistence (r : AdmissionRequest) : AdmissionRequest :=
  mkRequest (req_bytes r) (req_volatility r) (req_consumer r) (req_host r) (req_required_pool r)
    (req_minimum_locality r) (req_required_tier r) (req_accelerator_access r)
    (req_failure_domain_minimum r) (req_sharing r) (req_require_unique_failure_domain r)
    true (req_require_accelerator_path r) (req_prefer_fallback r)
    (req_policy_class r) (req_minimum_bandwidth_mbps r) (req_maximum_latency_ns r).

Definition explain_value (x v : string) (r : AdmissionRequest) : option (option AdmissionRequest) :=
  if String.eqb x "--bytes" then Some (req_set_bytes r <$> stoull v)
  else if String.eqb x "--consumer" then Some (Some (req_set_consumer r (mkId v)))
  else if String.eqb x "--locality" then
    Some (Some (match enum_from_string v with Some l => req_set_locality r l | None => r end))
  else None.
Definition explain_flag (x : string) (r : AdmissionRequest) : AdmissionRequest :=
  if String.eqb x "--persistent" then req_set_persistence r else r.

Definition explain_request (argv : list string) : option AdmissionRequest :=
  parse_options explain_value explain_flag argv (request_for (4 * GiB) (mkId "gpu0")).

Definition factor_text (fac : SelectionFactor) : string :=
  "    " +:+ fac_name fac +:+ "=" +:+ (if fac_pass fac then "pass" else "fail") +:+ " " +:+
  fac_detail fac +:+ nl.

Definition candidate_text (c : SelectionResult) : string :=
  "candidate pool=" +:+ sel_pool c +:+ " region=" +:+ sel_region c +:+
  " selected=" +:+ (if sel_selected c then "yes" else "no") +:+
  (if sel_selected c then "" else " reason=" +:+ enum_to_string (sel_reason c)) +:+ nl +:+
  lines (factor_text <$> sel_factors c).

Definition verdict_text (so : SelectionOutcome) : string :=
  "outcome ok=" +:+ true_false (out_ok so) +:+
  (if out_ok so then " chosen_pool=" +:+ id_str (cand_pool (out_chosen so)) +:+
                     " chosen_region=" +:+ id_str (cand_region (out_chosen so)) else "") +:+ nl.

Definition cmd_explain (f : Fabric) (argv : list string) : option string :=
  req ← explain_request argv;
  let so := select f req in
  Some (lines (candidate_text <$> out_candidates so) +:+ verdict_text so).

(** ** [synthetic-demo] *)

Definition cmd_synthetic_demo (f : Fabric) (ctx : AuthorityContext) : string :=
  let so := select f request_default in
  let '(ro, f') := reserve f (request_for (2 ^ 30) (mkId "svc")) ctx in
  "synthetic-demo: baseline synthetic CXL topology (SYNTHETIC provenance)" +:+ nl +:+
  "admission 0 bytes candidates=" +:+ to_string_u64 (Z.of_nat (length (out_candidates so))) +:+ nl +:+
  "reserve 1GiB ok=" +:+ true_false (ro_ok ro) +:+
  (if ro_ok ro then " id=" +:+ id_str (res_id (ro_reservation ro)) else "") +:+ nl +:+
  "audit_ok=" +:+ true_false (rep_ok (audit f')) +:+ nl.

(** ** [main], without the program name *)

Definition cli_main (os : SystemBackend) (argv : list string) : option (string * Z) :=
  match argv with
  | [] => Some ("usage: cxl-fabric <discover|devices|regions|pools|capacity|explain|validate-state|synthetic-demo> [args]" +:+ nl, 1)
  | cmd :: rest =>
      let f := demo in
      let ctx := synthetic_context f in
      if String.eqb cmd "discover" then (fun t => (t, 0)) <$> cmd_discover os rest
      else if String.eqb cmd "devices" then Some (cmd_devices f, 0)
      else if String.eqb cmd "regions" then Some (cmd_regions f, 0)
      else if String.eqb cmd "pools" then Some (cmd_pools f, 0)
      else if String.eqb cmd "capacity" then Some (cmd_capacity f, 0)
      else if String.eqb cmd "validate-state" then Some (cmd_validate_state f)
      else if String.eqb cmd "explain" then (fun t => (t, 0)) <$> cmd_explain f rest
      else if String.eqb cmd "synthetic-demo" then Some (cmd_synthetic_demo f ctx, 0)
      else Some ("unknown command: " +:+ cmd +:+ nl, 1)
  end.
