(* ===== verification/CliProps.v ===== *)
(** * What the command line tool answers

    The commands on the synthetic topology, with the request of [explain] left open. *)
From S2P Require Import Prelude.
From S2P Require Import Identity.
From S2P Require Import Enums.
From S2P Require Import Accounting.
From S2P Require Import Records.
From S2P Require Import Selection.
From S2P Require Import Fabric.
From S2P Require Import Synthetic.
From S2P Require Import SelectionProps.
From S2P Require Import Args.
From S2P Require Import Discovery.
From S2P Require Import Cli.

(** ** The requests [explain] can make *)

Definition explained (n : Z) (c : ConsumerId) (pers : bool) (loc : option LocalityClass)
    : AdmissionRequest :=
  mkRequest n VolatilityKind_UNKNOWN c id_default None loc None None None SharingMode_UNKNOWN
    false pers false false "" 0 0.

Lemma explain_shape argv req :
  explain_request argv = Some req ->
  exists n c pers loc, req = explained n c pers loc /\ in_u64 n.
Proof.
  intros H.
  refine (parse_options_inv (fun req => exists n c pers loc, req = explained n c pers loc /\ in_u64 n)
            _ _ _ _ _ _ _ H _).
  - intros x v b b' Hv (n & c & pers & loc & -> & Hn). unfold explain_value in Hv.
    destruct (String.eqb x "--bytes").
    { destruct (stoull v) as [m|] eqn:Hm; [|done]. injection Hv as <-.
      exists m, c, pers, loc. split; [done|]. by eapply stoull_range. }
    destruct (String.eqb x "--consumer"); [injection Hv as <-; by eexists _, _, _, _|].
    destruct (String.eqb x "--locality"); [|done].
    destruct (enum_from_string v); injection Hv as <-; by eexists _, _, _, _.
  - intros x b (n & c & pers & loc & -> & Hn). unfold explain_flag.
    destruct (String.eqb x "--persistent"); by eexists _, _, _, _.
  - eexists _, _, _, _. split; [reflexivity|]. split; vm_compute; discriminate.
Qed.

(** ** The records of the topology *)

Definition demo_pool : CxlPool := default pool_default (st_pools (state_ demo) !! mkId "p-1").
Definition demo_region (k : string) : CxlRegion :=
  default region_default (st_regions (state_ demo) !! mkId k).
Definition demo_device (k : string) : CxlDevice :=
  default device_default (st_devices (state_ demo) !! mkId k).

Lemma demo_records :
  st_pools (state_ demo) = {[mkId "p-1" := demo_pool]} /\
  st_regions (state_ demo) =
    <[mkId "reg-1" := demo_region "reg-1"]> (<[mkId "reg-2" := demo_region "reg-2"]>
      {[mkId "reg-3" := demo_region "reg-3"]}) /\
  st_devices (state_ demo) !! mkId "dev-1" = Some (demo_device "dev-1") /\
  st_devices (state_ demo) !! mkId "dev-2" = Some (demo_device "dev-2") /\
  st_devices (state_ demo) !! mkId "dev-3" = Some (demo_device "dev-3").
Proof. split_and!; vm_compute; reflexivity. Qed.

(** A region with its one device and its size; [lasting] tells whether it is persistent. *)
Record sited (r d : string) (size : Z) (lasting : bool) : Prop := {
  si_pool : reg_pool (demo_region r) = pool_id demo_pool;
  si_members : reg_member_devices (demo_region r) = [mkId d];
  si_free : region_free (demo_region r) = size;
  si_lasting : bool_decide (dev_volatility (demo_device d) = VolatilityKind_PERSISTENT) = lasting;
  si_usable : forall n c pers,
    n <= size -> (pers = true -> lasting = true) ->
    admissible (demo_device d) (demo_region r) demo_pool size (explained n c pers None) true;
}.

Ltac sited_by_computation :=
  constructor; [vm_compute; reflexivity..|];
  let Hn := fresh "Hn" in let Hp := fresh "Hp" in
  intros ? ? ? Hn Hp; constructor;
  [ split; [|split]; vm_compute; reflexivity
  | split; [|split]; [vm_compute; reflexivity..|left; vm_compute; reflexivity]
  | split; [|split]; vm_compute; reflexivity
  | exact Hn
  | intros H; specialize (Hp H); vm_compute; first [discriminate Hp | reflexivity]
  | left; reflexivity | left; reflexivity | left; reflexivity
  | intros ? H; discriminate H | intros ? H; discriminate H | intros ? H; discriminate H
  | intros ? H; discriminate H
  | intros H; destruct (Z.lt_irrefl 0 H) | intros H; destruct (Z.lt_irrefl 0 H) ].

Lemma demo_sites :
  sited "reg-1" "dev-1" (16 * GiB) false /\ sited "reg-2" "dev-2" (64 * GiB) false /\
  sited "reg-3" "dev-3" (8 * GiB) true.
Proof. split; [|split]; sited_by_computation. Qed.

Lemma demo_pool_current : pool_evidence_current demo_pool = true.
Proof. vm_compute. reflexivity. Qed.

#[local] Opaque demo demo_pool demo_region demo_device.

(** ** Where a request is placed *)

Definition fits_at (size : Z) (lasting : bool) (n : Z) (pers : bool) : Prop :=
  n <= size /\ (pers = true -> lasting = true).

Lemma sited_placement r d size lasting n c pers :
  sited r d size lasting -> st_regions (state_ demo) !! mkId r = Some (demo_region r) ->
  st_devices (state_ demo) !! mkId d = Some (demo_device d) ->
  fits_at size lasting n pers ->
  placement (state_ demo) (explained n c pers None) demo_pool (demo_region r) (demo_device d).
Proof.
  intros [Sp Sm Sf _ Su] Hr Hd [Hn Hp]. destruct demo_records as (Hpool & _).
  unfold placement. rewrite Sf, Sm, demo_pool_current, Hpool.
  split; [|split; [|split; [|split]]].
  - exists (mkId "p-1"). apply lookup_singleton_eq.
  - by exists (mkId r).
  - exact Sp.
  - exists (mkId d). split; [constructor | exact Hd].
  - by apply Su.
Qed.

Lemma sited_only r d size lasting n c pers p dev :
  sited r d size lasting -> st_devices (state_ demo) !! mkId d = Some (demo_device d) ->
  placement (state_ demo) (explained n c pers None) p (demo_region r) dev ->
  dev = demo_device d /\ fits_at size lasting n pers.
Proof.
  intros [_ Sm Sf Sl _] Hd (_ & _ & _ & (did & Hin & Hdev) & Hadm).
  rewrite Sm in Hin. apply list_elem_of_singleton in Hin as ->.
  assert (dev = demo_device d) as -> by congruence. split; [done|]. split.
  - pose proof (adm_capacity _ _ _ _ _ _ Hadm) as Hc. by rewrite Sf in Hc.
  - intros ->. rewrite <- Sl. apply bool_decide_eq_true. exact (adm_persistence _ _ _ _ _ _ Hadm eq_refl).
Qed.

(** The placements of a request, by the name of the region. *)
Definition places (n : Z) (pers : bool) (rd : string * string) : Prop :=
  rd = ("reg-1", "dev-1") /\ fits_at (16 * GiB) false n pers \/
  rd = ("reg-2", "dev-2") /\ fits_at (64 * GiB) false n pers \/
  rd = ("reg-3", "dev-3") /\ fits_at (8 * GiB) true n pers.

Lemma demo_placement n c pers p r d :
  placement (state_ demo) (explained n c pers None) p r d <->
  exists rd, p = demo_pool /\ r = demo_region rd.1 /\ d = demo_device rd.2 /\ places n pers rd.
Proof.
  destruct demo_records as (Hpool & Hreg & D1 & D2 & D3).
  destruct demo_sites as (S1 & S2 & S3). split.
  - intros Hpl. pose proof Hpl as ((kp & Kp) & (kr & Kr) & _).
    rewrite Hpool, lookup_singleton_Some in Kp. destruct Kp as [_ <-]. rewrite Hreg in Kr.
    apply lookup_insert_Some in Kr as [[_ <-] | [_ Kr]].
    { destruct (sited_only _ _ _ _ _ _ _ _ _ S1 D1 Hpl). exists ("reg-1", "dev-1").
      do 3 (split; [done|]). left. by split. }
    apply lookup_insert_Some in Kr as [[_ <-] | [_ Kr]].
    { destruct (sited_only _ _ _ _ _ _ _ _ _ S2 D2 Hpl). exists ("reg-2", "dev-2").
      do 3 (split; [done|]). right. left. by split. }
    apply lookup_singleton_Some in Kr as [_ <-].
    destruct (sited_only _ _ _ _ _ _ _ _ _ S3 D3 Hpl). exists ("reg-3", "dev-3").
    do 3 (split; [done|]). right. right. by split.
  - intros (rd & -> & -> & -> & [[-> H] | [[-> H] | [-> H]]]);
      [eapply (sited_placement _ _ _ _ n c pers S1) | eapply (sited_placement _ _ _ _ n c pers S2)
       | eapply (sited_placement _ _ _ _ n c pers S3)]; done.
Qed.

(** ** The verdict *)

Definition ranks (a b : string * string) : bool :=
  ranks_before (candidate_of demo_pool (demo_region a.1) (demo_device a.2))
    (candidate_of demo_pool (demo_region b.1) (demo_device b.2)).

#[local] Transparent demo demo_pool demo_region demo_device.

Lemma demo_ranks :
  ranks ("reg-1", "dev-1") ("reg-2", "dev-2") = true /\
  ranks ("reg-1", "dev-1") ("reg-3", "dev-3") = true /\
  pool_id demo_pool = mkId "p-1" /\
  (forall k, k ∈ ["reg-1"; "reg-2"; "reg-3"] -> reg_id (demo_region k) = mkId k).
Proof.
  split; [vm_compute; reflexivity|]. split; [vm_compute; reflexivity|].
  split; [vm_compute; reflexivity|]. intros k Hk. repeat (apply elem_of_cons in Hk as [-> | Hk]; [vm_compute; reflexivity|]).
  by apply not_elem_of_nil in Hk.
Qed.

#[local] Opaque demo demo_pool demo_region demo_device.

(** The region the tool names for a request of [n] bytes, if any. *)
Definition explain_answer (n : Z) (pers : bool) : option string :=
  if pers then if bool_decide (n <= 8 * GiB) then Some "reg-3" else None
  else if bool_decide (n <= 16 * GiB) then Some "reg-1"
  else if bool_decide (n <= 64 * GiB) then Some "reg-2" else None.

(** The answer is the first region if it will do, and otherwise the only one that does. *)
Lemma answer_of_best n pers rd :
  places n pers rd -> (places n pers ("reg-1", "dev-1") -> rd = ("reg-1", "dev-1")) ->
  explain_answer n pers = Some rd.1.
Proof.
  unfold places, fits_at, explain_answer. intros Hrd Hfirst.
  destruct Hrd as [[-> [Hn Hp]] | [[-> [Hn Hp]] | [-> [Hn _]]]]; destruct pers; cbn [fst].
  - discriminate (Hp eq_refl).
  - by rewrite bool_decide_true by lia.
  - discriminate (Hp eq_refl).
  - rewrite bool_decide_false, bool_decide_true by
      (lia || (intros Hle; discriminate Hfirst; left; auto)). done.
  - by rewrite bool_decide_true by lia.
  - discriminate Hfirst. left. split; [done|]. split; [|done]. unfold GiB in *. lia.
Qed.

Lemma answer_some n pers k : explain_answer n pers = Some k -> exists rd, places n pers rd.
Proof.
  unfold places, fits_at, explain_answer. intros Hk.
  destruct pers; repeat case_bool_decide; try done;
    [exists ("reg-3", "dev-3") | exists ("reg-1", "dev-1") | exists ("reg-2", "dev-2")]; auto 7.
Qed.

Lemma best_is_first n pers rd :
  places n pers rd -> (forall rd', places n pers rd' -> ranks rd' rd = false) ->
  places n pers ("reg-1", "dev-1") -> rd = ("reg-1", "dev-1").
Proof.
  intros Hrd Hbest Hfirst. destruct demo_ranks as (R12 & R13 & _). specialize (Hbest _ Hfirst).
  destruct Hrd as [[-> _] | [[-> _] | [-> _]]]; [reflexivity | congruence | congruence].
Qed.

Lemma explain_verdict n c pers :
  verdict_text (select demo (explained n c pers None)) =
  match explain_answer n pers with
  | Some r => "outcome ok=true chosen_pool=p-1 chosen_region=" +:+ r +:+ nl
  | None => "outcome ok=false" +:+ nl
  end.
Proof.
  destruct demo_ranks as (_ & _ & Hid & Hreg).
  pose proof (build_selection_ok_iff (state_ demo) (explained n c pers None)) as Hiff.
  pose proof (build_selection_chosen (state_ demo) (explained n c pers None)) as Hch.
  unfold verdict_text, select. change (selection_snapshot demo) with (state_ demo).
  destruct (out_ok (build_selection (state_ demo) (explained n c pers None))) eqn:Hok.
  - destruct (Hch eq_refl) as (p & r & d & -> & Hpl & Hmin).
    apply demo_placement in Hpl as (rd & -> & -> & -> & Hrd).
    assert (forall rd', places n pers rd' -> ranks rd' rd = false) as Hbest.
    { intros rd' H. apply Hmin, demo_placement. exists rd'.
      exact (conj eq_refl (conj eq_refl (conj eq_refl H))). }
    rewrite (answer_of_best n pers rd Hrd (best_is_first n pers rd Hrd Hbest)).
    cbn [candidate_of cand_pool cand_region]. rewrite Hid, Hreg; [reflexivity|].
    destruct Hrd as [[-> _] | [[-> _] | [-> _]]]; cbn [fst]; repeat constructor.
  - assert (explain_answer n pers = None) as ->; [|reflexivity].
    destruct (explain_answer n pers) as [k|] eqn:Hk; [exfalso | reflexivity].
    destruct (answer_some n pers k Hk) as [rd Hrd].
    enough (false = true) as Hbad by discriminate Hbad. apply Hiff. exists demo_pool, (demo_region rd.1), (demo_device rd.2).
    apply demo_placement. exists rd. exact (conj eq_refl (conj eq_refl (conj eq_refl Hrd))).
Qed.

(** [explain] names the right region. For every command line whose numbers convert and
    that does not restrict the locality, the tool exits with 0 and its last line is the
    right verdict on the synthetic topology: the 16 GiB region on the same host whenever
    the request fits it, else the 64 GiB region, else none; with --persistent the 8 GiB
    persistent region, or none. A number that does not convert (not a number, or beyond 64
    bits) ends the program with an exception. *)
Theorem explain_places os argv :
  match explain_request argv with
  | None => cli_main os ("explain" :: argv) = None
  | Some req =>
      req_minimum_locality req = None ->
      exists text, cli_main os ("explain" :: argv) =
        Some (text +:+
              match explain_answer (req_bytes req) (req_require_persistence req) with
              | Some r => "outcome ok=true chosen_pool=p-1 chosen_region=" +:+ r +:+ nl
              | None => "outcome ok=false" +:+ nl
              end, 0)
  end.
Proof.
  destruct (explain_request argv) as [req|] eqn:Hreq.
  - intros Hloc. destruct (explain_shape argv req Hreq) as (n & c & pers & loc & -> & Hn).
    cbn in Hloc. subst loc. cbn [req_bytes req_require_persistence explained].
    rewrite <- (explain_verdict n c pers).
    exists (lines (candidate_text <$> out_candidates (select demo (explained n c pers None)))).
    cbn [cli_main String.eqb Ascii.eqb Bool.eqb]. unfold cmd_explain. rewrite Hreq. reflexivity.
  - cbn [cli_main String.eqb Ascii.eqb Bool.eqb]. unfold cmd_explain. rewrite Hreq. reflexivity.
Qed.

Lemma explain_places_witness :
  exists text,
    cli_main (create_system_backend [] None (fun _ => "")) ["explain"; "--bytes"; "20000000000"] =
    Some (text +:+ "outcome ok=true chosen_pool=p-1 chosen_region=reg-2" +:+ nl, 0).
Proof.
  pose proof (explain_places (create_system_backend [] None (fun _ => "")) ["--bytes"; "20000000000"]) as H.
  assert (explain_request ["--bytes"; "20000000000"] =
          Some (explained 20000000000 (mkId "gpu0") false None)) as Hreq by (vm_compute; reflexivity).
  rewrite Hreq in H. exact (H eq_refl).
Defined.
