(* ===== verification/Cycles.v ===== *)
(** * Reserve, commit, release

    The whole cycle of a reservation: that the two later steps cannot fail when nothing
    comes between, and that the books are afterwards exactly what they were. *)
From S2P Require Import Prelude.
From S2P Require Import Identity.
From S2P Require Import Enums.
From S2P Require Import Accounting.
From S2P Require Import Records.
From S2P Require Import Selection.
From S2P Require Import Fabric.
From S2P Require Import Synthetic.
From S2P Require Import SelectionProps.
From S2P Require Import Ledger.
From S2P Require Import LedgerRefinement.
From S2P Require Import Reservations.
From S2P Require Import Invariants.
From S2P Require Import CapacitySafety.

(** A region whose accounts are 64-bit values with a 64-bit sum. The engine keeps no
    more of a region: [update_region] takes the accounts from its caller. *)
Definition region_sane (r : CxlRegion) : Prop :=
  in_u64 (reg_region_capacity_bytes r) /\ 0 <= reg_reserved_bytes r /\ 0 <= reg_committed_bytes r /\
  reg_reserved_bytes r + reg_committed_bytes r <= UINT64_MAX.

#[export] Instance region_sane_dec r : Decision (region_sane r).
Proof. apply _. Defined.

(** The state after a cycle: one more reservation, which is released. *)
Definition cycled (f : Fabric) (res : Reservation) : Fabric :=
  mkFabric
    (st_with_reservations (state_ f)
       (<[res_id res := released_reservation (committed_reservation f res)]> (st_reservations (state_ f))))
    (sequence_ f + 1).

Lemma cycled_pools f m n :
  st_pools (state_ (mkFabric (st_with_reservations (state_ f) m) n)) = st_pools (state_ f).
Proof. reflexivity. Qed.

Lemma region_room r n :
  region_sane r -> 0 < n <= region_free r ->
  reg_reserved_bytes r + reg_committed_bytes r + n <= UINT64_MAX.
Proof.
  unfold region_sane, in_u64, region_free. intros (Hc & Hr & Hm & Hs) Hn.
  rewrite add64_small in Hn by lia. case_bool_decide; [lia|].
  rewrite sub64_small in Hn by lia. lia.
Qed.

Lemma reg_account_id r : reg_set_account r (reg_reserved_bytes r) (reg_committed_bytes r) = r.
Proof. by destruct r. Qed.
Lemma pool_account_id p : pool_set_account p (pool_reserved_bytes p) (pool_committed_bytes p) = p.
Proof. by destruct p. Qed.
Lemma reg_account_twice r a b c d : reg_set_account (reg_set_account r a b) c d = reg_set_account r c d.
Proof. done. Qed.
Lemma pool_account_twice p a b c d : pool_set_account (pool_set_account p a b) c d = pool_set_account p c d.
Proof. done. Qed.

(** ** The two later steps *)

Section Cycle.
Context (f : Fabric) (req : AdmissionRequest) (ctx : AuthorityContext) (p : CxlPool) (r : CxlRegion)
  (d : CxlDevice).
Context (Hinv : fabric_inv f) (Hseq : sequence_ f < UINT64_MAX).
Context (Hres : reservable f req ctx p r d) (Hpl : placement (state_ f) req p r d).
Context (Hn : 0 < req_bytes req) (Hr : region_sane r).

Let n := req_bytes req.
Let res := reservation_for f req ctx p r d.
Let f1 := after_reserve f p r res.

Lemma cycle_room :
  0 <= pool_reserved_bytes p /\ 0 <= pool_committed_bytes p /\
  pool_reserved_bytes p + pool_committed_bytes p + n <= UINT64_MAX /\
  reg_reserved_bytes r + reg_committed_bytes r + n <= UINT64_MAX /\ 0 < n.
Proof.
  destruct (placement_lookup f req p r d (inv_keys f Hinv) Hpl) as (Hp & _ & _).
  pose proof (inv_account f Hinv _ p Hp) as Ha. destruct Hres as [_ _ _ _ Hroom].
  rewrite (pool_free_exact p Ha) in Hroom.
  destruct Hpl as (_ & _ & _ & _ & Hadm). pose proof (adm_capacity _ _ _ _ _ _ Hadm) as Hc.
  pose proof (region_room r n Hr (conj Hn Hc)).
  unfold account_ok, ac_free, ac_used, CAPACITY_BOUND, UINT64_MAX in *. simpl in *. subst n. lia.
Qed.

Lemma cycle_committable :
  committable f1 (res_id res) ctx res (charge_pool p n) (charge_region r n) d.
Proof.
  destruct (placement_lookup f req p r d (inv_keys f Hinv) Hpl) as (Hp & Hrg & Hd).
  pose proof (next_reservation_fresh f Hinv Hseq) as Hfresh. destruct cycle_room as (? & ? & ? & ? & ?).
  destruct Hres as [He _ _ _ _].
  split; cbn [f1 after_reserve state_ st_reservations st_pools st_regions st_devices res reservation_for
    res_id res_state res_pool res_region res_device res_bytes res_pool_generation res_region_generation
    res_device_generation res_created_epoch res_worker_boot_id].
  - rewrite Hfresh. apply lookup_insert_eq.
  - reflexivity.
  - by split.
  - by right.
  - split; [apply lookup_insert_eq | reflexivity].
  - split; [apply lookup_insert_eq | reflexivity].
  - by split.
  - cbn [charge_pool pool_set_account pool_reserved_bytes]. rewrite add64_small by lia. lia.
Qed.

Lemma cycle_commit :
  commit f1 (res_id res) ctx =
  (mkReserveOutcome true DecisionReason_OK (committed_reservation f res),
   after_commit f1 (res_id res) res (charge_pool p n) (charge_region r n)).
Proof.
  destruct (commit_cases f1 (res_id res) ctx) as
    [(why & _ & _ & Hno) | (res' & p' & r' & d' & [Hf' _ _ _ [Hp' _] [Hr' _] _ _] & ->)].
  { destruct (Hno _ _ _ _ cycle_committable). }
  destruct cycle_committable as [Hf1 _ _ _ [Hp1 _] [Hr1 _] _ _].
  rewrite Hf1 in Hf'. injection Hf' as <-. rewrite Hp1 in Hp'. injection Hp' as <-.
  rewrite Hr1 in Hr'. by injection Hr' as <-.
Qed.

Let f2 := after_commit f1 (res_id res) res (charge_pool p n) (charge_region r n).

(** Half way: the bytes are committed, everything else is as it was. *)
Lemma cycle_half :
  let s := state_ f in
  let pools := <[pool_id p := pool_set_account p (pool_reserved_bytes p) (pool_committed_bytes p + n)]>
                 (st_pools s) in
  f2 = mkFabric
    (mkSnapshot (st_coordinator_epoch s) (st_policy_generation s) (st_devices s)
       (<[reg_id r := reg_set_account r (reg_reserved_bytes r) (reg_committed_bytes r + n)]>
          (st_regions s)) pools
       (<[res_id res := committed_reservation f res]> (st_reservations s))
       (st_evidence_generation s) (global_ledger_of pools)) (sequence_ f + 1).
Proof.
  pose proof (next_reservation_fresh f Hinv Hseq) as Hfresh. destruct cycle_room as (? & ? & ? & ? & ?).
  pose proof Hr as (_ & ? & ? & _).
  change (res_id res) with (reservation_name (add64 (sequence_ f) 1)) in *.
  unfold f2, f1, after_commit, after_reserve.
  cbn [state_ st_coordinator_epoch st_policy_generation st_devices st_regions st_pools st_reservations
    st_evidence_generation sequence_ res reservation_for res_bytes res_pool res_region res_id].
  fold n. rewrite Hfresh, !insert_insert_eq, (next_sequence f Hinv Hseq).
  cbn [charge_pool charge_region pool_set_account reg_set_account pool_reserved_bytes pool_committed_bytes
    reg_reserved_bytes reg_committed_bytes].
  rewrite !add64_small, !sub64_small, !Z.add_simpl_r by lia. reflexivity.
Qed.

Lemma cycle_release :
  release f2 (res_id res) ctx =
  (mkReserveOutcome true DecisionReason_OK (released_reservation (committed_reservation f res)), cycled f res).
Proof.
  destruct (placement_lookup f req p r d (inv_keys f Hinv) Hpl) as (Hp & Hrg & Hd).
  destruct cycle_room as (? & ? & ? & ? & ?). pose proof Hr as (_ & ? & ? & _).
  assert (fabric_inv f2) as Hinv2.
  { assert (f2 = (commit f1 (res_id res) ctx).2) as -> by by rewrite cycle_commit.
    apply commit_ok. assert (f1 = (reserve f req ctx).2) as ->.
    { destruct (reserve_cases f req ctx (inv_keys f Hinv)) as
        [(why & _ & _ & Hno) | (p' & r' & d' & Hres' & _ & _ & _ & ->)]; [destruct (Hno p r d Hres)|].
      pose proof (rs_chosen _ _ _ _ _ _ Hres) as Hch. rewrite (rs_chosen _ _ _ _ _ _ Hres') in Hch.
      assert (p' = p /\ r' = r) as [-> ->] by (unfold candidate_of in Hch; split; congruence).
      assert (d' = d) as -> by (unfold candidate_of in Hch; congruence). reflexivity. }
    apply reserve_ok; [done|]. split; [subst n; lia | done]. }
  assert (st_reservations (state_ f2) !! res_id res = Some (committed_reservation f res)) as Hf2.
  { rewrite cycle_half. apply lookup_insert_eq. }
  destruct (release_cases f2 (res_id res) ctx Hinv2) as
    [[_ Hno] | (res' & p' & Hres' & _ & _ & Hp' & _ & ->)].
  { specialize (Hno (rs_epoch _ _ _ _ _ _ Hres) _ Hf2). discriminate. }
  rewrite Hf2 in Hres'. injection Hres' as <-. rewrite cycle_half in Hp' |- *.
  cbn [state_ st_pools] in Hp'. rewrite lookup_insert_eq in Hp'. injection Hp' as <-.
  f_equal. unfold after_release, cycled, release_region, st_with_reservations.
  cbn [state_ st_coordinator_epoch st_policy_generation st_devices st_regions st_pools st_reservations
    st_evidence_generation sequence_ committed_reservation res_set_state res reservation_for res_bytes
    res_pool res_region res_id pool_set_account pool_reserved_bytes pool_committed_bytes].
  fold n. rewrite lookup_insert_eq.
  cbn [reg_set_account reg_reserved_bytes reg_committed_bytes].
  rewrite account_release_exact by lia. rewrite !Z.min_l by lia.
  rewrite !insert_insert_eq, Z.sub_diag, !Z.sub_0_r, !Z.add_simpl_r.
  rewrite reg_account_twice, reg_account_id, pool_account_twice, pool_account_id, !insert_id by done.
  by rewrite <- (inv_global f Hinv).
Qed.
End Cycle.

(** ** The cycle *)

Lemma cycle_steps f req ctx :
  fabric_inv f -> sequence_ f < UINT64_MAX -> 0 <= req_bytes req ->
  map_Forall (fun _ r => region_sane r) (st_regions (state_ f)) ->
  ro_ok (reserve f req ctx).1 = true ->
  exists res f1 f2,
    reserve f req ctx = (mkReserveOutcome true DecisionReason_OK res, f1) /\
    commit f1 (res_id res) ctx =
      (mkReserveOutcome true DecisionReason_OK (committed_reservation f res), f2) /\
    release f2 (res_id res) ctx =
      (mkReserveOutcome true DecisionReason_OK (released_reservation (committed_reservation f res)),
       cycled f res) /\
    res_id res = reservation_name (sequence_ f + 1) /\
    st_reservations (state_ f) !! res_id res = None.
Proof.
  intros Hinv Hseq Hn Hsane Hok.
  destruct (reserve_cases f req ctx (inv_keys f Hinv)) as
    [(why & _ & Hno & _) | (p & r & d & Hres & Hpl & Hp & Hr & ->)]; [rewrite Hno in Hok; discriminate|].
  pose proof (rs_bytes _ _ _ _ _ _ Hres). pose proof (Hsane _ _ Hr) as Hrs.
  eexists _, _, _. split; [reflexivity|].
  split; [apply cycle_commit; by (done || lia)|]. split; [apply cycle_release; by (done || lia)|].
  split; [cbn; by rewrite (next_sequence f Hinv Hseq)|]. by apply next_reservation_fresh.
Qed.

(** C8. A cycle is exact. In every reachable state whose regions have sane accounts, when a
    request is granted the reservation can be committed and then released by the same
    caller, whoever else holds capacity: nothing that was granted is refused later. The
    state is then exactly the one before, every account of every pool and region and the
    global ledger included; only the reservation is added, as released, under the next
    name. *)
Theorem cycle_restores f req ctx :
  reachable op_wf f -> sequence_ f < UINT64_MAX -> 0 <= req_bytes req ->
  map_Forall (fun _ r => region_sane r) (st_regions (state_ f)) ->
  ro_ok (reserve f req ctx).1 = true ->
  let '(ro, f1) := reserve f req ctx in
  let rid := res_id (ro_reservation ro) in
  let '(co, f2) := commit f1 rid ctx in
  let '(rr, f3) := release f2 rid ctx in
  ro_ok co = true /\ ro_ok rr = true /\ rid = reservation_name (sequence_ f + 1) /\
  st_reservations (state_ f) !! rid = None /\
  res_state (ro_reservation rr) = ResumeState_RELEASED /\
  f3 = mkFabric (st_with_reservations (state_ f)
                   (<[rid := ro_reservation rr]> (st_reservations (state_ f)))) (sequence_ f + 1).
Proof.
  intros Hf Hseq Hn Hsane Hok.
  destruct (cycle_steps f req ctx (reachable_inv f Hf) Hseq Hn Hsane Hok) as
    (res & f1 & f2 & -> & Hc & Hr & Hid & Hfresh).
  cbn [ro_reservation]. rewrite Hc, Hr. by split_and!.
Qed.

Lemma cycle_restores_witness :
  ro_ok (reserve demo_reserved demo_request demo_ctx).1 = true /\
  st_pools (state_ (release (commit (reserve demo_reserved demo_request demo_ctx).2 (mkId "res-2") demo_ctx).2
              (mkId "res-2") demo_ctx).2) = st_pools (state_ demo_reserved).
Proof.
  assert (ro_ok (reserve demo_reserved demo_request demo_ctx).1 = true) as Hok by (by vm_compute).
  split; [exact Hok|].
  assert (map_Forall (fun _ r => region_sane r) (st_regions (state_ demo_reserved))) as Hs.
  { refine (bool_decide_unpack _ _). vm_compute. exact I. }
  assert (sequence_ demo_reserved < UINT64_MAX) as Hseq by (by vm_compute).
  assert (0 <= req_bytes demo_request) as Hn by (vm_compute; discriminate).
  pose proof (cycle_restores demo_reserved demo_request demo_ctx (plain_wf _ demo_reserved_reachable)
                Hseq Hn Hs Hok) as H.
  destruct (reserve demo_reserved demo_request demo_ctx) as [ro f1] eqn:Hro. cbn [fst snd] in *.
  assert (res_id (ro_reservation ro) = mkId "res-2") as Hid.
  { change ro with (ro, f1).1. rewrite <- Hro. by vm_compute. }
  cbv zeta in H. rewrite Hid in H.
  destruct (commit f1 (mkId "res-2") demo_ctx) as [co f2]. cbn [snd].
  destruct (release f2 (mkId "res-2") demo_ctx) as [rr f3]. cbn [snd].
  destruct H as (_ & _ & _ & _ & _ & ->). apply cycled_pools.
Defined.
