(* ===== verification/Examples.v ===== *)
(** * The example programs ([examples]) and the benchmark ([benchmarks])

    Each example builds a topology with the operations of the engine, checks what they
    answer and prints one line; the result of its [main] is its text with the exit code,
    or nothing where the code would follow a null pointer or an exception would end it. Of
    the benchmark the operations are modelled, not the clock. *)
From S2P Require Import Prelude.
From S2P Require Import Identity.
From S2P Require Import Enums.
From S2P Require Import Accounting.
From S2P Require Import Records.
From S2P Require Import Selection.
From S2P Require Import Fabric.
From S2P Require Import Synthetic.
From S2P Require Import SelectionProps.
From S2P Require Import Ledger.
From S2P Require Import LedgerRefinement.
From S2P Require Import Reservations.
From S2P Require Import Invariants.
From S2P Require Import CapacitySafety.
From S2P Require Import ReservationProps.
From S2P Require Import Cycles.
From S2P Require Import Crc.
From S2P Require Import Protocol.
From S2P Require Import Readers.
From S2P Require Import Codec.
From S2P Require Import Persistence.
From S2P Require Import Args.
From S2P Require Import Discovery.
From S2P Require Import Cli.

(** ** Set-up *)

Definition new_fabric : Fabric := fabric_init (mkGen 1) (mkGen 1).

Definition example_context (f : Fabric) : AuthorityContext :=
  mkContext (epoch f) (policy_generation f) id_default (mkGen 1).

(** A dedicated volatile device of generation 1. *)
Definition example_device (id boot host : string) (bytes : Z) (loc : LocalityClass)
    (latency bandwidth hops : Z) (fd : string) : CxlDevice :=
  make_device (mkId id) (mkGen 1) (mkId boot) (mkId host) bytes VolatilityKind_VOLATILE
    SharingMode_DEDICATED loc latency bandwidth hops fd.

Definition example_member (id : string) (bytes : Z) (fd : string) (loc : LocalityClass) : PoolMember :=
  mkMember (mkId id) (mkGen 1) bytes true true fd loc.

Definition example_pool (members : list PoolMember) : CxlPool :=
  make_pool (mkId "p-1") (mkGen 1) members.

Definition example_region (id device : string) (bytes : Z) (loc : LocalityClass) (tier : TierClass)
    : CxlRegion :=
  make_region (mkId id) (mkGen 1) (mkId "p-1") [mkId device] bytes loc tier RegionState_ONLINE.

(** A text and an exit code. *)
Definition fails (text : string) : option (string * Z) := Some ("FAIL: " +:+ text +:+ nl, 1).
Definition passes (name : string) : option (string * Z) := Some ("PASS: " +:+ name +:+ nl, 0).
Definition after_text (text : string) (r : option (string * Z)) : option (string * Z) :=
  (fun tc => (text +:+ tc.1, tc.2)) <$> r.

Definition error_lines (errors : list string) : string :=
  lines ((fun e => "  " +:+ e +:+ nl) <$> errors).

(** ** [basic_discovery] *)

Definition basic_discovery (os : SystemBackend) : option (string * Z) :=
  let sr := discover os in
  let yr := discover create_synthetic_backend in
  after_text
    ("system backend: cxl_memory_supported=" +:+ true_false (disc_cxl_memory_supported sr) +:+
     " host=" +:+ id_str (disc_host_id sr) +:+ nl +:+ error_lines (disc_notes sr) +:+
     "synthetic backend: devices=" +:+ to_string_u64 (Z.of_nat (length (disc_devices yr))) +:+
     " provenance=" +:+ enum_to_string (disc_provenance yr) +:+ nl)
    (match disc_devices yr with
     | [] => fails "synthetic backend produced no devices"
     | _ :: _ => passes "basic_discovery"
     end).

(** ** [capacity_accounting] *)

Definition capacity_accounting : option (string * Z) :=
  let line := mkLine (2 ^ 40) (2 ^ 40) 0 0 0 0 in
  match line_audit line with
  | Some err => fails ("audit " +:+ err)
  | None =>
    let '(r1, line) := line_reserve line (2 ^ 30 * 4) in
    let '(r2, line) := line_reserve line (2 ^ 30 * 2) in
    let '(r3, line) := line_commit line (2 ^ 30 * 4) in
    let '(r4, line) := line_release line (2 ^ 30 * 2) in
    let '(over, line) := line_reserve line (2 ^ 50) in
    after_text
      ("free=" +:+ to_string_u64 (line_free line) +:+ " reserved=" +:+ to_string_u64 (reserved line) +:+
       " committed=" +:+ to_string_u64 (committed line) +:+ nl)
      (if negb (r1 && r2 && r3 && r4) || over then fails "accounting ops"
       else match line_audit line with
            | Some err => fails ("audit " +:+ err)
            | None => passes "capacity_accounting"
            end)
  end.

(** ** [failover_selection] *)

Definition failover_selection : option (string * Z) :=
  let f := new_fabric in
  let ctx := example_context f in
  let f := (register_device f (example_device "d1" "b1" "host-fs" (16 * GiB) LocalityClass_SAME_HOST
              200 16000 1 "fd-a") ctx).2 in
  let f := (register_device f (example_device "d2" "b2" "host-fs" (24 * GiB) LocalityClass_SAME_CXL_ROOT
              300 20000 2 "fd-b") ctx).2 in
  let f := (create_pool f (example_pool
              [example_member "d1" (16 * GiB) "fd-a" LocalityClass_SAME_HOST;
               example_member "d2" (24 * GiB) "fd-b" LocalityClass_SAME_CXL_ROOT]) ctx).2 in
  let f := (create_region f (example_region "r1" "d1" (16 * GiB) LocalityClass_SAME_HOST
              TierClass_CXL_NEAR) ctx).2 in
  let f := (create_region f (example_region "r2" "d2" (24 * GiB) LocalityClass_SAME_CXL_ROOT
              TierClass_CXL_CAPACITY) ctx).2 in
  let req := request_for GiB (mkId "svc") in
  let f := (mark_device_revalidation f (mkId "d1") ctx).2 in
  let fp := plan_failover f (mkId "p-1") (mkId "d1") req in
  after_text ("outcome=" +:+ enum_to_string (plan_outcome fp) +:+ " note=" +:+ plan_note fp +:+ nl)
    (if negb (bool_decide (plan_outcome fp = FailoverOutcome_FAILOVER))
        && negb (bool_decide (plan_outcome fp = FailoverOutcome_REJECT))
     then fails "unexpected failover" else passes "failover_selection").

(** ** [locality_policy] *)

Definition locality_policy : option (string * Z) :=
  let f := new_fabric in
  let ctx := example_context f in
  let f := (register_device f (example_device "d1" "b1" "host-loc" (16 * GiB)
              LocalityClass_REMOTE_NUMA_DOMAIN 350 20000 2 "fd-x") ctx).2 in
  let f := (create_pool f (example_pool
              [example_member "d1" (16 * GiB) "fd-x" LocalityClass_REMOTE_NUMA_DOMAIN]) ctx).2 in
  let f := (create_region f (example_region "r1" "d1" (16 * GiB) LocalityClass_REMOTE_NUMA_DOMAIN
              TierClass_CXL_CAPACITY) ctx).2 in
  let req := request_for (4 * GiB) (mkId "svc") in
  if out_ok (select f (req_set_locality req LocalityClass_SAME_NUMA_DOMAIN))
  then fails "REMOTE_NUMA satisfied SAME_NUMA requirement"
  else if negb (out_ok (select f (req_set_locality req LocalityClass_REMOTE_NUMA_DOMAIN)))
  then fails "REMOTE_NUMA should satisfy itself"
  else passes "locality_policy".

(** ** [persistence_recovery] *)

(** [bad[bad.size() / 2] ^= 0xFF]. *)
Definition corrupt_middle (payload : bytes) : bytes :=
  alter (fun b => Z.lxor b 255) (length payload / 2)%nat payload.

Definition persistence_recovery : option (string * Z) :=
  let f := new_fabric in
  let ctx := example_context f in
  let f := (register_device f (example_device "d1" "b1" "host-pr" (16 * GiB) LocalityClass_SAME_HOST
              200 16000 1 "fd") ctx).2 in
  let f := (create_pool f (example_pool
              [example_member "d1" (16 * GiB) "fd" LocalityClass_SAME_HOST]) ctx).2 in
  match serialize_state (export_persisted f) with
  | inl err => fails ("serialize " +:+ err)
  | inr payload =>
    match deserialize_state payload with
    | Fault => None
    | Refused err => fails ("deserialize " +:+ err)
    | Got st2 _ =>
      if negb (bool_decide (size (ps_pools st2) = 1%nat)) || negb (bool_decide (size (ps_devices st2) = 1%nat))
      then fails "round-trip counts"
      else match deserialize_state (corrupt_middle payload) with
           | Fault => None
           | Got _ _ => fails "corrupted payload accepted"
           | Refused _ => passes "persistence_recovery"
           end
    end
  end.

(** ** [pool_selection] *)

Definition pool_selection_mk (f : Fabric) (ctx : AuthorityContext) : Fabric :=
  let f := (register_device f (example_device "near" "b-near" "host-se" (8 * GiB) LocalityClass_SAME_HOST
              180 32000 1 "fd-a") ctx).2 in
  let f := (register_device f (example_device "far" "b-far" "host-se" (64 * GiB) LocalityClass_SWITCH_REMOTE
              500 12000 4 "fd-b") ctx).2 in
  let f := (create_pool f (example_pool
              [example_member "near" (8 * GiB) "fd-a" LocalityClass_SAME_HOST;
               example_member "far" (64 * GiB) "fd-b" LocalityClass_SWITCH_REMOTE]) ctx).2 in
  let f := (create_region f (example_region "r-near" "near" (8 * GiB) LocalityClass_SAME_HOST
              TierClass_CXL_NEAR) ctx).2 in
  (create_region f (example_region "r-far" "far" (64 * GiB) LocalityClass_SWITCH_REMOTE
     TierClass_CXL_CAPACITY) ctx).2.

Definition pool_selection : option (string * Z) :=
  let f := pool_selection_mk new_fabric (example_context new_fabric) in
  let so := select f (request_for (4 * GiB) (mkId "svc")) in
  if negb (out_ok so) then fails "no selection"
  else
    dev ← cand_device_record (out_chosen so);
    after_text
      ("selected " +:+ id_str (cand_region (out_chosen so)) +:+ " (locality " +:+
       enum_to_string (econ_locality (dev_economics dev)) +:+ ")" +:+ nl)
      (if negb (bool_decide (cand_region (out_chosen so) = mkId "r-near"))
       then fails "expected nearest region r-near"
       else
         let so2 := select f (request_for (24 * GiB) (mkId "svc")) in
         if negb (out_ok so2) then fails "no selection for large"
         else if negb (bool_decide (cand_region (out_chosen so2) = mkId "r-far"))
         then fails "expected far region for large request"
         else passes "pool_selection").

(** ** [reservation_lifecycle] *)

Definition reservation_lifecycle_mk (host : string) (f : Fabric) (ctx : AuthorityContext) : Fabric :=
  let f := (register_device f (example_device "d1" "b1" host (16 * GiB) LocalityClass_SAME_HOST
              200 16000 1 "fd") ctx).2 in
  let f := (create_pool f (example_pool
              [example_member "d1" (16 * GiB) "fd" LocalityClass_SAME_HOST]) ctx).2 in
  (create_region f (example_region "r1" "d1" (16 * GiB) LocalityClass_SAME_HOST
     TierClass_CXL_NEAR) ctx).2.

Definition reservation_lifecycle_main : option (string * Z) :=
  let ctx := example_context new_fabric in
  let f := reservation_lifecycle_mk "host-r" new_fabric ctx in
  let '(ro, f) := reserve f (request_for (4 * GiB) (mkId "svc")) ctx in
  let state_of o := res_state (ro_reservation o) in
  if negb (ro_ok ro) then fails "reserve"
  else if negb (bool_decide (state_of ro = ResumeState_RESERVED)) then fails "not reserved"
  else
    let '(co, f) := commit f (res_id (ro_reservation ro)) ctx in
    if negb (ro_ok co) then fails "commit"
    else if negb (bool_decide (state_of co = ResumeState_COMMITTED)) then fails "not committed"
    else
      let '(rr, f) := release f (res_id (ro_reservation ro)) ctx in
      if negb (ro_ok rr) then fails "release"
      else if negb (bool_decide (state_of rr = ResumeState_RELEASED)) then fails "not released"
      else
        let ar := audit f in
        after_text
          ("audit_ok=" +:+ true_false (rep_ok ar) +:+ " free=" +:+
           to_string_u64 (line_free (rep_global_ledger ar)) +:+ nl)
          (if negb (rep_ok ar) then Some (error_lines (rep_errors ar), 1)
           else passes "reservation_lifecycle").

(** ** [stale_generation] *)

Definition stale_generation : option (string * Z) :=
  let ctx := example_context new_fabric in
  let f := reservation_lifecycle_mk "host-sg" new_fabric ctx in
  let '(ro, f) := reserve f (request_for (4 * GiB) (mkId "svc")) ctx in
  if negb (ro_ok ro) then fails "reserve"
  else
    let m := mkMember (mkId "d2") (mkGen 1) (8 * GiB) true true "fd2" (mem_locality member_default) in
    let f := (register_device f (example_device "d2" "b2" "host-sg" (8 * GiB) LocalityClass_SAME_HOST
                210 15000 1 "fd2") ctx).2 in
    let f := (add_pool_member f (mkId "p-1") m ctx).2 in
    let '(co, f) := commit f (res_id (ro_reservation ro)) ctx in
    if ro_ok co then fails "stale pool-generation commit succeeded"
    else if negb (bool_decide (ro_reason co = DecisionReason_POOL_GENERATION_STALE))
    then fails ("wrong reason " +:+ enum_to_string (ro_reason co))
    else passes "stale_generation".

(** ** [synthetic_cxl_pool] *)

Definition synthetic_cxl_pool : option (string * Z) :=
  let ctx := example_context new_fabric in
  let f := foldl (fun f d => (register_device f d ctx).2) new_fabric (baseline_devices (mkId "host-scp")) in
  let f := (create_pool f (example_pool
              [mk_member "dev-1" (16 * GiB) "fd-a"; mk_member "dev-2" (64 * GiB) "fd-b";
               mk_member "dev-3" (8 * GiB) "fd-a"]) ctx).2 in
  got ← st_pools (snapshot f) !! mkId "p-1";
  let expect := (16 + 64 + 8) * 1024 * 1024 * 1024 in
  after_text
    ("pool_total=" +:+ to_string_u64 (pool_total_governed_bytes got) +:+ " expected=" +:+
     to_string_u64 expect +:+ nl)
    (if negb (pool_total_governed_bytes got =? expect) then fails "pool capacity mismatch"
     else
       let ar := audit f in
       if negb (rep_ok ar) then Some (error_lines (rep_errors ar), 1) else passes "synthetic_cxl_pool").

(** ** The benchmark *)

Definition bench_context : AuthorityContext := example_context new_fabric.

Definition bench_fabric : Fabric :=
  let ctx := bench_context in
  let f := foldl (fun f d => (register_device f d ctx).2) new_fabric (baseline_devices (mkId "host-bench")) in
  let f := (create_pool f (example_pool
              [example_member "dev-1" (16 * GiB) "fd-a" LocalityClass_SAME_HOST;
               example_member "dev-2" (64 * GiB) "fd-b" LocalityClass_REMOTE_NUMA_DOMAIN]) ctx).2 in
  let f := (create_region f (example_region "r1" "dev-1" (16 * GiB) LocalityClass_SAME_HOST
              TierClass_CXL_NEAR) ctx).2 in
  (create_region f (example_region "r2" "dev-2" (64 * GiB) LocalityClass_REMOTE_NUMA_DOMAIN
     TierClass_CXL_REMOTE) ctx).2.

Definition bench_request : AdmissionRequest := request_for (2 ^ 30) (mkId "svc").

(** One turn of the loop that reserves, commits and releases; the identities are
    collected. *)
Definition bench_cycle (req : AdmissionRequest) (ctx : AuthorityContext)
    (fc : Fabric * list ReservationId) : Fabric * list ReservationId :=
  let '(f, created) := fc in
  let '(ro, f) := reserve f req ctx in
  if ro_ok ro then
    let rid := res_id (ro_reservation ro) in
    let f := (commit f rid ctx).2 in
    let f := (release f rid ctx).2 in
    (f, created ++ [rid])
  else (f, created).

Definition bench_cycles (n : nat) (f : Fabric) (req : AdmissionRequest) (ctx : AuthorityContext)
    : Fabric * list ReservationId :=
  Nat.iter n (bench_cycle req ctx) (f, []).

(** After [n] turns of each loop: the state, the identities, the last serialisation and
    what the audit prints. *)
Definition bench_run (n : nat) : Fabric * list ReservationId * (string + bytes) * string :=
  let '(f, created) := bench_cycles n bench_fabric bench_request bench_context in
  (f, created, serialize_state (export_persisted f),
   "audit_ok=" +:+ true_false (rep_ok (audit f)) +:+ "\n").

(** ** What the examples print *)

(** Every example passes: with the texts below and exit code 0, [basic_discovery] on any
    machine. *)
Theorem examples_pass os :
  (exists text, basic_discovery os = Some (text +:+ "PASS: basic_discovery" +:+ nl, 0)) /\
  capacity_accounting =
    Some ("free=1095216660480 reserved=2147483648 committed=2147483648" +:+ nl +:+
          "PASS: capacity_accounting" +:+ nl, 0) /\
  failover_selection =
    Some ("outcome=FAILOVER note=cross-domain replacement found" +:+ nl +:+
          "PASS: failover_selection" +:+ nl, 0) /\
  locality_policy = Some ("PASS: locality_policy" +:+ nl, 0) /\
  persistence_recovery = Some ("PASS: persistence_recovery" +:+ nl, 0) /\
  pool_selection =
    Some ("selected r-near (locality SAME_HOST)" +:+ nl +:+ "PASS: pool_selection" +:+ nl, 0) /\
  reservation_lifecycle_main =
    Some ("audit_ok=true free=17179869184" +:+ nl +:+ "PASS: reservation_lifecycle" +:+ nl, 0) /\
  stale_generation = Some ("PASS: stale_generation" +:+ nl, 0) /\
  synthetic_cxl_pool =
    Some ("pool_total=94489280512 expected=94489280512" +:+ nl +:+ "PASS: synthetic_cxl_pool" +:+ nl, 0).
Proof.
  split; [eexists; reflexivity|]. split_and!; vm_compute; reflexivity.
Qed.

(** ** The benchmark *)

Definition bench_names (n : nat) : list ReservationId :=
  (fun i => reservation_name (Z.of_nat i)) <$> seq 1 n.

Lemma bench_names_S n : bench_names (S n) = bench_names n ++ [reservation_name (Z.of_nat n + 1)].
Proof.
  unfold bench_names. rewrite seq_S, fmap_app.
  assert (Z.of_nat n + 1 = Z.of_nat (1 + n)) as -> by lia. reflexivity.
Qed.

Lemma bench_names_distinct n : NoDup (bench_names n).
Proof.
  apply NoDup_fmap_2_strong; [|apply NoDup_seq].
  intros i j _ _ H. apply reservation_name_inj in H; lia.
Qed.

(** Whether a request is granted does not depend on the reservations. *)
Lemma grant_ext s m q q' req ctx :
  keys_ok (mkFabric s q) -> keys_ok (mkFabric (st_with_reservations s m) q') ->
  ro_ok (reserve (mkFabric s q) req ctx).1 = true ->
  ro_ok (reserve (mkFabric (st_with_reservations s m) q') req ctx).1 = true.
Proof.
  intros Hk Hk' Hok. destruct (reserve_cases _ req ctx Hk) as
    [(why & _ & H & _) | (p & r & d & [He Hn Hsel Hch Hroom] & _)]; [rewrite H in Hok; discriminate|].
  destruct (reserve_cases _ req ctx Hk') as [(why & _ & _ & Hno) | (? & ? & ? & _ & _ & _ & _ & ->)]; [|done].
  destruct (Hno p r d). by split.
Qed.

Lemma bench_fabric_inv : fabric_inv bench_fabric.
Proof.
  apply reachable_inv, plain_wf.
  assert (bench_fabric = run_ops new_fabric
    (((fun d => OpRegisterDevice d bench_context) <$> baseline_devices (mkId "host-bench")) ++
     [OpCreatePool (example_pool
        [example_member "dev-1" (16 * GiB) "fd-a" LocalityClass_SAME_HOST;
         example_member "dev-2" (64 * GiB) "fd-b" LocalityClass_REMOTE_NUMA_DOMAIN]) bench_context;
      OpCreateRegion (example_region "r1" "dev-1" (16 * GiB) LocalityClass_SAME_HOST
        TierClass_CXL_NEAR) bench_context;
      OpCreateRegion (example_region "r2" "dev-2" (64 * GiB) LocalityClass_REMOTE_NUMA_DOMAIN
        TierClass_CXL_REMOTE) bench_context])) as -> by (by vm_compute).
  apply reachable_run; [constructor|].
  repeat (apply conj || exact I); try done; try (by vm_compute).
  all: repeat constructor; by vm_compute.
Qed.

Lemma bench_regions_sane : map_Forall (fun _ r => region_sane r) (st_regions (state_ bench_fabric)).
Proof. refine (bool_decide_unpack _ _). vm_compute. exact I. Qed.

Lemma bench_granted : ro_ok (reserve bench_fabric bench_request bench_context).1 = true.
Proof. vm_compute. reflexivity. Qed.

#[local] Opaque bench_fabric.

(** What the loop maintains: only reservations and the sequence have changed. *)
Definition bench_state (n : nat) (m : gmap ReservationId Reservation) : Fabric :=
  mkFabric (st_with_reservations (state_ bench_fabric) m) (Z.of_nat n).

Lemma cycled_again s m q res :
  cycled (mkFabric (st_with_reservations s m) q) res =
  mkFabric (st_with_reservations s
    (<[res_id res :=
         released_reservation (committed_reservation (mkFabric (st_with_reservations s m) q) res)]> m)) (q + 1).
Proof. reflexivity. Qed.

Lemma bench_loop n :
  Z.of_nat n < UINT64_MAX ->
  exists m, bench_cycles n bench_fabric bench_request bench_context = (bench_state n m, bench_names n) /\
    fabric_inv (bench_state n m) /\ dom m = list_to_set (bench_names n) /\
    map_Forall (fun _ res => res_state res = ResumeState_RELEASED) m.
Proof.
  induction n as [|n IH]; intros Hn.
  - assert (bench_state 0 (st_reservations (state_ bench_fabric)) = bench_fabric) as Hid
      by (vm_compute; reflexivity).
    assert (st_reservations (state_ bench_fabric) = ∅) as Hnone by (vm_compute; reflexivity).
    exists (st_reservations (state_ bench_fabric)). rewrite Hid. split; [reflexivity|].
    split; [exact bench_fabric_inv|]. rewrite Hnone. split; [apply dom_empty_L | apply map_Forall_empty].
  - destruct IH as (m & Hrun & Hinv & Hdom & Hrel); [lia|].
    assert (ro_ok (reserve (bench_state n m) bench_request bench_context).1 = true) as Hok.
    { pose proof bench_granted as Hg. pose proof bench_fabric_inv as Hb.
      destruct bench_fabric as [s q] eqn:E. unfold bench_state. rewrite E.
      apply (grant_ext s m q); [exact (inv_keys _ Hb)| |exact Hg].
      pose proof (inv_keys _ Hinv) as Hk. unfold bench_state in Hk. by rewrite E in Hk. }
    destruct (cycle_steps (bench_state n m) bench_request bench_context Hinv) as
      (res & f1 & f2 & Hres & Hcom & Hrls & Hid & Hfresh).
    { change (Z.of_nat n < UINT64_MAX). lia. }
    { vm_compute. discriminate. }
    { exact bench_regions_sane. }
    { exact Hok. }
    exists (<[res_id res := released_reservation (committed_reservation (bench_state n m) res)]> m).
    unfold bench_cycles in Hrun |- *. rewrite Nat.iter_succ, Hrun.
    unfold bench_cycle. rewrite Hres. cbn [ro_ok ro_reservation]. rewrite Hcom. cbn [snd]. rewrite Hrls.
    cbn [snd]. rewrite Hid. cbn [bench_state sequence_]. rewrite bench_names_S.
    assert (cycled (bench_state n m) res = bench_state (S n)
      (<[reservation_name (Z.of_nat n + 1) :=
           released_reservation (committed_reservation (bench_state n m) res)]> m)) as Hcycled.
    { unfold bench_state. rewrite cycled_again, Nat2Z.inj_succ. fold (bench_state n m). rewrite Hid.
      change (sequence_ (bench_state n m)) with (Z.of_nat n). exact eq_refl. }
    rewrite <- Hcycled. split; [reflexivity|]. split; [|split].
    + assert (cycled (bench_state n m) res = (release f2 (res_id res) bench_context).2) as -> by by rewrite Hrls.
      apply release_ok. assert (f2 = (commit f1 (res_id res) bench_context).2) as -> by by rewrite Hcom.
      apply commit_ok.
      assert (f1 = (reserve (bench_state n m) bench_request bench_context).2) as -> by by rewrite Hres.
      apply reserve_ok; [exact Hinv|]. split; [vm_compute; discriminate|].
      change (Z.of_nat n < UINT64_MAX). lia.
    + rewrite dom_insert_L, Hdom, list_to_set_app_L. cbn [list_to_set]. rewrite union_empty_r_L. apply union_comm_L.
    + apply map_Forall_insert_2; [reflexivity | exact Hrel].
Qed.

(** The books of the benchmark are exact, however long it runs. For any number n of
    turns below 2^64 - 1: every turn reserves, commits and releases under a name of its
    own, res-1 to res-n; devices, regions, pools and the global ledger are those from before
    the first turn, so that what is serialised does not change either; the reservations are
    all still there, released; and the audit passes. *)
Theorem benchmark_exact n :
  Z.of_nat n < UINT64_MAX ->
  let '(f, created, snap, text) := bench_run n in
  created = bench_names n /\ NoDup created /\
  (exists m, state_ f = st_with_reservations (state_ bench_fabric) m /\
     dom m = list_to_set created /\ map_Forall (fun _ res => res_state res = ResumeState_RELEASED) m) /\
  snap = serialize_state (export_persisted bench_fabric) /\ text = "audit_ok=true\n".
Proof.
  intros Hn. destruct (bench_loop n Hn) as (m & Hrun & _ & Hdom & Hrel).
  unfold bench_run. rewrite Hrun. split; [reflexivity|]. split; [apply bench_names_distinct|].
  split; [by exists m|]. split; [reflexivity|].
  change (audit (bench_state n m)) with (audit bench_fabric). vm_compute. reflexivity.
Qed.

Lemma benchmark_exact_witness :
  exists f snap text, bench_run (Z.to_nat 50000) = (f, bench_names (Z.to_nat 50000), snap, text) /\
    text = "audit_ok=true\n".
Proof.
  assert (Z.of_nat (Z.to_nat 50000) < UINT64_MAX) as Hn by (rewrite Z2Nat.id; vm_compute; reflexivity || discriminate).
  pose proof (benchmark_exact (Z.to_nat 50000) Hn) as H. revert H. generalize (Z.to_nat 50000). intros n H.
  destruct (bench_run n) as [[[f created] snap] text].
  destruct H as (-> & _ & _ & _ & ->). exists f, snap, "audit_ok=true\n". split; reflexivity.
Defined.
